(** * hs-label: the canvas interaction engine of the annotation tool

    A shallow embedding of the TypeScript sources and the properties the
    specification states about them.

    Which sources.  The tree holds several revisions of the same components.
    The embedding follows the revision that works with [selectedIds] and with
    the [locked] flag, the one [src/App.tsx] is written against:
      - [src/App.tsx]                       (history, zoom, delete, alignment),
      - [src/components/Toolbar.tsx] 81-947 (the [CanvasArea] component),
      - [src/unnamed/part_002]              (geometry helpers),
      - [src/unnamed/part_004] 82-160       (types),
      - [src/utils/keyboard.ts]             ([isShortcutPressed]),
      - [src/constants.ts]                  (key map, colours, action names),
      - [src/unnamed/part_000] 1-362        (the rows of the [Sidebar]),
      - [src/components/SettingsModal.tsx]  (shortcut editor and import).

    Numbers.  A JavaScript [number] is modelled as a real number: [+ - *] are
    exact, [/] is [Rdiv] (it agrees with JavaScript only for a nonzero
    divisor), [Math.sqrt], [Math.abs], [Math.min], [Math.max] are [sqrt],
    [Rabs], [Rmin], [Rmax].  Rounding, infinities and NaN are outside the
    model.

    React.  An event handler reads the values of the render it was created in
    and queues state updates; a queued update is either a value or a function
    of the pending state.  A handler is therefore a function of two states,
    the rendered one (read) and the pending one (written). *)

From Stdlib Require Import Reals Lra Lia List String Ascii Bool Arith.
From Stdlib Require Import Sorted Permutation.
Import ListNotations.

Open Scope R_scope.
Open Scope string_scope.

(** ** Types (src/unnamed/part_004) *)

Module Point.
Record t : Type := mk { x : R; y : R }.
End Point.
Abbreviation Point := Point.t.

Inductive ShapeType : Type := shape_rectangle | shape_polygon.

Record Annotation : Type := mkAnnotation {
  id : string;
  label : string;
  type : ShapeType;
  points : list Point;
  color : string;
  visible : bool;
  locked : bool
}.

Inductive ToolType : Type := tool_select | tool_pan | tool_rectangle | tool_polygon.

Module ImageSize.
Record t : Type := mk { width : R; height : R }.
End ImageSize.
Abbreviation ImageSize := ImageSize.t.

Module ViewTransform.
Record t : Type := mk { scale : R; x : R; y : R }.
End ViewTransform.
Abbreviation ViewTransform := ViewTransform.t.

(** ** Geometry helpers (src/unnamed/part_002) *)

Definition screenToImage (x y : R) (transform : ViewTransform) : Point :=
  Point.mk ((x - ViewTransform.x transform) / ViewTransform.scale transform)
           ((y - ViewTransform.y transform) / ViewTransform.scale transform).

Definition imageToScreen (x y : R) (transform : ViewTransform) : Point :=
  Point.mk (x * ViewTransform.scale transform + ViewTransform.x transform)
           (y * ViewTransform.scale transform + ViewTransform.y transform).

Definition getDistance (p1 p2 : Point) : R :=
  sqrt ((Point.x p2 - Point.x p1) ^ 2 + (Point.y p2 - Point.y p1) ^ 2).

(** Comparisons of numbers, as booleans. *)
Definition Rltb (a b : R) : bool := if Rlt_dec a b then true else false.
Definition Rleb (a b : R) : bool := if Rle_dec a b then true else false.
Definition Reqb (a b : R) : bool := if Req_dec_T a b then true else false.

Definition isPointNearVertex (point vertex : Point) (threshold scale : R) : bool :=
  let screenDist :=
    getDistance (Point.mk (Point.x point * scale) (Point.y point * scale))
                (Point.mk (Point.x vertex * scale) (Point.y vertex * scale)) in
  Rltb screenDist threshold.

Definition getDistanceToSegment (p v w : Point) : R :=
  let l2 := (Point.x w - Point.x v) ^ 2 + (Point.y w - Point.y v) ^ 2 in
  if Reqb l2 0 then getDistance p v
  else
    let t := ((Point.x p - Point.x v) * (Point.x w - Point.x v)
              + (Point.y p - Point.y v) * (Point.y w - Point.y v)) / l2 in
    let t := Rmax 0 (Rmin 1 t) in
    let projection :=
      Point.mk (Point.x v + t * (Point.x w - Point.x v))
               (Point.y v + t * (Point.y w - Point.y v)) in
    getDistance p projection.

(** [points[i]]: every index the sources read is below the length, the
    default is never returned. *)
Definition pointAt (points : list Point) (i : nat) : Point :=
  nth i points (Point.mk 0 0).

(** The [for] loop of [calculatePolygonArea], with its two updates of [area]
    per iteration. *)
Definition shoelaceSum (points : list Point) : R :=
  let n := List.length points in
  fold_left
    (fun area i =>
       let j := ((i + 1) mod n)%nat in
       let area := area + Point.x (pointAt points i) * Point.y (pointAt points j) in
       area - Point.x (pointAt points j) * Point.y (pointAt points i))
    (seq 0 n) 0.

Definition calculatePolygonArea (points : list Point) : R :=
  Rabs (shoelaceSum points) / 2.

Definition getAnnotationArea (annotation : Annotation) : R :=
  match type annotation with
  | shape_rectangle =>
      let width := Rabs (Point.x (pointAt (points annotation) 0)
                         - Point.x (pointAt (points annotation) 1)) in
      let height := Rabs (Point.y (pointAt (points annotation) 0)
                          - Point.y (pointAt (points annotation) 1)) in
      width * height
  | shape_polygon => calculatePolygonArea (points annotation)
  end.

Record BoundingBox : Type := mkBoundingBox {
  minX : R; maxX : R; minY : R; maxY : R;
  width : R; height : R; centerX : R; centerY : R
}.

(** [Math.min(...xs)] and [Math.max(...xs)].  For an empty array JavaScript
    answers [Infinity] and [-Infinity], which are no real numbers: the model
    answers [None] there. *)
Definition Math_min (xs : list R) : option R :=
  match xs with
  | [] => None
  | x :: rest => Some (fold_left Rmin rest x)
  end.

Definition Math_max (xs : list R) : option R :=
  match xs with
  | [] => None
  | x :: rest => Some (fold_left Rmax rest x)
  end.

Definition getPointsBounds (points : list Point) : option BoundingBox :=
  let xs := map Point.x points in
  let ys := map Point.y points in
  match Math_min xs, Math_max xs, Math_min ys, Math_max ys with
  | Some minX, Some maxX, Some minY, Some maxY =>
      Some (mkBoundingBox minX maxX minY maxY
              (maxX - minX) (maxY - minY)
              ((minX + maxX) / 2) ((minY + maxY) / 2))
  | _, _, _, _ => None
  end.

Definition getAnnotationBounds (ann : Annotation) : option BoundingBox :=
  getPointsBounds (points ann).

Definition movePoint (dx dy : R) (p : Point) : Point :=
  Point.mk (Point.x p + dx) (Point.y p + dy).

Definition withPoints (ann : Annotation) (pts : list Point) : Annotation :=
  mkAnnotation (id ann) (label ann) (type ann) pts
               (color ann) (visible ann) (locked ann).

Definition moveAnnotation (ann : Annotation) (dx dy : R) : Annotation :=
  withPoints ann (map (movePoint dx dy) (points ann)).

(** ** Keyboard shortcuts (src/unnamed/part_004, src/utils/keyboard.ts) *)

Module KeyBinding.
(** The modifier fields are optional in the source. *)
Record t : Type := mk {
  key : string;
  ctrlKey : option bool;
  shiftKey : option bool;
  altKey : option bool;
  metaKey : option bool
}.
End KeyBinding.
Abbreviation KeyBinding := KeyBinding.t.

Inductive ActionId : Type :=
| TOOL_SELECT | TOOL_PAN | TOOL_RECTANGLE | TOOL_POLYGON
| ZOOM_IN | ZOOM_OUT | RESET_VIEW
| UNDO | REDO | DELETE | CANCEL | BACKSPACE_POINT
| NUDGE_LEFT | NUDGE_RIGHT | NUDGE_UP | NUDGE_DOWN.

(** [Record<ActionId, KeyBinding>]; a key map read back from storage may miss
    an entry, [isShortcutPressed] tests for it. *)
Definition KeyMap : Type := ActionId -> option KeyBinding.

Module KeyboardEvent.
Record t : Type := mk {
  key : string;
  code : string;
  ctrlKey : bool;
  metaKey : bool;
  shiftKey : bool;
  altKey : bool;
  repeat : bool;
  targetTagName : string
}.
End KeyboardEvent.
Abbreviation KeyboardEvent := KeyboardEvent.t.

Module MouseEvent.
Record t : Type := mk {
  clientX : R;
  clientY : R;
  button : nat;
  ctrlKey : bool;
  metaKey : bool;
  shiftKey : bool;
  altKey : bool
}.
End MouseEvent.
Abbreviation MouseEvent := MouseEvent.t.

Module WheelEvent.
Record t : Type := mk { deltaY : R; clientX : R; clientY : R }.
End WheelEvent.
Abbreviation WheelEvent := WheelEvent.t.

(** [String.prototype.toLowerCase], on the ASCII letters. *)
Definition lowerAscii (c : ascii) : ascii :=
  let n := nat_of_ascii c in
  if ((65 <=? n) && (n <=? 90))%nat then ascii_of_nat (n + 32) else c.

Fixpoint toLowerCase (s : string) : string :=
  match s with
  | EmptyString => EmptyString
  | String c rest => String (lowerAscii c) (toLowerCase rest)
  end.

(** A nullable object is truthy when it is not [null]. *)
Definition notNull {A : Type} (v : option A) : bool :=
  match v with Some _ => true | None => false end.

(** [!!v] of an optional boolean. *)
Definition truthy (v : option bool) : bool :=
  match v with Some b => b | None => false end.

Definition isShortcutPressed (e : KeyboardEvent) (binding : option KeyBinding) : bool :=
  match binding with
  | None => false
  | Some binding =>
      let keyMatch :=
        (toLowerCase (KeyboardEvent.key e) =? toLowerCase (KeyBinding.key binding))
        || (KeyboardEvent.code e =? KeyBinding.key binding) in
      let ctrlMatch :=
        Bool.eqb (truthy (KeyBinding.ctrlKey binding))
                 (KeyboardEvent.ctrlKey e || KeyboardEvent.metaKey e) in
      let shiftMatch :=
        Bool.eqb (truthy (KeyBinding.shiftKey binding)) (KeyboardEvent.shiftKey e) in
      let altMatch :=
        Bool.eqb (truthy (KeyBinding.altKey binding)) (KeyboardEvent.altKey e) in
      keyMatch && ctrlMatch && shiftMatch && altMatch
  end.

(** [DEFAULT_KEY_MAP] (src/constants.ts). *)
Definition plainKey (k : string) : KeyBinding :=
  KeyBinding.mk k None None None None.

Definition DEFAULT_KEY_MAP : KeyMap := fun a =>
  Some match a with
  | TOOL_SELECT => plainKey "v"
  | TOOL_PAN => plainKey "h"
  | TOOL_RECTANGLE => plainKey "r"
  | TOOL_POLYGON => plainKey "p"
  | ZOOM_IN => plainKey "="
  | ZOOM_OUT => plainKey "-"
  | RESET_VIEW => plainKey "0"
  | UNDO => KeyBinding.mk "z" (Some true) None None None
  | REDO => KeyBinding.mk "z" (Some true) (Some true) None None
  | DELETE => plainKey "Delete"
  | CANCEL => plainKey "Escape"
  | BACKSPACE_POINT => plainKey "Backspace"
  | NUDGE_LEFT => plainKey "ArrowLeft"
  | NUDGE_RIGHT => plainKey "ArrowRight"
  | NUDGE_UP => plainKey "ArrowUp"
  | NUDGE_DOWN => plainKey "ArrowDown"
  end.

Definition COLORS : list string :=
  [ "#ef4444"; "#f97316"; "#f59e0b"; "#84cc16"; "#10b981";
    "#06b6d4"; "#3b82f6"; "#8b5cf6"; "#d946ef"; "#f43f5e" ].

(** ** Array helpers *)

(** [Array.prototype.includes] on strings. *)
Definition includes (ids : list string) (i : string) : bool :=
  existsb (String.eqb i) ids.

(** [Array.prototype.findIndex]; [None] stands for [-1]. *)
Fixpoint findIndex {A : Type} (f : A -> bool) (l : list A) : option nat :=
  match l with
  | [] => None
  | a :: rest => if f a then Some 0%nat else option_map S (findIndex f rest)
  end.

(** [l.filter((_, i) => i !== k)]. *)
Definition dropIndex {A : Type} (k : nat) (l : list A) : list A :=
  map fst (filter (fun ai => negb (Nat.eqb (snd ai) k))
                  (combine l (seq 0 (List.length l)))).

(** [l.splice(k, 0, v)] on a copy of [l]. *)
Definition spliceIn {A : Type} (k : nat) (v : A) (l : list A) : list A :=
  firstn k l ++ v :: skipn k l.

(** [l[k] = v] on a copy of [l].  Below the length the element is replaced
    and at the length it is appended.  Beyond the length JavaScript leaves
    holes, which a list of points cannot hold; the handlers only write at an
    index they found in the same array, and the model leaves the list as it
    is there. *)
Definition assignAt {A : Type} (k : nat) (v : A) (l : list A) : list A :=
  if (k <=? List.length l)%nat then firstn k l ++ v :: skipn (S k) l else l.

(** [l.pop()]: the last element and what remains. *)
Definition pop {A : Type} (l : list A) : option A * list A :=
  (last (map Some l) None, removelast l).

(** [l.shift()]: the first element and what remains. *)
Definition shift {A : Type} (l : list A) : option A * list A :=
  (hd_error l, tl l).

(** ** State (src/App.tsx 13-56, src/components/Toolbar.tsx 134-149) *)

Module HistoryItem.
Record t : Type := mk { annotations : list Annotation; action : string }.
End HistoryItem.
Abbreviation HistoryItem := HistoryItem.t.

Record History : Type := mkHistory {
  past : list HistoryItem;
  future : list HistoryItem
}.

Module LabelPopup.
Record t : Type := mk { visible : bool; x : R; y : R; id : option string }.
End LabelPopup.
Abbreviation LabelPopup := LabelPopup.t.

Record HoveredEdge : Type := mkHoveredEdge {
  edgeId : string; edgeIndex : nat; edgePoint : Point
}.

Record ActiveVertex : Type := mkActiveVertex {
  vertexId : string; vertexIndex : nat
}.

(** The state of [App] that the handlers read or write. *)
Record AppState : Type := mkApp {
  imageSize : ImageSize;
  annotations : list Annotation;
  selectedIds : list string;
  currentTool : ToolType;
  transform : ViewTransform;
  canvasPadding : Point;
  history : History;
  keyMap : KeyMap;
  labelPopup : LabelPopup
}.

(** The state of [CanvasArea]. *)
Record CanvasState : Type := mkCanvas {
  isDragging : bool;
  dragStart : option Point;
  currentMouseImagePos : option Point;
  isHoveringStartPoint : bool;
  hoveredEdge : option HoveredEdge;
  hoveredAnnotationId : option string;
  tooltipPos : option Point;
  pendingPoly : list Point;
  pendingRectStart : option Point;
  activeVertex : option ActiveVertex;
  isSpacePressed : bool
}.

Record State : Type := mkState { app : AppState; canvas : CanvasState }.

(** What a handler takes from the browser: the bounding rectangle of the
    canvas container ([None] while the ref is empty), the window size and
    [Date.now().toString()]. *)
Module DOMRect.
Record t : Type := mk { left : R; top : R }.
End DOMRect.

Record Env : Type := mkEnv {
  containerRect : option DOMRect.t;
  innerWidth : R;
  innerHeight : R;
  now : string
}.

(** A handler reads the rendered state and transforms the pending one. *)
Definition Handler : Type := State -> State -> State.

Definition skip : Handler := fun _ s => s.
Definition seqH (h1 h2 : Handler) : Handler := fun r s => h2 r (h1 r s).
Definition when (b : bool) (h : Handler) : Handler := if b then h else skip.
Notation "h1 ;; h2" := (seqH h1 h2) (at level 61, right associativity).

(** One event: the handler created by the render of [r] runs on [r]. *)
Definition dispatch (h : Handler) (r : State) : State := h r r.

(** State setters; each takes the updater function of the pending value (a
    plain value [v] is the updater [fun _ => v]). *)
Definition updApp (f : AppState -> AppState) : Handler :=
  fun _ s => mkState (f (app s)) (canvas s).
Definition updCanvas (f : CanvasState -> CanvasState) : Handler :=
  fun _ s => mkState (app s) (f (canvas s)).

Definition setAnnotations (f : list Annotation -> list Annotation) : Handler :=
  updApp (fun '(mkApp a b c d e g h i j) => mkApp a (f b) c d e g h i j).
Definition setSelectedIds (f : list string -> list string) : Handler :=
  updApp (fun '(mkApp a b c d e g h i j) => mkApp a b (f c) d e g h i j).
Definition setCurrentTool (f : ToolType -> ToolType) : Handler :=
  updApp (fun '(mkApp a b c d e g h i j) => mkApp a b c (f d) e g h i j).
Definition setTransform (f : ViewTransform -> ViewTransform) : Handler :=
  updApp (fun '(mkApp a b c d e g h i j) => mkApp a b c d (f e) g h i j).
Definition setHistory (f : History -> History) : Handler :=
  updApp (fun '(mkApp a b c d e g h i j) => mkApp a b c d e g (f h) i j).
Definition setLabelPopup (f : LabelPopup -> LabelPopup) : Handler :=
  updApp (fun '(mkApp a b c d e g h i j) => mkApp a b c d e g h i (f j)).

Definition setIsDragging (v : bool) : Handler :=
  updCanvas (fun '(mkCanvas a b c d e f g h i j k) => mkCanvas v b c d e f g h i j k).
Definition setDragStart (v : option Point) : Handler :=
  updCanvas (fun '(mkCanvas a b c d e f g h i j k) => mkCanvas a v c d e f g h i j k).
Definition setCurrentMouseImagePos (v : option Point) : Handler :=
  updCanvas (fun '(mkCanvas a b c d e f g h i j k) => mkCanvas a b v d e f g h i j k).
Definition setIsHoveringStartPoint (v : bool) : Handler :=
  updCanvas (fun '(mkCanvas a b c d e f g h i j k) => mkCanvas a b c v e f g h i j k).
Definition setHoveredEdge (v : option HoveredEdge) : Handler :=
  updCanvas (fun '(mkCanvas a b c d e f g h i j k) => mkCanvas a b c d v f g h i j k).
Definition setHoveredAnnotationId (v : option string) : Handler :=
  updCanvas (fun '(mkCanvas a b c d e f g h i j k) => mkCanvas a b c d e v g h i j k).
Definition setTooltipPos (v : option Point) : Handler :=
  updCanvas (fun '(mkCanvas a b c d e f g h i j k) => mkCanvas a b c d e f v h i j k).
Definition setPendingPoly (u : list Point -> list Point) : Handler :=
  updCanvas (fun '(mkCanvas a b c d e f g h i j k) => mkCanvas a b c d e f g (u h) i j k).
Definition setPendingRectStart (v : option Point) : Handler :=
  updCanvas (fun '(mkCanvas a b c d e f g h i j k) => mkCanvas a b c d e f g h v j k).
Definition setActiveVertex (v : option ActiveVertex) : Handler :=
  updCanvas (fun '(mkCanvas a b c d e f g h i j k) => mkCanvas a b c d e f g h i v k).
Definition setIsSpacePressed (v : bool) : Handler :=
  updCanvas (fun '(mkCanvas a b c d e f g h i j k) => mkCanvas a b c d e f g h i j v).

(** [annotations.find(a => a.id === id)]. *)
Definition findAnnotation (anns : list Annotation) (i : string) : option Annotation :=
  find (fun a => id a =? i) anns.

(** [selectedIds.some(id => annotations.find(a => a.id === id)?.locked)]. *)
Definition hasLocked (r : State) : bool :=
  existsb (fun i => match findAnnotation (annotations (app r)) i with
                    | Some a => locked a
                    | None => false
                    end)
          (selectedIds (app r)).

(** Failure of a step of the model (a bound that is no real number). *)
Notation "'let?' x ':=' e 'in' k" :=
  (match e with Some x => k | None => None end)
  (at level 10, x name, e at level 100, k at level 200).

Fixpoint mapM {A B : Type} (f : A -> option B) (l : list A) : option (list B) :=
  match l with
  | [] => Some []
  | a :: rest =>
      let? b := f a in
      let? bs := mapM f rest in
      Some (b :: bs)
  end.

(** ** App (src/App.tsx) *)

Module App.

(** [snapshotHistory(action)] (69-74): the updater of the history reads the
    annotations of the render.  Every caller passes the action. *)
Definition snapshotHistory (action : string) : Handler := fun r =>
  setHistory (fun prev =>
    mkHistory (past prev ++ [HistoryItem.mk (annotations (app r)) action]) []) r.

(** [previous?.action || '修改']. *)
Definition actionOr (item : option HistoryItem) : string :=
  match item with
  | Some i => if HistoryItem.action i =? "" then "修改" else HistoryItem.action i
  | None => "修改"
  end.

(** [handleUndo] (76-94). *)
Definition handleUndo : Handler := fun r =>
  let history := history (app r) in
  if (List.length (past history) =? 0)%nat then skip r
  else
    let '(previous, newPast) := pop (past history) in
    let redoAction := actionOr previous in
    (setHistory (fun _ =>
       mkHistory newPast
                 (HistoryItem.mk (annotations (app r)) redoAction :: future history)) ;;
     match previous with
     | Some previous =>
         setAnnotations (fun _ => HistoryItem.annotations previous) ;;
         setSelectedIds (fun _ => [])
     | None => skip
     end) r.

(** [handleRedo] (96-114). *)
Definition handleRedo : Handler := fun r =>
  let history := history (app r) in
  if (List.length (future history) =? 0)%nat then skip r
  else
    let '(next, newFuture) := shift (future history) in
    let undoAction := actionOr next in
    (setHistory (fun _ =>
       mkHistory (past history ++ [HistoryItem.mk (annotations (app r)) undoAction])
                 newFuture) ;;
     match next with
     | Some next =>
         setAnnotations (fun _ => HistoryItem.annotations next) ;;
         setSelectedIds (fun _ => [])
     | None => skip
     end) r.

Inductive Direction : Type := zoom_in | zoom_out.

(** [handleZoom] (181-186). *)
Definition handleZoom (direction : Direction) : Handler :=
  setTransform (fun prev =>
    ViewTransform.mk
      match direction with
      | zoom_in => ViewTransform.scale prev * 1.2
      | zoom_out => ViewTransform.scale prev / 1.2
      end
      (ViewTransform.x prev) (ViewTransform.y prev)).

(** [handleResetView] (188-198). *)
Definition handleResetView (env : Env) : Handler := fun r =>
  let imageSize := imageSize (app r) in
  let canvasPadding := canvasPadding (app r) in
  if Reqb (ImageSize.width imageSize) 0 then skip r
  else
    let maxWidth := innerWidth env - 384 in
    let maxHeight := innerHeight env in
    let scale := Rmin (maxWidth / ImageSize.width imageSize)
                      (maxHeight / ImageSize.height imageSize) * 0.9 in
    let x := (maxWidth - ImageSize.width imageSize * scale) / 2
             - Point.x canvasPadding * scale in
    let y := (maxHeight - ImageSize.height imageSize * scale) / 2
             - Point.y canvasPadding * scale in
    setTransform (fun _ => ViewTransform.mk scale x y) r.

(** [handleShapeComplete] (223-231). *)
Definition handleShapeComplete (id : string) (screenPos : Point) : Handler :=
  setLabelPopup (fun _ =>
    LabelPopup.mk true (Point.x screenPos + 64) (Point.y screenPos) (Some id)) ;;
  setCurrentTool (fun _ => tool_select).

(** [handleDelete] (233-237). *)
Definition handleDelete (ids : list string) : Handler :=
  snapshotHistory "删除标注" ;;
  setAnnotations (fun prev => filter (fun a => negb (includes ids (id a))) prev) ;;
  setSelectedIds (fun _ => []).

(** [handleToggleVisible] (239-241) and [handleToggleLock] (243-253). *)
Definition handleToggleVisible (i : string) : Handler :=
  setAnnotations (fun prev =>
    map (fun a => if id a =? i
                  then mkAnnotation (id a) (label a) (type a) (points a)
                                    (color a) (negb (visible a)) (locked a)
                  else a) prev).

Definition handleToggleLock (i : string) : Handler := fun r =>
  (setAnnotations (fun prev =>
     map (fun a => if id a =? i
                   then mkAnnotation (id a) (label a) (type a) (points a)
                                     (color a) (visible a) (negb (locked a))
                   else a) prev) ;;
   when (includes (selectedIds (app r)) i)
        (setSelectedIds (fun prev => filter (fun sid => negb (sid =? i)) prev))) r.

Inductive AlignType : Type :=
| align_left | align_center | align_right
| align_top | align_middle | align_bottom.

(** [handleAlign(type)] (281-316).  The result is [None] when a bound the
    handler computes is no real number (a selected annotation without
    points). *)
Definition handleAlign (ty : AlignType) (r s : State) : option State :=
  let annotations := annotations (app r) in
  let selectedIds := selectedIds (app r) in
  let selectedAnns := filter (fun a => includes selectedIds (id a)) annotations in
  if (List.length selectedAnns <? 2)%nat then Some s
  else
    let? allBounds := mapM getAnnotationBounds selectedAnns in
    let? groupMinX := Math_min (map minX allBounds) in
    let? groupMaxX := Math_max (map maxX allBounds) in
    let? groupMinY := Math_min (map minY allBounds) in
    let? groupMaxY := Math_max (map maxY allBounds) in
    let groupCenterX := (groupMinX + groupMaxX) / 2 in
    let groupCenterY := (groupMinY + groupMaxY) / 2 in
    let? newAnnotations :=
      mapM (fun ann =>
              if negb (includes selectedIds (id ann)) then Some ann
              else
                let? bounds := getAnnotationBounds ann in
                let '(dx, dy) :=
                  match ty with
                  | align_left => (groupMinX - minX bounds, 0)
                  | align_right => (groupMaxX - maxX bounds, 0)
                  | align_center => (groupCenterX - centerX bounds, 0)
                  | align_top => (0, groupMinY - minY bounds)
                  | align_bottom => (0, groupMaxY - maxY bounds)
                  | align_middle => (0, groupCenterY - centerY bounds)
                  end in
                Some (moveAnnotation ann dx dy))
           annotations in
    Some ((snapshotHistory "对齐标注" ;;
           setAnnotations (fun _ => newAnnotations)) r s).

Inductive DistributeType : Type :=
| distribute_horizontal | distribute_vertical.

(** [type === 'horizontal' ? b.centerX : b.centerY]. *)
Definition centerAlong (ty : DistributeType) (b : BoundingBox) : R :=
  match ty with
  | distribute_horizontal => centerX b
  | distribute_vertical => centerY b
  end.

(** [Array.prototype.sort] with the comparator [(a, b) => key a - key b]:
    the sort is stable, so an element goes after the ones that compare equal
    to it. *)
Fixpoint insertSorted {A : Type} (key : A -> R) (x : A) (l : list A) : list A :=
  match l with
  | [] => [x]
  | y :: rest =>
      if Rltb (key x) (key y) then x :: y :: rest else y :: insertSorted key x rest
  end.

Definition sortBy {A : Type} (key : A -> R) (l : list A) : list A :=
  fold_left (fun acc x => insertSorted key x acc) l [].

(** [l.forEach((a, index) => ...)] over a state [St], from [index]. *)
Fixpoint forEach {A St : Type} (f : A -> nat -> St -> St) (l : list A) (index : nat) (s : St) : St :=
  match l with
  | [] => s
  | a :: rest => forEach f rest (S index) (f a index s)
  end.

(** The callback of [sorted.forEach] (342-356), for the annotation [ann]
    with its [bounds] at [index]. *)
Definition placeAt (ty : DistributeType) (start step : R)
    (ab : Annotation * BoundingBox) (index : nat) (newAnnotations : list Annotation)
  : list Annotation :=
  let '(ann, bounds) := ab in
  let targetPos := start + step * INR index in
  let currentPos := centerAlong ty bounds in
  let diff := targetPos - currentPos in
  match findIndex (fun a => id a =? id ann) newAnnotations with
  | Some annIndex =>
      match nth_error newAnnotations annIndex with
      | Some current =>
          assignAt annIndex
            (moveAnnotation current
               (match ty with distribute_horizontal => diff | _ => 0 end)
               (match ty with distribute_vertical => diff | _ => 0 end))
            newAnnotations
      | None => newAnnotations
      end
  | None => newAnnotations
  end.

(** [handleDistribute(type)] (318-359).  Each selected annotation is carried
    with its bounds, which the source computes again where it needs them;
    the result is [None] when a bound is no real number. *)
Definition handleDistribute (ty : DistributeType) (r s : State) : option State :=
  let annotations := annotations (app r) in
  let selectedIds := selectedIds (app r) in
  let selectedAnns := filter (fun a => includes selectedIds (id a)) annotations in
  if (List.length selectedAnns <? 3)%nat then Some s
  else
    let? bounded :=
      mapM (fun a => let? b := getAnnotationBounds a in Some (a, b)) selectedAnns in
    let sorted := sortBy (fun ab => centerAlong ty (snd ab)) bounded in
    let? first := hd_error sorted in
    let? last := last (map Some sorted) None in
    let start := centerAlong ty (snd first) in
    let end_ := centerAlong ty (snd last) in
    let step := (end_ - start) / (INR (List.length sorted) - 1) in
    let newAnnotations := forEach (placeAt ty start step) sorted 0%nat annotations in
    Some ((snapshotHistory "分布标注" ;;
           setAnnotations (fun _ => newAnnotations)) r s).

(** [getNextColor] (361). *)
Definition getNextColor (r : State) : string :=
  nth (List.length (annotations (app r)) mod List.length COLORS) COLORS "".

(** The global [keydown] listener (118-141). *)
Definition handleKeyDown (env : Env) (e : KeyboardEvent) : Handler := fun r =>
  let keyMap := keyMap (app r) in
  let selectedIds := selectedIds (app r) in
  if KeyboardEvent.targetTagName e =? "INPUT" then skip r
  else
    (when (isShortcutPressed e (keyMap TOOL_SELECT)) (setCurrentTool (fun _ => tool_select)) ;;
     when (isShortcutPressed e (keyMap TOOL_PAN)) (setCurrentTool (fun _ => tool_pan)) ;;
     when (isShortcutPressed e (keyMap TOOL_RECTANGLE))
          (setCurrentTool (fun _ => tool_rectangle)) ;;
     when (isShortcutPressed e (keyMap TOOL_POLYGON))
          (setCurrentTool (fun _ => tool_polygon)) ;;
     when (isShortcutPressed e (keyMap ZOOM_IN)) (handleZoom zoom_in) ;;
     when (isShortcutPressed e (keyMap ZOOM_OUT)) (handleZoom zoom_out) ;;
     when (isShortcutPressed e (keyMap RESET_VIEW)) (handleResetView env) ;;
     when (isShortcutPressed e (keyMap UNDO)) handleUndo ;;
     when (isShortcutPressed e (keyMap REDO)) handleRedo ;;
     when (isShortcutPressed e (keyMap DELETE)
           && (0 <? List.length selectedIds)%nat)
          (* Prevent deleting locked items *)
          (when (negb (hasLocked r)) (handleDelete selectedIds))) r.

End App.

(** ** CanvasArea (src/components/Toolbar.tsx 81-947)

    Its props are the state of [App] and the setters of [App]:
    [onAnnotationsChange = setAnnotations], [onSelect = setSelectedIds],
    [onTransformChange = setTransform], [onSnapshot = snapshotHistory],
    [onShapeComplete = handleShapeComplete], [padding = canvasPadding],
    [currentColor = getNextColor()]. *)

Module CanvasArea.

(** [getMousePos] (152-159) and [getRelativeImagePos] (162-171). *)
Definition getMousePos (env : Env) (e : MouseEvent) : Point :=
  match containerRect env with
  | None => Point.mk 0 0
  | Some rect =>
      Point.mk (MouseEvent.clientX e - DOMRect.left rect)
               (MouseEvent.clientY e - DOMRect.top rect)
  end.

Definition getRelativeImagePos (r : State) (env : Env) (e : MouseEvent) : Point :=
  let pos := getMousePos env e in
  let rawPos := screenToImage (Point.x pos) (Point.y pos) (transform (app r)) in
  Point.mk (Point.x rawPos - Point.x (canvasPadding (app r)))
           (Point.y rawPos - Point.y (canvasPadding (app r))).

(** [handleCancelDraw] (173-176) and [handleUndoPoint] (178-180). *)
Definition handleCancelDraw : Handler :=
  setPendingPoly (fun _ => []) ;; setPendingRectStart None.

Definition handleUndoPoint : Handler :=
  setPendingPoly (fun prev => removelast prev).

(** The [wheel] listener [onWheel] (187-212); it is attached only once the
    container exists. *)
Definition onWheel (env : Env) (e : WheelEvent) : Handler := fun r =>
  match containerRect env with
  | None => skip r
  | Some rect =>
      let transform := transform (app r) in
      let zoomIntensity := 0.1 in
      let direction := if Rltb (WheelEvent.deltaY e) 0 then 1 else -1 in
      let factor := 1 + direction * zoomIntensity in
      let mouseX := WheelEvent.clientX e - DOMRect.left rect in
      let mouseY := WheelEvent.clientY e - DOMRect.top rect in
      let newScale := ViewTransform.scale transform * factor in
      let newScale := Rmax 0.1 (Rmin newScale 50) in
      let newX := mouseX - (mouseX - ViewTransform.x transform)
                           * (newScale / ViewTransform.scale transform) in
      let newY := mouseY - (mouseY - ViewTransform.y transform)
                           * (newScale / ViewTransform.scale transform) in
      setTransform (fun _ => ViewTransform.mk newScale newX newY) r
  end.

(** The arrow key of a nudge, as [(dx, dy)]. *)
Definition nudgeDelta (keyMap : KeyMap) (e : KeyboardEvent) : R * R :=
  if isShortcutPressed e (keyMap NUDGE_LEFT) then (-1, 0)
  else if isShortcutPressed e (keyMap NUDGE_RIGHT) then (1, 0)
  else if isShortcutPressed e (keyMap NUDGE_UP) then (0, -1)
  else if isShortcutPressed e (keyMap NUDGE_DOWN) then (0, 1)
  else (0, 0).

(** The [keydown] listener of the canvas (220-268). *)
Definition handleKeyDown (e : KeyboardEvent) : Handler := fun r =>
  let keyMap := keyMap (app r) in
  let annotations := annotations (app r) in
  let selectedIds := selectedIds (app r) in
  let transform := transform (app r) in
  if KeyboardEvent.targetTagName e =? "INPUT" then skip r
  else
    (when ((KeyboardEvent.code e =? "Space") && negb (KeyboardEvent.repeat e))
          (setIsSpacePressed true) ;;
     if (0 <? List.length (pendingPoly (canvas r)))%nat then
       when (isShortcutPressed e (keyMap CANCEL)) handleCancelDraw ;;
       when (isShortcutPressed e (keyMap BACKSPACE_POINT)) handleUndoPoint
     else if notNull (pendingRectStart (canvas r)) then
       when (isShortcutPressed e (keyMap CANCEL)) handleCancelDraw
     else if (0 <? List.length selectedIds)%nat
             && negb (notNull (activeVertex (canvas r))) then
       (* Don't nudge if any selected item is locked *)
       if hasLocked r then skip
       else
         let '(dx, dy) := nudgeDelta keyMap e in
         if negb (Reqb dx 0) || negb (Reqb dy 0) then
           let step := if KeyboardEvent.shiftKey e then 10 else 1 in
           let dx := dx * step in
           let dy := dy * step in
           App.snapshotHistory "位置微调" ;;
           setAnnotations (fun _ =>
             map (fun ann =>
                    if negb (includes selectedIds (id ann)) then ann
                    else
                      let scaleFactor := 1 / ViewTransform.scale transform in
                      withPoints ann
                        (map (fun p => Point.mk (Point.x p + dx * scaleFactor)
                                                (Point.y p + dy * scaleFactor))
                             (points ann)))
                 annotations)
         else skip
     else skip) r.

(** The [keyup] listener (270-275). *)
Definition handleKeyUp (e : KeyboardEvent) : Handler :=
  when (KeyboardEvent.code e =? "Space")
       (setIsSpacePressed false ;; setIsDragging false).

(** The bounding-box test of a shape body (371-380, 501-510), with its buffer
    of [5 / scale].  For an annotation without points the bounds are infinite
    in JavaScript and every comparison fails. *)
Definition bodyHit (r : State) (imgPos : Point) (ann : Annotation) : bool :=
  let xs := map Point.x (points ann) in
  let ys := map Point.y (points ann) in
  match Math_min xs, Math_max xs, Math_min ys, Math_max ys with
  | Some minX, Some maxX, Some minY, Some maxY =>
      let buffer := 5 / ViewTransform.scale (transform (app r)) in
      Rleb (minX - buffer) (Point.x imgPos) && Rleb (Point.x imgPos) (maxX + buffer)
      && Rleb (minY - buffer) (Point.y imgPos) && Rleb (Point.y imgPos) (maxY + buffer)
  | _, _, _, _ => false
  end.

(** The four corner handles of a rectangle: TL, TR, BR, BL. *)
Definition corners (ann : Annotation) : list Point :=
  let p0 := pointAt (points ann) 0 in
  let p1 := pointAt (points ann) 1 in
  let x1 := Rmin (Point.x p0) (Point.x p1) in
  let y1 := Rmin (Point.y p0) (Point.y p1) in
  let x2 := Rmax (Point.x p0) (Point.x p1) in
  let y2 := Rmax (Point.y p0) (Point.y p1) in
  [ Point.mk x1 y1; Point.mk x2 y1; Point.mk x2 y2; Point.mk x1 y2 ].

(** Part A of the select tool in [handleMouseDown] (304-361): a click on a handle, a
    vertex or the hovered edge of the only selected annotation.  [Some h]
    when the handler returns from this part, [None] when it goes on to the
    shape bodies. *)
Definition vertexClick (r : State) (e : MouseEvent) (imgPos : Point) : option Handler :=
  let annotations := annotations (app r) in
  match selectedIds (app r) with
  | [selectedId] =>
      match findAnnotation annotations selectedId with
      | Some ann =>
          if locked ann then None
          else
            let threshold := 10 / ViewTransform.scale (transform (app r)) in
            match type ann with
            | shape_rectangle =>
                match findIndex (fun c => isPointNearVertex c imgPos threshold 1)
                                (corners ann) with
                | Some hitIndex =>
                    Some (App.snapshotHistory "调整矩形大小" ;;
                          setActiveVertex (Some (mkActiveVertex selectedId hitIndex)))
                | None => None
                end
            | shape_polygon =>
                match findIndex (fun p => isPointNearVertex p imgPos threshold 1)
                                (points ann) with
                | Some clickedVertexIndex =>
                    if MouseEvent.altKey e then
                      if (3 <? List.length (points ann))%nat then
                        let newPoints := dropIndex clickedVertexIndex (points ann) in
                        Some (App.snapshotHistory "删除顶点" ;;
                              setAnnotations (fun _ =>
                                map (fun a => if id a =? selectedId
                                              then withPoints a newPoints else a)
                                    annotations))
                      else Some skip
                    else
                      Some (App.snapshotHistory "调整顶点" ;;
                            setActiveVertex
                              (Some (mkActiveVertex selectedId clickedVertexIndex)))
                | None =>
                    match hoveredEdge (canvas r) with
                    | Some hoveredEdge =>
                        if edgeId hoveredEdge =? selectedId then
                          let newPoints :=
                            spliceIn (edgeIndex hoveredEdge + 1)
                                     (edgePoint hoveredEdge) (points ann) in
                          let newAnn := withPoints ann newPoints in
                          Some (App.snapshotHistory "添加顶点" ;;
                                setAnnotations (fun _ =>
                                  map (fun a => if id a =? selectedId
                                                then newAnn else a)
                                      annotations) ;;
                                setActiveVertex
                                  (Some (mkActiveVertex selectedId
                                           (edgeIndex hoveredEdge + 1))) ;;
                                setHoveredEdge None)
                        else None
                    | None => None
                    end
                end
            end
      | None => None
      end
  | _ => None
  end.

(** Part B (364-407): the topmost visible, unlocked annotation under the
    pointer. *)
Definition bodyClick (r : State) (e : MouseEvent) (imgPos : Point) : Handler :=
  let selectedIds := selectedIds (app r) in
  match find (fun ann => visible ann && negb (locked ann) && bodyHit r imgPos ann)
             (rev (annotations (app r))) with
  | Some ann =>
      (if MouseEvent.ctrlKey e || MouseEvent.metaKey e then
         if includes selectedIds (id ann)
         then setSelectedIds (fun _ => filter (fun i => negb (i =? id ann)) selectedIds)
         else setSelectedIds (fun _ => (selectedIds ++ [id ann])%list)
       else
         when (negb (includes selectedIds (id ann)))
              (setSelectedIds (fun _ => [id ann]))) ;;
      App.snapshotHistory "移动标注" ;;
      setDragStart (Some imgPos) ;;
      setIsDragging true
  | None =>
      when (negb (MouseEvent.shiftKey e)) (setSelectedIds (fun _ => []))
  end.

Definition isPan (r : State) (e : MouseEvent) : bool :=
  match currentTool (app r) with tool_pan => true | _ => false end
  || isSpacePressed (canvas r)
  || (MouseEvent.button e =? 1)%nat.

(** [pendingPoly.reduce((sum, p) => sum + p.x, 0)]. *)
Definition sumOf (f : Point -> R) (l : list Point) : R :=
  fold_left (fun sum p => sum + f p) l 0.

(** [handleMouseDown] (286-452). *)
Definition handleMouseDown (env : Env) (e : MouseEvent) : Handler := fun r =>
  let imgPos := getRelativeImagePos r env e in
  let annotations := annotations (app r) in
  let transform := transform (app r) in
  let padding := canvasPadding (app r) in
  let pendingPoly := pendingPoly (canvas r) in
  if isPan r e then
    (setIsDragging true ;;
     setDragStart (Some (Point.mk (MouseEvent.clientX e) (MouseEvent.clientY e)))) r
  else if negb (MouseEvent.button e =? 0)%nat then skip r
  else
    match currentTool (app r) with
    | tool_select =>
        match vertexClick r e imgPos with
        | Some h => h r
        | None => bodyClick r e imgPos r
        end
    | tool_rectangle =>
        (App.snapshotHistory "创建矩形" ;; setPendingRectStart (Some imgPos)) r
    | tool_polygon =>
        (when (List.length pendingPoly =? 0)%nat (App.snapshotHistory "创建多边形") ;;
         if (3 <=? List.length pendingPoly)%nat
            && Rltb (sqrt ((Point.x imgPos - Point.x (pointAt pendingPoly 0)) ^ 2
                           + (Point.y imgPos - Point.y (pointAt pendingPoly 0)) ^ 2))
                    (15 / ViewTransform.scale transform)
         then
           let newPoly :=
             mkAnnotation (now env) "defect" shape_polygon pendingPoly
                          (App.getNextColor r) true false in
           let centerX := sumOf Point.x pendingPoly / INR (List.length pendingPoly) in
           let centerY := sumOf Point.y pendingPoly / INR (List.length pendingPoly) in
           let screenPos :=
             imageToScreen (centerX + Point.x padding) (centerY + Point.y padding)
                           transform in
           setAnnotations (fun _ => (annotations ++ [newPoly])%list) ;;
           setSelectedIds (fun _ => [id newPoly]) ;;
           setPendingPoly (fun _ => []) ;;
           App.handleShapeComplete (id newPoly) screenPos
         else
           setPendingPoly (fun prev => (prev ++ [imgPos])%list)) r
    | tool_pan => skip r
    end.

(** The first edge of a polygon nearer to the pointer than [8 / scale]
    (476-486). *)
Definition findEdge (r : State) (imgPos : Point) (selectedId : string)
                    (ann : Annotation) : option HoveredEdge :=
  let edgeThreshold := 8 / ViewTransform.scale (transform (app r)) in
  let n := List.length (points ann) in
  match find (fun i =>
                let p1 := pointAt (points ann) i in
                let p2 := pointAt (points ann) ((i + 1) mod n) in
                Rltb (getDistanceToSegment imgPos p1 p2) edgeThreshold)
             (seq 0 n) with
  | Some i => Some (mkHoveredEdge selectedId i imgPos)
  | None => None
  end.

(** [handleMouseMove], hover of an edge (472-493): the hovered edge of the
    only selected polygon. *)
Definition hoverEdge (r : State) (imgPos : Point) : Handler :=
  match currentTool (app r), selectedIds (app r) with
  | tool_select, [selectedId] =>
      if negb (notNull (activeVertex (canvas r))) && negb (isDragging (canvas r)) then
        match findAnnotation (annotations (app r)) selectedId with
        | Some ann =>
            match type ann with
            | shape_polygon =>
                if negb (locked ann)
                then setHoveredEdge (findEdge r imgPos selectedId ann)
                else setHoveredEdge None
            | shape_rectangle => setHoveredEdge None
            end
        | None => setHoveredEdge None
        end
      else setHoveredEdge None
  | _, _ => setHoveredEdge None
  end.

(** [handleMouseMove], hover of a shape (495-524): the annotation under the
    pointer, for the tooltip.  An id that is the empty string is falsy and
    shows no tooltip. *)
Definition hoverTooltip (r : State) (pos imgPos : Point) : Handler :=
  if negb (isDragging (canvas r)) && negb (notNull (pendingRectStart (canvas r)))
     && (List.length (pendingPoly (canvas r)) =? 0)%nat
  then
    let foundId :=
      option_map id (find (fun ann => visible ann && bodyHit r imgPos ann)
                          (rev (annotations (app r)))) in
    setHoveredAnnotationId foundId ;;
    match foundId with
    | Some i => if i =? "" then setTooltipPos None else setTooltipPos (Some pos)
    | None => setTooltipPos None
    end
  else
    setHoveredAnnotationId None ;; setTooltipPos None.

(** [handleMouseMove], drag of a handle (563-590): the new corners of a
    rectangle whose handle [index] is dragged to [imgPos]. *)
Definition resizeRectangle (ann : Annotation) (index : nat) (imgPos : Point)
  : list Point :=
  let p1 := pointAt (points ann) 0 in
  let p2 := pointAt (points ann) 1 in
  let minX := Rmin (Point.x p1) (Point.x p2) in
  let maxX := Rmax (Point.x p1) (Point.x p2) in
  let minY := Rmin (Point.y p1) (Point.y p2) in
  let maxY := Rmax (Point.y p1) (Point.y p2) in
  match index with
  | 0%nat => [ Point.mk (Point.x imgPos) (Point.y imgPos); Point.mk maxX maxY ]
  | 1%nat => [ Point.mk minX (Point.y imgPos); Point.mk (Point.x imgPos) maxY ]
  | 2%nat => [ Point.mk minX minY; Point.mk (Point.x imgPos) (Point.y imgPos) ]
  | 3%nat => [ Point.mk (Point.x imgPos) minY; Point.mk maxX (Point.y imgPos) ]
  | _ => [ p1; p2 ]
  end.

(** [handleMouseMove], drag of a handle or vertex (558-599). *)
Definition dragVertex (r : State) (imgPos : Point) (activeVertex : ActiveVertex)
                      (selectedId : string) : Handler :=
  let annotations := annotations (app r) in
  match findAnnotation annotations selectedId with
  | None => skip
  | Some ann =>
      if locked ann then skip
      else
        let newAnn :=
          match type ann with
          | shape_rectangle =>
              withPoints ann (resizeRectangle ann (vertexIndex activeVertex) imgPos)
          | shape_polygon =>
              withPoints ann (assignAt (vertexIndex activeVertex) imgPos (points ann))
          end in
        setAnnotations (fun _ =>
          map (fun a => if id a =? selectedId then newAnn else a) annotations)
  end.

(** [handleMouseMove] (454-600). *)
Definition handleMouseMove (env : Env) (e : MouseEvent) : Handler := fun r =>
  let pos := getMousePos env e in
  let imgPos := getRelativeImagePos r env e in
  let annotations := annotations (app r) in
  let selectedIds := selectedIds (app r) in
  let transform := transform (app r) in
  let imageSize := imageSize (app r) in
  let pendingPoly := pendingPoly (canvas r) in
  let clampedPos :=
    Point.mk (Rmax 0 (Rmin (Point.x imgPos) (ImageSize.width imageSize)))
             (Rmax 0 (Rmin (Point.y imgPos) (ImageSize.height imageSize))) in
  (setCurrentMouseImagePos (Some clampedPos) ;;
   (match currentTool (app r) with
    | tool_polygon =>
        if (3 <=? List.length pendingPoly)%nat then
          let startPoint := pointAt pendingPoly 0 in
          let dist := sqrt ((Point.x imgPos - Point.x startPoint) ^ 2
                            + (Point.y imgPos - Point.y startPoint) ^ 2) in
          setIsHoveringStartPoint (Rltb dist (15 / ViewTransform.scale transform))
        else setIsHoveringStartPoint false
    | _ => setIsHoveringStartPoint false
    end) ;;
   hoverEdge r imgPos ;;
   hoverTooltip r pos imgPos ;;
   match dragStart (canvas r) with
   | Some dragStart =>
       if isPan r e && isDragging (canvas r) then
         let dx := MouseEvent.clientX e - Point.x dragStart in
         let dy := MouseEvent.clientY e - Point.y dragStart in
         setTransform (fun _ =>
           ViewTransform.mk (ViewTransform.scale transform)
                            (ViewTransform.x transform + dx)
                            (ViewTransform.y transform + dy)) ;;
         setDragStart (Some (Point.mk (MouseEvent.clientX e) (MouseEvent.clientY e)))
       else if isDragging (canvas r) && (0 <? List.length selectedIds)%nat
               && negb (notNull (activeVertex (canvas r)))
               && match currentTool (app r) with tool_select => true | _ => false end
       then
         (* Check if any selected item is locked *)
         if hasLocked r then skip
         else
           let dx := Point.x imgPos - Point.x dragStart in
           let dy := Point.y imgPos - Point.y dragStart in
           setAnnotations (fun _ =>
             map (fun ann =>
                    if negb (includes selectedIds (id ann)) then ann
                    else withPoints ann
                           (map (fun p => Point.mk (Point.x p + dx) (Point.y p + dy))
                                (points ann)))
                 annotations) ;;
           setDragStart (Some imgPos)
       else
         match activeVertex (canvas r), selectedIds with
         | Some activeVertex, [selectedId] => dragVertex r imgPos activeVertex selectedId
         | _, _ => skip
         end
   | None =>
       match activeVertex (canvas r), selectedIds with
       | Some activeVertex, [selectedId] => dragVertex r imgPos activeVertex selectedId
       | _, _ => skip
       end
   end) r.

(** [handleMouseUp] (602-630). *)
Definition handleMouseUp (env : Env) : Handler := fun r =>
  let annotations := annotations (app r) in
  let transform := transform (app r) in
  let padding := canvasPadding (app r) in
  (setIsDragging false ;;
   setDragStart None ;;
   setActiveVertex None ;;
   match pendingRectStart (canvas r), currentTool (app r) with
   | Some pendingRectStart, tool_rectangle =>
       let imgPos :=
         match currentMouseImagePos (canvas r) with
         | Some p => p
         | None => Point.mk 0 0
         end in
       (* Prevent tiny rectangles *)
       (if Rltb 1 (Rabs (Point.x imgPos - Point.x pendingRectStart))
           && Rltb 1 (Rabs (Point.y imgPos - Point.y pendingRectStart))
        then
          let newRect :=
            mkAnnotation (now env) "defect" shape_rectangle [pendingRectStart; imgPos]
                         (App.getNextColor r) true false in
          let centerX := (Point.x pendingRectStart + Point.x imgPos) / 2 in
          let centerY := (Point.y pendingRectStart + Point.y imgPos) / 2 in
          let screenPos :=
            imageToScreen (centerX + Point.x padding) (centerY + Point.y padding)
                          transform in
          setAnnotations (fun _ => (annotations ++ [newRect])%list) ;;
          setSelectedIds (fun _ => [id newRect]) ;;
          App.handleShapeComplete (id newRect) screenPos
        else skip) ;;
       setPendingRectStart None
   | _, _ => skip
   end) r.

End CanvasArea.

(** ** Runs, observations and inputs the statements speak of *)

(** A sequence of events, each handled by the render of the state the
    previous one left. *)
Definition run (hs : list Handler) (r : State) : State :=
  fold_left (fun st h => dispatch h st) hs r.

Definition scaleOf (s : State) : R := ViewTransform.scale (transform (app s)).

(** The state [App] and [CanvasArea] start in ([useState] initial values),
    with the default key map. *)
Definition initial : State :=
  mkState
    (mkApp (ImageSize.mk 0 0) [] [] tool_select (ViewTransform.mk 1 0 0)
           (Point.mk 50 50) (mkHistory [] []) DEFAULT_KEY_MAP
           (LabelPopup.mk false 0 0 None))
    (mkCanvas false None None false None None None [] None None false).

(** A browser whose canvas container sits at the origin. *)
Definition atOrigin : Env := mkEnv (Some (DOMRect.mk 0 0)) 1280 720 "1700000000000".

(** The position [handleMouseUp] takes for the release: the last one that
    [handleMouseMove] recorded, or the origin. *)
Definition releasePos (r : State) : Point :=
  match currentMouseImagePos (canvas r) with
  | Some p => p
  | None => Point.mk 0 0
  end.

(** The annotations that [handleMouseUp] and [handleMouseDown] create. *)
Definition newRect (env : Env) (r : State) (a b : Point) : Annotation :=
  mkAnnotation (now env) "defect" shape_rectangle [a; b] (App.getNextColor r) true false.

Definition newPoly (env : Env) (r : State) (pts : list Point) : Annotation :=
  mkAnnotation (now env) "defect" shape_polygon pts (App.getNextColor r) true false.

(** A left-button pointer-down with the polygon tool, not panning. *)
Definition polygonClick (r : State) (e : MouseEvent) : Prop :=
  currentTool (app r) = tool_polygon
  /\ isSpacePressed (canvas r) = false
  /\ MouseEvent.button e = 0%nat.

(** The pointer-down at [p] closes the pending polygon. *)
Definition closesPolygon (r : State) (p : Point) : Prop :=
  (3 <= List.length (pendingPoly (canvas r)))%nat
  /\ getDistance (pointAt (pendingPoly (canvas r)) 0) p
     < 15 / ViewTransform.scale (transform (app r)).

Definition clicks (env : Env) (es : list MouseEvent) (r : State) : State :=
  run (map (CanvasArea.handleMouseDown env) es) r.

(** A left-button pointer-down with the rectangle tool, not panning, and no
    vertex being dragged. *)
Definition rectangleDrag (r : State) (e : MouseEvent) : Prop :=
  currentTool (app r) = tool_rectangle
  /\ isSpacePressed (canvas r) = false
  /\ activeVertex (canvas r) = None
  /\ MouseEvent.button e = 0%nat.

Definition insideImage (r : State) (p : Point) : Prop :=
  0 <= Point.x p <= ImageSize.width (imageSize (app r))
  /\ 0 <= Point.y p <= ImageSize.height (imageSize (app r)).

(** Selection. *)
Definition isSelected (r : State) (a : Annotation) : bool :=
  includes (selectedIds (app r)) (id a).

Definition selectedAnns (r : State) : list Annotation :=
  filter (isSelected r) (annotations (app r)).

(** [a'] is [a] with every point moved by [dx] along x. *)
Definition movedX (dx : R) (a a' : Annotation) : Prop :=
  a' = withPoints a (map (fun p => Point.mk (Point.x p + dx) (Point.y p)) (points a)).

Definition minXOf (a : Annotation) : option R :=
  option_map minX (getAnnotationBounds a).

(** The ids of the collection are unique (data model). *)
Definition uniqueIds (r : State) : Prop := NoDup (map id (annotations (app r))).


(** [h], created by the render of [r], keeps the observation [G] of the
    annotations at its value in [r]. *)
Definition stable {X : Type} (G : list Annotation -> X) (r : State) (h : Handler) : Prop :=
  forall s, G (annotations (app s)) = G (annotations (app r)) ->
            G (annotations (app (h r s))) = G (annotations (app r)).


(** A selection of a locked and an unlocked rectangle. *)
Definition lockedA : Annotation :=
  mkAnnotation "a" "defect" shape_rectangle [Point.mk 0 0; Point.mk 10 10]
               "#ef4444" true true.

Definition freeB : Annotation :=
  mkAnnotation "b" "defect" shape_rectangle [Point.mk 20 20; Point.mk 30 30]
               "#f97316" true false.

Definition mixedSelection : State :=
  mkState
    (mkApp (ImageSize.mk 100 100) [lockedA; freeB] ["a"; "b"] tool_select
           (ViewTransform.mk 1 0 0) (Point.mk 50 50) (mkHistory [] []) DEFAULT_KEY_MAP
           (LabelPopup.mk false 0 0 None))
    (mkCanvas false None None false None None None [] None None false).

Definition arrowLeft : KeyboardEvent :=
  KeyboardEvent.mk "ArrowLeft" "ArrowLeft" false false false false false "BODY".

(** The sum of [g 0 .. g (n-1)] and the term of the shoelace sum. *)
Fixpoint sumTo (g : nat -> R) (n : nat) : R :=
  match n with
  | O => 0
  | S m => sumTo g m + g m
  end.

Definition cross (p q : Point) : R :=
  Point.x p * Point.y q - Point.x q * Point.y p.

(** A rectangle from [a] to [b] is more than one image unit wide and high. *)
Definition bigEnough (a b : Point) : Prop :=
  Rabs (Point.x b - Point.x a) > 1 /\ Rabs (Point.y b - Point.y a) > 1.

(** States in the middle of a drawing, for the examples. *)
Definition rectPending : State :=
  mkState
    (mkApp (ImageSize.mk 100 100) [] [] tool_rectangle (ViewTransform.mk 1 0 0)
           (Point.mk 50 50) (mkHistory [HistoryItem.mk [] "创建矩形"] []) DEFAULT_KEY_MAP
           (LabelPopup.mk false 0 0 None))
    (mkCanvas false None (Some (Point.mk 5 5)) false None None None []
              (Some (Point.mk 0 0)) None false).

Definition triangle : list Point := [Point.mk 0 0; Point.mk 10 0; Point.mk 10 10].

Definition polyPending : State :=
  mkState
    (mkApp (ImageSize.mk 100 100) [] [] tool_polygon (ViewTransform.mk 1 0 0)
           (Point.mk 50 50) (mkHistory [HistoryItem.mk [] "创建多边形"] []) DEFAULT_KEY_MAP
           (LabelPopup.mk false 0 0 None))
    (mkCanvas false None None false None None None triangle None None false).

Definition leftClickAt (x y : R) : MouseEvent :=
  MouseEvent.mk x y 0 false false false false.

(** Two selected rectangles with x-bounds [0, 10] and [20, 30]. *)
Definition boxA : Annotation :=
  mkAnnotation "1" "defect" shape_rectangle [Point.mk 0 0; Point.mk 10 10]
               "#ef4444" true false.

Definition boxB : Annotation :=
  mkAnnotation "2" "defect" shape_rectangle [Point.mk 20 5; Point.mk 30 15]
               "#f97316" true false.

Definition twoBoxes : State :=
  mkState
    (mkApp (ImageSize.mk 100 100) [boxA; boxB] ["1"; "2"] tool_select
           (ViewTransform.mk 1 0 0) (Point.mk 50 50) (mkHistory [] []) DEFAULT_KEY_MAP
           (LabelPopup.mk false 0 0 None))
    (mkCanvas false None None false None None None [] None None false).

(** Events of the examples. *)
Definition wheelUp : WheelEvent := WheelEvent.mk (-100) 300 200.
Definition wheelDown : WheelEvent := WheelEvent.mk 100 10 10.
Definition deleteKey : KeyboardEvent :=
  KeyboardEvent.mk "Delete" "Delete" false false false false false "BODY".

(** * More of the model *)

(** The point of the segment [v w] at parameter [t]. *)
Definition along (v w : Point) (t : R) : Point :=
  Point.mk (Point.x v + t * (Point.x w - Point.x v))
           (Point.y v + t * (Point.y w - Point.y v)).

(** ** History, seen as a zipper of collections *)

(** The collections of [past], the current collection and the collections of
    [future]: what undo and redo move around (the action labels apart). *)
Definition timeline (s : State) : list (list Annotation) * list Annotation * list (list Annotation) :=
  (map HistoryItem.annotations (past (history (app s))),
   annotations (app s),
   map HistoryItem.annotations (future (history (app s)))).

(** An edit as the handlers make it: a snapshot under a label, then the
    mutation [f] of the collection. *)
Definition edit (af : string * (list Annotation -> list Annotation)) : Handler :=
  App.snapshotHistory (fst af) ;; setAnnotations (snd af).

(** [s] holds a checkpoint of the collection of [r]: the last entry of [past]
    is that collection and [future] is empty. *)
Definition checkpointed (r s : State) : Prop :=
  exists pre action,
    history (app s)
    = mkHistory (pre ++ [HistoryItem.mk (annotations (app r)) action]) [].

(** After a handler: the collection is as it was, or a checkpoint of it was
    taken. *)
Definition kept_or_checkpointed (r s : State) : Prop :=
  annotations (app s) = annotations (app r) \/ checkpointed r s.

(** After a handler: the collection is as it was, or one undo gives it back
    (and a redo after that undo gives the handler's result again). *)
Definition undoable (r s : State) : Prop :=
  annotations (app s) = annotations (app r)
  \/ (annotations (app (dispatch App.handleUndo s)) = annotations (app r)
      /\ annotations (app (dispatch App.handleRedo (dispatch App.handleUndo s)))
         = annotations (app s)).

(** ** Alignment: the edge or centre a mode lines up, and where it goes *)

Definition alignedEdge (ty : App.AlignType) (b : BoundingBox) : R :=
  match ty with
  | App.align_left => minX b
  | App.align_right => maxX b
  | App.align_center => centerX b
  | App.align_top => minY b
  | App.align_bottom => maxY b
  | App.align_middle => centerY b
  end.

(** The bounds of the group: least and greatest edges of the given bounds. *)
Record GroupBounds : Type := mkGroupBounds {
  groupMinX : R; groupMaxX : R; groupMinY : R; groupMaxY : R
}.

Definition alignTarget (ty : App.AlignType) (g : GroupBounds) : R :=
  match ty with
  | App.align_left => groupMinX g
  | App.align_right => groupMaxX g
  | App.align_center => (groupMinX g + groupMaxX g) / 2
  | App.align_top => groupMinY g
  | App.align_bottom => groupMaxY g
  | App.align_middle => (groupMinY g + groupMaxY g) / 2
  end.

Definition isHorizontal (ty : App.AlignType) : bool :=
  match ty with
  | App.align_left | App.align_right | App.align_center => true
  | _ => false
  end.

(** [g] holds the extreme edges of the bounds [bs]. *)
Definition groupOf (bs : list BoundingBox) (g : GroupBounds) : Prop :=
  Math_min (map minX bs) = Some (groupMinX g)
  /\ Math_max (map maxX bs) = Some (groupMaxX g)
  /\ Math_min (map minY bs) = Some (groupMinY g)
  /\ Math_max (map maxY bs) = Some (groupMaxY g).

(** What [handleAlign] does to one annotation. *)
Definition alignedTo (ty : App.AlignType) (t : R) (a a' : Annotation) : Prop :=
  exists b b',
    getAnnotationBounds a = Some b
    /\ getAnnotationBounds a' = Some b'
    /\ a' = (if isHorizontal ty
             then moveAnnotation a (t - alignedEdge ty b) 0
             else moveAnnotation a 0 (t - alignedEdge ty b))
    /\ alignedEdge ty b' = t
    /\ width b' = width b /\ height b' = height b
    /\ (if isHorizontal ty
        then minY b' = minY b /\ maxY b' = maxY b
        else minX b' = minX b /\ maxX b' = maxX b).

(** ** Pointer gestures *)

(** No gesture is under way. *)
Definition idle (s : State) : Prop :=
  isDragging (canvas s) = false
  /\ activeVertex (canvas s) = None
  /\ pendingRectStart (canvas s) = None.

(** A pointer-move or a pointer-up. *)
Inductive PointerEvent : Type :=
| pointer_move (env : Env) (e : MouseEvent)
| pointer_up (env : Env).

Definition pointerHandler (ev : PointerEvent) : Handler :=
  match ev with
  | pointer_move env e => CanvasArea.handleMouseMove env e
  | pointer_up env => CanvasArea.handleMouseUp env
  end.

(** During a gesture that began at [r]: a checkpoint of [r] was taken, or
    nothing is being dragged and the collection is that of [r]. *)
Definition gestureInv (r s : State) : Prop :=
  checkpointed r s
  \/ (annotations (app s) = annotations (app r) /\ idle s).

(** ** Sidebar (src/unnamed/part_000 1-362)

    Its props are the state and the handlers of [App]:
    [onSelect = setSelectedIds], [onDelete = handleDelete],
    [onToggleVisible = handleToggleVisible], [onToggleLock = handleToggleLock]. *)

Module Sidebar.

(** [onClick] of the row of [ann] (248-259). *)
Definition handleRowClick (ann : Annotation) (e : MouseEvent) : Handler := fun r =>
  let selectedIds := selectedIds (app r) in
  let isSelected := includes selectedIds (id ann) in
  if locked ann then skip r
  else if MouseEvent.ctrlKey e || MouseEvent.metaKey e then
    if isSelected
    then setSelectedIds (fun _ => filter (fun i => negb (i =? id ann)) selectedIds) r
    else setSelectedIds (fun _ => (selectedIds ++ [id ann])%list) r
  else setSelectedIds (fun _ => [id ann]) r.

(** The delete button of the row (326-337), rendered for an unlocked
    annotation only. *)
Definition deleteButton (ann : Annotation) : option Handler :=
  if negb (locked ann) then Some (App.handleDelete [id ann]) else None.

End Sidebar.

(** No locked annotation is selected. *)
Definition lockedUnselected (s : State) : Prop :=
  forall a, In a (annotations (app s)) -> isSelected s a = true -> locked a = false.

(** The id the next shape gets is the id of no annotation. *)
Definition freshId (env : Env) (s : State) : Prop :=
  ~ In (now env) (map id (annotations (app s))).

(** ** Distribution: where an annotation goes *)

(** The centre of an annotation along the axis of a distribution. *)
Definition centerOf (ty : App.DistributeType) (a : Annotation) : R :=
  match getAnnotationBounds a with
  | Some b => App.centerAlong ty b
  | None => 0
  end.

Definition moveAlong (ty : App.DistributeType) (a : Annotation) (d : R) : Annotation :=
  match ty with
  | App.distribute_horizontal => moveAnnotation a d 0
  | App.distribute_vertical => moveAnnotation a 0 d
  end.

(** The place [forEach] gives an annotation: moved to slot [index + k] when
    it is the [k]-th of [sorted], as it is otherwise. *)
Fixpoint placed (ty : App.DistributeType) (start step : R)
    (sorted : list (Annotation * BoundingBox)) (index : nat) (a : Annotation) : Annotation :=
  match sorted with
  | [] => a
  | (ann, bounds) :: rest =>
      if id a =? id ann
      then moveAlong ty a (start + step * INR index - App.centerAlong ty bounds)
      else placed ty start step rest (S index) a
  end.

(** What [handleDistribute] does to one annotation: a move along the axis
    that puts its centre at [t]. *)
Definition distributedTo (ty : App.DistributeType) (t : R) (a a' : Annotation) : Prop :=
  exists b b',
    getAnnotationBounds a = Some b
    /\ getAnnotationBounds a' = Some b'
    /\ a' = moveAlong ty a (t - App.centerAlong ty b)
    /\ App.centerAlong ty b' = t
    /\ width b' = width b /\ height b' = height b
    /\ match ty with
       | App.distribute_horizontal => minY b' = minY b /\ maxY b' = maxY b
       | App.distribute_vertical => minX b' = minX b /\ maxX b' = maxX b
       end.

(** ** The invariant of the collection, the selection and the history *)

Definition uniqueIn (anns : list Annotation) : Prop := NoDup (map id anns).

(** Ids are unique, in the collection and in every snapshot of the history,
    and no locked annotation is selected. *)
Definition wellKept (s : State) : Prop :=
  uniqueIn (annotations (app s))
  /\ Forall (fun h => uniqueIn (HistoryItem.annotations h))
            (past (history (app s)) ++ future (history (app s)))
  /\ lockedUnselected s.

(** ** The listeners and buttons, and the states they lead to *)

Inductive UserEvent : Type :=
| ev_canvas_key_down (e : KeyboardEvent)
| ev_app_key_down (env : Env) (e : KeyboardEvent)
| ev_key_up (e : KeyboardEvent)
| ev_mouse_down (env : Env) (e : MouseEvent)
| ev_mouse_move (env : Env) (e : MouseEvent)
| ev_mouse_up (env : Env)
| ev_wheel (env : Env) (e : WheelEvent)
| ev_toggle_visible (i : string)
| ev_toggle_lock (i : string)
| ev_row_click (ann : Annotation) (e : MouseEvent)
| ev_delete_button (ann : Annotation)
| ev_align (ty : App.AlignType)
| ev_distribute (ty : App.DistributeType).

(** One listener or button runs, created by the render of [r]. *)
Definition handle (ev : UserEvent) (r : State) : option State :=
  match ev with
  | ev_canvas_key_down e => Some (dispatch (CanvasArea.handleKeyDown e) r)
  | ev_app_key_down env e => Some (dispatch (App.handleKeyDown env e) r)
  | ev_key_up e => Some (dispatch (CanvasArea.handleKeyUp e) r)
  | ev_mouse_down env e => Some (dispatch (CanvasArea.handleMouseDown env e) r)
  | ev_mouse_move env e => Some (dispatch (CanvasArea.handleMouseMove env e) r)
  | ev_mouse_up env => Some (dispatch (CanvasArea.handleMouseUp env) r)
  | ev_wheel env e => Some (dispatch (CanvasArea.onWheel env e) r)
  | ev_toggle_visible i => Some (dispatch (App.handleToggleVisible i) r)
  | ev_toggle_lock i => Some (dispatch (App.handleToggleLock i) r)
  | ev_row_click ann e => Some (dispatch (Sidebar.handleRowClick ann e) r)
  | ev_delete_button ann =>
      match Sidebar.deleteButton ann with
      | Some h => Some (dispatch h r)
      | None => Some r
      end
  | ev_align ty => App.handleAlign ty r r
  | ev_distribute ty => App.handleDistribute ty r r
  end.

(** The event can happen in [r]: a row belongs to an annotation of the
    collection, and [Date.now()] is the id of no annotation yet. *)
Definition admissible (ev : UserEvent) (r : State) : Prop :=
  match ev with
  | ev_mouse_down env _ | ev_mouse_up env => freshId env r
  | ev_row_click ann _ | ev_delete_button ann => In ann (annotations (app r))
  | _ => True
  end.

Inductive reaches : State -> list UserEvent -> State -> Prop :=
| reaches_nil (r : State) : reaches r [] r
| reaches_cons (r s t : State) (ev : UserEvent) (evs : list UserEvent) :
    admissible ev r -> handle ev r = Some s -> reaches s evs t ->
    reaches r (ev :: evs) t.

(** ** Picking with the pointer *)

(** The test of [handleMouseDown] for the annotation under the pointer. *)
Definition pickable (r : State) (imgPos : Point) (ann : Annotation) : bool :=
  visible ann && negb (locked ann) && CanvasArea.bodyHit r imgPos ann.

(** [ann] is the topmost pickable annotation: it is pickable, and no
    annotation drawn after it is. *)
Definition topmostPickable (r : State) (imgPos : Point) (ann : Annotation) : Prop :=
  exists before after,
    annotations (app r) = (before ++ ann :: after)%list
    /\ pickable r imgPos ann = true
    /\ Forall (fun a => pickable r imgPos a = false) after.

(** ** SettingsModal (src/components/SettingsModal.tsx)

    [onUpdateKeyMap = setKeyMap]; the functions give the key map that is
    set, or [None] when the listener returns without setting one. *)

Module SettingsModal.

Definition ActionId_eq_dec (a b : ActionId) : {a = b} + {a <> b}.
Proof. decide equality. Defined.

(** The binding read off a key press (32-40); nothing for a modifier key
    alone. *)
Definition newBinding (e : KeyboardEvent) : option KeyBinding :=
  if includes ["Control"; "Shift"; "Alt"; "Meta"] (KeyboardEvent.key e) then None
  else Some (KeyBinding.mk (KeyboardEvent.key e)
               (Some (KeyboardEvent.ctrlKey e || KeyboardEvent.metaKey e))
               (Some (KeyboardEvent.shiftKey e))
               (Some (KeyboardEvent.altKey e))
               None).

(** The [keydown] listener while [editingAction] is set (28-47):
    [{...keyMap, [editingAction]: newBinding}]. *)
Definition handleKeyDown (editingAction : ActionId) (keyMap : KeyMap) (e : KeyboardEvent)
  : option KeyMap :=
  match newBinding e with
  | None => None
  | Some newBinding =>
      Some (fun a => if ActionId_eq_dec a editingAction then Some newBinding else keyMap a)
  end.

(** [Object.keys(ACTION_NAMES)] (src/constants.ts 146-163). *)
Definition requiredKeys : list ActionId :=
  [ TOOL_SELECT; TOOL_PAN; TOOL_RECTANGLE; TOOL_POLYGON; ZOOM_IN; ZOOM_OUT;
    RESET_VIEW; UNDO; REDO; DELETE; CANCEL; BACKSPACE_POINT;
    NUDGE_LEFT; NUDGE_RIGHT; NUDGE_UP; NUDGE_DOWN ].

(** [reader.onload] of the import (73-93).  [parsed] is the result of
    [JSON.parse], [None] when it throws; an entry of the imported map is
    [None] when it is missing or falsy. *)
Definition handleFileChange (parsed : option KeyMap) : option KeyMap :=
  match parsed with
  | None => None
  | Some importedMap =>
      let missingKeys := filter (fun k => negb (notNull (importedMap k))) requiredKeys in
      if (List.length missingKeys =? 0)%nat then Some importedMap else None
  end.

End SettingsModal.

(** The key event with the Ctrl and Cmd keys exchanged. *)
Definition swapCtrlMeta (e : KeyboardEvent) : KeyboardEvent :=
  KeyboardEvent.mk (KeyboardEvent.key e) (KeyboardEvent.code e)
    (KeyboardEvent.metaKey e) (KeyboardEvent.ctrlKey e)
    (KeyboardEvent.shiftKey e) (KeyboardEvent.altKey e)
    (KeyboardEvent.repeat e) (KeyboardEvent.targetTagName e).

(** The key event with another [key]. *)
Definition withKey (e : KeyboardEvent) (k : string) : KeyboardEvent :=
  KeyboardEvent.mk k (KeyboardEvent.code e)
    (KeyboardEvent.ctrlKey e) (KeyboardEvent.metaKey e)
    (KeyboardEvent.shiftKey e) (KeyboardEvent.altKey e)
    (KeyboardEvent.repeat e) (KeyboardEvent.targetTagName e).

(** No nudge binding of the key map asks for Shift. *)
Definition nudgesWithoutShift (keyMap : KeyMap) : Prop :=
  forall a b, In a [NUDGE_LEFT; NUDGE_RIGHT; NUDGE_UP; NUDGE_DOWN] ->
    keyMap a = Some b -> truthy (KeyBinding.shiftKey b) = false.

(** ** Drags *)

Definition clientPos (e : MouseEvent) : Point :=
  Point.mk (MouseEvent.clientX e) (MouseEvent.clientY e).

(** The pointer-moves of one drag, in one browser environment. *)
Definition moves (env : Env) (es : list MouseEvent) (s : State) : State :=
  run (map (CanvasArea.handleMouseMove env) es) s.

(** A pan is under way from the client position [d]. *)
Definition panning (s : State) (d : Point) : Prop :=
  currentTool (app s) = tool_pan
  /\ isDragging (canvas s) = true
  /\ dragStart (canvas s) = Some d.

(** The selection is being dragged from the image position [p]. *)
Definition draggingShapes (s : State) (p : Point) : Prop :=
  currentTool (app s) = tool_select
  /\ isSpacePressed (canvas s) = false
  /\ isDragging (canvas s) = true
  /\ dragStart (canvas s) = Some p
  /\ activeVertex (canvas s) = None
  /\ selectedIds (app s) <> []
  /\ hasLocked s = false.

(** The selected annotations moved by [(dx, dy)], the others as they are. *)
Definition moveSelected (s : State) (dx dy : R) : list Annotation :=
  map (fun a => if isSelected s a then moveAnnotation a dx dy else a)
      (annotations (app s)).

(** ** Shapes of the data model *)

(** A rectangle has its two corner points, a polygon at least three
    vertices. *)
Definition wellFormed (a : Annotation) : Prop :=
  match type a with
  | shape_rectangle => List.length (points a) = 2%nat
  | shape_polygon => (3 <= List.length (points a))%nat
  end.

(** Every annotation is well formed, in the collection and in every
    snapshot of the history. *)
Definition wellShaped (s : State) : Prop :=
  Forall wellFormed (annotations (app s))
  /\ Forall (fun h => Forall wellFormed (HistoryItem.annotations h))
            (past (history (app s)) ++ future (history (app s))).

(** [h], created by the render of [r], keeps the pending state well shaped. *)
Definition keepsShape (r : State) (h : Handler) : Prop :=
  forall s, wellShaped s -> wellShaped (h r s).

(** ** Inputs of the examples *)

(** Three selected rectangles with x-centres 5, 25 and 53. *)
Definition boxC : Annotation :=
  mkAnnotation "3" "defect" shape_rectangle [Point.mk 50 0; Point.mk 56 10]
               "#f59e0b" true false.

Definition threeBoxes : State :=
  mkState
    (mkApp (ImageSize.mk 100 100) [boxA; boxB; boxC] ["1"; "2"; "3"] tool_select
           (ViewTransform.mk 1 0 0) (Point.mk 50 50) (mkHistory [] []) DEFAULT_KEY_MAP
           (LabelPopup.mk false 0 0 None))
    (mkCanvas false None None false None None None [] None None false).

(** The two boxes with nothing selected. *)
Definition unselectedBoxes : State :=
  mkState
    (mkApp (ImageSize.mk 100 100) [boxA; boxB] [] tool_select
           (ViewTransform.mk 1 0 0) (Point.mk 50 50) (mkHistory [] []) DEFAULT_KEY_MAP
           (LabelPopup.mk false 0 0 None))
    (mkCanvas false None None false None None None [] None None false).

(** The initial state with another tool. *)
Definition withTool (tool : ToolType) : State :=
  mkState
    (mkApp (ImageSize.mk 0 0) [] [] tool (ViewTransform.mk 1 0 0)
           (Point.mk 50 50) (mkHistory [] []) DEFAULT_KEY_MAP
           (LabelPopup.mk false 0 0 None))
    (mkCanvas false None None false None None None [] None None false).

(** The two boxes while they are dragged from the image point (5, 5). *)
Definition draggedBoxes : State :=
  mkState (app twoBoxes)
    (mkCanvas true (Some (Point.mk 5 5)) None false None None None [] None None false).

Definition middleClickAt (x y : R) : MouseEvent :=
  MouseEvent.mk x y 1 false false false false.

Definition escapeKey : KeyboardEvent :=
  KeyboardEvent.mk "Escape" "Escape" false false false false false "BODY".

Definition ctrlY : KeyboardEvent :=
  KeyboardEvent.mk "y" "KeyY" true false false false false "BODY".

(** The default key map with Ctrl+Y bound to [REDO]. *)
Definition redoOnCtrlY : KeyMap := fun a =>
  if SettingsModal.ActionId_eq_dec a REDO
  then Some (KeyBinding.mk "y" (Some true) (Some false) (Some false) None)
  else DEFAULT_KEY_MAP a.

(** Two edits, each adding a box. *)
Definition twoEdits : list (string * (list Annotation -> list Annotation)) :=
  [ ("创建矩形", fun l => (l ++ [boxA])%list); ("创建矩形", fun l => (l ++ [boxB])%list) ].

(** ** The release position of a rectangle drag *)

(** The position [handleMouseMove] records for the pointer (Toolbar.tsx
    458-462): the image position clamped to the image. *)
Definition clampToImage (r : State) (p : Point) : Point :=
  Point.mk (Rmax 0 (Rmin (Point.x p) (ImageSize.width (imageSize (app r)))))
           (Rmax 0 (Rmin (Point.y p) (ImageSize.height (imageSize (app r))))).

(** A whole drag: pointer-down, pointer-moves, pointer-up. *)
Definition dragGesture (env : Env) (down : MouseEvent) (es : list MouseEvent)
                       (r : State) : State :=
  dispatch (CanvasArea.handleMouseUp env)
    (moves env es (dispatch (CanvasArea.handleMouseDown env down) r)).

(** The rectangle tool on an image of 100 by 100, nothing drawn yet. *)
Definition rectangleToolOnImage : State :=
  mkState
    (mkApp (ImageSize.mk 100 100) [] [] tool_rectangle (ViewTransform.mk 1 0 0)
           (Point.mk 50 50) (mkHistory [] []) DEFAULT_KEY_MAP
           (LabelPopup.mk false 0 0 None))
    (mkCanvas false None None false None None None [] None None false).

(** ** Operations on a selection, member by member *)






(** [boxA] after its lock button was pressed. *)
Definition boxALocked : Annotation :=
  mkAnnotation "1" "defect" shape_rectangle [Point.mk 0 0; Point.mk 10 10]
               "#ef4444" true true.

(** A click with Ctrl held. *)
Definition ctrlClickAt (x y : R) : MouseEvent :=
  MouseEvent.mk x y 0 true false false false.

(** ** A key press and its two listeners *)

(** A key press reaches both [keydown] listeners of the window, the one of
    the canvas (Toolbar.tsx 219-283) and the one of [App] (App.tsx 117-145);
    both were created by the same render. *)
Definition keyPress (env : Env) (e : KeyboardEvent) : Handler :=
  CanvasArea.handleKeyDown e ;; App.handleKeyDown env e.

(** The same with the listeners in the other order. *)
Definition keyPressAppFirst (env : Env) (e : KeyboardEvent) : Handler :=
  App.handleKeyDown env e ;; CanvasArea.handleKeyDown e.

(** A state update that touches the state of [App] only, or the state of the
    canvas only. *)
Definition onApp (f : State -> State) : Prop :=
  exists G, forall s, f s = mkState (G (app s)) (canvas s).

Definition onCanvas (f : State -> State) : Prop :=
  exists F, forall s, f s = mkState (app s) (F (canvas s)).

(** ** Resizing a rectangle over several pointer-moves *)

(** The rectangle [ann] after its handle [index] was dragged through the
    positions [ps], one pointer-move each (Toolbar.tsx 563-590). *)
Definition resizes (index : nat) (ps : list Point) (ann : Annotation) : Annotation :=
  fold_left (fun a p => withPoints a (CanvasArea.resizeRectangle a index p)) ps ann.

(** [p] lies on the side of the corner [o] that the handle [index] starts
    from: handle 0 is top-left, 1 top-right, 2 bottom-right, 3 bottom-left. *)
Definition onSideOf (index : nat) (o p : Point) : Prop :=
  match index with
  | 0%nat => Point.x p <= Point.x o /\ Point.y p <= Point.y o
  | 1%nat => Point.x o <= Point.x p /\ Point.y p <= Point.y o
  | 2%nat => Point.x o <= Point.x p /\ Point.y o <= Point.y p
  | _ => Point.x p <= Point.x o /\ Point.y o <= Point.y p
  end.

(** The corner that stays in place when the handle [index] is dragged on:
    from the corner [o] opposite to the handle, each earlier position of the
    pointer pushes it along, the way the next pointer-move recomputes
    [minX], [maxX], [minY], [maxY] from the rectangle as it is (570-573). *)
Definition anchorAfter (index : nat) (o : Point) (ps : list Point) : Point :=
  fold_left
    (fun a p =>
       match index with
       | 0%nat => Point.mk (Rmax (Point.x a) (Point.x p)) (Rmax (Point.y a) (Point.y p))
       | 1%nat => Point.mk (Rmin (Point.x a) (Point.x p)) (Rmax (Point.y a) (Point.y p))
       | 2%nat => Point.mk (Rmin (Point.x a) (Point.x p)) (Rmin (Point.y a) (Point.y p))
       | _ => Point.mk (Rmax (Point.x a) (Point.x p)) (Rmin (Point.y a) (Point.y p))
       end)
    ps o.

(** The handle [index] of the rectangle [ann], the only selected annotation,
    is held, and nothing else is dragged. *)
Definition resizing (s : State) (sid : string) (index : nat) (ann : Annotation) : Prop :=
  activeVertex (canvas s) = Some (mkActiveVertex sid index)
  /\ selectedIds (app s) = [sid]
  /\ isDragging (canvas s) = false
  /\ findAnnotation (annotations (app s)) sid = Some ann
  /\ type ann = shape_rectangle
  /\ locked ann = false.

(** [boxA] with its top-left handle held. *)
Definition resizingBoxA : State :=
  mkState
    (mkApp (ImageSize.mk 100 100) [boxA; boxB] ["1"] tool_select
           (ViewTransform.mk 1 0 0) (Point.mk 50 50)
           (mkHistory [HistoryItem.mk [boxA; boxB] "调整矩形大小"] []) DEFAULT_KEY_MAP
           (LabelPopup.mk false 0 0 None))
    (mkCanvas false None None false None None None [] None
              (Some (mkActiveVertex "1" 0)) false).

(** The points [handleMouseMove] gives the rectangle whose handle [index] is
    at [p] and whose opposite corner is [a] (575-587). *)
Definition resizedTo (index : nat) (p a : Point) : list Point :=
  match index with
  | 0%nat => [ p; a ]
  | 1%nat => [ Point.mk (Point.x a) (Point.y p); Point.mk (Point.x p) (Point.y a) ]
  | 2%nat => [ a; p ]
  | _ => [ Point.mk (Point.x p) (Point.y a); Point.mk (Point.x a) (Point.y p) ]
  end.

(** * Properties *)

(** ** Comparisons *)

Lemma Rltb_true (a b : R) : Rltb a b = true <-> a < b.
Proof. unfold Rltb. destruct (Rlt_dec a b); split; intros; auto; discriminate. Qed.

Lemma Rltb_false (a b : R) : Rltb a b = false <-> ~ a < b.
Proof.
  unfold Rltb. destruct (Rlt_dec a b); split; intros; auto; try discriminate.
  contradiction.
Qed.

Lemma clamp_bounds (v : R) : 0.1 <= Rmax 0.1 (Rmin v 50) <= 50.
Proof.
  unfold Rmax, Rmin.
  destruct (Rle_dec v 50); destruct (Rle_dec 0.1 _); lra.
Qed.

(** ** The embedding on concrete inputs *)

Lemma Reqb_false (a b : R) : a <> b -> Reqb a b = false.
Proof. intros H. unfold Reqb. destruct (Req_dec_T a b); [contradiction|reflexivity]. Qed.

(** The triangle (0,0), (10,0), (10,10) has area 50. *)
Example area_of_triangle : calculatePolygonArea triangle = 50.
Proof.
  unfold calculatePolygonArea, shoelaceSum, triangle, pointAt. cbn.
  rewrite Rabs_pos_eq; lra.
Qed.

(** The bounds of a rectangle stored with its corners in any order. *)
Example bounds_of_rectangle :
  option_map (fun b => (minX b, maxX b, minY b, maxY b))
             (getPointsBounds [Point.mk 30 5; Point.mk 20 15])
  = Some (20, 30, 5, 15).
Proof.
  cbn. unfold Rmin, Rmax.
  repeat match goal with |- context [Rle_dec ?a ?b] => destruct (Rle_dec a b) end;
    try lra; reflexivity.
Qed.

(** Nudging the selected rectangle left by one step at zoom 2 moves its
    points by [(-1/2, 0)]. *)
Example nudge_left_at_zoom_2 :
  annotations
    (app (dispatch (CanvasArea.handleKeyDown arrowLeft)
            (mkState
               (mkApp (ImageSize.mk 100 100) [lockedA; freeB] ["b"] tool_select
                      (ViewTransform.mk 2 0 0) (Point.mk 50 50) (mkHistory [] [])
                      DEFAULT_KEY_MAP (LabelPopup.mk false 0 0 None))
               (canvas initial))))
  = [lockedA; withPoints freeB [Point.mk (20 - 1 / 2) 20; Point.mk (30 - 1 / 2) 30]].
Proof.
  unfold dispatch, CanvasArea.handleKeyDown.
  change (CanvasArea.nudgeDelta _ arrowLeft) with (-1, 0).
  cbn -[Reqb]. rewrite (Reqb_false (-1) 0) by lra. cbn.
  unfold withPoints, freeB. cbn.
  replace (20 + -1 * 1 * (1 / 2)) with (20 - 1 / 2) by lra.
  replace (30 + -1 * 1 * (1 / 2)) with (30 - 1 / 2) by lra.
  replace (20 + 0 * 1 * (1 / 2)) with 20 by lra.
  replace (30 + 0 * 1 * (1 / 2)) with 30 by lra.
  reflexivity.
Qed.

(** ** Coordinate mapper *)

(** C3: for every point [p] and every view transform [T] with a nonzero
    scale, mapping [p] from image space to screen space and back returns [p]
    (numbers being real numbers, the equality is exact). *)
Theorem C3_screen_image_roundtrip (p : Point) (T : ViewTransform) :
  ViewTransform.scale T <> 0 ->
  let s := imageToScreen (Point.x p) (Point.y p) T in
  screenToImage (Point.x s) (Point.y s) T = p.
Proof.
  intros Hs. destruct p as [px py], T as [sc tx ty]. cbn in *.
  unfold screenToImage. cbn. f_equal; field; assumption.
Qed.

Lemma C3_screen_image_roundtrip_witness :
  ViewTransform.scale (ViewTransform.mk 2 10 20) <> 0
  /\ screenToImage (Point.x (imageToScreen 3 4 (ViewTransform.mk 2 10 20)))
                   (Point.y (imageToScreen 3 4 (ViewTransform.mk 2 10 20)))
                   (ViewTransform.mk 2 10 20)
     = Point.mk 3 4.
Proof.
  assert (H0 : ViewTransform.scale (ViewTransform.mk 2 10 20) <> 0) by (cbn; lra).
  split; [exact H0|].
  exact (C3_screen_image_roundtrip (Point.mk 3 4) (ViewTransform.mk 2 10 20) H0).
Defined.

(** ** Wheel zoom *)

Lemma onWheel_scale (env : Env) (e : WheelEvent) (r : State) :
  scaleOf (dispatch (CanvasArea.onWheel env e) r) =
  match containerRect env with
  | None => scaleOf r
  | Some _ =>
      Rmax 0.1
        (Rmin (scaleOf r * (1 + (if Rltb (WheelEvent.deltaY e) 0 then 1 else -1) * 0.1))
              50)
  end.
Proof.
  unfold dispatch, CanvasArea.onWheel, scaleOf.
  destruct (containerRect env); [|reflexivity].
  destruct r as [[isz anns sel tool T pad hist km lp] cv]. reflexivity.
Qed.

(** C4: for every wheel event at the pointer position [m] (relative to the
    container) and every transform [T] with a nonzero scale, the transform
    [T'] that the wheel handler sets maps [m] to the same image point as [T]
    did, and its translation is [m - (m - T.translation) * (T'.scale /
    T.scale)]; the new scale is the clamped one, so this covers the clamped
    case. *)
Theorem C4_wheel_zoom_keeps_anchor
        (env : Env) (e : WheelEvent) (r : State) (rect : DOMRect.t) :
  containerRect env = Some rect ->
  scaleOf r <> 0 ->
  let T := transform (app r) in
  let T' := transform (app (dispatch (CanvasArea.onWheel env e) r)) in
  let mx := WheelEvent.clientX e - DOMRect.left rect in
  let my := WheelEvent.clientY e - DOMRect.top rect in
  screenToImage mx my T' = screenToImage mx my T
  /\ ViewTransform.x T' =
       mx - (mx - ViewTransform.x T) * (ViewTransform.scale T' / ViewTransform.scale T)
  /\ ViewTransform.y T' =
       my - (my - ViewTransform.y T) * (ViewTransform.scale T' / ViewTransform.scale T)
  /\ ViewTransform.scale T' =
       Rmax 0.1
         (Rmin (ViewTransform.scale T
                * (1 + (if Rltb (WheelEvent.deltaY e) 0 then 1 else -1) * 0.1)) 50).
Proof.
  intros Hrect Hs. unfold dispatch, CanvasArea.onWheel. rewrite Hrect.
  destruct r as [[isz anns sel tool [sc tx ty] pad hist km lp] cv].
  unfold scaleOf in Hs. cbn in *.
  set (ns := Rmax 0.1 (Rmin _ 50)).
  assert (Hns : ns <> 0).
  { pose proof (clamp_bounds
                  (sc * (1 + (if Rltb (WheelEvent.deltaY e) 0 then 1 else -1) * 0.1)))
      as Hb.
    fold ns in Hb. lra. }
  repeat split.
  unfold screenToImage; cbn. f_equal; field; auto.
Qed.

Lemma C4_wheel_zoom_keeps_anchor_witness :
  containerRect atOrigin = Some (DOMRect.mk 0 0)
  /\ scaleOf initial <> 0
  /\ screenToImage (300 - 0) (200 - 0)
       (transform (app (dispatch (CanvasArea.onWheel atOrigin wheelUp) initial)))
     = screenToImage (300 - 0) (200 - 0) (transform (app initial)).
Proof.
  assert (H0 : scaleOf initial <> 0) by (unfold scaleOf; cbn; lra).
  split; [reflexivity|]. split; [exact H0|].
  exact (proj1 (C4_wheel_zoom_keeps_anchor atOrigin wheelUp initial (DOMRect.mk 0 0)
                  eq_refl H0)).
Defined.

(** C5: starting from a transform whose scale lies in [0.1, 50], the scale
    still lies in [0.1, 50] after any finite sequence of wheel events; each
    wheel step multiplies the scale by [1 + 0.1] or [1 - 0.1] and clamps the
    product to that interval. *)
Theorem C5_wheel_scale_stays_clamped (wheels : list (Env * WheelEvent)) (r : State) :
  0.1 <= scaleOf r <= 50 ->
  0.1 <= scaleOf (run (map (fun w => CanvasArea.onWheel (fst w) (snd w)) wheels) r) <= 50
  /\ (forall env e rect,
        containerRect env = Some rect ->
        scaleOf (dispatch (CanvasArea.onWheel env e) r) =
        Rmax 0.1
          (Rmin (scaleOf r * (1 + (if Rltb (WheelEvent.deltaY e) 0 then 1 else -1) * 0.1))
                50)).
Proof.
  intros Hr. split.
  - revert r Hr. induction wheels as [|[env e] ws IH]; intros r Hr; cbn.
    + exact Hr.
    + apply IH. rewrite onWheel_scale. destruct (containerRect env).
      * apply clamp_bounds.
      * exact Hr.
  - intros env e rect Hrect. rewrite onWheel_scale, Hrect. reflexivity.
Qed.

Lemma C5_wheel_scale_stays_clamped_witness :
  0.1 <= scaleOf initial <= 50
  /\ 0.1 <= scaleOf (run (map (fun w => CanvasArea.onWheel (fst w) (snd w))
                              [(atOrigin, wheelUp); (atOrigin, wheelDown)])
                         initial) <= 50.
Proof.
  assert (H0 : 0.1 <= scaleOf initial <= 50) by (unfold scaleOf; cbn; lra).
  split; [exact H0|].
  exact (proj1 (C5_wheel_scale_stays_clamped
                  [(atOrigin, wheelUp); (atOrigin, wheelDown)] initial H0)).
Defined.

(** ** Keyboard and toolbar zoom *)

Lemma handleZoom_scale (d : App.Direction) (r : State) :
  scaleOf (dispatch (App.handleZoom d) r) =
  match d with
  | App.zoom_in => scaleOf r * 1.2
  | App.zoom_out => scaleOf r / 1.2
  end.
Proof.
  destruct r as [[isz anns sel tool T pad hist km lp] cv]. reflexivity.
Qed.

Lemma run_repeat_zoom (d : App.Direction) (n : nat) (r : State) :
  scaleOf (run (repeat (App.handleZoom d) n) r) =
  match d with
  | App.zoom_in => scaleOf r * 1.2 ^ n
  | App.zoom_out => scaleOf r / 1.2 ^ n
  end.
Proof.
  revert r; induction n; intros r; cbn [repeat run fold_left].
  - destruct d; cbn; lra.
  - fold (run (repeat (App.handleZoom d) n) (dispatch (App.handleZoom d) r)).
    rewrite IHn, handleZoom_scale. destruct d; cbn [pow]; field.
    split; [apply pow_nonzero|]; lra.
Qed.

(** C10: the keyboard and toolbar zoom multiplies the scale by 1.2 (in) or
    divides it by 1.2 (out) and does not clamp: from the initial scale 1,
    which lies in [0.1, 50], 22 zoom-in presses give a scale above 50 and 13
    zoom-out presses give a scale below 0.1. *)
Theorem C10_keyboard_zoom_is_not_clamped :
  (forall d r,
     scaleOf (dispatch (App.handleZoom d) r) =
     match d with
     | App.zoom_in => scaleOf r * 1.2
     | App.zoom_out => scaleOf r / 1.2
     end)
  /\ (exists r n,
        0.1 <= scaleOf r <= 50
        /\ scaleOf (run (repeat (App.handleZoom App.zoom_in) n) r) > 50)
  /\ (exists r n,
        0.1 <= scaleOf r <= 50
        /\ scaleOf (run (repeat (App.handleZoom App.zoom_out) n) r) < 0.1).
Proof.
  split; [exact handleZoom_scale|]. split.
  - exists initial, 22%nat. rewrite run_repeat_zoom. unfold scaleOf; cbn. lra.
  - exists initial, 13%nat. rewrite run_repeat_zoom. unfold scaleOf; cbn.
    split; [lra|].
    set (k := 1.2 * (1.2 * (1.2 * (1.2 * (1.2 * (1.2 * (1.2 * (1.2 * (1.2 * (1.2 *
              (1.2 * (1.2 * (1.2 * 1))))))))))))).
    assert (Hk : 10 < k) by (unfold k; lra).
    apply Rmult_lt_reg_r with (r := k); [lra|].
    unfold Rdiv. rewrite Rmult_assoc, Rinv_l; lra.
Qed.

(** ** History *)

Lemma pop_snoc {A : Type} (l : list A) (x : A) : pop (l ++ [x]) = (Some x, l).
Proof.
  unfold pop. rewrite map_app; cbn [map].
  rewrite last_last, removelast_last. reflexivity.
Qed.

Lemma length_snoc_nonzero {A : Type} (l : list A) (x : A) :
  (List.length (l ++ [x]) =? 0)%nat = false.
Proof. rewrite length_app; cbn. apply Nat.eqb_neq. lia. Qed.

Lemma snapshotHistory_history (action : string) (r : State) :
  history (app (dispatch (App.snapshotHistory action) r)) =
  mkHistory (past (history (app r)) ++ [HistoryItem.mk (annotations (app r)) action]) [].
Proof. destruct r as [[isz anns sel tool T pad hist km lp] cv]. reflexivity. Qed.

Lemma snapshot_then_mutate (action : string) (f : list Annotation -> list Annotation)
      (r : State) :
  let s1 := dispatch (App.snapshotHistory action ;; setAnnotations f) r in
  history (app s1) = history (app (dispatch (App.snapshotHistory action) r))
  /\ annotations (app s1) = f (annotations (app r)).
Proof. destruct r as [[isz anns sel tool T pad hist km lp] cv]. split; reflexivity. Qed.

Lemma handleUndo_pops (entry : HistoryItem) (pastl fut : list HistoryItem) (s1 : State) :
  history (app s1) = mkHistory (pastl ++ [entry]) fut ->
  let s2 := dispatch App.handleUndo s1 in
  annotations (app s2) = HistoryItem.annotations entry
  /\ selectedIds (app s2) = []
  /\ history (app s2) =
       mkHistory pastl
         (HistoryItem.mk (annotations (app s1)) (App.actionOr (Some entry)) :: fut).
Proof.
  intros H. unfold dispatch, App.handleUndo. rewrite H. cbn [past future].
  rewrite length_snoc_nonzero, pop_snoc.
  destruct s1 as [[isz anns sel tool T pad hist km lp] cv]. cbn. auto.
Qed.

Lemma handleRedo_shifts (entry : HistoryItem) (pastl fut : list HistoryItem) (s2 : State) :
  history (app s2) = mkHistory pastl (entry :: fut) ->
  let s3 := dispatch App.handleRedo s2 in
  annotations (app s3) = HistoryItem.annotations entry
  /\ selectedIds (app s3) = []
  /\ history (app s3) =
       mkHistory
         (pastl ++ [HistoryItem.mk (annotations (app s2)) (App.actionOr (Some entry))])
         fut.
Proof.
  intros H. unfold dispatch, App.handleRedo. rewrite H.
  cbn [past future List.length Nat.eqb shift hd_error tl].
  destruct s2 as [[isz anns sel tool T pad hist km lp] cv]. cbn. auto.
Qed.

(** C1: [snapshotHistory] pushes the current annotation collection onto
    [past] and clears [future].  Whatever a mutation then makes of the
    annotations and of the selection (state [s1], whose history is the one the
    snapshot left), [handleUndo] restores the collection of before the
    mutation and clears the selection, and [handleRedo] after it restores the
    collection of after the mutation.  The same holds when snapshot and
    mutation are queued by one handler. *)
Theorem C1_undo_redo_restore (r s1 : State) (action : string) :
  let s0 := dispatch (App.snapshotHistory action) r in
  (past (history (app s0)) =
     (past (history (app r)) ++ [HistoryItem.mk (annotations (app r)) action])%list
   /\ future (history (app s0)) = [])
  /\ (history (app s1) = history (app s0) ->
      let s2 := dispatch App.handleUndo s1 in
      let s3 := dispatch App.handleRedo s2 in
      annotations (app s2) = annotations (app r)
      /\ selectedIds (app s2) = []
      /\ annotations (app s3) = annotations (app s1))
  /\ (forall f : list Annotation -> list Annotation,
        let s1' := dispatch (App.snapshotHistory action ;; setAnnotations f) r in
        let s2' := dispatch App.handleUndo s1' in
        let s3' := dispatch App.handleRedo s2' in
        annotations (app s1') = f (annotations (app r))
        /\ annotations (app s2') = annotations (app r)
        /\ selectedIds (app s2') = []
        /\ annotations (app s3') = f (annotations (app r))).
Proof.
  cbn zeta.
  assert (Hgen : forall s, history (app s) = history (app (dispatch (App.snapshotHistory action) r)) ->
            annotations (app (dispatch App.handleUndo s)) = annotations (app r)
            /\ selectedIds (app (dispatch App.handleUndo s)) = []
            /\ annotations (app (dispatch App.handleRedo (dispatch App.handleUndo s)))
               = annotations (app s)).
  { intros s H. rewrite snapshotHistory_history in H.
    destruct (handleUndo_pops _ _ _ _ H) as (Ha & Hs & Hh).
    destruct (handleRedo_shifts _ _ _ _ Hh) as (Ha' & _ & _).
    repeat split; assumption. }
  split; [|split].
  - rewrite snapshotHistory_history. split; reflexivity.
  - exact (Hgen s1).
  - intros f. destruct (snapshot_then_mutate action f r) as [Hh Ha].
    destruct (Hgen _ Hh) as (H1 & H2 & H3).
    rewrite Ha in H3. auto.
Qed.

Lemma C1_undo_redo_restore_witness :
  history (app (dispatch (App.handleDelete ["b"]) mixedSelection))
  = history (app (dispatch (App.snapshotHistory "删除标注") mixedSelection))
  /\ annotations (app (dispatch (App.handleDelete ["b"]) mixedSelection)) = [lockedA]
  /\ annotations
       (app (dispatch App.handleUndo (dispatch (App.handleDelete ["b"]) mixedSelection)))
     = [lockedA; freeB]
  /\ selectedIds
       (app (dispatch App.handleUndo (dispatch (App.handleDelete ["b"]) mixedSelection)))
     = []
  /\ annotations
       (app (dispatch App.handleRedo
               (dispatch App.handleUndo
                  (dispatch (App.handleDelete ["b"]) mixedSelection))))
     = [lockedA].
Proof.
  assert (Hh : history (app (dispatch (App.handleDelete ["b"]) mixedSelection))
               = history (app (dispatch (App.snapshotHistory "删除标注") mixedSelection)))
    by reflexivity.
  split; [exact Hh|]. split; [reflexivity|].
  exact (proj1 (proj2 (C1_undo_redo_restore
                         mixedSelection
                         (dispatch (App.handleDelete ["b"]) mixedSelection)
                         "删除标注")) Hh).
Defined.

(** ** Drawing a rectangle *)

Lemma snoc_neq {A : Type} (l : list A) (x : A) : (l ++ [x])%list <> l.
Proof.
  intros H. apply (f_equal (@List.length A)) in H.
  rewrite length_app in H. cbn in H. lia.
Qed.

Lemma handleMouseUp_rectangle (env : Env) (r : State) (a : Point) :
  pendingRectStart (canvas r) = Some a ->
  currentTool (app r) = tool_rectangle ->
  let b := releasePos r in
  let s := dispatch (CanvasArea.handleMouseUp env) r in
  annotations (app s) =
    (if Rltb 1 (Rabs (Point.x b - Point.x a)) && Rltb 1 (Rabs (Point.y b - Point.y a))
     then (annotations (app r) ++ [newRect env r a b])%list
     else annotations (app r))
  /\ pendingRectStart (canvas s) = None.
Proof.
  intros Ha Ht. unfold dispatch, CanvasArea.handleMouseUp, releasePos.
  rewrite Ha, Ht.
  destruct r as [[isz anns sel tool T pad hist km lp] cv]. cbn in *.
  destruct cv; cbn in *.
  destruct (Rltb 1 _ && Rltb 1 _); cbn; auto.
Qed.

(** Pointer-down with the rectangle tool records the anchor. *)
Lemma handleMouseDown_rectangle (env : Env) (e : MouseEvent) (r : State) :
  rectangleDrag r e ->
  let s := dispatch (CanvasArea.handleMouseDown env e) r in
  pendingRectStart (canvas s) = Some (CanvasArea.getRelativeImagePos r env e)
  /\ annotations (app s) = annotations (app r)
  /\ rectangleDrag s e
  /\ transform (app s) = transform (app r)
  /\ canvasPadding (app s) = canvasPadding (app r)
  /\ imageSize (app s) = imageSize (app r).
Proof.
  intros (Ht & Hsp & Hav & Hb).
  unfold rectangleDrag, dispatch, CanvasArea.handleMouseDown, CanvasArea.isPan.
  rewrite Ht, Hsp, Hb. cbn [orb Nat.eqb negb].
  destruct r as [[isz anns sel tool T pad hist km lp] cv]. destruct cv. cbn in *.
  subst. auto 10.
Qed.

Lemma clamp_inside (v hi : R) : 0 <= v <= hi -> Rmax 0 (Rmin v hi) = v.
Proof.
  intros H. unfold Rmax, Rmin.
  destruct (Rle_dec v hi); [|lra]. destruct (Rle_dec 0 v); lra.
Qed.

Lemma getRelativeImagePos_eq (r s : State) (env : Env) (e : MouseEvent) :
  transform (app s) = transform (app r) ->
  canvasPadding (app s) = canvasPadding (app r) ->
  CanvasArea.getRelativeImagePos s env e = CanvasArea.getRelativeImagePos r env e.
Proof. unfold CanvasArea.getRelativeImagePos. intros -> ->. reflexivity. Qed.

Lemma newRect_eq (env : Env) (r s : State) (a b : Point) :
  annotations (app s) = annotations (app r) -> newRect env s a b = newRect env r a b.
Proof. unfold newRect, App.getNextColor. intros ->. reflexivity. Qed.

Lemma bigEnough_dec (a b : Point) :
  Rltb 1 (Rabs (Point.x b - Point.x a)) && Rltb 1 (Rabs (Point.y b - Point.y a)) = true
  <-> bigEnough a b.
Proof. unfold bigEnough. rewrite andb_true_iff, !Rltb_true. tauto. Qed.

(** Pointer-move while a rectangle is pending and nothing is dragged: the
    clamped position is recorded, nothing else of the drawing changes. *)
Lemma handleMouseMove_pending (env : Env) (e : MouseEvent) (r : State) :
  currentTool (app r) = tool_rectangle ->
  activeVertex (canvas r) = None ->
  isDragging (canvas r) = false ->
  let s := dispatch (CanvasArea.handleMouseMove env e) r in
  currentMouseImagePos (canvas s)
  = Some (clampToImage r (CanvasArea.getRelativeImagePos r env e))
  /\ pendingRectStart (canvas s) = pendingRectStart (canvas r)
  /\ app s = app r
  /\ activeVertex (canvas s) = None
  /\ isDragging (canvas s) = false.
Proof.
  intros Ht Hav Hd.
  unfold dispatch, CanvasArea.handleMouseMove, clampToImage.
  unfold CanvasArea.hoverEdge, CanvasArea.hoverTooltip.
  rewrite Ht, Hav, Hd.
  destruct r as [[isz anns sel tool T pad hist km lp]
                 [dragging ds cm hov he ha tp pp prs av sp]].
  cbn in *. subst. rewrite ?andb_false_r.
  repeat match goal with
         | |- context [if ?b then _ else _] => destruct b
         | |- context [match ?o with Some _ => _ | None => _ end] => destruct o
         | |- context [match ?l with [] => _ | _ :: _ => _ end] => destruct l
         end; repeat split; reflexivity.
Qed.

Lemma clampToImage_eq (r s : State) (p : Point) :
  imageSize (app s) = imageSize (app r) -> clampToImage s p = clampToImage r p.
Proof. unfold clampToImage. intros ->. reflexivity. Qed.

Lemma clampToImage_inside (r : State) (p : Point) :
  insideImage r p -> clampToImage r p = p.
Proof.
  intros [Hx Hy]. unfold clampToImage.
  rewrite (clamp_inside _ _ Hx), (clamp_inside _ _ Hy). destruct p; reflexivity.
Qed.

(** Any number of pointer-moves while a rectangle is pending. *)
Lemma moves_pending (env : Env) (es : list MouseEvent) (r : State) :
  currentTool (app r) = tool_rectangle ->
  activeVertex (canvas r) = None ->
  isDragging (canvas r) = false ->
  let s := moves env es r in
  pendingRectStart (canvas s) = pendingRectStart (canvas r)
  /\ app s = app r
  /\ activeVertex (canvas s) = None
  /\ isDragging (canvas s) = false.
Proof.
  revert r. induction es as [|e es IH]; intros r Ht Hav Hd; [cbn; auto|].
  destruct (handleMouseMove_pending env e r Ht Hav Hd) as (_ & Hp & Ha & Hav' & Hd').
  change (moves env (e :: es) r)
    with (moves env es (dispatch (CanvasArea.handleMouseMove env e) r)).
  set (s1 := dispatch (CanvasArea.handleMouseMove env e) r) in *.
  assert (Ht' : currentTool (app s1) = tool_rectangle) by (rewrite Ha; exact Ht).
  destruct (IH s1 Ht' Hav' Hd') as (Hp2 & Ha2 & Hav2 & Hd2).
  cbv zeta. rewrite Hp2, Ha2, Hp, Ha. auto.
Qed.

Lemma moves_snoc (env : Env) (es : list MouseEvent) (e : MouseEvent) (r : State) :
  moves env (es ++ [e]) r = dispatch (CanvasArea.handleMouseMove env e) (moves env es r).
Proof. unfold moves, run. rewrite map_app, fold_left_app. reflexivity. Qed.

Lemma handleMouseDown_rectangle_idle (env : Env) (e : MouseEvent) (r : State) :
  rectangleDrag r e ->
  isDragging (canvas (dispatch (CanvasArea.handleMouseDown env e) r))
  = isDragging (canvas r).
Proof.
  intros (Ht & Hsp & Hav & Hb).
  unfold dispatch, CanvasArea.handleMouseDown, CanvasArea.isPan.
  rewrite Ht, Hsp, Hb. cbn [orb Nat.eqb negb].
  destruct r as [[isz anns sel tool T pad hist km lp] cv]. destruct cv. reflexivity.
Qed.

(** The whole drag with the rectangle tool: pointer-down at [a], any
    pointer-moves, a last pointer-move whose position, clamped to the image,
    is [b], and the pointer-up. *)
Lemma rectangle_gesture (env : Env) (r : State) (e1 : MouseEvent)
      (es : list MouseEvent) (e2 : MouseEvent) :
  rectangleDrag r e1 ->
  isDragging (canvas r) = false ->
  let a := CanvasArea.getRelativeImagePos r env e1 in
  let b := clampToImage r (CanvasArea.getRelativeImagePos r env e2) in
  annotations (app (dragGesture env e1 (es ++ [e2]) r))
  = if Rltb 1 (Rabs (Point.x b - Point.x a)) && Rltb 1 (Rabs (Point.y b - Point.y a))
    then (annotations (app r) ++ [newRect env r a b])%list
    else annotations (app r).
Proof.
  intros Hdrag Hd a b. unfold dragGesture. rewrite moves_snoc.
  set (s1 := dispatch (CanvasArea.handleMouseDown env e1) r).
  destruct (handleMouseDown_rectangle env e1 r Hdrag)
    as (Hp1 & Ha1 & (Ht1 & _ & Hav1 & _) & HT1 & Hpad1 & Hsz1).
  fold s1 a in Hp1, Ha1, Ht1, Hav1, HT1, Hpad1, Hsz1.
  assert (Hd1 : isDragging (canvas s1) = false)
    by (unfold s1; rewrite handleMouseDown_rectangle_idle; assumption).
  destruct (moves_pending env es s1 Ht1 Hav1 Hd1) as (Hp2 & Ha2 & Hav2 & Hd2).
  set (s2 := moves env es s1) in *.
  assert (Ht2 : currentTool (app s2) = tool_rectangle) by (rewrite Ha2; exact Ht1).
  destruct (handleMouseMove_pending env e2 s2 Ht2 Hav2 Hd2) as (Hm3 & Hp3 & Ha3 & _).
  set (s3 := dispatch (CanvasArea.handleMouseMove env e2) s2) in *.
  assert (Hb : clampToImage s2 (CanvasArea.getRelativeImagePos s2 env e2) = b).
  { unfold b. rewrite (clampToImage_eq r s2) by (rewrite Ha2; exact Hsz1).
    f_equal. apply getRelativeImagePos_eq; rewrite Ha2; assumption. }
  rewrite Hb in Hm3.
  assert (Hp : pendingRectStart (canvas s3) = Some a) by congruence.
  assert (Ht3 : currentTool (app s3) = tool_rectangle) by (rewrite Ha3; exact Ht2).
  destruct (handleMouseUp_rectangle env s3 a Hp Ht3) as [Hs _].
  assert (Hrel : releasePos s3 = b) by (unfold releasePos; rewrite Hm3; reflexivity).
  rewrite Hrel in Hs. rewrite Hs.
  assert (Hanns : annotations (app s3) = annotations (app r)) by congruence.
  rewrite (newRect_eq env r s3 a b Hanns), Hanns. reflexivity.
Qed.

(** C6 as stated fails for a release outside the image.  On an image of 100
    by 100, a drag with the rectangle tool from (99.5, 10) to (150, 60) has
    [|dx| > 1] and [|dy| > 1] between anchor and release position, and
    nothing is appended: the position the pointer-up uses is the one the
    pointer-move stored, clamped to the image, (100, 60). *)
Lemma C6_release_outside_the_image :
  rectangleDrag rectangleToolOnImage (leftClickAt 149.5 60)
  /\ CanvasArea.getRelativeImagePos rectangleToolOnImage atOrigin (leftClickAt 149.5 60)
     = Point.mk 99.5 10
  /\ CanvasArea.getRelativeImagePos rectangleToolOnImage atOrigin (leftClickAt 200 110)
     = Point.mk 150 60
  /\ bigEnough (Point.mk 99.5 10) (Point.mk 150 60)
  /\ annotations (app (dragGesture atOrigin (leftClickAt 149.5 60) [leftClickAt 200 110]
                         rectangleToolOnImage))
     = annotations (app rectangleToolOnImage).
Proof.
  assert (Hdrag : rectangleDrag rectangleToolOnImage (leftClickAt 149.5 60))
    by (repeat split; reflexivity).
  assert (Ha : CanvasArea.getRelativeImagePos rectangleToolOnImage atOrigin
                 (leftClickAt 149.5 60) = Point.mk 99.5 10).
  { unfold CanvasArea.getRelativeImagePos, CanvasArea.getMousePos, screenToImage. cbn.
    f_equal; lra. }
  assert (Hb : CanvasArea.getRelativeImagePos rectangleToolOnImage atOrigin
                 (leftClickAt 200 110) = Point.mk 150 60).
  { unfold CanvasArea.getRelativeImagePos, CanvasArea.getMousePos, screenToImage. cbn.
    f_equal; lra. }
  split; [exact Hdrag|]. split; [exact Ha|]. split; [exact Hb|]. split.
  - unfold bigEnough. cbn. split; rewrite Rabs_pos_eq; lra.
  - pose proof (rectangle_gesture atOrigin rectangleToolOnImage (leftClickAt 149.5 60) []
                  (leftClickAt 200 110) Hdrag eq_refl) as H.
    cbv zeta in H. cbn [List.app] in H. rewrite H, Ha, Hb. unfold clampToImage. cbn [Point.x Point.y rectangleToolOnImage app
      imageSize ImageSize.width ImageSize.height].
    rewrite (Rmin_right 150 100), (Rmax_right 0 100) by lra.
    replace (Rltb 1 (Rabs (100 - 99.5))) with false; [reflexivity|].
    symmetry. apply Rltb_false. rewrite Rabs_pos_eq; lra.
Qed.

(** C6, amended: on pointer-up with the rectangle tool, anchor [a] and [b]
    the position the last pointer-move recorded, a new rectangle with points
    [[a; b]] is appended if and only if [|b.x - a.x| > 1] and
    [|b.y - a.y| > 1]; otherwise the collection is unchanged.  For a whole
    drag (pointer-down at [a] with nothing being dragged, any pointer-moves,
    pointer-up), [b] is the position of the last pointer-move clamped to the
    image, which is that position itself when it lies inside the image: from
    (0,0) to (0,1) nothing is committed, from (0,0) to (5,5), inside the
    image, a rectangle with points [(0,0); (5,5)]. *)
Theorem C6_rectangle_commit_clamped (env : Env) :
  (forall r a b,
     pendingRectStart (canvas r) = Some a ->
     currentTool (app r) = tool_rectangle ->
     currentMouseImagePos (canvas r) = Some b ->
     let s := dispatch (CanvasArea.handleMouseUp env) r in
     (bigEnough a b ->
      annotations (app s) = (annotations (app r) ++ [newRect env r a b])%list)
     /\ (~ bigEnough a b -> annotations (app s) = annotations (app r))
     /\ (annotations (app s) <> annotations (app r) <-> bigEnough a b)
     /\ pendingRectStart (canvas s) = None)
  /\ (forall r e1 es e2,
        rectangleDrag r e1 ->
        isDragging (canvas r) = false ->
        let a := CanvasArea.getRelativeImagePos r env e1 in
        let p := CanvasArea.getRelativeImagePos r env e2 in
        let b := clampToImage r p in
        let s := dragGesture env e1 (es ++ [e2]) r in
        (bigEnough a b ->
         annotations (app s) = (annotations (app r) ++ [newRect env r a b])%list)
        /\ (~ bigEnough a b -> annotations (app s) = annotations (app r))
        /\ (annotations (app s) <> annotations (app r) <-> bigEnough a b)
        /\ (insideImage r p -> b = p)
        /\ (a = Point.mk 0 0 -> p = Point.mk 0 1 ->
            annotations (app s) = annotations (app r))
        /\ (a = Point.mk 0 0 -> p = Point.mk 5 5 -> insideImage r p ->
            exists rect,
              annotations (app s) = (annotations (app r) ++ [rect])%list
              /\ type rect = shape_rectangle
              /\ points rect = [Point.mk 0 0; Point.mk 5 5])).
Proof.
  assert (Hiff : forall (a b : Point) (l l' : list Annotation) (x : Annotation),
            l' = (if Rltb 1 (Rabs (Point.x b - Point.x a))
                     && Rltb 1 (Rabs (Point.y b - Point.y a))
                  then (l ++ [x])%list else l) ->
            (bigEnough a b -> l' = (l ++ [x])%list)
            /\ (~ bigEnough a b -> l' = l)
            /\ (l' <> l <-> bigEnough a b)).
  { intros a b l l' x ->.
    destruct (Rltb 1 _ && Rltb 1 _) eqn:E.
    - apply bigEnough_dec in E. split; [reflexivity|]. split; [contradiction|].
      split; [intros _; exact E|intros _; apply snoc_neq].
    - assert (Hn : ~ bigEnough a b).
      { intros H. apply bigEnough_dec in H. congruence. }
      split; [contradiction|]. split; [reflexivity|].
      split; [intros H; exfalso; apply H; reflexivity|contradiction]. }
  split.
  - intros r a b Ha Ht Hm s.
    destruct (handleMouseUp_rectangle env r a Ha Ht) as [Hs Hp].
    assert (Hrel : releasePos r = b) by (unfold releasePos; rewrite Hm; reflexivity).
    rewrite Hrel in Hs. fold s in Hs, Hp.
    destruct (Hiff a b _ _ _ Hs) as (H1 & H2 & H3). auto.
  - intros r e1 es e2 Hdrag Hd a p b s.
    pose proof (rectangle_gesture env r e1 es e2 Hdrag Hd) as Hs.
    fold a p b s in Hs.
    destruct (Hiff a b _ _ _ Hs) as (Hbig & Hsmall & Hne).
    split; [exact Hbig|]. split; [exact Hsmall|]. split; [exact Hne|].
    split; [apply clampToImage_inside|]. split.
    + intros Ea Ep. apply Hsmall. unfold bigEnough, b, clampToImage.
      rewrite Ea, Ep. cbn [Point.x Point.y]. intros [H1 _].
      assert (E0 : Rmax 0 (Rmin 0 (ImageSize.width (imageSize (app r)))) = 0).
      { unfold Rmax, Rmin. repeat destruct (Rle_dec _ _); lra. }
      rewrite E0, Rminus_diag, Rabs_R0 in H1. lra.
    + intros Ea Ep Hin. exists (newRect env r a b).
      assert (Eb : b = Point.mk 5 5)
        by (unfold b; rewrite (clampToImage_inside r p Hin); exact Ep).
      split; [|split].
      * apply Hbig. unfold bigEnough. rewrite Ea, Eb. cbn.
        split; rewrite Rabs_pos_eq; lra.
      * reflexivity.
      * cbn. rewrite Ea, Eb. reflexivity.
Qed.

Lemma C6_rectangle_commit_clamped_witness :
  rectangleDrag rectangleToolOnImage (leftClickAt 50 50)
  /\ isDragging (canvas rectangleToolOnImage) = false
  /\ CanvasArea.getRelativeImagePos rectangleToolOnImage atOrigin (leftClickAt 50 50)
     = Point.mk 0 0
  /\ CanvasArea.getRelativeImagePos rectangleToolOnImage atOrigin (leftClickAt 55 55)
     = Point.mk 5 5
  /\ insideImage rectangleToolOnImage (Point.mk 5 5)
  /\ exists rect,
       annotations (app (dragGesture atOrigin (leftClickAt 50 50)
                           [leftClickAt 52 51; leftClickAt 55 55] rectangleToolOnImage))
       = [rect]
       /\ type rect = shape_rectangle
       /\ points rect = [Point.mk 0 0; Point.mk 5 5].
Proof.
  assert (Hdrag : rectangleDrag rectangleToolOnImage (leftClickAt 50 50))
    by (repeat split; reflexivity).
  assert (Ha : CanvasArea.getRelativeImagePos rectangleToolOnImage atOrigin
                 (leftClickAt 50 50) = Point.mk 0 0).
  { unfold CanvasArea.getRelativeImagePos, CanvasArea.getMousePos, screenToImage. cbn.
    f_equal; lra. }
  assert (Hb : CanvasArea.getRelativeImagePos rectangleToolOnImage atOrigin
                 (leftClickAt 55 55) = Point.mk 5 5).
  { unfold CanvasArea.getRelativeImagePos, CanvasArea.getMousePos, screenToImage. cbn.
    f_equal; lra. }
  assert (Hin : insideImage rectangleToolOnImage (Point.mk 5 5)).
  { unfold insideImage. cbn. lra. }
  split; [exact Hdrag|]. split; [reflexivity|]. split; [exact Ha|]. split; [exact Hb|].
  split; [exact Hin|].
  destruct (proj2 (C6_rectangle_commit_clamped atOrigin) rectangleToolOnImage
              (leftClickAt 50 50) [leftClickAt 52 51] (leftClickAt 55 55) Hdrag eq_refl)
    as (_ & _ & _ & _ & _ & H).
  apply H; [exact Ha|exact Hb|rewrite Hb; exact Hin].
Defined.

(** ** Drawing a polygon *)

Lemma closes_dec (r : State) (p : Point) :
  ((3 <=? List.length (pendingPoly (canvas r)))%nat
   && Rltb (sqrt ((Point.x p - Point.x (pointAt (pendingPoly (canvas r)) 0)) ^ 2
                  + (Point.y p - Point.y (pointAt (pendingPoly (canvas r)) 0)) ^ 2))
           (15 / ViewTransform.scale (transform (app r))) = true)
  <-> closesPolygon r p.
Proof.
  unfold closesPolygon, getDistance. rewrite andb_true_iff, Nat.leb_le, Rltb_true. tauto.
Qed.

Lemma polygon_close (env : Env) (e : MouseEvent) (r : State) :
  polygonClick r e ->
  let p := CanvasArea.getRelativeImagePos r env e in
  closesPolygon r p ->
  let s := dispatch (CanvasArea.handleMouseDown env e) r in
  annotations (app s) =
    (annotations (app r) ++ [newPoly env r (pendingPoly (canvas r))])%list
  /\ pendingPoly (canvas s) = [].
Proof.
  intros (Ht & Hsp & Hb) p Hc. apply closes_dec in Hc.
  unfold dispatch, CanvasArea.handleMouseDown, CanvasArea.isPan.
  rewrite Ht, Hsp, Hb. cbn [orb Nat.eqb negb].
  fold p. unfold seqH at 1. rewrite Hc.
  destruct r as [[isz anns sel tool T pad hist km lp] [? ? ? ? ? ? ? pending ? ? ?]].
  cbn in *.
  destruct (List.length pending =? 0)%nat; cbn; auto.
Qed.

Lemma polygon_append (env : Env) (e : MouseEvent) (r : State) :
  polygonClick r e ->
  let p := CanvasArea.getRelativeImagePos r env e in
  ~ closesPolygon r p ->
  let s := dispatch (CanvasArea.handleMouseDown env e) r in
  annotations (app s) = annotations (app r)
  /\ pendingPoly (canvas s) = (pendingPoly (canvas r) ++ [p])%list
  /\ currentTool (app s) = currentTool (app r)
  /\ isSpacePressed (canvas s) = isSpacePressed (canvas r)
  /\ transform (app s) = transform (app r)
  /\ canvasPadding (app s) = canvasPadding (app r).
Proof.
  intros (Ht & Hsp & Hb) p Hc. rewrite <- closes_dec in Hc. apply not_true_is_false in Hc.
  unfold dispatch, CanvasArea.handleMouseDown, CanvasArea.isPan.
  rewrite Ht, Hsp, Hb. cbn [orb Nat.eqb negb].
  fold p. unfold seqH at 1. rewrite Hc.
  destruct r as [[isz anns sel tool T pad hist km lp] [? ? ? ? ? ? ? pending ? ? ?]].
  cbn in *.
  destruct (List.length pending =? 0)%nat; cbn; auto 10.
Qed.

(** A click while fewer than three points are pending appends. *)
Lemma polygon_append_short (env : Env) (e : MouseEvent) (r : State) :
  polygonClick r e ->
  (List.length (pendingPoly (canvas r)) < 3)%nat ->
  let p := CanvasArea.getRelativeImagePos r env e in
  let s := dispatch (CanvasArea.handleMouseDown env e) r in
  annotations (app s) = annotations (app r)
  /\ pendingPoly (canvas s) = (pendingPoly (canvas r) ++ [p])%list
  /\ (forall e', MouseEvent.button e' = 0%nat -> polygonClick s e')
  /\ (forall e', CanvasArea.getRelativeImagePos s env e'
                 = CanvasArea.getRelativeImagePos r env e')
  /\ scaleOf s = scaleOf r.
Proof.
  intros Hc Hlen p s.
  assert (Hn : ~ closesPolygon r p) by (intros [H _]; lia).
  destruct (polygon_append env e r Hc Hn) as (Ha & Hp & Ht & Hsp & HT & Hpad).
  fold s in Ha, Hp, Ht, Hsp, HT, Hpad. destruct Hc as (Ht0 & Hsp0 & _).
  split; [exact Ha|]. split; [exact Hp|]. split; [|split].
  - intros e' He'. unfold polygonClick. rewrite Ht, Hsp. auto.
  - intros e'. apply getRelativeImagePos_eq; assumption.
  - unfold scaleOf. rewrite HT. reflexivity.
Qed.

(** C7: with the polygon tool, a pointer-down (left button, not panning)
    that lands strictly within [15 / scale] image units of the first pending
    point while at least 3 points are pending appends a polygon whose points
    are exactly the pending ones and clears the pending list; any other such
    pointer-down appends the clicked point to the pending list.  Clicks at
    (0,0), (10,0), (10,10) leave these three points pending; a fourth click
    within [15 / scale] of (0,0) commits the 3-point polygon, a fourth click
    farther away becomes the fourth pending point. *)
Theorem C7_polygon_close_or_append (env : Env) :
  (forall r e,
     polygonClick r e ->
     let p := CanvasArea.getRelativeImagePos r env e in
     let s := dispatch (CanvasArea.handleMouseDown env e) r in
     (closesPolygon r p ->
      exists poly,
        annotations (app s) = (annotations (app r) ++ [poly])%list
        /\ type poly = shape_polygon
        /\ points poly = pendingPoly (canvas r)
        /\ pendingPoly (canvas s) = [])
     /\ (~ closesPolygon r p ->
         annotations (app s) = annotations (app r)
         /\ pendingPoly (canvas s) = (pendingPoly (canvas r) ++ [p])%list))
  /\ (forall r e1 e2 e3 e4,
        polygonClick r e1 ->
        MouseEvent.button e2 = 0%nat ->
        MouseEvent.button e3 = 0%nat ->
        MouseEvent.button e4 = 0%nat ->
        pendingPoly (canvas r) = [] ->
        CanvasArea.getRelativeImagePos r env e1 = Point.mk 0 0 ->
        CanvasArea.getRelativeImagePos r env e2 = Point.mk 10 0 ->
        CanvasArea.getRelativeImagePos r env e3 = Point.mk 10 10 ->
        let p4 := CanvasArea.getRelativeImagePos r env e4 in
        let s3 := clicks env [e1; e2; e3] r in
        let s4 := dispatch (CanvasArea.handleMouseDown env e4) s3 in
                pendingPoly (canvas s3) = triangle
        /\ annotations (app s3) = annotations (app r)
        /\ (getDistance (Point.mk 0 0) p4 < 15 / scaleOf r ->
            exists poly,
              annotations (app s4) = (annotations (app r) ++ [poly])%list
              /\ type poly = shape_polygon
              /\ points poly = triangle
              /\ pendingPoly (canvas s4) = [])
        /\ (~ getDistance (Point.mk 0 0) p4 < 15 / scaleOf r ->
            annotations (app s4) = annotations (app r)
            /\ pendingPoly (canvas s4) = (triangle ++ [p4])%list)).
Proof.
  split.
  - intros r e Hc p s. split.
    + intros Hcl. destruct (polygon_close env e r Hc Hcl) as [Ha Hp].
      exists (newPoly env r (pendingPoly (canvas r))). auto.
    + intros Hn. destruct (polygon_append env e r Hc Hn) as (Ha & Hp & _). auto.
  - intros r e1 e2 e3 e4 Hc1 Hb2 Hb3 Hb4 Hempty Hp1 Hp2 Hp3 p4 s3 s4.
    unfold clicks, run in s3. cbn [map fold_left] in s3.
    set (s1 := dispatch (CanvasArea.handleMouseDown env e1) r) in *.
    set (s2 := dispatch (CanvasArea.handleMouseDown env e2) s1) in *.
    destruct (polygon_append_short env e1 r Hc1) as (Ha1 & Hq1 & Hc1' & Hpos1 & Hsc1);
      [rewrite Hempty; cbn; lia|].
    fold s1 in Ha1, Hq1, Hc1', Hpos1, Hsc1.
    rewrite Hempty, Hp1 in Hq1. cbn [List.app] in Hq1.
    destruct (polygon_append_short env e2 s1 (Hc1' e2 Hb2)) as (Ha2 & Hq2 & Hc2' & Hpos2 & Hsc2);
      [rewrite Hq1; cbn; lia|].
    fold s2 in Ha2, Hq2, Hc2', Hpos2, Hsc2.
    rewrite Hq1, Hpos1, Hp2 in Hq2. cbn [List.app] in Hq2.
    destruct (polygon_append_short env e3 s2 (Hc2' e3 Hb3)) as (Ha3 & Hq3 & Hc3' & Hpos3 & Hsc3);
      [rewrite Hq2; cbn; lia|].
    fold s3 in Ha3, Hq3, Hc3', Hpos3, Hsc3.
    rewrite Hq2, Hpos2, Hpos1, Hp3 in Hq3. cbn [List.app] in Hq3.
    assert (Hp4 : CanvasArea.getRelativeImagePos s3 env e4 = p4)
      by (rewrite Hpos3, Hpos2, Hpos1; reflexivity).
    assert (Hcl : closesPolygon s3 p4 <-> getDistance (Point.mk 0 0) p4 < 15 / scaleOf r).
    { unfold closesPolygon. rewrite Hq3. cbn [List.length pointAt nth].
      fold (scaleOf s3). rewrite Hsc3, Hsc2, Hsc1. split; [tauto|]. split; [lia|assumption]. }
    split; [exact Hq3|]. split; [congruence|]. split.
    + intros Hd. apply Hcl in Hd. rewrite <- Hp4 in Hd.
      destruct (polygon_close env e4 s3 (Hc3' e4 Hb4) Hd) as [Ha4 Hq4].
      fold s4 in Ha4, Hq4.
      exists (newPoly env s3 (pendingPoly (canvas s3))).
      split; [rewrite Ha4; congruence|]. split; [reflexivity|]. split; [exact Hq3|exact Hq4].
    + intros Hd. rewrite <- Hcl, <- Hp4 in Hd.
      destruct (polygon_append env e4 s3 (Hc3' e4 Hb4) Hd) as (Ha4 & Hq4 & _).
      fold s4 in Ha4, Hq4. rewrite Hp4, Hq3 in Hq4.
      split; [congruence|exact Hq4].
Qed.

Lemma C7_polygon_close_or_append_witness :
  polygonClick polyPending (leftClickAt 52 50)
  /\ closesPolygon polyPending
       (CanvasArea.getRelativeImagePos polyPending atOrigin (leftClickAt 52 50))
  /\ exists poly,
       annotations
         (app (dispatch (CanvasArea.handleMouseDown atOrigin (leftClickAt 52 50))
                        polyPending))
       = [poly]
       /\ type poly = shape_polygon
       /\ points poly = triangle
       /\ pendingPoly
            (canvas (dispatch (CanvasArea.handleMouseDown atOrigin (leftClickAt 52 50))
                              polyPending))
          = [].
Proof.
  assert (Hc : polygonClick polyPending (leftClickAt 52 50)) by (repeat split).
  assert (Hcl : closesPolygon polyPending
                  (CanvasArea.getRelativeImagePos polyPending atOrigin
                     (leftClickAt 52 50))).
  { split; [cbn; lia|]. unfold getDistance. cbn.
    replace (15 / 1) with (sqrt (15 * 15)) by (rewrite sqrt_square; lra).
    apply sqrt_lt_1_alt. lra. }
  split; [exact Hc|]. split; [exact Hcl|].
  exact (proj1 (proj1 (C7_polygon_close_or_append atOrigin)
                  polyPending (leftClickAt 52 50) Hc) Hcl).
Defined.

(** ** Alignment *)

Lemma fold_Rmin_spec rest x :
  let m := fold_left Rmin rest x in
  In m (x :: rest) /\ forall z, In z (x :: rest) -> m <= z.
Proof.
  revert x; induction rest as [|y rest IH]; intros x; cbn [fold_left].
  - split; [left; reflexivity|]. intros z [<-|[]]. lra.
  - destruct (IH (Rmin x y)) as [Hin Hle]. split.
    + destruct Hin as [E|Hin].
      * rewrite <- E. unfold Rmin. destruct (Rle_dec x y); [left|right; left]; reflexivity.
      * right; right; exact Hin.
    + intros z [<-|[<-|Hz]].
      * eapply Rle_trans; [apply Hle; left; reflexivity|apply Rmin_l].
      * eapply Rle_trans; [apply Hle; left; reflexivity|apply Rmin_r].
      * apply Hle. right; exact Hz.
Qed.

Lemma Math_min_spec xs m :
  Math_min xs = Some m -> In m xs /\ forall z, In z xs -> m <= z.
Proof.
  destruct xs as [|x rest]; cbn; [discriminate|].
  intros [= <-]. apply fold_Rmin_spec.
Qed.

Lemma Math_min_nonempty xs : xs <> [] -> exists m, Math_min xs = Some m.
Proof. destruct xs; [congruence|]. cbn. eauto. Qed.

Lemma Math_max_nonempty xs : xs <> [] -> exists m, Math_max xs = Some m.
Proof. destruct xs; [congruence|]. cbn. eauto. Qed.

Lemma Rmin_shift a b d : Rmin (a + d) (b + d) = Rmin a b + d.
Proof. unfold Rmin. destruct (Rle_dec (a + d) (b + d)), (Rle_dec a b); lra. Qed.

Lemma fold_Rmin_shift d rest x :
  fold_left Rmin (map (fun z => z + d) rest) (x + d) = fold_left Rmin rest x + d.
Proof.
  revert x; induction rest as [|y rest IH]; intros x; cbn; [reflexivity|].
  rewrite <- IH. f_equal. apply Rmin_shift.
Qed.

Lemma Math_min_shift d xs :
  Math_min (map (fun z => z + d) xs) = option_map (fun m => m + d) (Math_min xs).
Proof.
  destruct xs as [|x rest]; cbn; [reflexivity|]. f_equal. apply fold_Rmin_shift.
Qed.

Lemma getPointsBounds_nonempty pts :
  pts <> [] -> exists b, getPointsBounds pts = Some b.
Proof.
  destruct pts as [|p rest]; [congruence|]. intros _. cbn. eauto.
Qed.

Lemma getPointsBounds_minX pts b :
  getPointsBounds pts = Some b -> Math_min (map Point.x pts) = Some (minX b).
Proof.
  unfold getPointsBounds.
  destruct (Math_min (map Point.x pts)), (Math_max (map Point.x pts)),
           (Math_min (map Point.y pts)), (Math_max (map Point.y pts)); try discriminate.
  intros [= <-]. reflexivity.
Qed.

Lemma moveAnnotation_minX a dx dy b :
  getAnnotationBounds a = Some b ->
  minXOf (moveAnnotation a dx dy) = Some (minX b + dx).
Proof.
  unfold minXOf, getAnnotationBounds. intros H.
  assert (Hne : points a <> []) by (intros E; rewrite E in H; discriminate).
  destruct (getPointsBounds_nonempty (points (moveAnnotation a dx dy))) as [b' Hb'].
  { cbn. destruct (points a); [congruence|discriminate]. }
  rewrite Hb'. cbn [option_map]. f_equal.
  apply getPointsBounds_minX in H, Hb'.
  cbn [moveAnnotation withPoints points] in Hb'.
  rewrite map_map in Hb'. cbn [movePoint Point.x] in Hb'.
  rewrite <- (map_map Point.x (fun z => z + dx)), Math_min_shift, H in Hb'.
  cbn in Hb'. congruence.
Qed.

Lemma mapM_Forall2 {A B} (f : A -> option B) l :
  (forall a, In a l -> exists b, f a = Some b) ->
  exists bs, mapM f l = Some bs /\ Forall2 (fun a b => f a = Some b) l bs.
Proof.
  induction l as [|a l IH]; intros H; cbn.
  - eauto.
  - destruct (H a (or_introl eq_refl)) as [b Hb]. rewrite Hb.
    destruct IH as (bs & -> & HF); [intros; apply H; right; assumption|].
    eauto.
Qed.

Lemma Forall2_length_eq {A B} (R : A -> B -> Prop) l l' :
  Forall2 R l l' -> List.length l = List.length l'.
Proof. induction 1; cbn; congruence. Qed.

Lemma Forall2_In_l {A B} (R : A -> B -> Prop) l l' a :
  Forall2 R l l' -> In a l -> exists b, In b l' /\ R a b.
Proof.
  induction 1; intros Hin; [contradiction|].
  destruct Hin as [<-|Hin]; [eauto using in_eq|].
  destruct (IHForall2 Hin) as (b & ? & ?). eauto using in_cons.
Qed.

Lemma Forall2_In_r {A B} (R : A -> B -> Prop) l l' b :
  Forall2 R l l' -> In b l' -> exists a, In a l /\ R a b.
Proof.
  induction 1; intros Hin; [contradiction|].
  destruct Hin as [<-|Hin]; [eauto using in_eq|].
  destruct (IHForall2 Hin) as (a & ? & ?). eauto using in_cons.
Qed.

Lemma moveAnnotation_movedX a dx : movedX dx a (moveAnnotation a dx 0).
Proof.
  unfold movedX, moveAnnotation. f_equal. apply map_ext. intros [px py].
  unfold movePoint. cbn. f_equal. lra.
Qed.

Lemma handleAlign_left r :
  (2 <= List.length (selectedAnns r))%nat ->
  (forall a, In a (selectedAnns r) -> points a <> []) ->
  exists s g,
    App.handleAlign App.align_left r r = Some s
    /\ (exists a b, In a (selectedAnns r) /\ getAnnotationBounds a = Some b /\ minX b = g)
    /\ (forall a, In a (selectedAnns r) ->
          exists b, getAnnotationBounds a = Some b /\ g <= minX b)
    /\ Forall2 (fun a a' =>
                  if isSelected r a
                  then (exists dx, movedX dx a a')
                       /\ minXOf a' = Some g
                  else a' = a)
               (annotations (app r)) (annotations (app s)).
Proof.
  intros Hlen Hne.
  assert (Hb : forall a, In a (selectedAnns r) -> exists b, getAnnotationBounds a = Some b).
  { intros a Ha. apply getPointsBounds_nonempty, Hne, Ha. }
  destruct (mapM_Forall2 getAnnotationBounds (selectedAnns r) Hb) as (allBounds & HallB & HF).
  assert (Hlen' : List.length allBounds = List.length (selectedAnns r))
    by (symmetry; eapply Forall2_length_eq; eassumption).
  assert (HneB : forall f : BoundingBox -> R, map f allBounds <> []).
  { intros f E. apply (f_equal (@List.length R)) in E. rewrite length_map in E. cbn in E. lia. }
  destruct (Math_min_nonempty _ (HneB minX)) as [g Hg].
  destruct (Math_max_nonempty _ (HneB maxX)) as [gMaxX HgMaxX].
  destruct (Math_min_nonempty _ (HneB minY)) as [gMinY HgMinY].
  destruct (Math_max_nonempty _ (HneB maxY)) as [gMaxY HgMaxY].
  destruct (Math_min_spec _ _ Hg) as [Hgin Hgle].
  assert (Hstep : forall ann, In ann (annotations (app r)) ->
            exists ann',
              (if negb (includes (selectedIds (app r)) (id ann)) then Some ann
               else match getAnnotationBounds ann with
                    | Some bounds =>
                        let '(dx, dy) := (g - minX bounds, 0) in
                        Some (moveAnnotation ann dx dy)
                    | None => None
                    end) = Some ann').
  { intros ann Hin. fold (isSelected r ann).
    destruct (isSelected r ann) eqn:Hsel; cbn [negb]; [|eauto].
    destruct (Hb ann) as [b ->]; [apply filter_In; split; assumption|]. eauto. }
  destruct (mapM_Forall2 _ _ Hstep) as (newAnns & HnewAnns & HF2).
  exists (dispatch (App.snapshotHistory "对齐标注" ;; setAnnotations (fun _ => newAnns)) r), g.
  split; [|split; [|split]].
  - unfold App.handleAlign. fold (isSelected r). fold (selectedAnns r).
    replace (List.length (selectedAnns r) <? 2)%nat with false
      by (symmetry; apply Nat.ltb_ge; exact Hlen).
    rewrite HallB, Hg, HgMaxX, HgMinY, HgMaxY. unfold isSelected in *.
    rewrite HnewAnns. reflexivity.
  - apply in_map_iff in Hgin. destruct Hgin as (b & Hbg & Hbin).
    destruct (Forall2_In_r _ _ _ _ HF Hbin) as (a & Ha & Hab). eauto.
  - intros a Ha. destruct (Forall2_In_l _ _ _ _ HF Ha) as (b & Hbin & Hab).
    exists b. split; [exact Hab|]. apply Hgle, in_map, Hbin.
  - replace (annotations (app (dispatch (App.snapshotHistory "对齐标注" ;; setAnnotations (fun _ => newAnns)) r)))
      with newAnns by (destruct r as [[] ?]; reflexivity).
    clear -HF2. induction HF2 as [|a a' l l' Ha _ IH]; constructor; [|exact IH].
    fold (isSelected r a) in Ha.
    destruct (isSelected r a); cbn [negb] in Ha; [|congruence].
    destruct (getAnnotationBounds a) as [b|] eqn:Eb; [|discriminate].
    injection Ha as <-. split.
    + eexists. apply moveAnnotation_movedX.
    + rewrite (moveAnnotation_minX _ _ _ _ Eb). f_equal. lra.
Qed.

Lemma handleAlign_few r ty :
  (List.length (selectedAnns r) < 2)%nat -> App.handleAlign ty r r = Some r.
Proof.
  intros H. unfold App.handleAlign. fold (isSelected r). fold (selectedAnns r).
  apply Nat.ltb_lt in H. rewrite H. reflexivity.
Qed.

(** C8: when at least 2 of the annotations are selected (each with at least
    one point), [handleAlign('left')] moves every selected annotation along x
    only, so that its bounding-box [minX] becomes [g], the least [minX] of the
    selected annotations, and leaves the others as they are; with fewer than
    2 selected the handler changes nothing.  For [A] with x-bounds [0, 10] and
    [B] with x-bounds [20, 30], both selected, both end with [minX = 0]. *)
Theorem C8_align_left (r : State) :
  ((2 <= List.length (selectedAnns r))%nat ->
   (forall a, In a (selectedAnns r) -> points a <> []) ->
   exists s g,
     App.handleAlign App.align_left r r = Some s
     /\ (exists a, In a (selectedAnns r) /\ minXOf a = Some g)
     /\ (forall a, In a (selectedAnns r) -> exists m, minXOf a = Some m /\ g <= m)
     /\ Forall2 (fun a a' =>
                   if isSelected r a
                   then (exists dx, movedX dx a a') /\ minXOf a' = Some g
                   else a' = a)
                (annotations (app r)) (annotations (app s)))
  /\ ((List.length (selectedAnns r) < 2)%nat ->
      forall ty, App.handleAlign ty r r = Some r)
  /\ (forall A B bA bB,
        annotations (app r) = [A; B] ->
        selectedIds (app r) = [id A; id B] ->
        getAnnotationBounds A = Some bA -> minX bA = 0 -> maxX bA = 10 ->
        getAnnotationBounds B = Some bB -> minX bB = 20 -> maxX bB = 30 ->
        exists s A' B',
          App.handleAlign App.align_left r r = Some s
          /\ annotations (app s) = [A'; B']
          /\ minXOf A' = Some 0 /\ minXOf B' = Some 0).
Proof.
  split; [|split].
  - intros Hlen Hne.
    destruct (handleAlign_left r Hlen Hne) as (s & g & Hs & (a & b & Ha & Hb & Hg) & Hle & HF).
    exists s, g. split; [exact Hs|]. split; [|split; [|exact HF]].
    + exists a. split; [exact Ha|]. unfold minXOf. rewrite Hb. cbn. congruence.
    + intros a' Ha'. destruct (Hle a' Ha') as (b' & Hb' & Hle').
      exists (minX b'). unfold minXOf. rewrite Hb'. auto.
  - intros Hlen ty. apply handleAlign_few, Hlen.
  - intros A B bA bB Hanns Hsel HbA HA0 HA1 HbB HB0 HB1.
    assert (HselA : isSelected r A = true).
    { unfold isSelected. rewrite Hsel. cbn. rewrite String.eqb_refl. reflexivity. }
    assert (HselB : isSelected r B = true).
    { unfold isSelected. rewrite Hsel. cbn. rewrite String.eqb_refl.
      apply orb_true_iff. right. reflexivity. }
    assert (Hsa : selectedAnns r = [A; B]).
    { unfold selectedAnns. rewrite Hanns. cbn. rewrite HselA, HselB. reflexivity. }
    destruct (handleAlign_left r) as (s & g & Hs & (a & b & Ha & Hb & Hg) & Hle & HF).
    { rewrite Hsa. cbn. lia. }
    { intros a Ha E. rewrite Hsa in Ha.
      destruct Ha as [<-|[<-|[]]]; unfold getAnnotationBounds in *;
        rewrite E in *; discriminate. }
    assert (Hg0 : g = 0).
    { destruct (Hle A) as (b' & Hb' & Hle'); [rewrite Hsa; left; reflexivity|].
      rewrite HbA in Hb'. injection Hb' as <-.
      rewrite Hsa in Ha. destruct Ha as [<-|[<-|[]]].
      - rewrite HbA in Hb. injection Hb as <-. congruence.
      - rewrite HbB in Hb. injection Hb as <-. lra. }
    rewrite Hanns in HF.
    inversion HF as [|? A' ? l' HA HF' E1 E2]; subst.
    inversion HF' as [|? B' ? l'' HB HF'' E1' E2']; subst.
    inversion HF''; subst.
    rewrite HselA in HA. rewrite HselB in HB.
    destruct HA as [_ HA]. destruct HB as [_ HB].
    exists s, A', B'. split; [exact Hs|]. split; [congruence|]. split; congruence.
Qed.

Lemma C8_align_left_witness :
  (2 <= List.length (selectedAnns twoBoxes))%nat
  /\ (forall a, In a (selectedAnns twoBoxes) -> points a <> [])
  /\ exists s g,
       App.handleAlign App.align_left twoBoxes twoBoxes = Some s
       /\ (exists a, In a (selectedAnns twoBoxes) /\ minXOf a = Some g)
       /\ (forall a, In a (selectedAnns twoBoxes) -> exists m, minXOf a = Some m /\ g <= m)
       /\ Forall2 (fun a a' =>
                     if isSelected twoBoxes a
                     then (exists dx, movedX dx a a') /\ minXOf a' = Some g
                     else a' = a)
                  (annotations (app twoBoxes)) (annotations (app s)).
Proof.
  assert (Hlen : (2 <= List.length (selectedAnns twoBoxes))%nat) by (cbn; lia).
  assert (Hne : forall a, In a (selectedAnns twoBoxes) -> points a <> []).
  { intros a [<-|[<-|[]]]; discriminate. }
  split; [exact Hlen|]. split; [exact Hne|].
  exact (proj1 (C8_align_left twoBoxes) Hlen Hne).
Defined.

(** ** Polygon area *)

Lemma sumTo_ext g h n :
  (forall i, (i < n)%nat -> g i = h i) -> sumTo g n = sumTo h n.
Proof.
  induction n; intros H; cbn; [reflexivity|].
  rewrite IHn by (intros; apply H; lia). rewrite H by lia. reflexivity.
Qed.

Lemma sumTo_shift g n : sumTo g (S n) = g 0%nat + sumTo (fun i => g (S i)) n.
Proof.
  induction n; cbn in *; [lra|]. rewrite IHn. lra.
Qed.

Lemma sumTo_plus g h n : sumTo (fun i => g i + h i) n = sumTo g n + sumTo h n.
Proof. induction n; cbn; [lra|]. rewrite IHn. lra. Qed.

Lemma sumTo_opp g n : sumTo (fun i => - g i) n = - sumTo g n.
Proof. induction n; cbn; [lra|]. rewrite IHn. lra. Qed.

Lemma sumTo_scal c g n : sumTo (fun i => c * g i) n = c * sumTo g n.
Proof. induction n; cbn; [lra|]. rewrite IHn. lra. Qed.

(** Reading the terms from the last to the first. *)
Lemma sumTo_rev g n : sumTo (fun i => g (n - 1 - i)%nat) n = sumTo g n.
Proof.
  revert g; induction n; intros g; [reflexivity|].
  rewrite sumTo_shift. cbn [sumTo].
  replace (S n - 1 - 0)%nat with n by lia.
  rewrite <- (IHn g). rewrite Rplus_comm. f_equal.
  apply sumTo_ext. intros i Hi. f_equal. lia.
Qed.

(** Reading the terms from the second on, the first one last. *)
Lemma sumTo_rot g n : sumTo (fun i => g ((i + 1) mod n)%nat) n = sumTo g n.
Proof.
  destruct n; [reflexivity|].
  rewrite (sumTo_shift g). cbn [sumTo].
  replace ((n + 1) mod S n)%nat with 0%nat
    by (replace (n + 1)%nat with (S n) by lia; symmetry; apply Nat.Div0.mod_same).
  rewrite Rplus_comm. f_equal.
  apply sumTo_ext. intros i Hi.
  rewrite Nat.mod_small by lia. f_equal. lia.
Qed.

Lemma loop_sumTo (u : nat -> R) (v : nat -> R) n :
  fold_left (fun area i => area + u i - v i) (seq 0 n) 0 = sumTo (fun i => u i - v i) n.
Proof.
  induction n; [reflexivity|].
  rewrite seq_S, fold_left_app, IHn. cbn. lra.
Qed.

Lemma shoelaceSum_sumTo pts :
  shoelaceSum pts =
  sumTo (fun i => cross (pointAt pts i) (pointAt pts ((i + 1) mod List.length pts))) (List.length pts).
Proof.
  unfold shoelaceSum. cbv zeta.
  rewrite (loop_sumTo
             (fun i => Point.x (pointAt pts i) * Point.y (pointAt pts ((i + 1) mod List.length pts)))
             (fun i => Point.x (pointAt pts ((i + 1) mod List.length pts)) * Point.y (pointAt pts i))).
  reflexivity.
Qed.

Lemma pointAt_map dx dy pts i :
  (i < List.length pts)%nat ->
  pointAt (map (movePoint dx dy) pts) i = movePoint dx dy (pointAt pts i).
Proof.
  intros Hi. unfold pointAt.
  rewrite (nth_indep _ _ (movePoint dx dy (Point.mk 0 0))) by (rewrite length_map; exact Hi).
  apply map_nth.
Qed.

Lemma pointAt_rev pts i :
  (i < List.length pts)%nat ->
  pointAt (rev pts) i = pointAt pts (List.length pts - 1 - i).
Proof.
  intros Hi. unfold pointAt. rewrite rev_nth by exact Hi. f_equal. lia.
Qed.

Lemma next_lt i n : (i < n)%nat -> ((i + 1) mod n < n)%nat.
Proof. intros. apply Nat.mod_upper_bound. lia. Qed.

Lemma shoelaceSum_translate dx dy pts :
  shoelaceSum (map (movePoint dx dy) pts) = shoelaceSum pts.
Proof.
  rewrite !shoelaceSum_sumTo, length_map.
  set (n := List.length pts).
  set (X := fun i => Point.x (pointAt pts i)).
  set (Y := fun i => Point.y (pointAt pts i)).
  rewrite (sumTo_ext _
    (fun i => cross (pointAt pts i) (pointAt pts ((i + 1) mod n))
              + (dy * (X i - X ((i + 1) mod n)%nat)
                 + dx * (Y ((i + 1) mod n)%nat - Y i)))).
  2:{ intros i Hi. rewrite !pointAt_map by (try apply next_lt; exact Hi).
      unfold cross, movePoint, X, Y. cbn. ring. }
  rewrite sumTo_plus, sumTo_plus, !sumTo_scal.
  assert (HX : sumTo (fun i => X i - X ((i + 1) mod n)%nat) n = 0).
  { rewrite (sumTo_ext _ (fun i => X i + - X ((i + 1) mod n)%nat)) by (intros; ring).
    rewrite sumTo_plus, sumTo_opp, (sumTo_rot X). ring. }
  assert (HY : sumTo (fun i => Y ((i + 1) mod n)%nat - Y i) n = 0).
  { rewrite (sumTo_ext _ (fun i => Y ((i + 1) mod n)%nat + - Y i)) by (intros; ring).
    rewrite sumTo_plus, sumTo_opp, (sumTo_rot Y). ring. }
  rewrite HX, HY. ring.
Qed.

Lemma prev_next i n : (i < n)%nat -> (((i + 1) mod n + (n - 1)) mod n = i)%nat.
Proof.
  intros Hi. destruct (Nat.eq_dec (i + 1) n) as [E|E].
  - subst n. rewrite Nat.Div0.mod_same, Nat.add_0_l, Nat.mod_small; lia.
  - rewrite (Nat.mod_small (i + 1)) by lia.
    replace (i + 1 + (n - 1))%nat with (i + 1 * n)%nat by lia.
    rewrite Nat.Div0.mod_add. apply Nat.mod_small. exact Hi.
Qed.

Lemma rev_next i n :
  (i < n)%nat -> (n - 1 - (i + 1) mod n = (n - 1 - i + (n - 1)) mod n)%nat.
Proof.
  intros Hi. destruct (Nat.eq_dec (i + 1) n) as [E|E].
  - subst n. rewrite Nat.Div0.mod_same.
    replace (i + 1 - 1 - i)%nat with 0%nat by lia.
    rewrite Nat.add_0_l, Nat.mod_small; lia.
  - rewrite (Nat.mod_small (i + 1)) by lia.
    replace (n - 1 - i + (n - 1))%nat with (n - 1 - (i + 1) + 1 * n)%nat by lia.
    rewrite Nat.Div0.mod_add. symmetry. apply Nat.mod_small. lia.
Qed.

Lemma shoelaceSum_rev pts : shoelaceSum (rev pts) = - shoelaceSum pts.
Proof.
  rewrite !shoelaceSum_sumTo, length_rev.
  set (n := List.length pts).
  (* the edge that ends at [k] *)
  set (h := fun k => cross (pointAt pts k) (pointAt pts ((k + (n - 1)) mod n))).
  rewrite (sumTo_ext _ (fun i => h (n - 1 - i)%nat)).
  2:{ intros i Hi. unfold h.
      rewrite !pointAt_rev by (try apply next_lt; exact Hi).
      fold n. rewrite (rev_next i n Hi). reflexivity. }
  rewrite (sumTo_rev h), <- (sumTo_rot h), <- sumTo_opp.
  apply sumTo_ext. intros i Hi. unfold h.
  rewrite (prev_next i n Hi). unfold cross. ring.
Qed.

(** C9: for every list of points, the area that [calculatePolygonArea]
    computes by the shoelace formula is unchanged when the same offset
    [(dx, dy)] is added to every point, and unchanged when the order of the
    points is reversed (the absolute value of the signed sum is taken). *)
Theorem C9_area_translation_reversal (pts : list Point) (dx dy : R) :
  calculatePolygonArea (map (movePoint dx dy) pts) = calculatePolygonArea pts
  /\ calculatePolygonArea (rev pts) = calculatePolygonArea pts.
Proof.
  unfold calculatePolygonArea.
  rewrite shoelaceSum_translate, shoelaceSum_rev, Rabs_Ropp. split; reflexivity.
Qed.

(** ** Locked annotations *)

Section Stable.
Context {X : Type} (G : list Annotation -> X).


Lemma stable_skip r : stable G r skip.
Proof. intros s H. exact H. Qed.

Lemma stable_seq r h1 h2 : stable G r h1 -> stable G r h2 -> stable G r (h1 ;; h2).
Proof. intros H1 H2 s H. apply H2, H1, H. Qed.

Lemma stable_when r b h : stable G r h -> stable G r (when b h).
Proof. intros H. destruct b; [exact H|apply stable_skip]. Qed.

Lemma stable_updCanvas r f : stable G r (updCanvas f).
Proof. intros s H. exact H. Qed.

Lemma stable_updApp r f :
  (forall a, annotations (f a) = annotations a) -> stable G r (updApp f).
Proof. intros Hf s H. unfold updApp. cbn. rewrite Hf. exact H. Qed.

End Stable.

Ltac stable_setter :=
  first
    [ apply stable_updCanvas
    | apply stable_updApp; intros []; reflexivity ].

Section StableHandlers.
Context {X : Type} (G : list Annotation -> X) (r : State).

Lemma stable_setSelectedIds f : stable G r (setSelectedIds f).
Proof. stable_setter. Qed.
Lemma stable_setCurrentTool f : stable G r (setCurrentTool f).
Proof. stable_setter. Qed.
Lemma stable_setTransform f : stable G r (setTransform f).
Proof. stable_setter. Qed.
Lemma stable_setHistory f : stable G r (setHistory f).
Proof. stable_setter. Qed.
Lemma stable_setLabelPopup f : stable G r (setLabelPopup f).
Proof. stable_setter. Qed.
Lemma stable_setIsDragging v : stable G r (setIsDragging v).
Proof. stable_setter. Qed.
Lemma stable_setDragStart v : stable G r (setDragStart v).
Proof. stable_setter. Qed.
Lemma stable_setCurrentMouseImagePos v : stable G r (setCurrentMouseImagePos v).
Proof. stable_setter. Qed.
Lemma stable_setIsHoveringStartPoint v : stable G r (setIsHoveringStartPoint v).
Proof. stable_setter. Qed.
Lemma stable_setHoveredEdge v : stable G r (setHoveredEdge v).
Proof. stable_setter. Qed.
Lemma stable_setHoveredAnnotationId v : stable G r (setHoveredAnnotationId v).
Proof. stable_setter. Qed.
Lemma stable_setTooltipPos v : stable G r (setTooltipPos v).
Proof. stable_setter. Qed.
Lemma stable_setPendingPoly f : stable G r (setPendingPoly f).
Proof. stable_setter. Qed.
Lemma stable_setPendingRectStart v : stable G r (setPendingRectStart v).
Proof. stable_setter. Qed.
Lemma stable_setActiveVertex v : stable G r (setActiveVertex v).
Proof. stable_setter. Qed.
Lemma stable_setIsSpacePressed v : stable G r (setIsSpacePressed v).
Proof. stable_setter. Qed.

Lemma stable_snapshotHistory action : stable G r (App.snapshotHistory action).
Proof. intros s H. unfold App.snapshotHistory. apply stable_setHistory, H. Qed.
End StableHandlers.

Create HintDb stable.
#[export] Hint Resolve
  stable_skip stable_seq stable_when
  stable_setSelectedIds stable_setCurrentTool stable_setTransform stable_setHistory
  stable_setLabelPopup stable_setIsDragging stable_setDragStart
  stable_setCurrentMouseImagePos stable_setIsHoveringStartPoint stable_setHoveredEdge
  stable_setHoveredAnnotationId stable_setTooltipPos stable_setPendingPoly
  stable_setPendingRectStart stable_setActiveVertex stable_setIsSpacePressed
  stable_snapshotHistory : stable.

(** Splits the conditionals of a handler and closes the branches that do
    not write the annotations. *)
Ltac stable_cases :=
  repeat first
    [ progress auto with stable
    | match goal with
      | |- stable _ _ (if ?b then _ else _) => destruct b eqn:?
      | |- stable _ _ (match ?o with _ => _ end) => destruct o eqn:?
      | |- stable _ _ (let '(_, _) := ?p in _) => destruct p eqn:?
      | |- stable _ _ (_ ;; _) => apply stable_seq
      | |- stable _ _ (when false _) => apply stable_skip
      | |- stable _ _ (when _ _) => apply stable_when
      end ].

Lemma stable_handleCancelDraw {X} (G : list Annotation -> X) r :
  stable G r CanvasArea.handleCancelDraw.
Proof. unfold CanvasArea.handleCancelDraw. stable_cases. Qed.

Lemma stable_handleUndoPoint {X} (G : list Annotation -> X) r :
  stable G r CanvasArea.handleUndoPoint.
Proof. unfold CanvasArea.handleUndoPoint. stable_cases. Qed.

Lemma stable_handleShapeComplete {X} (G : list Annotation -> X) r i p :
  stable G r (App.handleShapeComplete i p).
Proof. unfold App.handleShapeComplete. stable_cases. Qed.

Lemma stable_handleZoom {X} (G : list Annotation -> X) r d :
  stable G r (App.handleZoom d).
Proof. unfold App.handleZoom. stable_cases. Qed.

Lemma stable_handleResetView {X} (G : list Annotation -> X) r env :
  stable G r (App.handleResetView env).
Proof.
  intros s H. unfold App.handleResetView.
  destruct (Reqb _ 0); [exact H|]. apply stable_setTransform, H.
Qed.

#[export] Hint Resolve stable_handleCancelDraw stable_handleUndoPoint
  stable_handleShapeComplete stable_handleZoom stable_handleResetView : stable.


Lemma findAnnotation_id anns i a : findAnnotation anns i = Some a -> id a = i /\ In a anns.
Proof.
  intros H. apply find_some in H. destruct H as [Hin H].
  apply String.eqb_eq in H. auto.
Qed.

Lemma includes_In ids i : includes ids i = true <-> In i ids.
Proof.
  unfold includes. rewrite existsb_exists. split.
  - intros (j & Hj & E). apply String.eqb_eq in E. subst. exact Hj.
  - intros H. exists i. split; [exact H|apply String.eqb_refl].
Qed.









Lemma withPoints_locked a pts : locked (withPoints a pts) = locked a.
Proof. reflexivity. Qed.


Lemma stable_hoverEdge {X} (G : list Annotation -> X) r imgPos :
  stable G r (CanvasArea.hoverEdge r imgPos).
Proof. unfold CanvasArea.hoverEdge. stable_cases. Qed.

Lemma stable_hoverTooltip {X} (G : list Annotation -> X) r pos imgPos :
  stable G r (CanvasArea.hoverTooltip r pos imgPos).
Proof. unfold CanvasArea.hoverTooltip. stable_cases. Qed.

#[export] Hint Resolve stable_hoverEdge stable_hoverTooltip : stable.







(** * More properties of the code *)

(** ** Distances *)

Lemma sumsq_nonneg (a b : R) : 0 <= a ^ 2 + b ^ 2.
Proof. nra. Qed.

Lemma sumsq_zero (a b : R) : a ^ 2 + b ^ 2 = 0 -> a = 0 /\ b = 0.
Proof. rewrite <- !Rsqr_pow2. apply Rplus_sqr_eq_0. Qed.

Lemma getDistance_sq (p q : Point) :
  getDistance p q ^ 2 = (Point.x q - Point.x p) ^ 2 + (Point.y q - Point.y p) ^ 2.
Proof.
  unfold getDistance. rewrite <- Rsqr_pow2, Rsqr_sqrt; [reflexivity|apply sumsq_nonneg].
Qed.

Lemma getDistance_nonneg (p q : Point) : 0 <= getDistance p q.
Proof. apply sqrt_pos. Qed.

Lemma le_of_sq (a b : R) : 0 <= a -> 0 <= b -> a ^ 2 <= b ^ 2 -> a <= b.
Proof. intros Ha Hb H. nra. Qed.

(** X1: [getDistance] is a metric on points: never negative, symmetric, zero
    exactly between equal points, and it obeys the triangle inequality. *)
Theorem getDistance_is_a_metric (p q m : Point) :
  0 <= getDistance p q
  /\ getDistance p q = getDistance q p
  /\ (getDistance p q = 0 <-> p = q)
  /\ getDistance p q <= getDistance p m + getDistance m q.
Proof.
  split; [apply getDistance_nonneg|]. split; [|split].
  - unfold getDistance. f_equal. ring.
  - split.
    + intros H. unfold getDistance in H.
      apply sqrt_eq_0 in H; [|apply sumsq_nonneg].
      destruct p as [px py], q as [qx qy]. cbn in *.
      apply sumsq_zero in H. destruct H. f_equal; lra.
    + intros ->. unfold getDistance.
      replace ((Point.x q - Point.x q) ^ 2 + (Point.y q - Point.y q) ^ 2) with 0 by ring.
      apply sqrt_0.
  - apply le_of_sq.
    + apply getDistance_nonneg.
    + pose proof (getDistance_nonneg p m). pose proof (getDistance_nonneg m q). lra.
    + pose proof (sqrt_cauchy (Point.x m - Point.x p) (Point.y m - Point.y p)
                              (Point.x q - Point.x m) (Point.y q - Point.y m)) as Hc.
      rewrite !Rsqr_pow2 in Hc. fold (getDistance p m) (getDistance m q) in Hc.
      replace ((getDistance p m + getDistance m q) ^ 2)
        with (getDistance p m ^ 2 + 2 * (getDistance p m * getDistance m q)
              + getDistance m q ^ 2) by ring.
      rewrite !getDistance_sq. nra.
Qed.

Lemma getDistance_scaled (p q : Point) (s : R) :
  getDistance (Point.mk (Point.x p * s) (Point.y p * s))
              (Point.mk (Point.x q * s) (Point.y q * s))
  = Rabs s * getDistance p q.
Proof.
  unfold getDistance. cbn [Point.x Point.y].
  replace ((Point.x q * s - Point.x p * s) ^ 2 + (Point.y q * s - Point.y p * s) ^ 2)
    with (s ^ 2 * ((Point.x q - Point.x p) ^ 2 + (Point.y q - Point.y p) ^ 2)) by ring.
  rewrite sqrt_mult_alt by nra.
  rewrite <- Rsqr_pow2, sqrt_Rsqr_abs. reflexivity.
Qed.

(** X2: [isPointNearVertex point vertex threshold scale] holds exactly when
    [|scale|] times the image distance is below the threshold; at scale 1 it
    is the plain distance test, for a positive scale the test against
    [threshold / scale] at scale 1 (the form the canvas uses) is the same
    test, and the test is symmetric in the two points. *)
Theorem isPointNearVertex_screen_distance (point vertex : Point) (threshold scale : R) :
  (isPointNearVertex point vertex threshold scale = true
   <-> Rabs scale * getDistance point vertex < threshold)
  /\ (isPointNearVertex point vertex threshold 1 = true
      <-> getDistance point vertex < threshold)
  /\ (0 < scale ->
      (isPointNearVertex point vertex (threshold / scale) 1 = true
       <-> scale * getDistance point vertex < threshold))
  /\ isPointNearVertex point vertex threshold scale
     = isPointNearVertex vertex point threshold scale.
Proof.
  assert (H : forall p v t s,
             isPointNearVertex p v t s = true <-> Rabs s * getDistance p v < t).
  { intros p v t s. unfold isPointNearVertex. rewrite Rltb_true, getDistance_scaled.
    reflexivity. }
  split; [apply H|]. split; [|split].
  - rewrite H, Rabs_R1, Rmult_1_l. reflexivity.
  - intros Hs. rewrite H, Rabs_R1, Rmult_1_l. split; intros Hd.
    + apply (Rmult_lt_compat_l scale) in Hd; [|exact Hs].
      replace (scale * (threshold / scale)) with threshold in Hd by (field; lra). exact Hd.
    + apply (Rmult_lt_reg_l scale); [exact Hs|].
      replace (scale * (threshold / scale)) with threshold by (field; lra). exact Hd.
  - unfold isPointNearVertex. f_equal. unfold getDistance. cbn [Point.x Point.y].
    f_equal. ring.
Qed.

Lemma Reqb_true (a b : R) : Reqb a b = true <-> a = b.
Proof. unfold Reqb. destruct (Req_dec_T a b); split; intros; auto; discriminate. Qed.

Lemma clamp01 (t : R) : 0 <= Rmax 0 (Rmin 1 t) <= 1.
Proof. unfold Rmax, Rmin. destruct (Rle_dec 1 t); destruct (Rle_dec 0 _); lra. Qed.

Lemma getDistanceToSegment_along (p v w : Point) :
  exists t, 0 <= t <= 1 /\ getDistanceToSegment p v w = getDistance p (along v w t).
Proof.
  unfold getDistanceToSegment. cbv zeta.
  destruct (Reqb _ 0) eqn:E.
  - exists 0. split; [lra|]. unfold along. f_equal.
    destruct v as [vx vy]. cbn. f_equal; ring.
  - eexists. split; [apply clamp01|]. reflexivity.
Qed.

(** X3: [getDistanceToSegment p v w] is the least distance from [p] to a
    point of the segment: it is at most the distance to [v + t (w - v)] for
    every [t] in [0, 1], and it is the distance to one such point (also when
    [v = w]). *)
Theorem getDistanceToSegment_is_least (p v w : Point) (t : R) :
  0 <= t <= 1 ->
  getDistanceToSegment p v w <= getDistance p (along v w t)
  /\ exists t0, 0 <= t0 <= 1
                /\ getDistanceToSegment p v w = getDistance p (along v w t0).
Proof.
  intros Ht. split; [|apply getDistanceToSegment_along].
  unfold getDistanceToSegment. cbv zeta.
  set (dx := Point.x w - Point.x v). set (dy := Point.y w - Point.y v).
  set (L := dx ^ 2 + dy ^ 2).
  set (c := (Point.x p - Point.x v) * dx + (Point.y p - Point.y v) * dy).
  destruct (Reqb L 0) eqn:E.
  - apply Reqb_true in E. unfold L in E. apply sumsq_zero in E. destruct E.
    apply Req_le. unfold along. fold dx dy. f_equal.
    destruct v as [vx vy]. cbn [Point.x Point.y]. f_equal; nra.
  - assert (HL : 0 < L).
    { assert (L <> 0) by (intros HL; apply Reqb_true in HL; congruence).
      unfold L in *. nra. }
    apply le_of_sq; try apply getDistance_nonneg.
    rewrite !getDistance_sq. unfold along. cbn [Point.x Point.y]. fold dx dy.
    set (t0 := c / L). set (ts := Rmax 0 (Rmin 1 t0)).
    assert (Hc : c = t0 * L) by (unfold t0; field; lra).
    assert (Hkey : forall u,
               (Point.x v + u * dx - Point.x p) ^ 2 + (Point.y v + u * dy - Point.y p) ^ 2
               = (Point.x v - Point.x p) ^ 2 + (Point.y v - Point.y p) ^ 2
                 - 2 * u * c + u ^ 2 * L).
    { intros u. unfold c, L. ring. }
    rewrite (Hkey ts), (Hkey t), Hc.
    assert (H1 : 1 <= t0 -> 0 <= L * ((1 - t) * (2 * t0 - 1 - t)))
      by (intros; apply Rmult_le_pos; [lra|apply Rmult_le_pos; lra]).
    assert (H2 : 0 <= L * (t - t0) ^ 2) by (apply Rmult_le_pos; [lra|apply pow2_ge_0]).
    assert (H3 : t0 <= 0 -> 0 <= L * (t * (t - 2 * t0)))
      by (intros; apply Rmult_le_pos; [lra|apply Rmult_le_pos; lra]).
    unfold ts, Rmax, Rmin.
    destruct (Rle_dec 1 t0); destruct (Rle_dec 0 _); try lra;
      try specialize (H1 ltac:(lra)); try specialize (H3 ltac:(lra)); nra.
Qed.

Lemma getDistanceToSegment_is_least_witness :
  0 <= 1 / 2 <= 1
  /\ getDistanceToSegment (Point.mk 0 5) (Point.mk 0 0) (Point.mk 10 0)
     <= getDistance (Point.mk 0 5) (along (Point.mk 0 0) (Point.mk 10 0) (1 / 2)).
Proof.
  assert (H : 0 <= 1 / 2 <= 1) by lra.
  split; [exact H|].
  exact (proj1 (getDistanceToSegment_is_least (Point.mk 0 5) (Point.mk 0 0) (Point.mk 10 0)
                  (1 / 2) H)).
Defined.

(** ** Area *)

Lemma pointAt_rotate (p : Point) (rest : list Point) (i : nat) :
  (i < S (List.length rest))%nat ->
  pointAt (rest ++ [p]) i = pointAt (p :: rest) ((i + 1) mod S (List.length rest)).
Proof.
  intros Hi. unfold pointAt.
  destruct (Nat.eq_dec i (List.length rest)) as [->|Hne].
  - replace (List.length rest + 1)%nat with (S (List.length rest)) by lia.
    rewrite Nat.Div0.mod_same, app_nth2, Nat.sub_diag by lia. reflexivity.
  - rewrite Nat.mod_small by lia. rewrite app_nth1 by lia.
    replace (i + 1)%nat with (S i) by lia. reflexivity.
Qed.

Lemma shoelaceSum_rotate (p : Point) (rest : list Point) :
  shoelaceSum (rest ++ [p]) = shoelaceSum (p :: rest).
Proof.
  rewrite !shoelaceSum_sumTo, length_app. cbn [List.length].
  replace (List.length rest + 1)%nat with (S (List.length rest)) by lia.
  set (n := S (List.length rest)).
  set (h := fun k => cross (pointAt (p :: rest) k) (pointAt (p :: rest) ((k + 1) mod n))).
  rewrite <- (sumTo_rot h). apply sumTo_ext. intros i Hi. unfold h.
  rewrite !pointAt_rotate by (try apply next_lt; exact Hi). reflexivity.
Qed.

(** X4: the area of a polygon is never negative, it is 0 below three
    points, and it does not depend on the vertex the list starts at. *)
Theorem calculatePolygonArea_basics (pts : list Point) :
  0 <= calculatePolygonArea pts
  /\ ((List.length pts < 3)%nat -> calculatePolygonArea pts = 0)
  /\ (forall p rest, pts = p :: rest ->
        calculatePolygonArea (rest ++ [p]) = calculatePolygonArea pts).
Proof.
  unfold calculatePolygonArea. split; [|split].
  - pose proof (Rabs_pos (shoelaceSum pts)). lra.
  - intros Hlen.
    assert (H0 : shoelaceSum pts = 0).
    { destruct pts as [|a [|b [|c rest]]]; cbn in Hlen; try lia;
        unfold shoelaceSum, pointAt; cbn; ring. }
    rewrite H0, Rabs_R0. lra.
  - intros p rest ->. rewrite shoelaceSum_rotate. reflexivity.
Qed.

Lemma Rabs_Rmax_Rmin (a b : R) : Rabs (Rmax a b - Rmin a b) = Rabs (a - b).
Proof.
  unfold Rmax, Rmin. destruct (Rle_dec a b).
  - rewrite <- Rabs_Ropp. f_equal. lra.
  - reflexivity.
Qed.

Lemma Rmax_minus_Rmin (a b : R) : Rmax a b - Rmin a b = Rabs (a - b).
Proof.
  unfold Rmax, Rmin, Rabs. destruct (Rle_dec a b); destruct (Rcase_abs (a - b)); lra.
Qed.

(** X5: for a polygon, or a rectangle with its two points, the area is
    never negative and [moveAnnotation] keeps it; the area of a rectangle is
    the polygon area of its four corner handles. *)
Theorem getAnnotationArea_rectangle_and_move (ann : Annotation) (dx dy : R) :
  (type ann = shape_polygon \/ (2 <= List.length (points ann))%nat) ->
  getAnnotationArea (moveAnnotation ann dx dy) = getAnnotationArea ann
  /\ 0 <= getAnnotationArea ann
  /\ (type ann = shape_rectangle ->
      getAnnotationArea ann = calculatePolygonArea (CanvasArea.corners ann)).
Proof.
  intros Hwf. split; [|split].
  - unfold getAnnotationArea. cbn [moveAnnotation withPoints type points].
    destruct (type ann).
    + destruct Hwf as [Hc|Hlen]; [discriminate|].
      rewrite !pointAt_map by lia. unfold movePoint. cbn [Point.x Point.y].
      f_equal; f_equal; ring.
    + unfold calculatePolygonArea. rewrite shoelaceSum_translate. reflexivity.
  - unfold getAnnotationArea. destruct (type ann).
    + apply Rmult_le_pos; apply Rabs_pos.
    + unfold calculatePolygonArea. pose proof (Rabs_pos (shoelaceSum (points ann))). lra.
  - intros Ht. unfold getAnnotationArea. rewrite Ht.
    unfold calculatePolygonArea, shoelaceSum, CanvasArea.corners, pointAt.
    cbn [List.length seq fold_left nth Nat.modulo Nat.divmod fst snd Nat.add Nat.sub
         Point.x Point.y].
    set (p0 := nth 0 (points ann) (Point.mk 0 0)).
    set (p1 := nth 1 (points ann) (Point.mk 0 0)).
    replace (0 + Rmin (Point.x p0) (Point.x p1) * Rmin (Point.y p0) (Point.y p1)
             - Rmax (Point.x p0) (Point.x p1) * Rmin (Point.y p0) (Point.y p1)
             + Rmax (Point.x p0) (Point.x p1) * Rmax (Point.y p0) (Point.y p1)
             - Rmax (Point.x p0) (Point.x p1) * Rmin (Point.y p0) (Point.y p1)
             + Rmax (Point.x p0) (Point.x p1) * Rmax (Point.y p0) (Point.y p1)
             - Rmin (Point.x p0) (Point.x p1) * Rmax (Point.y p0) (Point.y p1)
             + Rmin (Point.x p0) (Point.x p1) * Rmin (Point.y p0) (Point.y p1)
             - Rmin (Point.x p0) (Point.x p1) * Rmax (Point.y p0) (Point.y p1))
      with (2 * ((Rmax (Point.x p0) (Point.x p1) - Rmin (Point.x p0) (Point.x p1))
                 * (Rmax (Point.y p0) (Point.y p1) - Rmin (Point.y p0) (Point.y p1))))
      by ring.
    rewrite !Rmax_minus_Rmin, Rabs_mult, Rabs_mult, !Rabs_Rabsolu.
    rewrite (Rabs_pos_eq 2) by lra. lra.
Qed.

Lemma getAnnotationArea_rectangle_and_move_witness :
  (type boxA = shape_polygon \/ (2 <= List.length (points boxA))%nat)
  /\ getAnnotationArea (moveAnnotation boxA 3 4) = getAnnotationArea boxA.
Proof.
  assert (H : type boxA = shape_polygon \/ (2 <= List.length (points boxA))%nat)
    by (right; cbn; lia).
  split; [exact H|].
  exact (proj1 (getAnnotationArea_rectangle_and_move boxA 3 4 H)).
Defined.

(** ** Bounds *)

Lemma fold_Rmax_spec (rest : list R) (x : R) :
  In (fold_left Rmax rest x) (x :: rest)
  /\ forall z, In z (x :: rest) -> z <= fold_left Rmax rest x.
Proof.
  revert x; induction rest as [|y rest IH]; intros x; cbn [fold_left].
  - split; [left; reflexivity|]. intros z [<-|[]]. lra.
  - destruct (IH (Rmax x y)) as [Hin Hle]. split.
    + destruct Hin as [E|Hin].
      * rewrite <- E. unfold Rmax. destruct (Rle_dec x y); [right; left|left]; reflexivity.
      * right; right; exact Hin.
    + intros z [<-|[<-|Hz]].
      * eapply Rle_trans; [apply Rmax_l|apply Hle; left; reflexivity].
      * eapply Rle_trans; [apply Rmax_r|apply Hle; left; reflexivity].
      * apply Hle. right; exact Hz.
Qed.

Lemma Math_max_spec (xs : list R) (m : R) :
  Math_max xs = Some m -> In m xs /\ forall z, In z xs -> z <= m.
Proof.
  destruct xs as [|x rest]; cbn; [discriminate|].
  intros [= <-]. apply fold_Rmax_spec.
Qed.

Lemma Rmax_shift (a b d : R) : Rmax (a + d) (b + d) = Rmax a b + d.
Proof. unfold Rmax. destruct (Rle_dec (a + d) (b + d)), (Rle_dec a b); lra. Qed.

Lemma fold_Rmax_shift (d : R) (rest : list R) (x : R) :
  fold_left Rmax (map (fun z => z + d) rest) (x + d) = fold_left Rmax rest x + d.
Proof.
  revert x; induction rest as [|y rest IH]; intros x; cbn; [reflexivity|].
  rewrite <- IH. f_equal. apply Rmax_shift.
Qed.

Lemma Math_max_shift (d : R) (xs : list R) :
  Math_max (map (fun z => z + d) xs) = option_map (fun m => m + d) (Math_max xs).
Proof.
  destruct xs as [|x rest]; cbn; [reflexivity|]. f_equal. apply fold_Rmax_shift.
Qed.

Lemma getPointsBounds_fields (pts : list Point) (b : BoundingBox) :
  getPointsBounds pts = Some b ->
  Math_min (map Point.x pts) = Some (minX b)
  /\ Math_max (map Point.x pts) = Some (maxX b)
  /\ Math_min (map Point.y pts) = Some (minY b)
  /\ Math_max (map Point.y pts) = Some (maxY b)
  /\ width b = maxX b - minX b
  /\ height b = maxY b - minY b
  /\ centerX b = (minX b + maxX b) / 2
  /\ centerY b = (minY b + maxY b) / 2.
Proof.
  unfold getPointsBounds.
  destruct (Math_min (map Point.x pts)), (Math_max (map Point.x pts)),
           (Math_min (map Point.y pts)), (Math_max (map Point.y pts)); try discriminate.
  intros [= <-]. cbn. repeat split; reflexivity.
Qed.

(** X6: [getPointsBounds] has a (finite) result exactly for a nonempty
    list; the box encloses every point, each of its four sides passes through
    a point, width and height are not negative and the centre lies inside. *)
Theorem getPointsBounds_encloses (pts : list Point) :
  (getPointsBounds pts = None <-> pts = [])
  /\ (forall b, getPointsBounds pts = Some b ->
        (forall p, In p pts ->
           minX b <= Point.x p <= maxX b /\ minY b <= Point.y p <= maxY b)
        /\ (exists p, In p pts /\ Point.x p = minX b)
        /\ (exists p, In p pts /\ Point.x p = maxX b)
        /\ (exists p, In p pts /\ Point.y p = minY b)
        /\ (exists p, In p pts /\ Point.y p = maxY b)
        /\ 0 <= width b /\ 0 <= height b
        /\ minX b <= centerX b <= maxX b /\ minY b <= centerY b <= maxY b).
Proof.
  split.
  - destruct pts; cbn; split; intros; try reflexivity; discriminate.
  - intros b Hb.
    destruct (getPointsBounds_fields pts b Hb)
      as (Hx0 & Hx1 & Hy0 & Hy1 & Hw & Hh & Hcx & Hcy).
    apply Math_min_spec in Hx0, Hy0. apply Math_max_spec in Hx1, Hy1.
    destruct Hx0 as [Ix0 Lx0], Hx1 as [Ix1 Lx1], Hy0 as [Iy0 Ly0], Hy1 as [Iy1 Ly1].
    assert (Hall : forall p, In p pts ->
              minX b <= Point.x p <= maxX b /\ minY b <= Point.y p <= maxY b).
    { intros p Hp. repeat split;
        [apply Lx0|apply Lx1|apply Ly0|apply Ly1];
        apply in_map; exact Hp. }
    assert (forall (f : Point -> R) v, In v (map f pts) -> exists p, In p pts /\ f p = v)
      as Hex.
    { intros f v Hv. apply in_map_iff in Hv. destruct Hv as (p & <- & Hp). eauto. }
    destruct (Hex _ _ Ix0) as (p0 & Hp0 & E0).
    destruct (Hall p0 Hp0) as [[? ?] [? ?]].
    split; [exact Hall|].
    repeat split; try (apply Hex; assumption); lra.
Qed.

(** ** Moving an annotation *)

Lemma getPointsBounds_move (pts : list Point) (dx dy : R) (b : BoundingBox) :
  getPointsBounds pts = Some b ->
  getPointsBounds (map (movePoint dx dy) pts)
  = Some (mkBoundingBox (minX b + dx) (maxX b + dx) (minY b + dy) (maxY b + dy)
            (maxX b + dx - (minX b + dx)) (maxY b + dy - (minY b + dy))
            ((minX b + dx + (maxX b + dx)) / 2) ((minY b + dy + (maxY b + dy)) / 2)).
Proof.
  intros Hb.
  destruct (getPointsBounds_fields pts b Hb) as (Hx0 & Hx1 & Hy0 & Hy1 & _).
  unfold getPointsBounds. rewrite !map_map. cbn [movePoint Point.x Point.y].
  rewrite <- (map_map Point.x (fun z => z + dx)), <- (map_map Point.y (fun z => z + dy)).
  rewrite !Math_min_shift, !Math_max_shift, Hx0, Hx1, Hy0, Hy1. reflexivity.
Qed.

Lemma annotation_eta (a : Annotation) : withPoints a (points a) = a.
Proof. destruct a; reflexivity. Qed.

Lemma moveAnnotation_comp (a : Annotation) (d e d' e' : R) :
  moveAnnotation (moveAnnotation a d e) d' e' = moveAnnotation a (d + d') (e + e').
Proof.
  unfold moveAnnotation, withPoints. cbn. f_equal.
  rewrite map_map. apply map_ext. intros [px py]. unfold movePoint. cbn.
  f_equal; ring.
Qed.

Lemma moveAnnotation_zero (a : Annotation) : moveAnnotation a 0 0 = a.
Proof.
  unfold moveAnnotation.
  transitivity (withPoints a (points a)); [|apply annotation_eta]. f_equal.
  transitivity (map (fun p : Point => p) (points a)); [|apply map_id].
  apply map_ext. intros [px py]. unfold movePoint. cbn. f_equal; ring.
Qed.

Lemma moveAnnotation_bounds (a : Annotation) (dx dy : R) (b : BoundingBox) :
  getAnnotationBounds a = Some b ->
  exists b', getAnnotationBounds (moveAnnotation a dx dy) = Some b'
    /\ minX b' = minX b + dx /\ maxX b' = maxX b + dx
    /\ minY b' = minY b + dy /\ maxY b' = maxY b + dy
    /\ width b' = width b /\ height b' = height b
    /\ centerX b' = centerX b + dx /\ centerY b' = centerY b + dy.
Proof.
  intros Hb. unfold getAnnotationBounds in *.
  cbn [moveAnnotation withPoints points].
  rewrite (getPointsBounds_move _ dx dy b Hb). eexists. split; [reflexivity|].
  destruct (getPointsBounds_fields _ b Hb) as (_ & _ & _ & _ & Hw & Hh & Hcx & Hcy).
  cbn. rewrite Hw, Hh, Hcx, Hcy. repeat split; lra.
Qed.

(** X7: [moveAnnotation] composes by adding the offsets, is undone by the
    opposite offset, does nothing at offset 0, keeps id, label, type, colour,
    visibility, lock and the number of points, and shifts the bounds by the
    offset while keeping width and height. *)
Theorem moveAnnotation_laws (ann : Annotation) (dx dy dx' dy' : R) :
  moveAnnotation (moveAnnotation ann dx dy) dx' dy' = moveAnnotation ann (dx + dx') (dy + dy')
  /\ moveAnnotation (moveAnnotation ann dx dy) (- dx) (- dy) = ann
  /\ moveAnnotation ann 0 0 = ann
  /\ (id (moveAnnotation ann dx dy), label (moveAnnotation ann dx dy),
      type (moveAnnotation ann dx dy), color (moveAnnotation ann dx dy),
      visible (moveAnnotation ann dx dy), locked (moveAnnotation ann dx dy))
     = (id ann, label ann, type ann, color ann, visible ann, locked ann)
  /\ List.length (points (moveAnnotation ann dx dy)) = List.length (points ann)
  /\ (forall b, getAnnotationBounds ann = Some b ->
        exists b', getAnnotationBounds (moveAnnotation ann dx dy) = Some b'
          /\ minX b' = minX b + dx /\ maxX b' = maxX b + dx
          /\ minY b' = minY b + dy /\ maxY b' = maxY b + dy
          /\ width b' = width b /\ height b' = height b
          /\ centerX b' = centerX b + dx /\ centerY b' = centerY b + dy).
Proof.
  split; [apply moveAnnotation_comp|].
  split; [|split; [apply moveAnnotation_zero|split; [reflexivity|split]]].
  - rewrite moveAnnotation_comp.
    replace (dx + - dx) with 0 by ring. replace (dy + - dy) with 0 by ring.
    apply moveAnnotation_zero.
  - cbn. apply length_map.
  - apply moveAnnotation_bounds.
Qed.

(** ** Undo and redo as moves of a zipper *)

Lemma historyItem_eta (e : HistoryItem) :
  HistoryItem.mk (HistoryItem.annotations e) (HistoryItem.action e) = e.
Proof. destruct e; reflexivity. Qed.

Lemma actionOr_nonempty (e : HistoryItem) :
  HistoryItem.action e <> ""%string -> App.actionOr (Some e) = HistoryItem.action e.
Proof.
  intros H. unfold App.actionOr.
  destruct (String.eqb_spec (HistoryItem.action e) ""); [contradiction|reflexivity].
Qed.

Lemma handleUndo_empty (r : State) :
  past (history (app r)) = [] -> dispatch App.handleUndo r = r.
Proof. intros H. unfold dispatch, App.handleUndo. rewrite H. reflexivity. Qed.

Lemma handleRedo_empty (r : State) :
  future (history (app r)) = [] -> dispatch App.handleRedo r = r.
Proof. intros H. unfold dispatch, App.handleRedo. rewrite H. reflexivity. Qed.

Lemma handleUndo_state (r : State) (pastl : list HistoryItem) (entry : HistoryItem) :
  past (history (app r)) = (pastl ++ [entry])%list ->
  dispatch App.handleUndo r
  = mkState
      (mkApp (imageSize (app r)) (HistoryItem.annotations entry) []
             (currentTool (app r)) (transform (app r)) (canvasPadding (app r))
             (mkHistory pastl
                (HistoryItem.mk (annotations (app r)) (App.actionOr (Some entry))
                 :: future (history (app r))))
             (keyMap (app r)) (labelPopup (app r)))
      (canvas r).
Proof.
  intros H. unfold dispatch, App.handleUndo. rewrite H.
  rewrite length_snoc_nonzero, pop_snoc.
  destruct r as [[isz anns sel tool T pad hist km lp] cv]. reflexivity.
Qed.

Lemma handleRedo_state (r : State) (entry : HistoryItem) (fut : list HistoryItem) :
  future (history (app r)) = entry :: fut ->
  dispatch App.handleRedo r
  = mkState
      (mkApp (imageSize (app r)) (HistoryItem.annotations entry) []
             (currentTool (app r)) (transform (app r)) (canvasPadding (app r))
             (mkHistory
                (past (history (app r))
                 ++ [HistoryItem.mk (annotations (app r)) (App.actionOr (Some entry))])
                fut)
             (keyMap (app r)) (labelPopup (app r)))
      (canvas r).
Proof.
  intros H. unfold dispatch, App.handleRedo. rewrite H.
  destruct r as [[isz anns sel tool T pad hist km lp] cv]. reflexivity.
Qed.

Lemma actionOr_twice (x : list Annotation) (entry : HistoryItem) :
  HistoryItem.action entry <> ""%string ->
  App.actionOr (Some (HistoryItem.mk x (App.actionOr (Some entry))))
  = HistoryItem.action entry.
Proof.
  intros H. rewrite (actionOr_nonempty entry H).
  apply (actionOr_nonempty (HistoryItem.mk x (HistoryItem.action entry))). exact H.
Qed.

(** X8: undo with an empty [past] and redo with an empty [future] leave
    the whole state as it is.  When the entry on top of [past] has a nonempty
    action label, undo followed by redo gives the state back except for the
    selection, which is cleared; so does redo followed by undo for the first
    entry of [future].  (An empty label is replaced by the default label on
    the way.) *)
Theorem undo_redo_round_trip (r : State) :
  (past (history (app r)) = [] -> dispatch App.handleUndo r = r)
  /\ (future (history (app r)) = [] -> dispatch App.handleRedo r = r)
  /\ (forall pastl entry,
        HistoryItem.action entry <> ""%string ->
        past (history (app r)) = (pastl ++ [entry])%list ->
        dispatch App.handleRedo (dispatch App.handleUndo r)
        = dispatch (setSelectedIds (fun _ => [])) r)
  /\ (forall entry fut,
        HistoryItem.action entry <> ""%string ->
        future (history (app r)) = entry :: fut ->
        dispatch App.handleUndo (dispatch App.handleRedo r)
        = dispatch (setSelectedIds (fun _ => [])) r).
Proof.
  split; [apply handleUndo_empty|]. split; [apply handleRedo_empty|]. split.
  - intros pastl entry Hact Hp. rewrite (handleUndo_state r pastl entry Hp).
    erewrite handleRedo_state by reflexivity.
    destruct r as [[isz anns sel tool T pad [p f] km lp] cv].
    cbn -[App.actionOr] in *. subst p.
    rewrite (actionOr_twice _ entry Hact), historyItem_eta. reflexivity.
  - intros entry fut Hact Hf. rewrite (handleRedo_state r entry fut Hf).
    erewrite handleUndo_state by reflexivity.
    destruct r as [[isz anns sel tool T pad [p f] km lp] cv].
    cbn -[App.actionOr] in *. subst f.
    rewrite (actionOr_twice _ entry Hact), historyItem_eta. reflexivity.
Qed.

Lemma undo_redo_round_trip_witness :
  HistoryItem.action (HistoryItem.mk [] "创建矩形") <> ""
  /\ dispatch App.handleRedo (dispatch App.handleUndo rectPending)
     = dispatch (setSelectedIds (fun _ => [])) rectPending.
Proof.
  assert (H : HistoryItem.action (HistoryItem.mk [] "创建矩形") <> "") by discriminate.
  split; [exact H|].
  exact (proj1 (proj2 (proj2 (undo_redo_round_trip rectPending)))
               [] (HistoryItem.mk [] "创建矩形") H eq_refl).
Defined.

(** The moves on the timeline. *)
Lemma timeline_undo (s : State) (p : list (list Annotation)) (a c : list Annotation)
      (f : list (list Annotation)) :
  timeline s = ((p ++ [a])%list, c, f) ->
  timeline (dispatch App.handleUndo s) = (p, a, c :: f).
Proof.
  unfold timeline. intros [= Hp Hc Hf].
  destruct (past (history (app s))) as [|e0 l0] eqn:Ep using rev_ind.
  - destruct p; discriminate.
  - rewrite map_app in Hp. cbn in Hp. apply app_inj_tail in Hp. destruct Hp as [<- <-].
    rewrite (handleUndo_state s l0 e0 Ep). cbn. rewrite Hc, Hf. reflexivity.
Qed.

Lemma timeline_redo (s : State) (p : list (list Annotation)) (a c : list Annotation)
      (f : list (list Annotation)) :
  timeline s = (p, c, a :: f) ->
  timeline (dispatch App.handleRedo s) = ((p ++ [c])%list, a, f).
Proof.
  unfold timeline. intros [= Hp Hc Hf].
  destruct (future (history (app s))) as [|e0 l0] eqn:Ef; [discriminate|].
  cbn in Hf. injection Hf as <- <-.
  rewrite (handleRedo_state s e0 l0 Ef). cbn. rewrite map_app, Hp, Hc. reflexivity.
Qed.

Lemma timeline_edit (s : State) (af : string * (list Annotation -> list Annotation)) :
  timeline (dispatch (edit af) s)
  = ((fst (fst (timeline s)) ++ [snd (fst (timeline s))])%list,
     snd af (snd (fst (timeline s))), []).
Proof.
  destruct s as [[isz anns sel tool T pad [p f] km lp] cv]. unfold timeline. cbn.
  rewrite map_app. reflexivity.
Qed.

Lemma run_snoc (hs : list Handler) (h : Handler) (r : State) :
  run (hs ++ [h]) r = dispatch h (run hs r).
Proof. unfold run. rewrite fold_left_app. reflexivity. Qed.

Lemma run_cons (hs : list Handler) (h : Handler) (r : State) :
  run (h :: hs) r = run hs (dispatch h r).
Proof. reflexivity. Qed.

Lemma repeat_snoc {A : Type} (x : A) (n : nat) : repeat x (S n) = (repeat x n ++ [x])%list.
Proof. induction n; cbn in *; [reflexivity|]. f_equal. exact IHn. Qed.

(** [k] undos from a timeline whose past ends with the [k] collections
    [mid]: they and the current collection shift by [k]. *)
Lemma timeline_undos (k : nat) :
  forall s p (mid : list (list Annotation)) c f,
    List.length mid = k ->
    timeline s = ((p ++ mid)%list, c, f) ->
    timeline (run (repeat App.handleUndo k) s)
    = (p, hd c (mid ++ [c]), (tl (mid ++ [c]) ++ f)%list).
Proof.
  induction k; intros s p mid c f Hlen Ht.
  - destruct mid; [|discriminate]. cbn. rewrite app_nil_r in Ht. exact Ht.
  - destruct mid as [|a0 l0 _] using rev_ind; [discriminate|].
    rewrite length_app in Hlen. cbn in Hlen.
    cbn [repeat]. rewrite run_cons.
    rewrite app_assoc in Ht. apply timeline_undo in Ht.
    rewrite (IHk _ p l0 a0 (c :: f)) by (try lia; exact Ht).
    destruct l0; cbn; [reflexivity|]. rewrite <- !app_assoc. reflexivity.
Qed.

Lemma last_default {A : Type} (x : A) (l : list A) (d d' : A) :
  last (x :: l) d = last (x :: l) d'.
Proof.
  revert x; induction l as [|y l IH]; intros x; [reflexivity|].
  change (last (y :: l) d = last (y :: l) d'). apply IH.
Qed.

Lemma timeline_redos (k : nat) :
  forall s p c (mid : list (list Annotation)) f,
    List.length mid = k ->
    timeline s = (p, c, (mid ++ f)%list) ->
    timeline (run (repeat App.handleRedo k) s)
    = ((p ++ removelast (c :: mid))%list, last (c :: mid) c, f).
Proof.
  induction k; intros s p c mid f Hlen Ht.
  - destruct mid; [|discriminate]. cbn. rewrite app_nil_r. exact Ht.
  - destruct mid as [|a0 l0]; [discriminate|]. cbn in Hlen.
    cbn [repeat]. rewrite run_cons.
    apply timeline_redo in Ht.
    rewrite (IHk _ _ a0 l0 f) by (try lia; exact Ht).
    rewrite <- app_assoc.
    change (removelast (c :: a0 :: l0)) with (c :: removelast (a0 :: l0)).
    change (last (c :: a0 :: l0) c) with (last (a0 :: l0) c).
    rewrite (last_default a0 l0 a0 c). reflexivity.
Qed.

Lemma undo_then_redo_timeline (k : nat) (s : State) :
  (k <= List.length (past (history (app s))))%nat ->
  timeline (run (repeat App.handleRedo k) (run (repeat App.handleUndo k) s)) = timeline s.
Proof.
  intros Hk.
  set (P := map HistoryItem.annotations (past (history (app s)))).
  assert (HP : List.length P = List.length (past (history (app s))))
    by apply length_map.
  set (p := firstn (List.length P - k) P). set (mid := skipn (List.length P - k) P).
  assert (Hsplit : P = (p ++ mid)%list) by (symmetry; apply firstn_skipn).
  assert (Hmid : List.length mid = k) by (unfold mid; rewrite length_skipn; lia).
  assert (Ht : timeline s = ((p ++ mid)%list, annotations (app s),
                             map HistoryItem.annotations (future (history (app s)))))
    by (unfold timeline; fold P; rewrite Hsplit; reflexivity).
  pose proof (timeline_undos k s p mid _ _ Hmid Ht) as Hu.
  assert (Hlen : List.length (tl (mid ++ [annotations (app s)])) = k).
  { destruct mid; cbn in *; [exact Hmid|]. rewrite length_app. cbn. lia. }
  rewrite (timeline_redos k _ _ _ _ _ Hlen Hu), Ht.
  assert (Hcons : hd (annotations (app s)) (mid ++ [annotations (app s)])
                  :: tl (mid ++ [annotations (app s)])
                  = (mid ++ [annotations (app s)])%list)
    by (destruct mid; reflexivity).
  rewrite Hcons, removelast_last, last_last. reflexivity.
Qed.

(** The past and the current collection after [k] undos do not depend on
    the future. *)
Lemma undos_ignore_future (k : nat) (s1 s2 : State) :
  fst (timeline s1) = fst (timeline s2) ->
  (k <= List.length (past (history (app s1))))%nat ->
  fst (timeline (run (repeat App.handleUndo k) s1))
  = fst (timeline (run (repeat App.handleUndo k) s2)).
Proof.
  intros Heq Hk.
  destruct (timeline s1) as [[P c] f1] eqn:E1. destruct (timeline s2) as [[P2 c2] f2] eqn:E2.
  cbn in Heq. injection Heq as <- <-.
  assert (HP : List.length P = List.length (past (history (app s1)))).
  { unfold timeline in E1. injection E1 as <- _ _. apply length_map. }
  set (p := firstn (List.length P - k) P). set (mid := skipn (List.length P - k) P).
  assert (Hsplit : P = (p ++ mid)%list) by (symmetry; apply firstn_skipn).
  assert (Hmid : List.length mid = k) by (unfold mid; rewrite length_skipn; lia).
  rewrite Hsplit in E1, E2.
  rewrite (timeline_undos k s1 p mid c f1 Hmid E1), (timeline_undos k s2 p mid c f2 Hmid E2).
  reflexivity.
Qed.

Lemma edit_past (e : string * (list Annotation -> list Annotation)) (s : State) :
  past (history (app (dispatch (edit e) s)))
  = (past (history (app s)) ++ [HistoryItem.mk (annotations (app s)) (fst e)])%list.
Proof. destruct s as [[isz anns sel tool T pad [p f] km lp] cv]. reflexivity. Qed.

Lemma past_length_edits (es : list (string * (list Annotation -> list Annotation)))
      (r : State) :
  List.length (past (history (app (run (map edit es) r))))
  = (List.length (past (history (app r))) + List.length es)%nat.
Proof.
  induction es as [|e es IH] using rev_ind; [cbn; lia|].
  rewrite map_app. cbn [map]. rewrite run_snoc, edit_past, !length_app, IH. cbn. lia.
Qed.

Lemma undos_after_edits (es : list (string * (list Annotation -> list Annotation))) :
  forall (r : State) (k : nat),
    (k <= List.length es)%nat ->
    fst (timeline (run (repeat App.handleUndo k) (run (map edit es) r)))
    = fst (timeline (run (map edit (firstn (List.length es - k) es)) r)).
Proof.
  induction es as [|e es IH] using rev_ind; intros r k Hk.
  - destruct k; [reflexivity|cbn in Hk; lia].
  - rewrite length_app in *. cbn [List.length] in *.
    destruct k as [|k].
    + rewrite Nat.sub_0_r. rewrite firstn_all2 by (rewrite length_app; cbn; lia).
      reflexivity.
    + replace (List.length es + 1 - S k)%nat with (List.length es - k)%nat by lia.
      rewrite firstn_app.
      replace (List.length es - k - List.length es)%nat with 0%nat by lia.
      cbn [firstn]. rewrite app_nil_r.
      rewrite <- (IH r k) by lia.
      rewrite map_app. cbn [map]. rewrite run_snoc.
      set (s := run (map edit es) r).
      cbn [repeat]. rewrite run_cons.
      apply undos_ignore_future.
      * destruct (timeline s) as [[P c] f] eqn:Es.
        pose proof (timeline_edit s e) as Hte. rewrite Es in Hte. cbn [fst snd] in Hte.
        rewrite (timeline_undo _ _ _ _ _ Hte). reflexivity.
      * assert (Hlen : List.length (past (history (app (dispatch App.handleUndo (dispatch (edit e) s)))))
                       = List.length (past (history (app s)))).
        { destruct (timeline s) as [[P c] f] eqn:Es.
          pose proof (timeline_edit s e) as Hte. rewrite Es in Hte. cbn [fst snd] in Hte.
          pose proof (timeline_undo _ _ _ _ _ Hte) as Htu.
          unfold timeline in Htu, Es. injection Htu as Hp _ _. injection Es as Hp' _ _.
          rewrite <- Hp' in Hp. apply (f_equal (@List.length _)) in Hp.
          rewrite !length_map in Hp. exact Hp. }
        rewrite Hlen. unfold s. rewrite past_length_edits. lia.
Qed.

(** X9: after any sequence of edits, each a snapshot followed by a change
    of the collection, [k] undos give the collection of after the first
    [n - k] edits, [n] undos give the initial collection, and [k] redos after
    [k] undos give back the collection and the snapshots of both stacks. *)
Theorem multi_level_undo_redo
        (es : list (string * (list Annotation -> list Annotation)))
        (r : State) (k : nat) :
  (k <= List.length es)%nat ->
  annotations (app (run (repeat App.handleUndo k) (run (map edit es) r)))
  = annotations (app (run (map edit (firstn (List.length es - k) es)) r))
  /\ annotations (app (run (repeat App.handleUndo (List.length es)) (run (map edit es) r)))
     = annotations (app r)
  /\ timeline (run (repeat App.handleRedo k)
                  (run (repeat App.handleUndo k) (run (map edit es) r)))
     = timeline (run (map edit es) r).
Proof.
  intros Hk. split; [|split].
  - pose proof (undos_after_edits es r k Hk) as H.
    apply (f_equal snd) in H. exact H.
  - pose proof (undos_after_edits es r (List.length es) (le_n _)) as H.
    rewrite Nat.sub_diag in H. apply (f_equal snd) in H. exact H.
  - apply undo_then_redo_timeline. rewrite past_length_edits. lia.
Qed.

Lemma multi_level_undo_redo_witness :
  (1 <= List.length twoEdits)%nat
  /\ annotations (app (run (repeat App.handleUndo 1) (run (map edit twoEdits) initial)))
     = annotations (app (run (map edit (firstn (List.length twoEdits - 1) twoEdits)) initial)).
Proof.
  assert (H : (1 <= List.length twoEdits)%nat) by (cbn; lia).
  split; [exact H|].
  exact (proj1 (multi_level_undo_redo twoEdits initial 1 H)).
Defined.

(** ** No edit without a checkpoint *)

(** Splits every conditional of the handler in the goal. *)
Ltac split_handler :=
  repeat match goal with
         | |- context [if ?b then _ else _] => destruct b eqn:?
         | |- context [match ?o with Some _ => _ | None => _ end] => destruct o eqn:?
         | |- context [match ?l with [] => _ | _ :: _ => _ end] => destruct l eqn:?
         | |- context [let '(_, _) := ?p in _] => destruct p eqn:?
         | |- context [match ?t with shape_rectangle => _ | shape_polygon => _ end] =>
             destruct t eqn:?
         | |- context [match ?t with tool_select => _ | tool_pan => _
                                | tool_rectangle => _ | tool_polygon => _ end] =>
             destruct t eqn:?
         end.

Ltac close_checkpoint :=
  first [ left; reflexivity
        | right; eexists; eexists; reflexivity ].

Lemma canvas_handleKeyDown_checkpoint (r : State) (e : KeyboardEvent) :
  kept_or_checkpointed r (dispatch (CanvasArea.handleKeyDown e) r).
Proof.
  unfold kept_or_checkpointed, checkpointed, dispatch, CanvasArea.handleKeyDown,
    CanvasArea.handleCancelDraw, CanvasArea.handleUndoPoint, when.
  destruct r as [[isz anns sel tool T pad [p f] km lp] cv].
  cbn [app canvas annotations selectedIds keyMap transform history].
  split_handler; close_checkpoint.
Qed.

Lemma vertexClick_checkpoint (r : State) (e : MouseEvent) (imgPos : Point) (h : Handler) :
  CanvasArea.vertexClick r e imgPos = Some h ->
  kept_or_checkpointed r (h r r).
Proof.
  unfold kept_or_checkpointed, checkpointed, CanvasArea.vertexClick.
  destruct r as [[isz anns sel tool T pad [p f] km lp] cv].
  cbn [app canvas annotations selectedIds keyMap transform history currentTool] in *.
  split_handler; intros [= <-]; close_checkpoint.
Qed.

Lemma handleMouseDown_checkpoint (r : State) (env : Env) (e : MouseEvent) :
  currentTool (app r) <> tool_polygon ->
  kept_or_checkpointed r (dispatch (CanvasArea.handleMouseDown env e) r).
Proof.
  intros Ht. unfold dispatch, CanvasArea.handleMouseDown.
  destruct (CanvasArea.isPan r e).
  { left. destruct r as [[] []]. reflexivity. }
  destruct (negb _); [left; reflexivity|].
  destruct (currentTool (app r)) eqn:Etool; try congruence.
  - destruct (CanvasArea.vertexClick _ _ _) as [h|] eqn:Ev.
    + eapply vertexClick_checkpoint; eassumption.
    + unfold kept_or_checkpointed, checkpointed, CanvasArea.bodyClick, when.
      destruct r as [[isz anns sel tool T pad [p f] km lp] cv].
      cbn [app canvas annotations selectedIds keyMap transform history currentTool] in *.
      split_handler; close_checkpoint.
  - left. reflexivity.
  - left. destruct r as [[] []]. reflexivity.
Qed.

Lemma app_handleKeyDown_checkpoint (r : State) (env : Env) (e : KeyboardEvent) :
  isShortcutPressed e (keyMap (app r) UNDO) = false ->
  isShortcutPressed e (keyMap (app r) REDO) = false ->
  kept_or_checkpointed r (dispatch (App.handleKeyDown env e) r).
Proof.
  intros Hu Hr.
  unfold kept_or_checkpointed, checkpointed, dispatch, App.handleKeyDown. rewrite Hu, Hr.
  unfold App.handleResetView, when, seqH, skip.
  destruct r as [[isz anns sel tool T pad [p f] km lp] cv].
  cbn [app canvas annotations selectedIds keyMap transform history currentTool imageSize]
    in *.
  split_handler; close_checkpoint.
Qed.

Lemma handleAlign_checkpoint (r s : State) (ty : App.AlignType) :
  App.handleAlign ty r r = Some s -> kept_or_checkpointed r s.
Proof.
  unfold App.handleAlign.
  destruct (_ <? 2)%nat; [intros [= <-]; left; reflexivity|].
  repeat match goal with
         | |- context [match ?o with Some _ => _ | None => _ end] =>
             destruct o; [|discriminate]
         end.
  intros [= <-]. right. unfold checkpointed.
  destruct r as [[isz anns sel tool T pad [p f] km lp] cv]. eexists; eexists; reflexivity.
Qed.

Lemma checkpoint_undo (r s : State) :
  kept_or_checkpointed r s ->
  annotations (app s) = annotations (app r)
  \/ (annotations (app (dispatch App.handleUndo s)) = annotations (app r)
      /\ annotations (app (dispatch App.handleRedo (dispatch App.handleUndo s)))
         = annotations (app s)).
Proof.
  intros [H|(pre & action & H)]; [left; exact H|right].
  destruct (handleUndo_pops _ _ _ _ H) as (Ha & _ & Hh).
  destruct (handleRedo_shifts _ _ _ _ Hh) as (Ha' & _ & _).
  split; assumption.
Qed.

(** ** Alignment, every mode *)

Lemma alignedTo_intro (ty : App.AlignType) (t : R) (a : Annotation) (b : BoundingBox) :
  getAnnotationBounds a = Some b ->
  alignedTo ty t a
    (if isHorizontal ty
     then moveAnnotation a (t - alignedEdge ty b) 0
     else moveAnnotation a 0 (t - alignedEdge ty b)).
Proof.
  intros Hb. unfold alignedTo.
  destruct ty; cbn [isHorizontal alignedEdge];
    match goal with
    | |- context [moveAnnotation a ?dx ?dy] =>
        destruct (moveAnnotation_bounds a dx dy b Hb)
          as (b' & Hb' & H1 & H2 & H3 & H4 & H5 & H6 & H7 & H8)
    end;
    exists b, b'; cbn [isHorizontal alignedEdge];
    repeat split; try assumption; try reflexivity; lra.
Qed.

Lemma handleAlign_any (ty : App.AlignType) (r : State) :
  (2 <= List.length (selectedAnns r))%nat ->
  (forall a, In a (selectedAnns r) -> points a <> []) ->
  exists s bs g,
    App.handleAlign ty r r = Some s
    /\ Forall2 (fun a b => getAnnotationBounds a = Some b) (selectedAnns r) bs
    /\ groupOf bs g
    /\ Forall2 (fun a a' =>
                  if isSelected r a then alignedTo ty (alignTarget ty g) a a' else a' = a)
               (annotations (app r)) (annotations (app s))
    /\ selectedIds (app s) = selectedIds (app r).
Proof.
  intros Hlen Hne.
  assert (Hb : forall a, In a (selectedAnns r) -> exists b, getAnnotationBounds a = Some b).
  { intros a Ha. apply getPointsBounds_nonempty, Hne, Ha. }
  destruct (mapM_Forall2 getAnnotationBounds (selectedAnns r) Hb) as (allBounds & HallB & HF).
  assert (Hlen' : List.length allBounds = List.length (selectedAnns r))
    by (symmetry; eapply Forall2_length_eq; eassumption).
  assert (HneB : forall f : BoundingBox -> R, map f allBounds <> []).
  { intros f E. apply (f_equal (@List.length R)) in E. rewrite length_map in E. cbn in E. lia. }
  destruct (Math_min_nonempty _ (HneB minX)) as [g0 Hg0].
  destruct (Math_max_nonempty _ (HneB maxX)) as [g1 Hg1].
  destruct (Math_min_nonempty _ (HneB minY)) as [g2 Hg2].
  destruct (Math_max_nonempty _ (HneB maxY)) as [g3 Hg3].
  set (g := mkGroupBounds g0 g1 g2 g3).
  set (step := fun ann : Annotation =>
         if negb (includes (selectedIds (app r)) (id ann)) then Some ann
         else match getAnnotationBounds ann with
              | Some bounds =>
                  let '(dx, dy) :=
                    match ty with
                    | App.align_left => (g0 - minX bounds, 0)
                    | App.align_right => (g1 - maxX bounds, 0)
                    | App.align_center => ((g0 + g1) / 2 - centerX bounds, 0)
                    | App.align_top => (0, g2 - minY bounds)
                    | App.align_bottom => (0, g3 - maxY bounds)
                    | App.align_middle => (0, (g2 + g3) / 2 - centerY bounds)
                    end in
                  Some (moveAnnotation ann dx dy)
              | None => None
              end).
  assert (Hstep : forall ann, In ann (annotations (app r)) ->
            exists ann', step ann = Some ann').
  { intros ann Hin. unfold step. fold (isSelected r ann).
    destruct (isSelected r ann) eqn:Hsel; cbn [negb]; [|eauto].
    destruct (Hb ann) as [b ->]; [apply filter_In; split; assumption|].
    destruct ty; eauto. }
  destruct (mapM_Forall2 _ _ Hstep) as (newAnns & HnewAnns & HF2).
  exists (dispatch (App.snapshotHistory "对齐标注" ;; setAnnotations (fun _ => newAnns)) r),
         allBounds, g.
  split; [|split; [exact HF|split; [repeat split; assumption|split]]].
  - unfold App.handleAlign. fold (isSelected r). fold (selectedAnns r).
    replace (List.length (selectedAnns r) <? 2)%nat with false
      by (symmetry; apply Nat.ltb_ge; exact Hlen).
    rewrite HallB, Hg0, Hg1, Hg2, Hg3. unfold isSelected in *.
    fold step. rewrite HnewAnns. reflexivity.
  - replace (annotations (app (dispatch (App.snapshotHistory "对齐标注" ;; setAnnotations (fun _ => newAnns)) r)))
      with newAnns by (destruct r as [[] ?]; reflexivity).
    clear -HF2. induction HF2 as [|a a' l l' Ha _ IH]; constructor; [|exact IH].
    unfold step in Ha. fold (isSelected r a) in Ha.
    destruct (isSelected r a); cbn [negb] in Ha; [|congruence].
    destruct (getAnnotationBounds a) as [b|] eqn:Eb; [|discriminate].
    pose proof (alignedTo_intro ty (alignTarget ty g) a b Eb) as Hal.
    destruct ty; cbn [isHorizontal alignedEdge alignTarget groupMinX groupMaxX
                      groupMinY groupMaxY g] in *;
      injection Ha as <-; exact Hal.
  - destruct r as [[] ?]; reflexivity.
Qed.

Lemma filter_length_Forall2 {A B} (R : A -> B -> Prop) (p : A -> bool) (q : B -> bool)
    (l : list A) (l' : list B) :
  Forall2 R l l' -> (forall a b, R a b -> p a = q b) ->
  Forall2 R (filter p l) (filter q l').
Proof.
  intros HF Hpq. induction HF as [|a b l l' Hab _ IH]; cbn; [constructor|].
  rewrite <- (Hpq a b Hab). destruct (p a); [constructor; assumption|assumption].
Qed.

Lemma alignedTo_id (ty : App.AlignType) (t : R) (a a' : Annotation) :
  alignedTo ty t a a' -> id a' = id a /\ (points a <> [] -> points a' <> []).
Proof.
  intros (b & b' & _ & _ & -> & _). destruct (isHorizontal ty); split; try reflexivity;
    cbn; intros H E; apply map_eq_nil in E; contradiction.
Qed.

Lemma group_of_aligned (ty : App.AlignType) (bs : list BoundingBox) (g : GroupBounds) (t : R) :
  groupOf bs g ->
  (forall b, In b bs ->
     alignedEdge ty b = t
     /\ centerX b = (minX b + maxX b) / 2 /\ centerY b = (minY b + maxY b) / 2) ->
  alignTarget ty g = t.
Proof.
  intros (H0 & H1 & H2 & H3) Hall.
  apply Math_min_spec in H0, H2. apply Math_max_spec in H1, H3.
  destruct H0 as [I0 L0], H1 as [I1 L1], H2 as [I2 L2], H3 as [I3 L3].
  apply in_map_iff in I0, I1, I2, I3.
  destruct I0 as (b0 & E0 & B0), I1 as (b1 & E1 & B1),
           I2 as (b2 & E2 & B2), I3 as (b3 & E3 & B3).
  pose proof (fun (f : BoundingBox -> R) b (Hb : In b bs) => in_map f bs b Hb) as Hin.
  pose proof (L0 _ (Hin minX _ B1)). pose proof (L1 _ (Hin maxX _ B0)).
  pose proof (L2 _ (Hin minY _ B3)). pose proof (L3 _ (Hin maxY _ B2)).
  destruct (Hall _ B0) as (T0 & C0 & D0), (Hall _ B1) as (T1 & C1 & D1),
           (Hall _ B2) as (T2 & C2 & D2), (Hall _ B3) as (T3 & C3 & D3).
  destruct ty; cbn [alignedEdge alignTarget] in *; lra.
Qed.

Lemma Forall2_impl_In {A B} (R Q : A -> B -> Prop) (l : list A) (l' : list B) :
  (forall a b, In a l -> R a b -> Q a b) -> Forall2 R l l' -> Forall2 Q l l'.
Proof.
  intros H HF. induction HF as [|a b l l' Hab _ IH]; constructor.
  - apply H; [left; reflexivity|exact Hab].
  - apply IH. intros; apply H; [right|]; assumption.
Qed.

Lemma Forall2_eq {A} (l l' : list A) : Forall2 (fun a a' => a' = a) l l' -> l' = l.
Proof. induction 1; congruence. Qed.

Lemma handleAlign_twice (ty : App.AlignType) (r s : State) :
  (2 <= List.length (selectedAnns r))%nat ->
  (forall a, In a (selectedAnns r) -> points a <> []) ->
  App.handleAlign ty r r = Some s ->
  exists s2, App.handleAlign ty s s = Some s2
    /\ annotations (app s2) = annotations (app s).
Proof.
  intros Hlen Hne Hs.
  destruct (handleAlign_any ty r Hlen Hne) as (s' & bs & g & Hs' & HB & Hg & HF & Hsel).
  rewrite Hs in Hs'. injection Hs' as <-.
  set (t := alignTarget ty g) in *.
  assert (Hrel : forall a a',
            (if isSelected r a then alignedTo ty t a a' else a' = a) ->
            isSelected r a = isSelected s a').
  { intros a a' H. unfold isSelected in *. rewrite Hsel.
    destruct (includes (selectedIds (app r)) (id a)) eqn:E.
    - apply alignedTo_id in H. destruct H as [-> _]. symmetry; exact E.
    - subst a'. symmetry; exact E. }
  pose proof (filter_length_Forall2 _ (isSelected r) (isSelected s) _ _ HF Hrel) as HFs.
  fold (selectedAnns r) in HFs. fold (selectedAnns s) in HFs.
  assert (Ht : forall a', In a' (selectedAnns s) ->
            points a' <> []
            /\ exists b', getAnnotationBounds a' = Some b' /\ alignedEdge ty b' = t).
  { intros a' Ha'. destruct (Forall2_In_r _ _ _ _ HFs Ha') as (a & Ha & H).
    pose proof Ha as Ha0. apply filter_In in Ha0. destruct Ha0 as [_ Ea]. rewrite Ea in H.
    split; [apply (alignedTo_id _ _ _ _ H), Hne, Ha|].
    destruct H as (b & b' & _ & Hb' & _ & Ht & _). eauto. }
  assert (Hlen2 : (2 <= List.length (selectedAnns s))%nat).
  { rewrite <- (Forall2_length_eq _ _ _ HFs). exact Hlen. }
  destruct (handleAlign_any ty s Hlen2 (fun a H => proj1 (Ht a H)))
    as (s2 & bs2 & g2 & Hs2 & HB2 & Hg2 & HF2 & _).
  exists s2. split; [exact Hs2|].
  assert (Ht2 : alignTarget ty g2 = t).
  { apply (group_of_aligned ty bs2); [exact Hg2|].
    intros b Hb. destruct (Forall2_In_r _ _ _ _ HB2 Hb) as (a' & Ha' & Hab).
    destruct (Ht a' Ha') as (_ & b' & Hb' & Hedge).
    rewrite Hab in Hb'. injection Hb' as <-.
    destruct (getPointsBounds_fields _ b Hab) as (_ & _ & _ & _ & _ & _ & Hcx & Hcy).
    auto. }
  rewrite Ht2 in HF2. apply Forall2_eq.
  eapply Forall2_impl_In; [|exact HF2]. cbn beta.
  intros a' a'' Hin H. destruct (isSelected s a') eqn:E; [|exact H].
  destruct (Ht a') as (_ & b0 & Hb0 & Hedge); [apply filter_In; split; assumption|].
  destruct H as (b & b' & Hb & _ & -> & _).
  rewrite Hb in Hb0. injection Hb0 as <-. rewrite Hedge.
  replace (t - t) with 0 by ring.
  destruct (isHorizontal ty); apply moveAnnotation_zero.
Qed.

(** X10: with at least two selected annotations, each with a point,
    [handleAlign] returns for every mode: each selected annotation is moved
    along one axis only so that its edge (or centre) of that mode lies on the
    one of the group (least left and top, greatest right and bottom, middle
    of the two for the centres), width and height kept; the others and the
    selection are unchanged. *)
Theorem handleAlign_aligns_every_mode (ty : App.AlignType) (r : State) :
  (2 <= List.length (selectedAnns r))%nat ->
  (forall a, In a (selectedAnns r) -> points a <> []) ->
  exists s bs g,
    App.handleAlign ty r r = Some s
    /\ Forall2 (fun a b => getAnnotationBounds a = Some b) (selectedAnns r) bs
    /\ groupOf bs g
    /\ Forall2 (fun a a' =>
                  if isSelected r a then alignedTo ty (alignTarget ty g) a a' else a' = a)
               (annotations (app r)) (annotations (app s))
    /\ selectedIds (app s) = selectedIds (app r).
Proof. exact (handleAlign_any ty r). Qed.

Lemma twoBoxes_selected :
  (2 <= List.length (selectedAnns twoBoxes))%nat
  /\ (forall a, In a (selectedAnns twoBoxes) -> points a <> []).
Proof.
  split; [cbn; lia|]. intros a [<-|[<-|[]]]; discriminate.
Qed.

Lemma handleAlign_aligns_every_mode_witness :
  (2 <= List.length (selectedAnns twoBoxes))%nat
  /\ (forall a, In a (selectedAnns twoBoxes) -> points a <> [])
  /\ exists s bs g,
       App.handleAlign App.align_middle twoBoxes twoBoxes = Some s
       /\ Forall2 (fun a b => getAnnotationBounds a = Some b) (selectedAnns twoBoxes) bs
       /\ groupOf bs g
       /\ Forall2 (fun a a' =>
                     if isSelected twoBoxes a
                     then alignedTo App.align_middle (alignTarget App.align_middle g) a a'
                     else a' = a)
                  (annotations (app twoBoxes)) (annotations (app s))
       /\ selectedIds (app s) = selectedIds (app twoBoxes).
Proof.
  split; [exact (proj1 twoBoxes_selected)|]. split; [exact (proj2 twoBoxes_selected)|].
  exact (handleAlign_aligns_every_mode App.align_middle twoBoxes
           (proj1 twoBoxes_selected) (proj2 twoBoxes_selected)).
Defined.

(** X11: aligning again in the same mode changes no annotation. *)
Theorem handleAlign_is_idempotent (ty : App.AlignType) (r s : State) :
  (2 <= List.length (selectedAnns r))%nat ->
  (forall a, In a (selectedAnns r) -> points a <> []) ->
  App.handleAlign ty r r = Some s ->
  exists s2, App.handleAlign ty s s = Some s2
    /\ annotations (app s2) = annotations (app s).
Proof. exact (handleAlign_twice ty r s). Qed.

Lemma handleAlign_is_idempotent_witness :
  (2 <= List.length (selectedAnns twoBoxes))%nat
  /\ (forall a, In a (selectedAnns twoBoxes) -> points a <> [])
  /\ exists s s2,
       App.handleAlign App.align_center twoBoxes twoBoxes = Some s
       /\ App.handleAlign App.align_center s s = Some s2
       /\ annotations (app s2) = annotations (app s).
Proof.
  split; [exact (proj1 twoBoxes_selected)|]. split; [exact (proj2 twoBoxes_selected)|].
  destruct (handleAlign_any App.align_center twoBoxes
              (proj1 twoBoxes_selected) (proj2 twoBoxes_selected))
    as (s & _ & _ & Hs & _).
  destruct (handleAlign_is_idempotent App.align_center twoBoxes s
              (proj1 twoBoxes_selected) (proj2 twoBoxes_selected) Hs) as (s2 & Hs2 & Ha).
  exists s, s2. auto.
Defined.

(** ** Distribution *)

Lemma insertSorted_perm {A} (key : A -> R) (x : A) (l : list A) :
  Permutation (App.insertSorted key x l) (x :: l).
Proof.
  induction l as [|y l IH]; cbn; [reflexivity|].
  destruct (Rltb (key x) (key y)); [reflexivity|].
  rewrite IH. apply perm_swap.
Qed.

Lemma sortBy_perm_acc {A} (key : A -> R) (l acc : list A) :
  Permutation (fold_left (fun acc x => App.insertSorted key x acc) l acc) (acc ++ l)%list.
Proof.
  revert acc. induction l as [|x l IH]; intros acc; cbn.
  - rewrite app_nil_r. reflexivity.
  - rewrite IH, insertSorted_perm. apply Permutation_middle.
Qed.

Lemma sortBy_perm {A} (key : A -> R) (l : list A) : Permutation (App.sortBy key l) l.
Proof. apply (sortBy_perm_acc key l []). Qed.

Lemma insertSorted_sorted {A} (key : A -> R) (x : A) (l : list A) :
  StronglySorted (fun a b => key a <= key b) l ->
  StronglySorted (fun a b => key a <= key b) (App.insertSorted key x l).
Proof.
  induction 1 as [|y l Hs IH Hy]; cbn.
  - constructor; constructor.
  - destruct (Rltb (key x) (key y)) eqn:E.
    + apply Rltb_true in E. constructor; [constructor; assumption|].
      constructor; [lra|]. eapply Forall_impl; [|exact Hy]. cbn. intros; lra.
    + apply Rltb_false in E. constructor; [exact IH|].
      eapply Permutation_Forall; [symmetry; apply insertSorted_perm|].
      constructor; [lra|exact Hy].
Qed.

Lemma sortBy_sorted {A} (key : A -> R) (l : list A) :
  StronglySorted (fun a b => key a <= key b) (App.sortBy key l).
Proof.
  unfold App.sortBy.
  assert (H : StronglySorted (fun a b => key a <= key b) (@nil A)) by constructor.
  revert H. generalize (@nil A). induction l as [|x l IH]; intros acc H; cbn; [exact H|].
  apply IH, insertSorted_sorted, H.
Qed.

Lemma map_id_unchanged (f : Annotation -> Annotation) (i : string) (l : list Annotation) :
  ~ In i (map id l) ->
  map (fun a => if id a =? i then f a else a) l = l.
Proof.
  induction l as [|c l IH]; cbn; intros H; [reflexivity|].
  destruct (id c =? i) eqn:E.
  - apply String.eqb_eq in E. tauto.
  - f_equal. apply IH. tauto.
Qed.

(** With unique ids, "find the index by id and assign there" is a map. *)
Lemma update_by_id (f : Annotation -> Annotation) (i : string) (cur : list Annotation) :
  NoDup (map id cur) ->
  match findIndex (fun a => id a =? i) cur with
  | Some k => match nth_error cur k with
              | Some c => assignAt k (f c) cur
              | None => cur
              end
  | None => cur
  end = map (fun a => if id a =? i then f a else a) cur.
Proof.
  induction cur as [|c cur IH]; cbn [findIndex map]; intros Hnd; [reflexivity|].
  inversion Hnd as [|? ? Hc Hnd']; subst.
  destruct (id c =? i) eqn:E.
  - cbn. f_equal. symmetry. apply map_id_unchanged.
    apply String.eqb_eq in E. subst i. exact Hc.
  - rewrite <- (IH Hnd').
    destruct (findIndex (fun a => id a =? i) cur) as [k|]; cbn [option_map]; [|reflexivity].
    cbn [nth_error]. destruct (nth_error cur k) as [d|]; [|reflexivity].
    unfold assignAt. cbn [List.length Nat.leb firstn skipn].
    destruct (k <=? List.length cur)%nat eqn:Ek.
    + destruct (S k <=? S (List.length cur))%nat eqn:Ek'; [reflexivity|].
      cbn in Ek'. congruence.
    + destruct (S k <=? S (List.length cur))%nat eqn:Ek'; [|reflexivity].
      cbn in Ek'. congruence.
Qed.

Lemma moveAlong_id ty a d : id (moveAlong ty a d) = id a.
Proof. destruct ty; reflexivity. Qed.

Lemma placed_id ty start step sorted index a :
  id (placed ty start step sorted index a) = id a.
Proof.
  revert index. induction sorted as [|[x b] L IH]; intros index; cbn; [reflexivity|].
  destruct (id a =? id x); [apply moveAlong_id|apply IH].
Qed.

Lemma placed_fresh ty start step sorted index a :
  ~ In (id a) (map (fun ab => id (fst ab)) sorted) ->
  placed ty start step sorted index a = a.
Proof.
  revert index. induction sorted as [|[x b] L IH]; intros index H; cbn in *; [reflexivity|].
  destruct (id a =? id x) eqn:E.
  - apply String.eqb_eq in E. symmetry in E. tauto.
  - apply IH. tauto.
Qed.

Lemma forEach_placed (ty : App.DistributeType) (start step : R)
    (sorted : list (Annotation * BoundingBox)) (index : nat) (cur : list Annotation) :
  NoDup (map id cur) ->
  NoDup (map (fun ab => id (fst ab)) sorted) ->
  App.forEach (App.placeAt ty start step) sorted index cur
  = map (placed ty start step sorted index) cur.
Proof.
  revert index cur. induction sorted as [|[x b] L IH]; intros index cur Hcur HL.
  - cbn. symmetry. apply map_id.
  - cbn [App.forEach map fst] in *. inversion HL as [|? ? Hx HL']; subst.
    assert (Hb : App.placeAt ty start step (x, b) index cur
                 = map (fun a => if id a =? id x
                                 then moveAlong ty a (start + step * INR index
                                                      - App.centerAlong ty b)
                                 else a) cur).
    { unfold App.placeAt. cbv zeta.
      rewrite <- (update_by_id
                    (fun a => moveAlong ty a (start + step * INR index - App.centerAlong ty b))
                    (id x) cur Hcur).
      destruct ty; reflexivity. }
    rewrite Hb, IH; [|rewrite map_map; erewrite map_ext; [exact Hcur|]|exact HL'].
    + rewrite map_map. apply map_ext. intros a. cbn [placed].
      destruct (id a =? id x) eqn:E; [|reflexivity].
      apply placed_fresh. rewrite moveAlong_id.
      apply String.eqb_eq in E. rewrite E. exact Hx.
    + intros a. cbn. destruct (id a =? id x); [apply moveAlong_id|reflexivity].
Qed.

Lemma uniqueIn_filter (p : Annotation -> bool) (anns : list Annotation) :
  uniqueIn anns -> uniqueIn (filter p anns).
Proof.
  unfold uniqueIn. induction anns as [|a l IH]; cbn; intros H; [constructor|].
  inversion H as [|? ? Ha Hl]; subst.
  destruct (p a); [|apply IH, Hl]. cbn. constructor; [|apply IH, Hl].
  intros Hin. apply Ha. apply in_map_iff in Hin. destruct Hin as (x & <- & Hx).
  apply in_map. apply filter_In in Hx. tauto.
Qed.

Lemma placed_nth ty start step (L : list (Annotation * BoundingBox)) (index k : nat) x b :
  NoDup (map (fun ab => id (fst ab)) L) ->
  nth_error L k = Some (x, b) ->
  placed ty start step L index x
  = moveAlong ty x (start + step * INR (index + k) - App.centerAlong ty b).
Proof.
  revert index k. induction L as [|[y c] L IH]; intros index k Hnd Hk.
  - destruct k; discriminate.
  - inversion Hnd as [|? ? Hy Hnd']; subst. cbn [placed]. destruct k as [|k]; cbn in Hk.
    + injection Hk as -> ->. rewrite String.eqb_refl, Nat.add_0_r. reflexivity.
    + destruct (id x =? id y) eqn:E.
      * exfalso. apply Hy. apply String.eqb_eq in E. rewrite <- E.
        apply nth_error_In in Hk.
        apply (in_map (fun ab => id (fst ab))) in Hk. exact Hk.
      * rewrite (IH (S index) k Hnd' Hk).
        replace (S index + k)%nat with (index + S k)%nat by lia. reflexivity.
Qed.

Lemma distributedTo_intro ty t a b :
  getAnnotationBounds a = Some b ->
  distributedTo ty t a (moveAlong ty a (t - App.centerAlong ty b)).
Proof.
  intros Hb. unfold distributedTo, moveAlong.
  destruct ty; cbn [App.centerAlong];
    match goal with
    | |- context [moveAnnotation a ?dx ?dy] =>
        destruct (moveAnnotation_bounds a dx dy b Hb)
          as (b' & Hb' & H1 & H2 & H3 & H4 & H5 & H6 & H7 & H8)
    end;
    exists b, b'; repeat split; try assumption; try reflexivity; lra.
Qed.

Lemma sorted_by_center ty (L : list (Annotation * BoundingBox)) :
  Forall (fun ab => getAnnotationBounds (fst ab) = Some (snd ab)) L ->
  StronglySorted (fun p q => App.centerAlong ty (snd p) <= App.centerAlong ty (snd q)) L ->
  StronglySorted (fun a b => centerOf ty a <= centerOf ty b) (map fst L).
Proof.
  intros HB HS. induction HS as [|p L HS IH Hp]; cbn; [constructor|].
  inversion HB as [|? ? Hpb HB']; subst. constructor; [apply IH, HB'|].
  apply Forall_map. rewrite Forall_forall in *. intros q Hq.
  unfold centerOf. rewrite Hpb, (HB' q Hq). apply Hp, Hq.
Qed.

Lemma last_Some {A} (l : list A) (d : A) :
  l <> [] -> last (map Some l) None = Some (last l d).
Proof.
  induction l as [|a l IH]; [congruence|]. intros _.
  destruct l as [|b l]; [reflexivity|].
  change (last (map Some (b :: l)) None = Some (last (b :: l) d)).
  apply IH. discriminate.
Qed.

Lemma last_nth_error {A} (l : list A) (d : A) :
  l <> [] -> nth_error l (List.length l - 1) = Some (last l d).
Proof.
  intros H. destruct (exists_last H) as (l' & z & ->).
  rewrite last_last, length_app. cbn [List.length].
  replace (List.length l' + 1 - 1)%nat with (List.length l') by lia.
  rewrite nth_error_app2 by lia. rewrite Nat.sub_diag. reflexivity.
Qed.

Lemma handleDistribute_spec (ty : App.DistributeType) (r : State) :
  uniqueIds r ->
  (3 <= List.length (selectedAnns r))%nat ->
  (forall a, In a (selectedAnns r) -> points a <> []) ->
  exists s sorted start step,
    App.handleDistribute ty r r = Some s
    /\ Permutation sorted (selectedAnns r)
    /\ StronglySorted (fun a b => centerOf ty a <= centerOf ty b) sorted
    /\ (forall a, hd_error sorted = Some a -> centerOf ty a = start)
    /\ (forall a, nth_error sorted (List.length sorted - 1) = Some a ->
          centerOf ty a = start + step * INR (List.length sorted - 1))
    /\ Forall2 (fun a a' =>
                  if isSelected r a
                  then exists i, nth_error sorted i = Some a
                         /\ distributedTo ty (start + step * INR i) a a'
                  else a' = a)
               (annotations (app r)) (annotations (app s))
    /\ selectedIds (app s) = selectedIds (app r).
Proof.
  intros Huniq Hlen Hne.
  set (pair := fun a : Annotation => let? b := getAnnotationBounds a in Some (a, b)).
  assert (Hb : forall a, In a (selectedAnns r) -> exists ab, pair a = Some ab).
  { intros a Ha. destruct (getPointsBounds_nonempty _ (Hne a Ha)) as [b Hb].
    unfold pair, getAnnotationBounds. rewrite Hb. eauto. }
  destruct (mapM_Forall2 pair (selectedAnns r) Hb) as (bounded & Hbounded & HF).
  assert (Hfst : map fst bounded = selectedAnns r).
  { clear -HF. induction HF as [|a ab l l' Hab _ IH]; cbn; [reflexivity|].
    rewrite IH. f_equal. unfold pair in Hab.
    destruct (getAnnotationBounds a); [|discriminate]. injection Hab as <-. reflexivity. }
  assert (HB : Forall (fun ab => getAnnotationBounds (fst ab) = Some (snd ab)) bounded).
  { clear -HF. induction HF as [|a ab l l' Hab _ IH]; constructor; [|exact IH].
    unfold pair in Hab. destruct (getAnnotationBounds a) eqn:E; [|discriminate].
    injection Hab as <-. exact E. }
  set (key := fun ab : Annotation * BoundingBox => App.centerAlong ty (snd ab)).
  set (bsorted := App.sortBy key bounded).
  pose proof (sortBy_perm key bounded) as Hperm. fold bsorted in Hperm.
  pose proof (sortBy_sorted key bounded) as Hsorted. fold bsorted in Hsorted.
  assert (HBs : Forall (fun ab => getAnnotationBounds (fst ab) = Some (snd ab)) bsorted).
  { eapply Permutation_Forall; [symmetry; exact Hperm|exact HB]. }
  assert (Hperm' : Permutation (map fst bsorted) (selectedAnns r)).
  { rewrite <- Hfst. apply Permutation_map, Hperm. }
  assert (Hn : List.length bsorted = List.length (selectedAnns r)).
  { rewrite <- (length_map fst bsorted). apply Permutation_length, Hperm'. }
  assert (Hnd : NoDup (map (fun ab => id (fst ab)) bsorted)).
  { rewrite <- (map_map fst id).
    eapply Permutation_NoDup; [symmetry; apply Permutation_map, Hperm'|].
    apply uniqueIn_filter, Huniq. }
  destruct bsorted as [|p0 rest] eqn:Ebs; [cbn in Hn; lia|].
  assert (Hnonempty : p0 :: rest <> []) by discriminate.
  set (pl := last (p0 :: rest) p0).
  set (start := key p0). set (end_ := key pl).
  set (n := List.length (p0 :: rest)) in *.
  set (step := (end_ - start) / (INR n - 1)).
  assert (Hn1 : INR (n - 1) = INR n - 1).
  { rewrite minus_INR by lia. reflexivity. }
  assert (Hn3 : 3 <= INR n).
  { replace 3 with (INR 3) by (cbn; lra). apply le_INR. lia. }
  assert (Hend : start + step * INR (n - 1) = end_).
  { rewrite Hn1. unfold step. field. lra. }
  set (newAnns := map (placed ty start step (p0 :: rest) 0) (annotations (app r))).
  exists (dispatch (App.snapshotHistory "分布标注" ;; setAnnotations (fun _ => newAnns)) r),
         (map fst (p0 :: rest)), start, step.
  rewrite length_map. fold n.
  split; [|split; [exact Hperm'|split; [apply sorted_by_center; assumption|]]].
  - unfold App.handleDistribute. fold (isSelected r). fold (selectedAnns r).
    replace (List.length (selectedAnns r) <? 3)%nat with false
      by (symmetry; apply Nat.ltb_ge; exact Hlen).
    fold pair. rewrite Hbounded. fold key. fold bsorted. rewrite Ebs.
    cbn [hd_error]. rewrite (last_Some (p0 :: rest) p0 Hnonempty). fold pl.
    fold start. fold end_. fold n. fold step.
    unfold dispatch. do 2 f_equal.
    unfold newAnns. rewrite <- (forEach_placed ty start step (p0 :: rest) 0 _ Huniq Hnd).
    reflexivity.
  - split; [|split; [|split]].
    + intros a [= <-]. unfold centerOf.
      inversion HBs as [|? ? H0 _]; subst. rewrite H0. reflexivity.
    + intros a Ha. rewrite Hend.
      unfold n in Ha.
      rewrite nth_error_map, (last_nth_error (p0 :: rest) p0 Hnonempty) in Ha.
      change (Some (fst pl) = Some a) in Ha.
      assert (Ea : a = fst pl) by congruence. rewrite Ea. unfold centerOf.
      assert (Hin : In pl (p0 :: rest)) by (apply exists_last in Hnonempty;
        destruct Hnonempty as (l' & z & E); unfold pl; rewrite E, last_last;
        apply in_or_app; right; left; reflexivity).
      rewrite Forall_forall in HBs. rewrite (HBs pl Hin). reflexivity.
    + replace (annotations (app (dispatch (App.snapshotHistory "分布标注" ;;
                 setAnnotations (fun _ => newAnns)) r)))
        with newAnns by (destruct r as [[] ?]; reflexivity).
      unfold newAnns.
      assert (Hall : forall a, In a (annotations (app r)) ->
                (fun a a' => if isSelected r a
                   then exists i, nth_error (map fst (p0 :: rest)) i = Some a
                          /\ distributedTo ty (start + step * INR i) a a'
                   else a' = a) a (placed ty start step (p0 :: rest) 0 a)).
      { intros a Ha. cbn beta. destruct (isSelected r a) eqn:Es.
        - assert (Hsel : In a (selectedAnns r)) by (apply filter_In; split; assumption).
          apply (Permutation_in _ (Permutation_sym Hperm')) in Hsel.
          apply in_map_iff in Hsel. destruct Hsel as ([x b] & Hx & Hin). cbn in Hx. subst x.
          apply In_nth_error in Hin. destruct Hin as [k Hk].
          exists k. split; [rewrite nth_error_map, Hk; reflexivity|].
          rewrite (placed_nth ty start step _ 0 k a b Hnd Hk). cbn [Nat.add].
          apply distributedTo_intro.
          rewrite Forall_forall in HBs. apply (HBs (a, b)). eapply nth_error_In, Hk.
        - apply placed_fresh. intros Hin. rewrite <- (map_map fst id) in Hin.
          apply (Permutation_in _ (Permutation_map id Hperm')) in Hin.
          apply in_map_iff in Hin. destruct Hin as (x & Hx & Hsel).
          apply filter_In in Hsel. destruct Hsel as [_ Hsel].
          unfold isSelected in *. rewrite Hx in Hsel. congruence. }
      clear -Hall. induction (annotations (app r)) as [|a l IH]; cbn; constructor.
      * apply Hall. left; reflexivity.
      * apply IH. intros; apply Hall; right; assumption.
    + destruct r as [[] ?]; reflexivity.
Qed.

Lemma moveAlong_zero ty a : moveAlong ty a 0 = a.
Proof. destruct ty; apply moveAnnotation_zero. Qed.

(** X12: with unique ids and at least three selected annotations, each
    with a point, [handleDistribute] returns: the selected annotations,
    sorted by centre along the axis, are moved along that axis only so that
    the centre of the [i]-th lies at [start + step * i]; the first and the
    last stay where they are, the others and the selection are unchanged. *)
Theorem handleDistribute_spaces_evenly (ty : App.DistributeType) (r : State) :
  uniqueIds r ->
  (3 <= List.length (selectedAnns r))%nat ->
  (forall a, In a (selectedAnns r) -> points a <> []) ->
  exists s sorted start step,
    App.handleDistribute ty r r = Some s
    /\ Permutation sorted (selectedAnns r)
    /\ StronglySorted (fun a b => centerOf ty a <= centerOf ty b) sorted
    /\ Forall2 (fun a a' =>
                  if isSelected r a
                  then exists i, nth_error sorted i = Some a
                         /\ distributedTo ty (start + step * INR i) a a'
                  else a' = a)
               (annotations (app r)) (annotations (app s))
    /\ (forall a, hd_error sorted = Some a
                  \/ nth_error sorted (List.length sorted - 1) = Some a ->
          In a (annotations (app s)))
    /\ selectedIds (app s) = selectedIds (app r).
Proof.
  intros Huniq Hlen Hne.
  destruct (handleDistribute_spec ty r Huniq Hlen Hne)
    as (s & sorted & start & step & Hs & Hperm & Hsorted & Hfirst & Hlast & HF & Hsel).
  exists s, sorted, start, step.
  split; [exact Hs|split; [exact Hperm|split; [exact Hsorted|split; [exact HF|]]]].
  split; [|exact Hsel].
  assert (Hnd : NoDup sorted).
  { eapply Permutation_NoDup; [symmetry; exact Hperm|].
    eapply NoDup_map_inv, uniqueIn_filter, Huniq. }
  assert (Hpos : forall a k, nth_error sorted k = Some a ->
            centerOf ty a = start + step * INR k -> In a (annotations (app s))).
  { intros a k Hk Hc.
    assert (Hin : In a (selectedAnns r))
      by (eapply Permutation_in; [exact Hperm|eapply nth_error_In, Hk]).
    apply filter_In in Hin. destruct Hin as [Hin Es].
    destruct (Forall2_In_l _ _ _ _ HF Hin) as (a' & Hin' & Hrel).
    rewrite Es in Hrel. destruct Hrel as (i & Hi & b & b' & Hb & _ & Ea' & _).
    assert (i = k).
    { apply (proj1 (NoDup_nth_error sorted) Hnd).
      - apply nth_error_Some. congruence.
      - congruence. }
    subst i. unfold centerOf in Hc. rewrite Hb in Hc. rewrite <- Hc in Ea'.
    replace (App.centerAlong ty b - App.centerAlong ty b) with 0 in Ea' by ring.
    rewrite moveAlong_zero in Ea'. subst a'. exact Hin'. }
  intros a [Ha|Ha].
  - apply (Hpos a 0%nat).
    + destruct sorted; [discriminate|exact Ha].
    + rewrite (Hfirst a Ha). cbn. ring.
  - apply (Hpos a _ Ha). apply Hlast, Ha.
Qed.

Lemma threeBoxes_selected :
  uniqueIds threeBoxes
  /\ (3 <= List.length (selectedAnns threeBoxes))%nat
  /\ (forall a, In a (selectedAnns threeBoxes) -> points a <> []).
Proof.
  split; [|split].
  - unfold uniqueIds. cbn. repeat constructor; cbn; intuition discriminate.
  - cbn. lia.
  - intros a [<-|[<-|[<-|[]]]]; discriminate.
Qed.

Lemma handleDistribute_spaces_evenly_witness :
  uniqueIds threeBoxes
  /\ (3 <= List.length (selectedAnns threeBoxes))%nat
  /\ (forall a, In a (selectedAnns threeBoxes) -> points a <> [])
  /\ exists s sorted start step,
       App.handleDistribute App.distribute_horizontal threeBoxes threeBoxes = Some s
       /\ Permutation sorted (selectedAnns threeBoxes)
       /\ StronglySorted (fun a b => centerOf App.distribute_horizontal a
                                     <= centerOf App.distribute_horizontal b) sorted
       /\ Forall2 (fun a a' =>
                     if isSelected threeBoxes a
                     then exists i, nth_error sorted i = Some a
                            /\ distributedTo App.distribute_horizontal
                                 (start + step * INR i) a a'
                     else a' = a)
                  (annotations (app threeBoxes)) (annotations (app s))
       /\ (forall a, hd_error sorted = Some a
                     \/ nth_error sorted (List.length sorted - 1) = Some a ->
             In a (annotations (app s)))
       /\ selectedIds (app s) = selectedIds (app threeBoxes).
Proof.
  destruct threeBoxes_selected as (H1 & H2 & H3).
  split; [exact H1|]. split; [exact H2|]. split; [exact H3|].
  exact (handleDistribute_spaces_evenly App.distribute_horizontal threeBoxes H1 H2 H3).
Defined.

(** ** Checkpoints of the other handlers *)

Lemma handleDistribute_checkpoint (r s : State) (ty : App.DistributeType) :
  App.handleDistribute ty r r = Some s -> kept_or_checkpointed r s.
Proof.
  unfold App.handleDistribute.
  destruct (_ <? 3)%nat; [intros [= <-]; left; reflexivity|].
  repeat match goal with
         | |- context [match ?o with Some _ => _ | None => _ end] =>
             destruct o; [|discriminate]
         end.
  intros [= <-]. right. unfold checkpointed.
  destruct r as [[isz anns sel tool T pad [hp hf] km lp] cv]. eexists; eexists; reflexivity.
Qed.

Lemma handleDelete_checkpoint (r : State) (ids : list string) :
  kept_or_checkpointed r (dispatch (App.handleDelete ids) r).
Proof.
  right. destruct r as [[isz anns sel tool T pad [p f] km lp] cv].
  eexists; eexists; reflexivity.
Qed.

(** ** Pointer gestures *)

Ltac close_gesture :=
  first [ left; eexists; eexists; reflexivity
        | right; repeat split; reflexivity ].

Lemma vertexClick_gesture (r : State) (e : MouseEvent) (imgPos : Point) (h : Handler) :
  idle r ->
  CanvasArea.vertexClick r e imgPos = Some h ->
  gestureInv r (h r r).
Proof.
  unfold gestureInv, idle, checkpointed, CanvasArea.vertexClick.
  destruct r as [[isz anns sel tool T pad [p f] km lp]
                 [dragging ds cm hov he ha tp pp prs av sp]].
  cbn [app canvas annotations selectedIds keyMap transform history currentTool
       isDragging activeVertex pendingRectStart] in *.
  intros (-> & -> & ->).
  split_handler; intros [= <-]; close_gesture.
Qed.

Lemma handleMouseDown_gesture (r : State) (env : Env) (e : MouseEvent) :
  idle r ->
  CanvasArea.isPan r e = false ->
  currentTool (app r) <> tool_polygon ->
  gestureInv r (dispatch (CanvasArea.handleMouseDown env e) r).
Proof.
  intros Hidle Hpan Ht. unfold dispatch, CanvasArea.handleMouseDown. rewrite Hpan.
  destruct (negb _); [right; split; [reflexivity|exact Hidle]|].
  destruct (currentTool (app r)) eqn:Etool; try congruence.
  - destruct (CanvasArea.vertexClick _ _ _) as [h|] eqn:Ev.
    + eapply vertexClick_gesture; eassumption.
    + revert Hidle. unfold gestureInv, idle, checkpointed, CanvasArea.bodyClick, when.
      destruct r as [[isz anns sel tool T pad [p f] km lp]
                     [dragging ds cm hov he ha tp pp prs av sp]].
      cbn [app canvas annotations selectedIds keyMap transform history currentTool
           isDragging activeVertex pendingRectStart] in *.
      intros (-> & -> & ->).
      split_handler; close_gesture.
  - right. split; [reflexivity|exact Hidle].
  - left. destruct r as [[isz anns sel tool T pad [p f] km lp] cv].
    eexists; eexists; reflexivity.
Qed.

Lemma handleMouseMove_history (s : State) (env : Env) (e : MouseEvent) :
  history (app (dispatch (CanvasArea.handleMouseMove env e) s)) = history (app s).
Proof.
  unfold dispatch, CanvasArea.handleMouseMove, CanvasArea.hoverEdge,
    CanvasArea.hoverTooltip, CanvasArea.dragVertex, CanvasArea.resizeRectangle, when.
  destruct s as [[isz anns sel tool T pad [p f] km lp]
                 [dragging ds cm hov he ha tp pp prs av sp]].
  cbn [app canvas annotations selectedIds keyMap transform history currentTool
       isDragging activeVertex pendingRectStart dragStart].
  split_handler; reflexivity.
Qed.

Lemma handleMouseMove_idle (s : State) (env : Env) (e : MouseEvent) :
  idle s ->
  annotations (app (dispatch (CanvasArea.handleMouseMove env e) s)) = annotations (app s)
  /\ idle (dispatch (CanvasArea.handleMouseMove env e) s).
Proof.
  unfold idle, dispatch, CanvasArea.handleMouseMove, CanvasArea.hoverEdge,
    CanvasArea.hoverTooltip, when.
  destruct s as [[isz anns sel tool T pad [p f] km lp]
                 [dragging ds cm hov he ha tp pp prs av sp]].
  cbn [app canvas annotations selectedIds keyMap transform history currentTool
       isDragging activeVertex pendingRectStart dragStart].
  intros (-> & -> & ->). rewrite ?andb_false_r. cbn [andb].
  split_handler; repeat split; reflexivity.
Qed.

Lemma handleMouseUp_history (s : State) (env : Env) :
  history (app (dispatch (CanvasArea.handleMouseUp env) s)) = history (app s).
Proof.
  unfold dispatch, CanvasArea.handleMouseUp.
  destruct s as [[isz anns sel tool T pad [p f] km lp]
                 [dragging ds cm hov he ha tp pp prs av sp]].
  cbn [app canvas annotations selectedIds keyMap transform history currentTool
       isDragging activeVertex pendingRectStart dragStart].
  split_handler; reflexivity.
Qed.

Lemma handleMouseUp_idle (s : State) (env : Env) :
  pendingRectStart (canvas s) = None ->
  annotations (app (dispatch (CanvasArea.handleMouseUp env) s)) = annotations (app s)
  /\ idle (dispatch (CanvasArea.handleMouseUp env) s).
Proof.
  unfold idle, dispatch, CanvasArea.handleMouseUp.
  destruct s as [[isz anns sel tool T pad [p f] km lp]
                 [dragging ds cm hov he ha tp pp prs av sp]].
  cbn [app canvas annotations selectedIds keyMap transform history currentTool
       isDragging activeVertex pendingRectStart dragStart].
  intros ->. repeat split; reflexivity.
Qed.

Lemma pointerHandler_gesture (r s : State) (ev : PointerEvent) :
  gestureInv r s -> gestureInv r (dispatch (pointerHandler ev) s).
Proof.
  intros [(pre & action & H)|[Ha Hi]].
  - left. exists pre, action. rewrite <- H.
    destruct ev; [apply handleMouseMove_history|apply handleMouseUp_history].
  - right. destruct ev as [env e|env]; cbn [pointerHandler].
    + destruct (handleMouseMove_idle s env e Hi) as [Ha' Hi']. split; congruence.
    + destruct (handleMouseUp_idle s env (proj2 (proj2 Hi))) as [Ha' Hi'].
      split; congruence.
Qed.

Lemma run_gesture (r s : State) (evs : list PointerEvent) :
  gestureInv r s -> gestureInv r (run (map pointerHandler evs) s).
Proof.
  revert s. induction evs as [|ev evs IH]; intros s H; [exact H|].
  cbn [map]. rewrite run_cons. apply IH, pointerHandler_gesture, H.
Qed.

Lemma gestureInv_undoable (r s : State) : gestureInv r s -> undoable r s.
Proof.
  intros [H|[H _]]; apply checkpoint_undo; [right|left]; assumption.
Qed.

(** X13: whenever the key listener of the canvas (nudge), the key listener
    of [App] (for a key that is neither undo nor redo), [handleDelete],
    [handleAlign] or [handleDistribute] changes the collection, it has taken
    a snapshot in the same handler: one undo gives the collection of before,
    and a redo after it the collection of after. *)
Theorem edits_take_a_checkpoint (r : State) (env : Env) :
  (forall e, undoable r (dispatch (CanvasArea.handleKeyDown e) r))
  /\ (forall e,
        isShortcutPressed e (keyMap (app r) UNDO) = false ->
        isShortcutPressed e (keyMap (app r) REDO) = false ->
        undoable r (dispatch (App.handleKeyDown env e) r))
  /\ (forall ids, undoable r (dispatch (App.handleDelete ids) r))
  /\ (forall ty s, App.handleAlign ty r r = Some s -> undoable r s)
  /\ (forall ty s, App.handleDistribute ty r r = Some s -> undoable r s).
Proof.
  repeat split; intros; apply checkpoint_undo.
  - apply canvas_handleKeyDown_checkpoint.
  - apply app_handleKeyDown_checkpoint; assumption.
  - apply handleDelete_checkpoint.
  - eapply handleAlign_checkpoint; eassumption.
  - eapply handleDistribute_checkpoint; eassumption.
Qed.

(** X14: a pointer gesture that starts on an idle canvas with a pointer-down
    that is no pan, with a tool other than the polygon tool, and goes on with
    any pointer-moves and pointer-ups (a move, a resize, a vertex edit, a new
    rectangle), is one undo step: the collection is unchanged, or one undo
    gives the collection of before the gesture and redo the one of after. *)
Theorem pointer_gesture_is_one_undo_step (r : State) (env : Env) (e : MouseEvent)
    (evs : list PointerEvent) :
  idle r ->
  CanvasArea.isPan r e = false ->
  currentTool (app r) <> tool_polygon ->
  undoable r (run (CanvasArea.handleMouseDown env e :: map pointerHandler evs) r).
Proof.
  intros Hi Hp Ht. rewrite run_cons.
  apply gestureInv_undoable, run_gesture, handleMouseDown_gesture; assumption.
Qed.

Lemma pointer_gesture_is_one_undo_step_witness :
  idle twoBoxes
  /\ CanvasArea.isPan twoBoxes (leftClickAt 55 55) = false
  /\ currentTool (app twoBoxes) <> tool_polygon
  /\ undoable twoBoxes
       (run (CanvasArea.handleMouseDown atOrigin (leftClickAt 55 55)
             :: map pointerHandler [pointer_move atOrigin (leftClickAt 60 60);
                                    pointer_up atOrigin])
            twoBoxes).
Proof.
  assert (H1 : idle twoBoxes) by (repeat split; reflexivity).
  assert (H2 : CanvasArea.isPan twoBoxes (leftClickAt 55 55) = false) by reflexivity.
  assert (H3 : currentTool (app twoBoxes) <> tool_polygon) by discriminate.
  split; [exact H1|]. split; [exact H2|]. split; [exact H3|].
  exact (pointer_gesture_is_one_undo_step twoBoxes atOrigin (leftClickAt 55 55) _ H1 H2 H3).
Defined.

(** ** No locked annotation is selected *)

Ltac norm_state :=
  cbv beta iota zeta delta
    [seqH skip updApp updCanvas setAnnotations setSelectedIds setCurrentTool
     setTransform setHistory setLabelPopup setIsDragging setDragStart
     setCurrentMouseImagePos setIsHoveringStartPoint setHoveredEdge
     setHoveredAnnotationId setTooltipPos setPendingPoly setPendingRectStart
     setActiveVertex setIsSpacePressed App.snapshotHistory App.handleDelete
     App.handleShapeComplete App.handleZoom
     app canvas annotations selectedIds history past future].

Lemma uniqueIn_map (g : Annotation -> Annotation) (anns : list Annotation) :
  (forall a, id (g a) = id a) -> uniqueIn anns -> uniqueIn (map g anns).
Proof.
  unfold uniqueIn. intros Hg H. rewrite map_map.
  erewrite map_ext; [exact H|exact Hg].
Qed.

Lemma uniqueIn_replace (anns : list Annotation) (sid : string) (ann newAnn : Annotation) :
  findAnnotation anns sid = Some ann ->
  id newAnn = id ann ->
  uniqueIn anns ->
  uniqueIn (map (fun a => if id a =? sid then newAnn else a) anns).
Proof.
  intros Hf Hid H. apply findAnnotation_id in Hf. destruct Hf as [Hf _].
  unfold uniqueIn in *. rewrite map_map. erewrite map_ext; [exact H|].
  intros a. cbn. destruct (id a =? sid) eqn:E; [|reflexivity].
  apply String.eqb_eq in E. congruence.
Qed.

Lemma uniqueIn_snoc (anns : list Annotation) (new : Annotation) :
  ~ In (id new) (map id anns) -> uniqueIn anns -> uniqueIn (anns ++ [new]).
Proof.
  unfold uniqueIn. intros Hfresh H. rewrite map_app. cbn.
  apply NoDup_app; [exact H|repeat constructor; intros []|].
  intros i Hi [<-|[]]. contradiction.
Qed.

Lemma unique_id_eq (anns : list Annotation) (a b : Annotation) :
  uniqueIn anns -> In a anns -> In b anns -> id a = id b -> a = b.
Proof.
  unfold uniqueIn. induction anns as [|c l IH]; cbn; intros H Ha Hb E; [contradiction|].
  inversion H as [|? ? Hc Hl]; subst.
  destruct Ha as [->|Ha], Hb as [->|Hb]; try reflexivity.
  - exfalso. apply Hc. rewrite E. apply in_map, Hb.
  - exfalso. apply Hc. rewrite <- E. apply in_map, Ha.
  - apply IH; assumption.
Qed.

Lemma includes_filter (p : string -> bool) (sel : list string) (i : string) :
  includes (filter p sel) i = true -> includes sel i = true.
Proof.
  rewrite !includes_In. intros H. apply filter_In in H. tauto.
Qed.

Lemma includes_snoc (sel : list string) (x i : string) :
  includes (sel ++ [x]) i = true -> includes sel i = true \/ i = x.
Proof.
  rewrite !includes_In. intros H. apply in_app_or in H.
  destruct H as [H|[<-|[]]]; auto.
Qed.

Lemma includes_one (x i : string) : includes [x] i = true -> i = x.
Proof. rewrite includes_In. intros [<-|[]]. reflexivity. Qed.

Lemma find_rev_some {A} (p : A -> bool) (l : list A) (a : A) :
  find p (rev l) = Some a -> In a l /\ p a = true.
Proof.
  intros H. apply find_some in H. destruct H as [Hin Hp].
  split; [apply in_rev, Hin|exact Hp].
Qed.

(** Selecting an unlocked annotation of the collection. *)
Lemma select_unlocked (anns : list Annotation) (sel sel' : list string) (ann : Annotation) :
  uniqueIn anns -> In ann anns -> locked ann = false ->
  (forall i, includes sel' i = true -> includes sel i = true \/ i = id ann) ->
  (forall a, In a anns -> includes sel (id a) = true -> locked a = false) ->
  forall a, In a anns -> includes sel' (id a) = true -> locked a = false.
Proof.
  intros Hu Hin Hl Hsub H a Ha Hs. destruct (Hsub _ Hs) as [Hs'|E].
  - apply H; assumption.
  - rewrite (unique_id_eq anns a ann Hu Ha Hin E). exact Hl.
Qed.

Lemma select_new (anns : list Annotation) (new : Annotation) :
  ~ In (id new) (map id anns) -> locked new = false ->
  forall a, In a (anns ++ [new]) -> includes [id new] (id a) = true -> locked a = false.
Proof.
  intros Hfresh Hl a Ha Hs. apply includes_one in Hs.
  apply in_app_or in Ha. destruct Ha as [Ha|[<-|[]]]; [|exact Hl].
  exfalso. apply Hfresh. rewrite <- Hs. apply in_map, Ha.
Qed.

Lemma pop_Some {A} (l np : list A) (x : A) :
  pop l = (Some x, np) -> l = (np ++ [x])%list.
Proof.
  unfold pop. destruct l as [|a l _] using rev_ind; [cbn; discriminate|].
  rewrite map_app, removelast_last. cbn [map]. rewrite last_last.
  intros [= -> <-]. reflexivity.
Qed.

Lemma shift_Some {A} (l nf : list A) (x : A) :
  shift l = (Some x, nf) -> l = x :: nf.
Proof. unfold shift. destruct l; cbn; intros [= -> ->]; reflexivity. Qed.

Lemma Forall_snoc_l {A} (P : A -> Prop) (p f : list A) (x : A) :
  P x -> Forall P (p ++ f) -> Forall P ((p ++ [x]) ++ f).
Proof.
  intros Hx H. rewrite <- app_assoc. apply Forall_app in H. destruct H.
  apply Forall_app. split; [assumption|]. constructor; assumption.
Qed.

Lemma Forall_snoc_only {A} (P : A -> Prop) (p f : list A) (x : A) :
  P x -> Forall P (p ++ f) -> Forall P ((p ++ [x]) ++ []).
Proof.
  intros Hx H. rewrite app_nil_r. apply Forall_app in H. destruct H.
  apply Forall_app. split; [assumption|]. constructor; [assumption|constructor].
Qed.

Ltac hist_closer Hu Hh :=
  first [ exact Hh
        | eapply Forall_snoc_only; [exact Hu|exact Hh]
        | apply Forall_snoc_l; [exact Hu|exact Hh] ].

Ltac split_more := repeat match goal with
  | |- context [if ?b then _ else _] => destruct b eqn:?
  | |- context [match ?t with shape_rectangle => _ | shape_polygon => _ end] =>
      destruct t eqn:?
  end.

Ltac lock_map_closer Hl :=
  let a' := fresh "a'" in let a := fresh "a" in
  let Hin := fresh "Hin" in let Es := fresh "Es" in
  intros a' Hin Es; apply in_map_iff in Hin; destruct Hin as (a & <- & Hin);
  revert Es; split_more; intros Es;
  first [ exact (Hl a Hin Es) | assumption ].

Ltac lock_closer Hu Hl :=
  first [ exact Hl
        | let a := fresh "a" in let E := fresh "E" in
          intros a _ E; discriminate E
        | lock_map_closer Hl
        | apply select_new; [assumption|reflexivity] ].

Ltac uniq_closer Hu :=
  first [ exact Hu
        | apply uniqueIn_map; [intros ?; split_more; reflexivity|exact Hu]
        | eapply uniqueIn_replace; [eassumption|split_more; reflexivity|exact Hu]
        | apply uniqueIn_filter; exact Hu
        | apply uniqueIn_snoc; [assumption|exact Hu] ].

Ltac kept_closer Hu Hh Hl :=
  split; [uniq_closer Hu|split; [hist_closer Hu Hh|lock_closer Hu Hl]].

Ltac enter_kept Hu Hh Hl :=
  unfold wellKept, lockedUnselected, isSelected, dispatch;
  match goal with
  | |- context [?r] =>
      is_var r;
      match type of r with
      | State =>
          destruct r as [[isz anns sel tool T pad [hp hf] km lp]
                         [dragging ds cm hov he ha tp pp prs av sp]]
      end
  end;
  cbn [app canvas annotations selectedIds keyMap transform history currentTool
       isDragging activeVertex pendingRectStart dragStart past future imageSize];
  intros (Hu & Hh & Hl).

Lemma canvas_handleKeyDown_kept (r : State) (e : KeyboardEvent) :
  wellKept r -> wellKept (dispatch (CanvasArea.handleKeyDown e) r).
Proof.
  unfold CanvasArea.handleKeyDown, CanvasArea.handleCancelDraw,
    CanvasArea.handleUndoPoint, when.
  enter_kept Hu Hh Hl.
  split_handler; norm_state; kept_closer Hu Hh Hl.
Qed.

Lemma app_updApp (f : AppState -> AppState) (r s : State) :
  app (updApp f r s) = f (app s).
Proof. reflexivity. Qed.

Lemma app_updCanvas (f : CanvasState -> CanvasState) (r s : State) :
  app (updCanvas f r s) = app s.
Proof. reflexivity. Qed.

Lemma hoverEdge_app (r : State) (imgPos : Point) (r' s : State) :
  app (CanvasArea.hoverEdge r imgPos r' s) = app s.
Proof.
  unfold CanvasArea.hoverEdge. split_handler; reflexivity.
Qed.

Lemma hoverTooltip_app (r : State) (pos imgPos : Point) (r' s : State) :
  app (CanvasArea.hoverTooltip r pos imgPos r' s) = app s.
Proof.
  unfold CanvasArea.hoverTooltip. split_handler; reflexivity.
Qed.

Ltac norm_app :=
  cbv beta delta
    [seqH skip setAnnotations setSelectedIds setCurrentTool
     setTransform setHistory setLabelPopup setIsDragging setDragStart
     setCurrentMouseImagePos setIsHoveringStartPoint setHoveredEdge
     setHoveredAnnotationId setTooltipPos setPendingPoly setPendingRectStart
     setActiveVertex setIsSpacePressed App.snapshotHistory App.handleDelete
     App.handleShapeComplete App.handleZoom];
  repeat first [ rewrite app_updApp | rewrite app_updCanvas
               | rewrite hoverTooltip_app | rewrite hoverEdge_app ];
  cbv beta iota zeta delta [app annotations selectedIds history past future].

Lemma handleMouseMove_kept (r : State) (env : Env) (e : MouseEvent) :
  wellKept r -> wellKept (dispatch (CanvasArea.handleMouseMove env e) r).
Proof.
  unfold CanvasArea.handleMouseMove, CanvasArea.dragVertex, when.
  enter_kept Hu Hh Hl.
  split_handler; norm_app; kept_closer Hu Hh Hl.
Qed.

Lemma vertexClick_kept (r : State) (e : MouseEvent) (imgPos : Point) (h : Handler) :
  wellKept r ->
  CanvasArea.vertexClick r e imgPos = Some h ->
  wellKept (h r r).
Proof.
  unfold CanvasArea.vertexClick.
  enter_kept Hu Hh Hl.
  split_handler; intros [= <-]; norm_app; kept_closer Hu Hh Hl.
Qed.

Ltac hit_facts :=
  match goal with
  | H : find _ (rev _) = Some ?ann |- _ =>
      let Hin := fresh "Hin" in let Hp := fresh "Hp" in
      apply find_rev_some in H; destruct H as [Hin Hp];
      apply andb_prop in Hp; destruct Hp as [Hp _];
      apply andb_prop in Hp; destruct Hp as [_ Hp];
      apply negb_true_iff in Hp
  end.

Ltac select_closer Hu Hl :=
  first [ exact Hl
        | let a := fresh "a" in let E := fresh "E" in
          intros a _ E; discriminate E
        | eapply select_unlocked; [exact Hu|eassumption|eassumption| |exact Hl];
          let i := fresh "i" in let Hi := fresh "Hi" in
          intros i Hi;
          first [ left; exact (includes_filter _ _ _ Hi)
                | exact (includes_snoc _ _ _ Hi)
                | right; exact (includes_one _ _ Hi) ] ].

Lemma bodyClick_kept (r : State) (e : MouseEvent) (imgPos : Point) :
  wellKept r -> wellKept (CanvasArea.bodyClick r e imgPos r r).
Proof.
  unfold CanvasArea.bodyClick, when.
  enter_kept Hu Hh Hl.
  split_handler; try hit_facts; norm_app;
    (split; [exact Hu|split; [hist_closer Hu Hh|select_closer Hu Hl]]).
Qed.

Lemma handleMouseDown_kept (r : State) (env : Env) (e : MouseEvent) :
  freshId env r ->
  wellKept r -> wellKept (dispatch (CanvasArea.handleMouseDown env e) r).
Proof.
  intros Hfresh H. unfold dispatch, CanvasArea.handleMouseDown.
  destruct (CanvasArea.isPan r e).
  { destruct r as [[] []]. exact H. }
  destruct (negb _); [exact H|].
  destruct (currentTool (app r)) eqn:Etool.
  - destruct (CanvasArea.vertexClick _ _ _) as [h|] eqn:Ev.
    + eapply vertexClick_kept; eassumption.
    + apply bodyClick_kept, H.
  - exact H.
  - revert H. enter_kept Hu Hh Hl. norm_app. kept_closer Hu Hh Hl.
  - revert H Hfresh. unfold freshId, when. enter_kept Hu Hh Hl. intros Hfresh.
    split_handler; norm_app; kept_closer Hu Hh Hl.
Qed.

Lemma handleMouseUp_kept (r : State) (env : Env) :
  freshId env r ->
  wellKept r -> wellKept (dispatch (CanvasArea.handleMouseUp env) r).
Proof.
  intros Hfresh H. revert H Hfresh. unfold freshId, CanvasArea.handleMouseUp.
  enter_kept Hu Hh Hl. intros Hfresh.
  split_handler; norm_app; kept_closer Hu Hh Hl.
Qed.

Lemma Forall_undo {A} (P : A -> Prop) (p np f : list A) (x y : A) :
  p = (np ++ [x])%list -> P y -> Forall P (p ++ f) ->
  P x /\ Forall P (np ++ y :: f).
Proof.
  intros -> Hy H. rewrite <- app_assoc in H. apply Forall_app in H.
  destruct H as [H1 H2]. inversion H2; subst. split; [assumption|].
  apply Forall_app. split; [assumption|]. constructor; assumption.
Qed.

Lemma Forall_redo {A} (P : A -> Prop) (p f nf : list A) (x y : A) :
  f = x :: nf -> P y -> Forall P (p ++ f) ->
  P x /\ Forall P ((p ++ [y]) ++ nf).
Proof.
  intros -> Hy H. apply Forall_app in H.
  destruct H as [H1 H2]. inversion H2; subst. split; [assumption|].
  rewrite <- app_assoc. apply Forall_app. split; [assumption|]. constructor; assumption.
Qed.

Lemma pop_None {A} (l np : list A) : pop l = (None, np) -> l = [].
Proof.
  unfold pop. destruct l as [|a l _] using rev_ind; [reflexivity|].
  rewrite map_app. cbn [map]. rewrite last_last. discriminate.
Qed.

Ltac enter_kept2 r s Hu Hh Hl Hu' Hh' Hl' :=
  unfold wellKept, lockedUnselected, isSelected;
  destruct r as [[isz anns sel tool T pad [hp hf] km lp]
                 [dragging ds cm hov he ha tp pp prs av sp]];
  destruct s as [[isz' anns' sel' tool' T' pad' [hp' hf'] km' lp']
                 [dragging' ds' cm' hov' he' ha' tp' pp' prs' av' sp']];
  cbn [app canvas annotations selectedIds keyMap transform history currentTool
       isDragging activeVertex pendingRectStart dragStart past future imageSize];
  intros (Hu & Hh & Hl) (Hu' & Hh' & Hl').

Lemma handleUndo_keeps (r s : State) :
  wellKept r -> wellKept s -> wellKept (App.handleUndo r s).
Proof.
  unfold App.handleUndo.
  enter_kept2 r s Hu Hh Hl Hu' Hh' Hl'.
  split_handler; norm_app; try (kept_closer Hu' Hh' Hl').
  - match goal with H : pop hp = _ |- _ => apply pop_Some in H; rename H into Hp end.
    destruct (Forall_undo _ _ _ hf _ (HistoryItem.mk anns (App.actionOr (Some t))) Hp Hu Hh)
      as [Ht Hh2].
    split; [exact Ht|split; [exact Hh2|intros a _ E; discriminate E]].
  - match goal with H : pop hp = _ |- _ => apply pop_None in H; subst hp end.
    discriminate.
Qed.

Lemma handleRedo_keeps (r s : State) :
  wellKept r -> wellKept s -> wellKept (App.handleRedo r s).
Proof.
  unfold App.handleRedo.
  enter_kept2 r s Hu Hh Hl Hu' Hh' Hl'.
  split_handler; norm_app; try (kept_closer Hu' Hh' Hl').
  - match goal with H : shift hf = _ |- _ => apply shift_Some in H; rename H into Hp end.
    destruct (Forall_redo _ hp _ _ _ (HistoryItem.mk anns (App.actionOr (Some t))) Hp Hu Hh)
      as [Ht Hh2].
    split; [exact Ht|split; [exact Hh2|intros a _ E; discriminate E]].
  - match goal with H : shift hf = _ |- _ => unfold shift in H; destruct hf; discriminate end.
Qed.

Lemma handleDelete_keeps (ids : list string) (r s : State) :
  wellKept r -> wellKept s -> wellKept (App.handleDelete ids r s).
Proof.
  enter_kept2 r s Hu Hh Hl Hu' Hh' Hl'.
  norm_app.
  split; [apply uniqueIn_filter; exact Hu'|].
  split; [eapply Forall_snoc_only; [exact Hu|exact Hh']|intros a _ E; discriminate E].
Qed.

Lemma view_keeps (f : ViewTransform -> ViewTransform) (r s : State) :
  wellKept s -> wellKept (setTransform f r s).
Proof. destruct s as [[] ?]. exact (fun H => H). Qed.

Lemma tool_keeps (f : ToolType -> ToolType) (r s : State) :
  wellKept s -> wellKept (setCurrentTool f r s).
Proof. destruct s as [[] ?]. exact (fun H => H). Qed.

Lemma handleResetView_keeps (env : Env) (r s : State) :
  wellKept s -> wellKept (App.handleResetView env r s).
Proof.
  unfold App.handleResetView. destruct (Reqb _ _); [exact (fun H => H)|apply view_keeps].
Qed.

Lemma when_keeps (b : bool) (h : Handler) (r s : State) :
  (wellKept s -> wellKept (h r s)) -> wellKept s -> wellKept (when b h r s).
Proof. destruct b; cbn; auto. Qed.

Lemma app_handleKeyDown_kept (r : State) (env : Env) (e : KeyboardEvent) :
  wellKept r -> wellKept (dispatch (App.handleKeyDown env e) r).
Proof.
  intros H. unfold dispatch, App.handleKeyDown.
  destruct (_ =? "INPUT"); [exact H|].
  unfold seqH.
  repeat (apply when_keeps; [first [ apply tool_keeps | apply view_keeps
                                   | apply handleResetView_keeps
                                   | apply handleUndo_keeps, H
                                   | apply handleRedo_keeps, H
                                   | idtac ]|]); try exact H.
  apply when_keeps. apply handleDelete_keeps, H.
Qed.

Lemma handleToggleVisible_kept (i : string) (r : State) :
  wellKept r -> wellKept (dispatch (App.handleToggleVisible i) r).
Proof.
  unfold App.handleToggleVisible.
  enter_kept Hu Hh Hl. norm_app. kept_closer Hu Hh Hl.
Qed.

Lemma handleToggleLock_kept (i : string) (r : State) :
  wellKept r -> wellKept (dispatch (App.handleToggleLock i) r).
Proof.
  unfold App.handleToggleLock, when.
  enter_kept Hu Hh Hl.
  split_handler; norm_app;
    (split; [uniq_closer Hu|split; [exact Hh|]]);
    intros a' Hin Es; apply in_map_iff in Hin; destruct Hin as (a & <- & Hin);
    revert Es; destruct (id a =? i) eqn:Ei; intros Es;
    try exact (Hl a Hin Es); try exact (Hl a Hin (includes_filter _ _ _ Es)).
  - cbn in Es. apply includes_In, filter_In in Es. destruct Es as [_ Es].
    apply String.eqb_eq in Ei. subst i. rewrite String.eqb_refl in Es. discriminate.
  - cbn in Es. apply String.eqb_eq in Ei. subst i. congruence.
Qed.

Lemma handleRowClick_kept (ann : Annotation) (e : MouseEvent) (r : State) :
  In ann (annotations (app r)) ->
  wellKept r -> wellKept (dispatch (Sidebar.handleRowClick ann e) r).
Proof.
  intros Hin H. revert H Hin. unfold Sidebar.handleRowClick.
  enter_kept Hu Hh Hl. intros Hin.
  split_handler; norm_app;
    (split; [exact Hu|split; [exact Hh|select_closer Hu Hl]]).
Qed.

Lemma deleteButton_kept (ann : Annotation) (h : Handler) (r : State) :
  Sidebar.deleteButton ann = Some h ->
  wellKept r -> wellKept (dispatch h r).
Proof.
  unfold Sidebar.deleteButton. destruct (negb _); [|discriminate].
  intros [= <-] H. apply handleDelete_keeps; exact H.
Qed.

Lemma canvas_only_kept (r s : State) : app s = app r -> wellKept r -> wellKept s.
Proof.
  unfold wellKept, lockedUnselected, isSelected. intros ->. exact (fun H => H).
Qed.

Lemma onWheel_kept (env : Env) (e : WheelEvent) (r : State) :
  wellKept r -> wellKept (dispatch (CanvasArea.onWheel env e) r).
Proof.
  unfold CanvasArea.onWheel.
  enter_kept Hu Hh Hl. split_handler; norm_app; kept_closer Hu Hh Hl.
Qed.

Lemma handleKeyUp_kept (e : KeyboardEvent) (r : State) :
  wellKept r -> wellKept (dispatch (CanvasArea.handleKeyUp e) r).
Proof.
  unfold CanvasArea.handleKeyUp, when.
  enter_kept Hu Hh Hl. split_handler; norm_app; kept_closer Hu Hh Hl.
Qed.

Lemma mapM_Some_Forall2 {A B} (f : A -> option B) (l : list A) (l' : list B) :
  mapM f l = Some l' -> Forall2 (fun a b => f a = Some b) l l'.
Proof.
  revert l'. induction l as [|a l IH]; cbn; intros l' H.
  - injection H as <-. constructor.
  - destruct (f a) as [b|] eqn:E; [|discriminate].
    destruct (mapM f l) as [bs|]; [|discriminate].
    injection H as <-. constructor; [exact E|apply IH; reflexivity].
Qed.

Lemma moved_kept (anns anns' : list Annotation) (sel : list string) :
  Forall2 (fun a a' => id a' = id a /\ locked a' = locked a) anns anns' ->
  uniqueIn anns ->
  (forall a, In a anns -> includes sel (id a) = true -> locked a = false) ->
  uniqueIn anns'
  /\ (forall a, In a anns' -> includes sel (id a) = true -> locked a = false).
Proof.
  intros HF Hu Hl. split.
  - unfold uniqueIn in *. replace (map id anns') with (map id anns); [exact Hu|].
    clear -HF. induction HF as [|a a' l l' [E _] _ IH]; cbn; congruence.
  - intros a' Hin Es. destruct (Forall2_In_r _ _ _ _ HF Hin) as (a & Ha & Ei & El).
    rewrite El. apply Hl; [exact Ha|congruence].
Qed.

Lemma handleAlign_kept (ty : App.AlignType) (r s : State) :
  App.handleAlign ty r r = Some s -> wellKept r -> wellKept s.
Proof.
  unfold App.handleAlign.
  destruct (_ <? 2)%nat; [intros [= <-]; exact (fun H => H)|].
  destruct (mapM getAnnotationBounds _) as [allBounds|]; [|discriminate].
  repeat match goal with
         | |- context [match Math_min ?l with Some _ => _ | None => _ end] =>
             destruct (Math_min l); [|discriminate]
         | |- context [match Math_max ?l with Some _ => _ | None => _ end] =>
             destruct (Math_max l); [|discriminate]
         end.
  destruct (mapM _ (annotations (app r))) as [newAnns|] eqn:Hm; [|discriminate].
  intros [= <-]. apply mapM_Some_Forall2 in Hm.
  assert (HF : Forall2 (fun a a' => id a' = id a /\ locked a' = locked a)
                 (annotations (app r)) newAnns).
  { eapply Forall2_impl; [|exact Hm]. cbn beta. intros a a'.
    destruct (negb _); [intros [= <-]; auto|].
    destruct (getAnnotationBounds a); [|discriminate].
    destruct ty; intros [= <-]; auto. }
  clear Hm. intros Hk. revert Hk HF.
  enter_kept Hu Hh Hl. intros HF. norm_app.
  destruct (moved_kept _ _ _ HF Hu Hl) as [Hu2 Hl2].
  split; [exact Hu2|split; [eapply Forall_snoc_only; [exact Hu|exact Hh]|exact Hl2]].
Qed.

(** ** The invariant under distribution, and over runs *)

Lemma moveAlong_locked ty a d : locked (moveAlong ty a d) = locked a.
Proof. destruct ty; reflexivity. Qed.

Lemma placed_locked ty start step sorted index a :
  locked (placed ty start step sorted index a) = locked a.
Proof.
  revert index. induction sorted as [|[x b] L IH]; intros index; cbn; [reflexivity|].
  destruct (id a =? id x); [apply moveAlong_locked|apply IH].
Qed.

Lemma mapM_pairs_fst (l : list Annotation) (l' : list (Annotation * BoundingBox)) :
  mapM (fun a => let? b := getAnnotationBounds a in Some (a, b)) l = Some l' ->
  map fst l' = l.
Proof.
  intros H. apply mapM_Some_Forall2 in H.
  induction H as [|a ab l l' Hab _ IH]; cbn; [reflexivity|].
  rewrite IH. f_equal. destruct (getAnnotationBounds a); [|discriminate].
  injection Hab as <-. reflexivity.
Qed.

Lemma handleDistribute_kept (ty : App.DistributeType) (r s : State) :
  App.handleDistribute ty r r = Some s -> wellKept r -> wellKept s.
Proof.
  unfold App.handleDistribute.
  destruct (_ <? 3)%nat; [intros [= <-]; exact (fun H => H)|].
  destruct (mapM _ _) as [bounded|] eqn:Hm; [|discriminate].
  destruct (hd_error _) as [first|]; [|discriminate].
  destruct (last _ _) as [lst|]; [|discriminate].
  intros [= <-] Hk.
  set (sorted := App.sortBy (fun ab => App.centerAlong ty (snd ab)) bounded).
  set (start := App.centerAlong ty (snd first)).
  set (step := (App.centerAlong ty (snd lst) - start) / (INR (List.length sorted) - 1)).
  assert (Hnd : NoDup (map (fun ab => id (fst ab)) sorted)).
  { rewrite <- (map_map fst id).
    eapply Permutation_NoDup;
      [symmetry; apply Permutation_map, Permutation_map, sortBy_perm|].
    rewrite (mapM_pairs_fst _ _ Hm). apply uniqueIn_filter, Hk. }
  rewrite (forEach_placed ty start step sorted 0 _ (proj1 Hk) Hnd).
  assert (HF : Forall2 (fun a a' => id a' = id a /\ locked a' = locked a)
                 (annotations (app r))
                 (map (placed ty start step sorted 0) (annotations (app r)))).
  { clear. induction (annotations (app r)) as [|a l IH]; cbn; constructor; [|exact IH].
    split; [apply placed_id|apply placed_locked]. }
  revert Hk HF. generalize (map (placed ty start step sorted 0) (annotations (app r))).
  intros newAnns. clear.
  enter_kept Hu Hh Hl. intros HF. norm_app.
  destruct (moved_kept _ _ _ HF Hu Hl) as [Hu2 Hl2].
  split; [exact Hu2|split; [eapply Forall_snoc_only; [exact Hu|exact Hh]|exact Hl2]].
Qed.

Lemma wellKept_hasLocked (s : State) : wellKept s -> hasLocked s = false.
Proof.
  intros (_ & _ & Hl). unfold hasLocked.
  destruct (existsb _ _) eqn:E; [|reflexivity].
  apply existsb_exists in E. destruct E as (i & Hi & E).
  destruct (findAnnotation _ i) as [a|] eqn:Ef; [|discriminate].
  apply findAnnotation_id in Ef. destruct Ef as [<- Hin].
  rewrite (Hl a Hin) in E; [discriminate|].
  apply includes_In, Hi.
Qed.

Lemma handle_kept (ev : UserEvent) (r s : State) :
  admissible ev r -> handle ev r = Some s -> wellKept r -> wellKept s.
Proof.
  destruct ev; cbn [admissible handle]; intros Ha Hs H;
    try (injection Hs as <-).
  - apply canvas_handleKeyDown_kept, H.
  - apply app_handleKeyDown_kept, H.
  - apply handleKeyUp_kept, H.
  - apply handleMouseDown_kept; assumption.
  - apply handleMouseMove_kept, H.
  - apply handleMouseUp_kept; assumption.
  - apply onWheel_kept, H.
  - apply handleToggleVisible_kept, H.
  - apply handleToggleLock_kept, H.
  - apply handleRowClick_kept; assumption.
  - destruct (Sidebar.deleteButton ann) as [h|] eqn:E; injection Hs as <-; [|exact H].
    eapply deleteButton_kept; eassumption.
  - eapply handleAlign_kept; eassumption.
  - eapply handleDistribute_kept; eassumption.
Qed.

Lemma initial_kept : wellKept initial.
Proof.
  repeat split; cbn; try constructor. intros a [].
Qed.

(** X15: an invariant of every listener and button of the model.  If ids
    are unique in the collection and in every snapshot, and no locked
    annotation is selected, then the same holds after any sequence of key,
    pointer and wheel events, lock and visibility toggles, sidebar row clicks
    and delete buttons, alignments and distributions (a new shape getting an
    id not in use); hence the locked-selection guard [hasLocked] is false in
    all these states. *)
Theorem locked_annotations_stay_unselected (r t : State) (evs : list UserEvent) :
  wellKept r -> reaches r evs t ->
  wellKept t /\ hasLocked t = false.
Proof.
  intros H Hr. assert (Ht : wellKept t).
  { induction Hr as [r|r s t ev evs Ha Hs _ IH]; [exact H|].
    apply IH. eapply handle_kept; eassumption. }
  split; [exact Ht|apply wellKept_hasLocked, Ht].
Qed.

Lemma locked_annotations_stay_unselected_witness :
  wellKept twoBoxes
  /\ reaches twoBoxes [ev_toggle_lock "1"; ev_row_click boxALocked (ctrlClickAt 0 0)]
       (dispatch (Sidebar.handleRowClick boxALocked (ctrlClickAt 0 0))
          (dispatch (App.handleToggleLock "1") twoBoxes))
  /\ annotations (app (dispatch (Sidebar.handleRowClick boxALocked (ctrlClickAt 0 0))
                         (dispatch (App.handleToggleLock "1") twoBoxes)))
     = [boxALocked; boxB]
  /\ selectedIds (app (dispatch (Sidebar.handleRowClick boxALocked (ctrlClickAt 0 0))
                         (dispatch (App.handleToggleLock "1") twoBoxes)))
     = ["2"]
  /\ hasLocked (dispatch (Sidebar.handleRowClick boxALocked (ctrlClickAt 0 0))
                  (dispatch (App.handleToggleLock "1") twoBoxes)) = false.
Proof.
  assert (Hk : wellKept twoBoxes).
  { split; [|split].
    - unfold uniqueIn. cbn. repeat constructor; cbn; intuition discriminate.
    - constructor.
    - intros a Ha _. cbn in Ha. destruct Ha as [<-|[<-|[]]]; reflexivity. }
  assert (H : reaches twoBoxes
                [ev_toggle_lock "1"; ev_row_click boxALocked (ctrlClickAt 0 0)]
                (dispatch (Sidebar.handleRowClick boxALocked (ctrlClickAt 0 0))
                   (dispatch (App.handleToggleLock "1") twoBoxes))).
  { eapply reaches_cons; [exact I|reflexivity|].
    eapply reaches_cons; [left; reflexivity|reflexivity|]. apply reaches_nil. }
  split; [exact Hk|]. split; [exact H|]. split; [reflexivity|]. split; [reflexivity|].
  exact (proj2 (locked_annotations_stay_unselected twoBoxes _ _ Hk H)).
Defined.

(** ** Picking with the pointer *)

Lemma find_rev_last {A} (p : A -> bool) (l : list A) :
  match find p (rev l) with
  | Some a => exists before after,
                l = (before ++ a :: after)%list /\ p a = true
                /\ Forall (fun x => p x = false) after
  | None => Forall (fun x => p x = false) l
  end.
Proof.
  induction l as [|x l IH] using rev_ind; cbn; [constructor|].
  rewrite rev_app_distr. cbn. destruct (p x) eqn:E.
  - exists l, []. repeat split; [exact E|constructor].
  - destruct (find p (rev l)) as [a|].
    + destruct IH as (before & after & -> & Ha & Hafter).
      exists before, (after ++ [x])%list. rewrite <- app_assoc. cbn.
      repeat split; [exact Ha|].
      apply Forall_app. split; [exact Hafter|]. constructor; [exact E|constructor].
    + apply Forall_app. split; [exact IH|]. constructor; [exact E|constructor].
Qed.

Lemma vertexClick_selection (r : State) (e : MouseEvent) (imgPos : Point) (h : Handler) :
  CanvasArea.vertexClick r e imgPos = Some h ->
  selectedIds (app (h r r)) = selectedIds (app r).
Proof.
  unfold CanvasArea.vertexClick.
  destruct r as [[isz anns sel tool T pad [hp hf] km lp]
                 [dragging ds cm hov he ha tp pp prs av sp]].
  cbn [app canvas annotations selectedIds keyMap transform history currentTool].
  split_handler; intros [= <-]; reflexivity.
Qed.

Lemma bodyClick_selection (r : State) (e : MouseEvent) (imgPos : Point) :
  annotations (app (CanvasArea.bodyClick r e imgPos r r)) = annotations (app r)
  /\ match find (pickable r imgPos) (rev (annotations (app r))) with
     | Some ann =>
         selectedIds (app (CanvasArea.bodyClick r e imgPos r r))
         = if MouseEvent.ctrlKey e || MouseEvent.metaKey e
           then if includes (selectedIds (app r)) (id ann)
                then filter (fun i => negb (i =? id ann)) (selectedIds (app r))
                else (selectedIds (app r) ++ [id ann])%list
           else if includes (selectedIds (app r)) (id ann)
                then selectedIds (app r) else [id ann]
     | None =>
         selectedIds (app (CanvasArea.bodyClick r e imgPos r r))
         = if MouseEvent.shiftKey e then selectedIds (app r) else []
     end.
Proof.
  unfold CanvasArea.bodyClick, pickable, when.
  destruct (find _ _) as [ann|].
  - destruct r as [[isz anns sel tool T pad [hp hf] km lp]
                   [dragging ds cm hov he ha tp pp prs av sp]].
    cbn [app canvas annotations selectedIds keyMap transform history currentTool].
    split; split_handler; first [reflexivity|cbn in *; congruence].
  - destruct r as [[isz anns sel tool T pad [hp hf] km lp] cv].
    split; destruct (MouseEvent.shiftKey e); reflexivity.
Qed.

(** X16: with a tool other than the polygon tool, an id that is selected
    after a pointer-down was selected before, or it is the id of the topmost
    pickable annotation under the pointer: visible, not locked, hit within
    its bounds widened by [5 / scale], with no pickable annotation drawn
    after it. *)
Theorem canvas_click_picks_topmost (r : State) (env : Env) (e : MouseEvent) :
  currentTool (app r) <> tool_polygon ->
  forall i,
    In i (selectedIds (app (dispatch (CanvasArea.handleMouseDown env e) r))) ->
    In i (selectedIds (app r))
    \/ exists ann,
         id ann = i
         /\ topmostPickable r (CanvasArea.getRelativeImagePos r env e) ann
         /\ visible ann = true /\ locked ann = false.
Proof.
  intros Ht i. unfold dispatch, CanvasArea.handleMouseDown.
  destruct (CanvasArea.isPan r e).
  { destruct r as [[] []]. cbn. auto. }
  destruct (negb _); [cbn; auto|].
  destruct (currentTool (app r)) eqn:Etool; try congruence.
  - destruct (CanvasArea.vertexClick _ _ _) as [h|] eqn:Ev.
    + rewrite (vertexClick_selection _ _ _ _ Ev). auto.
    + destruct (bodyClick_selection r e (CanvasArea.getRelativeImagePos r env e))
        as [_ Hsel].
      pose proof (find_rev_last (pickable r (CanvasArea.getRelativeImagePos r env e))
                    (annotations (app r))) as Htop.
      destruct (find _ _) as [ann|].
      * rewrite Hsel. intros Hi.
        assert (Hcase : In i (selectedIds (app r)) \/ i = id ann).
        { revert Hi. destruct (_ || _), (includes _ _); intros Hi.
          - apply filter_In in Hi. tauto.
          - apply in_app_or in Hi. destruct Hi as [Hi|[<-|[]]]; auto.
          - auto.
          - destruct Hi as [<-|[]]. auto. }
        destruct Hcase as [Hi'|Ei]; [left; exact Hi'|right]. subst i.
        exists ann. split; [reflexivity|].
        destruct Htop as (before & after & Hanns & Hp & Hafter).
        split; [exists before, after; auto|].
        unfold pickable in Hp. apply andb_prop in Hp. destruct Hp as [Hp _].
        apply andb_prop in Hp. destruct Hp as [Hv Hl].
        apply negb_true_iff in Hl. auto.
      * rewrite Hsel. destruct (MouseEvent.shiftKey e); [auto|intros []].
  - cbn. auto.
  - destruct r as [[] []]. cbn. auto.
Qed.

Lemma click_on_boxB :
  selectedIds (app (dispatch (CanvasArea.handleMouseDown atOrigin (leftClickAt 75 60))
                             unselectedBoxes)) = ["2"].
Proof.
  unfold dispatch, CanvasArea.handleMouseDown, CanvasArea.bodyClick, when.
  cbn [CanvasArea.isPan unselectedBoxes app canvas currentTool isSpacePressed
       MouseEvent.button leftClickAt orb Nat.eqb negb CanvasArea.vertexClick selectedIds
       annotations rev app].
  assert (H : CanvasArea.bodyHit unselectedBoxes
                (CanvasArea.getRelativeImagePos unselectedBoxes atOrigin (leftClickAt 75 60))
                boxB = true).
  { unfold CanvasArea.bodyHit, CanvasArea.getRelativeImagePos, CanvasArea.getMousePos,
      screenToImage, Math_min, Math_max, Rleb.
    cbn [boxB points map fold_left Point.x Point.y atOrigin containerRect leftClickAt
         MouseEvent.clientX MouseEvent.clientY DOMRect.left DOMRect.top unselectedBoxes
         app transform canvasPadding ViewTransform.scale ViewTransform.x ViewTransform.y].
    rewrite !Rmin_left, !Rmax_right by lra.
    repeat match goal with
           | |- context [Rle_dec ?a ?b] => destruct (Rle_dec a b)
           end; try reflexivity; exfalso; lra. }
  cbn [rev boxA boxB app_nil_l List.app find visible locked negb andb annotations
       unselectedBoxes app]. 
  change (mkAnnotation "2" "defect" shape_rectangle [Point.mk 20 5; Point.mk 30 15]
            "#f97316" true false) with boxB.
  rewrite H. reflexivity.
Qed.

Lemma canvas_click_picks_topmost_witness :
  currentTool (app unselectedBoxes) <> tool_polygon
  /\ In "2" (selectedIds (app (dispatch (CanvasArea.handleMouseDown atOrigin
                                          (leftClickAt 75 60)) unselectedBoxes)))
  /\ (In "2" (selectedIds (app unselectedBoxes))
      \/ exists ann,
           id ann = "2"
           /\ topmostPickable unselectedBoxes
                (CanvasArea.getRelativeImagePos unselectedBoxes atOrigin (leftClickAt 75 60))
                ann
           /\ visible ann = true /\ locked ann = false).
Proof.
  assert (H1 : currentTool (app unselectedBoxes) <> tool_polygon) by discriminate.
  assert (H2 : In "2" (selectedIds (app (dispatch (CanvasArea.handleMouseDown atOrigin
                                                   (leftClickAt 75 60)) unselectedBoxes))))
    by (rewrite click_on_boxB; left; reflexivity).
  split; [exact H1|]. split; [exact H2|].
  exact (canvas_click_picks_topmost unselectedBoxes atOrigin (leftClickAt 75 60) H1 "2" H2).
Defined.

(** ** Lock and visibility toggles *)

Lemma toggle_twice (g : Annotation -> Annotation) (i : string) (anns : list Annotation) :
  (forall a, id (g a) = id a) -> (forall a, g (g a) = a) ->
  map (fun a => if id a =? i then g a else a)
      (map (fun a => if id a =? i then g a else a) anns) = anns.
Proof.
  intros Hid Hinv. rewrite map_map. rewrite <- (map_id anns) at 2.
  apply map_ext. intros a. destruct (id a =? i) eqn:E; [|rewrite E; reflexivity].
  rewrite Hid, E. apply Hinv.
Qed.

(** X17: toggling the lock, or the visibility, of an id twice gives the
    collection back; a toggle changes no other field and no other
    annotation, and takes no snapshot; the lock toggle removes the id from
    the selection and nothing else, the visibility toggle leaves the
    selection as it is. *)
Theorem toggles_flip_one_flag (i : string) (r : State) :
  (annotations (app (run [App.handleToggleLock i; App.handleToggleLock i] r))
   = annotations (app r)
   /\ annotations (app (run [App.handleToggleVisible i; App.handleToggleVisible i] r))
      = annotations (app r))
  /\ (~ In i (selectedIds (app (dispatch (App.handleToggleLock i) r)))
      /\ forall j, j <> i ->
           (In j (selectedIds (app (dispatch (App.handleToggleLock i) r)))
            <-> In j (selectedIds (app r))))
  /\ selectedIds (app (dispatch (App.handleToggleVisible i) r)) = selectedIds (app r)
  /\ (history (app (dispatch (App.handleToggleLock i) r)) = history (app r)
      /\ history (app (dispatch (App.handleToggleVisible i) r)) = history (app r))
  /\ (map (fun a => (id a, label a, type a, points a, color a, visible a))
          (annotations (app (dispatch (App.handleToggleLock i) r)))
      = map (fun a => (id a, label a, type a, points a, color a, visible a))
            (annotations (app r))
      /\ map (fun a => (id a, label a, type a, points a, color a, locked a))
             (annotations (app (dispatch (App.handleToggleVisible i) r)))
         = map (fun a => (id a, label a, type a, points a, color a, locked a))
               (annotations (app r)))
  /\ (forall a, In a (annotations (app r)) -> id a <> i ->
        In a (annotations (app (dispatch (App.handleToggleLock i) r)))
        /\ In a (annotations (app (dispatch (App.handleToggleVisible i) r)))).
Proof.
  destruct r as [[isz anns sel tool T pad hist km lp] cv].
  unfold run, dispatch, App.handleToggleLock, App.handleToggleVisible, when.
  cbn [fold_left app selectedIds].
  split; [split|split; [|split; [|split; [|split]]]].
  - transitivity
      (map (fun a => if id a =? i
                     then mkAnnotation (id a) (label a) (type a) (points a)
                                       (color a) (visible a) (negb (locked a))
                     else a)
         (map (fun a => if id a =? i
                        then mkAnnotation (id a) (label a) (type a) (points a)
                                          (color a) (visible a) (negb (locked a))
                        else a) anns)).
    + repeat match goal with
             | |- context [if ?b then _ else _] => destruct b; cbn
             end; reflexivity.
    + apply toggle_twice; [reflexivity|]. intros [? ? ? ? ? ? l]. cbn.
      rewrite negb_involutive. reflexivity.
  - cbn. apply toggle_twice; [reflexivity|]. intros [? ? ? ? ? v ?]. cbn.
    rewrite negb_involutive. reflexivity.
  - destruct (includes sel i) eqn:E; cbn.
    + split.
      * intros H. apply filter_In in H. destruct H as [_ H].
        rewrite String.eqb_refl in H. discriminate.
      * intros j Hj. rewrite filter_In. split; [tauto|]. intros H. split; [exact H|].
        apply negb_true_iff, String.eqb_neq, Hj.
    + split; [|tauto]. intros H. apply includes_In in H. congruence.
  - reflexivity.
  - split; [destruct (includes sel i)|]; reflexivity.
  - split; [destruct (includes sel i)|]; cbn; rewrite map_map; apply map_ext;
      intros a; destruct (id a =? i); reflexivity.
  - intros a Ha Hi. apply String.eqb_neq in Hi.
    split; [destruct (includes sel i)|]; cbn; apply in_map_iff; exists a;
      rewrite Hi; auto.
Qed.

(** ** Shortcuts *)

Lemma lowerAscii_idem (c : ascii) : lowerAscii (lowerAscii c) = lowerAscii c.
Proof.
  unfold lowerAscii.
  destruct ((65 <=? nat_of_ascii c) && (nat_of_ascii c <=? 90))%nat eqn:E; [|rewrite E; reflexivity].
  apply andb_prop in E. destruct E as [E1 E2].
  apply Nat.leb_le in E1, E2.
  rewrite nat_ascii_embedding by lia.
  replace (nat_of_ascii c + 32 <=? 90)%nat with false
    by (symmetry; apply Nat.leb_gt; lia).
  rewrite andb_false_r. reflexivity.
Qed.

Lemma toLowerCase_idem (s : string) : toLowerCase (toLowerCase s) = toLowerCase s.
Proof. induction s as [|c s IH]; cbn; [reflexivity|]. rewrite lowerAscii_idem, IH. reflexivity. Qed.

Lemma isShortcutPressed_true (e : KeyboardEvent) (b : KeyBinding) :
  isShortcutPressed e (Some b) = true ->
  (toLowerCase (KeyboardEvent.key e) = toLowerCase (KeyBinding.key b)
   \/ KeyboardEvent.code e = KeyBinding.key b)
  /\ (KeyboardEvent.ctrlKey e || KeyboardEvent.metaKey e) = truthy (KeyBinding.ctrlKey b)
  /\ KeyboardEvent.shiftKey e = truthy (KeyBinding.shiftKey b)
  /\ KeyboardEvent.altKey e = truthy (KeyBinding.altKey b).
Proof.
  unfold isShortcutPressed. intros H.
  apply andb_prop in H. destruct H as [H Ha].
  apply andb_prop in H. destruct H as [H Hs].
  apply andb_prop in H. destruct H as [Hk Hc].
  apply Bool.eqb_prop in Ha, Hs, Hc.
  apply orb_prop in Hk. rewrite !String.eqb_eq in Hk. auto.
Qed.

(** X18: a binding is pressed only by an event whose key (whatever its
    letter case) or code is the binding's and whose Ctrl-or-Cmd, Shift and
    Alt states are exactly the binding's; the letter case of the event's key,
    the exchange of Ctrl and Cmd, and the binding's own [metaKey] field do
    not matter; with the default key map no event is both undo and redo. *)
Theorem isShortcutPressed_laws (e : KeyboardEvent) (b : KeyBinding) :
  (isShortcutPressed e (Some b) = true ->
     (toLowerCase (KeyboardEvent.key e) = toLowerCase (KeyBinding.key b)
      \/ KeyboardEvent.code e = KeyBinding.key b)
     /\ (KeyboardEvent.ctrlKey e || KeyboardEvent.metaKey e) = truthy (KeyBinding.ctrlKey b)
     /\ KeyboardEvent.shiftKey e = truthy (KeyBinding.shiftKey b)
     /\ KeyboardEvent.altKey e = truthy (KeyBinding.altKey b))
  /\ isShortcutPressed (withKey e (toLowerCase (KeyboardEvent.key e))) (Some b)
     = isShortcutPressed e (Some b)
  /\ isShortcutPressed (swapCtrlMeta e) (Some b) = isShortcutPressed e (Some b)
  /\ (forall m, isShortcutPressed e
                  (Some (KeyBinding.mk (KeyBinding.key b) (KeyBinding.ctrlKey b)
                           (KeyBinding.shiftKey b) (KeyBinding.altKey b) m))
                = isShortcutPressed e (Some b))
  /\ (isShortcutPressed e (DEFAULT_KEY_MAP UNDO) = true ->
      isShortcutPressed e (DEFAULT_KEY_MAP REDO) = false).
Proof.
  split; [apply isShortcutPressed_true|].
  split; [unfold isShortcutPressed, withKey; cbn; rewrite toLowerCase_idem; reflexivity|].
  split; [unfold isShortcutPressed, swapCtrlMeta; cbn;
          rewrite (orb_comm (KeyboardEvent.metaKey e)); reflexivity|].
  split; [reflexivity|].
  intros H. apply isShortcutPressed_true in H. destruct H as (_ & _ & Hs & _).
  cbn in Hs. unfold isShortcutPressed. cbn. rewrite Hs. cbn.
  rewrite !andb_false_r. reflexivity.
Qed.

(** ** The shortcut editor and the import of a key map *)

(** X19: the binding that the shortcut editor records for a key press is
    pressed by that very key press; the other actions keep their bindings,
    and a modifier key alone is never recorded. *)
Theorem captured_binding_is_pressed (editingAction : ActionId) (keyMap newMap : KeyMap)
    (e : KeyboardEvent) :
  SettingsModal.handleKeyDown editingAction keyMap e = Some newMap ->
  isShortcutPressed e (newMap editingAction) = true
  /\ (forall a, a <> editingAction -> newMap a = keyMap a)
  /\ ~ In (KeyboardEvent.key e) ["Control"; "Shift"; "Alt"; "Meta"].
Proof.
  unfold SettingsModal.handleKeyDown, SettingsModal.newBinding.
  destruct (includes _ _) eqn:E; [discriminate|]. intros [= <-].
  split; [|split].
  - destruct (SettingsModal.ActionId_eq_dec editingAction editingAction); [|congruence].
    unfold isShortcutPressed. cbn. rewrite String.eqb_refl. cbn.
    rewrite !Bool.eqb_reflx. reflexivity.
  - intros a Ha. destruct (SettingsModal.ActionId_eq_dec a editingAction); congruence.
  - intros H. apply includes_In in H. congruence.
Qed.

Lemma captured_binding_is_pressed_witness :
  SettingsModal.handleKeyDown REDO DEFAULT_KEY_MAP ctrlY = Some redoOnCtrlY
  /\ isShortcutPressed ctrlY (redoOnCtrlY REDO) = true.
Proof.
  assert (H : SettingsModal.handleKeyDown REDO DEFAULT_KEY_MAP ctrlY = Some redoOnCtrlY)
    by reflexivity.
  split; [exact H|].
  exact (proj1 (captured_binding_is_pressed REDO DEFAULT_KEY_MAP redoOnCtrlY ctrlY H)).
Defined.

Lemma requiredKeys_all (a : ActionId) : In a SettingsModal.requiredKeys.
Proof. destruct a; cbn; tauto. Qed.

(** X20: the import sets a key map only when the parsed map has a binding
    for every action, and then it sets the parsed map as it is; otherwise,
    and when parsing fails, no key map is set. *)
Theorem import_is_all_or_nothing (parsed : option KeyMap) :
  match SettingsModal.handleFileChange parsed with
  | Some newMap => parsed = Some newMap /\ forall a, newMap a <> None
  | None => forall importedMap, parsed = Some importedMap ->
              exists a, importedMap a = None
  end.
Proof.
  unfold SettingsModal.handleFileChange. destruct parsed as [importedMap|]; [|discriminate].
  destruct (filter _ _) as [|k missing] eqn:E; cbn [List.length Nat.eqb].
  - split; [reflexivity|]. intros a Ha.
    assert (Hin : In a (filter (fun k => negb (notNull (importedMap k)))
                          SettingsModal.requiredKeys)).
    { apply filter_In. split; [apply requiredKeys_all|]. rewrite Ha. reflexivity. }
    rewrite E in Hin. exact Hin.
  - intros m [= <-]. exists k.
    assert (Hin : In k (filter (fun k => negb (notNull (importedMap k)))
                          SettingsModal.requiredKeys)) by (rewrite E; left; reflexivity).
    apply filter_In in Hin. destruct Hin as [_ Hk].
    destruct (importedMap k); [discriminate|reflexivity].
Qed.

(** ** The step of a nudge *)

Lemma nudgeDelta_shift (keyMap : KeyMap) (e : KeyboardEvent) :
  nudgesWithoutShift keyMap ->
  KeyboardEvent.shiftKey e = true ->
  CanvasArea.nudgeDelta keyMap e = (0, 0).
Proof.
  intros Hn Hs.
  assert (H : forall a, In a [NUDGE_LEFT; NUDGE_RIGHT; NUDGE_UP; NUDGE_DOWN] ->
            isShortcutPressed e (keyMap a) = false).
  { intros a Ha. destruct (keyMap a) as [b|] eqn:Eb; [|reflexivity].
    destruct (isShortcutPressed e (Some b)) eqn:Ep; [|reflexivity].
    apply isShortcutPressed_true in Ep. destruct Ep as (_ & _ & Ep & _).
    rewrite (Hn a b Ha Eb) in Ep. congruence. }
  unfold CanvasArea.nudgeDelta.
  rewrite !H by (cbn; tauto). reflexivity.
Qed.

(** X21: no nudge binding of the default key map asks for Shift; with
    such a key map a key press with Shift held moves nothing and takes no
    snapshot, so the step of 10 that the nudge has for Shift is never taken. *)
Theorem shift_nudge_needs_a_shift_binding (r : State) (e : KeyboardEvent) :
  nudgesWithoutShift DEFAULT_KEY_MAP
  /\ (nudgesWithoutShift (keyMap (app r)) ->
      KeyboardEvent.shiftKey e = true ->
      annotations (app (dispatch (CanvasArea.handleKeyDown e) r)) = annotations (app r)
      /\ history (app (dispatch (CanvasArea.handleKeyDown e) r)) = history (app r)).
Proof.
  split.
  - intros a b Ha. cbn in Ha.
    destruct Ha as [<-|[<-|[<-|[<-|[]]]]]; intros [= <-]; reflexivity.
  - intros Hn Hs.
    pose proof (nudgeDelta_shift _ e Hn Hs) as Hd. revert Hd.
    unfold dispatch, CanvasArea.handleKeyDown,
      CanvasArea.handleCancelDraw, CanvasArea.handleUndoPoint, when.
    destruct r as [[isz anns sel tool T pad [hp hf] km lp] cv].
    cbn [app canvas annotations selectedIds keyMap transform history].
    intros ->. replace (Reqb 0 0) with true
      by (unfold Reqb; destruct (Req_dec_T 0 0); [reflexivity|congruence]).
    cbn [negb orb].
    split; split_handler; reflexivity.
Qed.

(** ** Keys while a polygon is being drawn *)

Lemma canvas_key_while_drawing (s : State) (k : KeyboardEvent) :
  pendingPoly (canvas s) <> [] ->
  let t := dispatch (CanvasArea.handleKeyDown k) s in
  app t = app s
  /\ ((KeyboardEvent.targetTagName k =? "INPUT") = false ->
      pendingPoly (canvas t)
      = if isShortcutPressed k (keyMap (app s) CANCEL) then []
        else if isShortcutPressed k (keyMap (app s) BACKSPACE_POINT)
             then removelast (pendingPoly (canvas s))
             else pendingPoly (canvas s)).
Proof.
  unfold dispatch, CanvasArea.handleKeyDown,
    CanvasArea.handleCancelDraw, CanvasArea.handleUndoPoint, when.
  destruct s as [[isz anns sel tool T pad [hp hf] km lp]
                 [dragging ds cm hov he ha tp pp prs av sp]].
  cbn [app canvas annotations selectedIds keyMap transform history pendingPoly].
  intros Hpp. destruct pp as [|p0 pp]; [congruence|]. cbn [List.length Nat.ltb Nat.leb].
  split.
  - split_handler; reflexivity.
  - intros ->. split_handler; reflexivity.
Qed.

Lemma polygon_click_history (env : Env) (e : MouseEvent) (r : State) :
  polygonClick r e ->
  pendingPoly (canvas r) = [] ->
  history (app (dispatch (CanvasArea.handleMouseDown env e) r))
  = mkHistory (past (history (app r))
               ++ [HistoryItem.mk (annotations (app r)) "创建多边形"]) [].
Proof.
  intros (Ht & Hsp & Hb) Hp.
  unfold dispatch, CanvasArea.handleMouseDown, CanvasArea.isPan, when.
  rewrite Ht, Hsp, Hb, Hp. cbn.
  destruct r as [[isz anns sel tool T pad [hp hf] km lp] cv]. reflexivity.
Qed.

(** *** The two listeners of a key press *)

Section OnApp.
Variable r : State.

Lemma onApp_skip : onApp (skip r).
Proof. exists (fun a => a). intros []. reflexivity. Qed.

Lemma onApp_seq (h1 h2 : Handler) : onApp (h1 r) -> onApp (h2 r) -> onApp ((h1 ;; h2) r).
Proof.
  intros [G1 H1] [G2 H2]. exists (fun a => G2 (G1 a)). intros s.
  unfold seqH. rewrite H1, H2. reflexivity.
Qed.

Lemma onApp_when (b : bool) (h : Handler) : onApp (h r) -> onApp (when b h r).
Proof. intros H. destruct b; [exact H|apply onApp_skip]. Qed.

Lemma onApp_updApp (f : AppState -> AppState) : onApp (updApp f r).
Proof. exists f. reflexivity. Qed.

Lemma onCanvas_skip : onCanvas (skip r).
Proof. exists (fun c => c). intros []. reflexivity. Qed.

Lemma onCanvas_seq (h1 h2 : Handler) :
  onCanvas (h1 r) -> onCanvas (h2 r) -> onCanvas ((h1 ;; h2) r).
Proof.
  intros [F1 H1] [F2 H2]. exists (fun c => F2 (F1 c)). intros s.
  unfold seqH. rewrite H1, H2. reflexivity.
Qed.

Lemma onCanvas_when (b : bool) (h : Handler) : onCanvas (h r) -> onCanvas (when b h r).
Proof. intros H. destruct b; [exact H|apply onCanvas_skip]. Qed.

Lemma onCanvas_updCanvas (f : CanvasState -> CanvasState) : onCanvas (updCanvas f r).
Proof. exists f. reflexivity. Qed.
End OnApp.

Ltac on_cases :=
  repeat match goal with
         | |- onApp (skip _) => apply onApp_skip
         | |- onApp (updApp _ _) => apply onApp_updApp
         | |- onApp ((_ ;; _) _) => apply onApp_seq
         | |- onApp (when _ _ _) => apply onApp_when
         | |- onCanvas (skip _) => apply onCanvas_skip
         | |- onCanvas (updCanvas _ _) => apply onCanvas_updCanvas
         | |- onCanvas ((_ ;; _) _) => apply onCanvas_seq
         | |- onCanvas (when _ _ _) => apply onCanvas_when
         | |- _ (if ?b then _ else _) => destruct b
         | |- _ ((if ?b then _ else _) _) => destruct b
         | |- _ (match ?o with Some _ => _ | None => _ end _) => destruct o
         | |- _ (let '(_, _) := ?p in _) => destruct p
         | |- _ ((fun _ => _) _) => cbv beta
         end.

(** The listener of [App] writes the state of [App] only. *)
Lemma app_handleKeyDown_onApp (r : State) (env : Env) (e : KeyboardEvent) :
  onApp (App.handleKeyDown env e r).
Proof.
  unfold App.handleKeyDown, App.handleUndo, App.handleRedo, App.handleDelete,
    App.handleResetView, App.handleZoom, App.snapshotHistory,
    setAnnotations, setSelectedIds, setCurrentTool, setTransform, setHistory.
  on_cases.
Qed.

(** While a polygon is pending, the listener of the canvas writes the state
    of the canvas only. *)
Lemma canvas_handleKeyDown_onCanvas (r : State) (e : KeyboardEvent) :
  pendingPoly (canvas r) <> [] -> onCanvas (CanvasArea.handleKeyDown e r).
Proof.
  intros Hp. unfold CanvasArea.handleKeyDown.
  destruct (pendingPoly (canvas r)) as [|p0 pp]; [congruence|].
  cbn [List.length Nat.ltb Nat.leb].
  unfold CanvasArea.handleCancelDraw, CanvasArea.handleUndoPoint,
    setIsSpacePressed, setPendingPoly, setPendingRectStart.
  on_cases.
Qed.

(** Two listeners, one on each part of the state, in either order. *)
Lemma listeners_commute (c a : State -> State) :
  onCanvas c -> onApp a ->
  forall s, a (c s) = c (a s)
            /\ app (a (c s)) = app (a s)
            /\ canvas (a (c s)) = canvas (c s).
Proof.
  intros [F Hc] [G Ha] s. rewrite !Hc, !Ha. cbn. auto.
Qed.

(** What the key listener of [App] does to the collection, for a key that is
    neither undo nor redo. *)
Lemma app_key_annotations (r : State) (env : Env) (e : KeyboardEvent) :
  isShortcutPressed e (keyMap (app r) UNDO) = false ->
  isShortcutPressed e (keyMap (app r) REDO) = false ->
  annotations (app (dispatch (App.handleKeyDown env e) r))
  = if negb (KeyboardEvent.targetTagName e =? "INPUT")
       && isShortcutPressed e (keyMap (app r) DELETE)
       && (0 <? List.length (selectedIds (app r)))%nat
       && negb (hasLocked r)
    then filter (fun a => negb (includes (selectedIds (app r)) (id a)))
                (annotations (app r))
    else annotations (app r).
Proof.
  intros Hu Hr.
  unfold dispatch, App.handleKeyDown. rewrite Hu, Hr.
  destruct (KeyboardEvent.targetTagName e =? "INPUT"); [reflexivity|].
  destruct (hasLocked r);
    destruct (isShortcutPressed e (keyMap (app r) DELETE));
    destruct (0 <? List.length (selectedIds (app r)))%nat;
    cbn [negb andb];
    unfold App.handleResetView, App.handleDelete, when, seqH, skip;
    destruct r as [[isz anns sel tool T pad [p f] km lp] cv];
    cbn [app canvas annotations selectedIds keyMap transform history currentTool imageSize]
      in *;
    split_handler; reflexivity.
Qed.

(** A key bound to none of undo, redo and delete. *)
Lemma app_key_other (r : State) (env : Env) (e : KeyboardEvent) :
  isShortcutPressed e (keyMap (app r) UNDO) = false ->
  isShortcutPressed e (keyMap (app r) REDO) = false ->
  isShortcutPressed e (keyMap (app r) DELETE) = false ->
  let t := dispatch (App.handleKeyDown env e) r in
  annotations (app t) = annotations (app r)
  /\ selectedIds (app t) = selectedIds (app r)
  /\ history (app t) = history (app r).
Proof.
  intros Hu Hr Hd.
  unfold dispatch, App.handleKeyDown. rewrite Hu, Hr, Hd.
  destruct (KeyboardEvent.targetTagName e =? "INPUT"); [repeat split|].
  unfold App.handleResetView, when, seqH, skip.
  destruct r as [[isz anns sel tool T pad [p f] km lp] cv].
  cbn [app canvas annotations selectedIds keyMap transform history currentTool imageSize
       negb andb] in *.
  split_handler; repeat split; reflexivity.
Qed.

(** A key bound to undo, and to neither redo nor delete. *)
Lemma app_key_undo (r : State) (env : Env) (e : KeyboardEvent) :
  (KeyboardEvent.targetTagName e =? "INPUT") = false ->
  isShortcutPressed e (keyMap (app r) UNDO) = true ->
  isShortcutPressed e (keyMap (app r) REDO) = false ->
  isShortcutPressed e (keyMap (app r) DELETE) = false ->
  let t := dispatch (App.handleKeyDown env e) r in
  let u := dispatch App.handleUndo r in
  annotations (app t) = annotations (app u)
  /\ selectedIds (app t) = selectedIds (app u)
  /\ history (app t) = history (app u).
Proof.
  intros Hin Hu Hr Hd.
  unfold dispatch, App.handleKeyDown. rewrite Hin, Hu, Hr, Hd.
  unfold App.handleResetView, App.handleUndo, when, seqH, skip.
  destruct r as [[isz anns sel tool T pad [p f] km lp] cv].
  cbn [app canvas annotations selectedIds keyMap transform history currentTool imageSize
       negb andb past future] in *.
  split_handler; repeat split; reflexivity.
Qed.

Lemma polygon_click_selection (env : Env) (e : MouseEvent) (r : State) :
  polygonClick r e ->
  ~ closesPolygon r (CanvasArea.getRelativeImagePos r env e) ->
  selectedIds (app (dispatch (CanvasArea.handleMouseDown env e) r)) = selectedIds (app r)
  /\ keyMap (app (dispatch (CanvasArea.handleMouseDown env e) r)) = keyMap (app r).
Proof.
  intros (Ht & Hsp & Hb) Hc. rewrite <- closes_dec in Hc. apply not_true_is_false in Hc.
  unfold dispatch, CanvasArea.handleMouseDown, CanvasArea.isPan.
  rewrite Ht, Hsp, Hb. cbn [orb Nat.eqb negb].
  unfold seqH at 1. rewrite Hc.
  destruct r as [[isz anns sel tool T pad hist km lp] [? ? ? ? ? ? ? pending ? ? ?]].
  cbn in *.
  destruct (List.length pending =? 0)%nat; cbn; auto.
Qed.

(** X22: a key press while a polygon is pending, after a click that added
    a point.  Both listeners of the window run, the one of the canvas and the
    one of [App], with the same result in either order.  The listener of the
    canvas changes the pending points only: the cancel key empties them, the
    undo-point key (alone) gives back the pending points of before the click.
    The listener of [App] has no test for a pending polygon and acts as at
    any other time: a key bound to none of undo, redo and delete leaves
    collection, selection and history as they are; the delete key deletes the
    selected annotations; the undo key, after the first click of the polygon,
    pops the snapshot that click took while the points stay pending.  After a
    cancel that snapshot is still there, and an undo then leaves the
    collection as it is. *)
Theorem polygon_point_undo_and_cancel (env : Env) (e : MouseEvent) (k : KeyboardEvent)
    (r : State) :
  polygonClick r e ->
  ~ closesPolygon r (CanvasArea.getRelativeImagePos r env e) ->
  (KeyboardEvent.targetTagName k =? "INPUT") = false ->
  let s := dispatch (CanvasArea.handleMouseDown env e) r in
  let t := dispatch (keyPress env k) s in
  let pressed := fun a => isShortcutPressed k (keyMap (app s) a) in
  (dispatch (keyPressAppFirst env k) s = t
   /\ app t = app (dispatch (App.handleKeyDown env k) s)
   /\ canvas t = canvas (dispatch (CanvasArea.handleKeyDown k) s)
   /\ app (dispatch (CanvasArea.handleKeyDown k) s) = app s)
  /\ ((pressed CANCEL = true -> pendingPoly (canvas t) = [])
      /\ (pressed CANCEL = false -> pressed BACKSPACE_POINT = true ->
          pendingPoly (canvas t) = pendingPoly (canvas r))
      /\ (pressed CANCEL = false -> pressed BACKSPACE_POINT = false ->
          pendingPoly (canvas t) = pendingPoly (canvas s)))
  /\ ((pressed UNDO = false -> pressed REDO = false -> pressed DELETE = false ->
       annotations (app t) = annotations (app r)
       /\ selectedIds (app t) = selectedIds (app r)
       /\ history (app t) = history (app s))
      /\ (pressed DELETE = true -> pressed UNDO = false -> pressed REDO = false ->
          annotations (app t)
          = if (0 <? List.length (selectedIds (app r)))%nat && negb (hasLocked s)
            then filter (fun a => negb (includes (selectedIds (app r)) (id a)))
                        (annotations (app r))
            else annotations (app r)))
  /\ (pendingPoly (canvas r) = [] ->
      (pressed UNDO = false -> pressed REDO = false -> pressed DELETE = false ->
       history (app t)
       = mkHistory (past (history (app r))
                    ++ [HistoryItem.mk (annotations (app r)) "创建多边形"]) []
       /\ annotations (app (dispatch App.handleUndo t)) = annotations (app r))
      /\ (pressed UNDO = true -> pressed REDO = false -> pressed DELETE = false ->
          annotations (app t) = annotations (app r)
          /\ past (history (app t)) = past (history (app r))
          /\ (pressed CANCEL = false -> pressed BACKSPACE_POINT = false ->
              pendingPoly (canvas t) <> []))).
Proof.
  intros Hclick Hclose Hk s t pressed.
  destruct (polygon_append env e r Hclick Hclose) as (Ha & Hp & _).
  destruct (polygon_click_selection env e r Hclick Hclose) as (Hsel & _).
  fold s in Ha, Hp, Hsel.
  assert (Hne : pendingPoly (canvas s) <> []).
  { rewrite Hp. intros E. apply app_eq_nil in E. destruct E; discriminate. }
  destruct (canvas_key_while_drawing s k Hne) as [Happ Hpend].
  specialize (Hpend Hk). fold (pressed CANCEL) (pressed BACKSPACE_POINT) in Hpend.
  destruct (listeners_commute _ _ (canvas_handleKeyDown_onCanvas s k Hne)
              (app_handleKeyDown_onApp s env k) s) as (Hcomm & Htapp & Htcv).
  change (App.handleKeyDown env k s (CanvasArea.handleKeyDown k s s)) with t
    in Hcomm, Htapp, Htcv.
  change (CanvasArea.handleKeyDown k s (App.handleKeyDown env k s s))
    with (dispatch (keyPressAppFirst env k) s) in Hcomm.
  change (App.handleKeyDown env k s s) with (dispatch (App.handleKeyDown env k) s) in Htapp.
  change (CanvasArea.handleKeyDown k s s) with (dispatch (CanvasArea.handleKeyDown k) s)
    in Htcv.
  assert (Hpt : pendingPoly (canvas t)
                = if pressed CANCEL then []
                  else if pressed BACKSPACE_POINT then removelast (pendingPoly (canvas s))
                       else pendingPoly (canvas s))
    by (rewrite Htcv; exact Hpend).
  assert (Hother : pressed UNDO = false -> pressed REDO = false -> pressed DELETE = false ->
                   annotations (app t) = annotations (app r)
                   /\ selectedIds (app t) = selectedIds (app r)
                   /\ history (app t) = history (app s)).
  { intros Hu Hr Hd. destruct (app_key_other s env k Hu Hr Hd) as (H1 & H2 & H3).
    rewrite Htapp. split; [congruence|]. split; [congruence|exact H3]. }
  split; [|split; [|split]].
  - split; [symmetry; exact Hcomm|]. split; [exact Htapp|]. split; [exact Htcv|exact Happ].
  - split; [|split].
    + intros Hc. rewrite Hc in Hpt. exact Hpt.
    + intros Hc Hb. rewrite Hc, Hb, Hp in Hpt. rewrite Hpt. apply removelast_last.
    + intros Hc Hb. rewrite Hc, Hb in Hpt. exact Hpt.
  - split; [exact Hother|].
    intros Hd Hu Hr. rewrite Htapp, (app_key_annotations s env k Hu Hr), Hk.
    fold (pressed DELETE). rewrite Hd, Hsel, Ha. reflexivity.
  - intros Hfirst.
    pose proof (polygon_click_history env e r Hclick Hfirst) as Hh. fold s in Hh.
    split.
    + intros Hu Hr Hd. destruct (Hother Hu Hr Hd) as (_ & _ & H3).
      assert (Hht : history (app t)
                    = mkHistory (past (history (app r))
                                 ++ [HistoryItem.mk (annotations (app r)) "创建多边形"]) [])
        by congruence.
      split; [exact Hht|]. apply (handleUndo_pops _ _ _ _ Hht).
    + intros Hu Hr Hd.
      destruct (app_key_undo s env k Hk Hu Hr Hd) as (H1 & _ & H3).
      destruct (handleUndo_pops _ _ _ s Hh) as (U1 & _ & U3).
      rewrite Htapp. split; [rewrite H1; exact U1|].
      split; [rewrite H3, U3; reflexivity|].
      intros Hc Hb. rewrite Hc, Hb in Hpt. rewrite Hpt. exact Hne.
Qed.

Lemma polygon_point_undo_and_cancel_witness :
  polygonClick (withTool tool_polygon) (leftClickAt 60 60)
  /\ ~ closesPolygon (withTool tool_polygon)
         (CanvasArea.getRelativeImagePos (withTool tool_polygon) atOrigin (leftClickAt 60 60))
  /\ (KeyboardEvent.targetTagName escapeKey =? "INPUT") = false
  /\ pendingPoly (canvas (dispatch (keyPress atOrigin escapeKey)
                            (dispatch (CanvasArea.handleMouseDown atOrigin (leftClickAt 60 60))
                                      (withTool tool_polygon))))
     = [].
Proof.
  assert (H1 : polygonClick (withTool tool_polygon) (leftClickAt 60 60))
    by (repeat split; reflexivity).
  assert (H2 : ~ closesPolygon (withTool tool_polygon)
                 (CanvasArea.getRelativeImagePos (withTool tool_polygon) atOrigin
                    (leftClickAt 60 60))).
  { intros [H _]. cbn in H. lia. }
  assert (H3 : (KeyboardEvent.targetTagName escapeKey =? "INPUT") = false) by reflexivity.
  split; [exact H1|]. split; [exact H2|]. split; [exact H3|].
  exact (proj1 (proj1 (proj2 (polygon_point_undo_and_cancel atOrigin (leftClickAt 60 60)
                                escapeKey (withTool tool_polygon) H1 H2 H3)))
               eq_refl).
Defined.

(** ** Panning *)

Lemma last_cons_default {A} (a d : A) (l : list A) : last (a :: l) d = last l a.
Proof.
  revert a. induction l as [|b l IH]; intros a; [reflexivity|].
  change (last (b :: l) d = last (b :: l) a). rewrite (IH b).
  clear IH. revert a b. induction l as [|c l IH]; intros a b; [reflexivity|].
  change (last (c :: l) b = last (c :: l) a).
  destruct l as [|c' l]; [reflexivity|].
  change (last (c' :: l) b = last (c' :: l) a).
  transitivity (last (c' :: l) c); [symmetry|]; apply (IH _ c).
Qed.

Lemma last_map_default {A B} (f : A -> B) (l : list A) (d : A) :
  last (map f l) (f d) = f (last l d).
Proof.
  induction l as [|a l IH]; [reflexivity|].
  destruct l as [|b l]; [reflexivity|].
  change (last (map f (b :: l)) (f d) = f (last (b :: l) d)). exact IH.
Qed.

Lemma pan_move (env : Env) (e : MouseEvent) (s : State) (d : Point) :
  panning s d ->
  let t := dispatch (CanvasArea.handleMouseMove env e) s in
  panning t (clientPos e)
  /\ transform (app t)
     = ViewTransform.mk (ViewTransform.scale (transform (app s)))
         (ViewTransform.x (transform (app s)) + (MouseEvent.clientX e - Point.x d))
         (ViewTransform.y (transform (app s)) + (MouseEvent.clientY e - Point.y d))
  /\ annotations (app t) = annotations (app s)
  /\ selectedIds (app t) = selectedIds (app s)
  /\ history (app t) = history (app s).
Proof.
  unfold panning, dispatch, CanvasArea.handleMouseMove, CanvasArea.isPan.
  destruct s as [[isz anns sel tool T pad [hp hf] km lp]
                 [dragging ds cm hov he ha tp pp prs av sp]].
  cbn [app canvas annotations selectedIds keyMap transform history currentTool
       isDragging activeVertex pendingRectStart dragStart].
  intros (-> & -> & ->). cbn [orb andb].
  norm_app. cbv beta iota delta [currentTool transform].
  repeat split; reflexivity.
Qed.

(** X23: with the pan tool, after a pointer-down and any pointer-moves the
    view is translated by the pointer's total displacement in client
    coordinates, whatever the path; scale, collection, selection and history
    are unchanged. *)
Theorem pan_follows_the_pointer (env : Env) (e0 : MouseEvent) (es : list MouseEvent)
    (r : State) :
  currentTool (app r) = tool_pan ->
  let s := moves env es (dispatch (CanvasArea.handleMouseDown env e0) r) in
  let c := clientPos (last es e0) in
  transform (app s)
  = ViewTransform.mk (ViewTransform.scale (transform (app r)))
      (ViewTransform.x (transform (app r)) + (Point.x c - MouseEvent.clientX e0))
      (ViewTransform.y (transform (app r)) + (Point.y c - MouseEvent.clientY e0))
  /\ annotations (app s) = annotations (app r)
  /\ selectedIds (app s) = selectedIds (app r)
  /\ history (app s) = history (app r).
Proof.
  intros Ht.
  assert (H0 : panning (dispatch (CanvasArea.handleMouseDown env e0) r) (clientPos e0)
               /\ app (dispatch (CanvasArea.handleMouseDown env e0) r) = app r).
  { unfold panning, dispatch, CanvasArea.handleMouseDown, CanvasArea.isPan. rewrite Ht.
    destruct r as [[] []]. cbn in *. subst. auto. }
  destruct H0 as [Hpan Happ].
  set (s0 := dispatch (CanvasArea.handleMouseDown env e0) r) in *.
  assert (Hgen : forall es s d,
            panning s d ->
            let t := moves env es s in
            let c := last (map clientPos es) d in
            transform (app t)
            = ViewTransform.mk (ViewTransform.scale (transform (app s)))
                (ViewTransform.x (transform (app s)) + (Point.x c - Point.x d))
                (ViewTransform.y (transform (app s)) + (Point.y c - Point.y d))
            /\ annotations (app t) = annotations (app s)
            /\ selectedIds (app t) = selectedIds (app s)
            /\ history (app t) = history (app s)).
  { clear. induction es as [|e es IH]; intros s d Hp.
    - unfold moves, run. cbn. split; [|repeat split].
      destruct (transform (app s)) as [sc tx ty]. cbn. f_equal; ring.
    - unfold moves in *. cbn [map]. rewrite run_cons.
      destruct (pan_move env e s d Hp) as (Hp' & HT & Ha & Hs & Hh).
      destruct (IH _ _ Hp') as (HT2 & Ha2 & Hs2 & Hh2).
      cbv zeta in *. rewrite HT2, Ha2, Hs2, Hh2, HT, Ha, Hs, Hh. cbn [ViewTransform.scale
        ViewTransform.x ViewTransform.y].
      split; [|repeat split]. cbn [map]. rewrite last_cons_default.
      change (Point.x (clientPos e)) with (MouseEvent.clientX e).
      change (Point.y (clientPos e)) with (MouseEvent.clientY e). f_equal; ring. }
  destruct (Hgen es s0 (clientPos e0) Hpan) as (HT & Ha & Hs & Hh).
  cbv zeta. rewrite HT, Ha, Hs, Hh, Happ.
  replace (last (map clientPos es) (clientPos e0)) with (clientPos (last es e0))
    by (symmetry; apply last_map_default).
  repeat split.
Qed.

Lemma pan_follows_the_pointer_witness :
  currentTool (app (withTool tool_pan)) = tool_pan
  /\ annotations (app (moves atOrigin [leftClickAt 30 40]
                         (dispatch (CanvasArea.handleMouseDown atOrigin (leftClickAt 10 10))
                                   (withTool tool_pan))))
     = annotations (app (withTool tool_pan)).
Proof.
  assert (H : currentTool (app (withTool tool_pan)) = tool_pan) by reflexivity.
  split; [exact H|].
  exact (proj1 (proj2 (pan_follows_the_pointer atOrigin (leftClickAt 10 10)
                         [leftClickAt 30 40] (withTool tool_pan) H))).
Defined.

(** ** Dragging the selection *)

Lemma hover_canvas (r : State) (pos imgPos : Point) (r1 r2 s : State) :
  let s' := CanvasArea.hoverTooltip r pos imgPos r1 (CanvasArea.hoverEdge r imgPos r2 s) in
  app s' = app s
  /\ isDragging (canvas s') = isDragging (canvas s)
  /\ dragStart (canvas s') = dragStart (canvas s)
  /\ activeVertex (canvas s') = activeVertex (canvas s)
  /\ isSpacePressed (canvas s') = isSpacePressed (canvas s).
Proof.
  unfold CanvasArea.hoverTooltip, CanvasArea.hoverEdge.
  destruct s as [a [dragging ds cm hov he ha tp pp prs av sp]].
  split_handler; cbn; repeat split; reflexivity.
Qed.

Lemma findAnnotation_map (g : Annotation -> Annotation) (anns : list Annotation) (i : string) :
  (forall a, id (g a) = id a) ->
  findAnnotation (map g anns) i = option_map g (findAnnotation anns i).
Proof.
  intros Hg. unfold findAnnotation. induction anns as [|a l IH]; cbn; [reflexivity|].
  rewrite Hg. destruct (id a =? i); [reflexivity|exact IH].
Qed.

Lemma hasLocked_map (g : Annotation -> Annotation) (s t : State) :
  (forall a, id (g a) = id a) -> (forall a, locked (g a) = locked a) ->
  annotations (app t) = map g (annotations (app s)) ->
  selectedIds (app t) = selectedIds (app s) ->
  hasLocked t = hasLocked s.
Proof.
  intros Hid Hl Ha Hs. unfold hasLocked. rewrite Ha, Hs. clear Hs.
  induction (selectedIds (app s)) as [|i l IH]; cbn; [reflexivity|].
  rewrite IH, (findAnnotation_map g _ i Hid).
  destruct (findAnnotation (annotations (app s)) i); cbn; [rewrite Hl|]; reflexivity.
Qed.

Lemma drag_move (env : Env) (e : MouseEvent) (s : State) (p : Point) :
  draggingShapes s p ->
  MouseEvent.button e <> 1%nat ->
  let q := CanvasArea.getRelativeImagePos s env e in
  let t := dispatch (CanvasArea.handleMouseMove env e) s in
  annotations (app t) = moveSelected s (Point.x q - Point.x p) (Point.y q - Point.y p)
  /\ draggingShapes t q
  /\ selectedIds (app t) = selectedIds (app s)
  /\ transform (app t) = transform (app s)
  /\ canvasPadding (app t) = canvasPadding (app s)
  /\ history (app t) = history (app s).
Proof.
  intros (Ht & Hsp & Hd & Hds & Hav & Hsel & Hl) Hb q t.
  assert (Hpan : CanvasArea.isPan s e = false).
  { unfold CanvasArea.isPan. rewrite Ht, Hsp. cbn. apply Nat.eqb_neq, Hb. }
  assert (Hlen : (0 <? List.length (selectedIds (app s)))%nat = true).
  { destruct (selectedIds (app s)); [congruence|reflexivity]. }
  assert (Hms : map (fun ann =>
                      if negb (includes (selectedIds (app s)) (id ann)) then ann
                      else withPoints ann
                             (map (fun p0 => Point.mk (Point.x p0 + (Point.x q - Point.x p))
                                                      (Point.y p0 + (Point.y q - Point.y p)))
                                  (points ann)))
                   (annotations (app s))
                 = moveSelected s (Point.x q - Point.x p) (Point.y q - Point.y p)).
  { unfold moveSelected, isSelected. apply map_ext. intros a.
    destruct (includes _ _); reflexivity. }
  assert (Ht' : t = (setDragStart (Some q))
                      s (setAnnotations (fun _ =>
                           moveSelected s (Point.x q - Point.x p) (Point.y q - Point.y p))
                         s (CanvasArea.hoverTooltip s (CanvasArea.getMousePos env e) q s
                              (CanvasArea.hoverEdge s q s
                                 (setIsHoveringStartPoint false s
                                    (setCurrentMouseImagePos
                                       (Some (Point.mk
                                          (Rmax 0 (Rmin (Point.x q)
                                             (ImageSize.width (imageSize (app s)))))
                                          (Rmax 0 (Rmin (Point.y q)
                                             (ImageSize.height (imageSize (app s)))))))
                                       s s)))))).
  { unfold t, dispatch, CanvasArea.handleMouseMove. fold q.
    rewrite Ht, Hds, Hpan, Hd, Hlen, Hav, Hl. cbn [andb negb notNull].
    rewrite <- Hms. reflexivity. }
  clearbody t. subst t.
  match goal with
  | |- context [CanvasArea.hoverTooltip ?r ?pos ?img ?r1 (CanvasArea.hoverEdge ?r ?img ?r2 ?s0)] =>
      destruct (hover_canvas r pos img r1 r2 s0) as (Happ & H1 & H2 & H3 & H4);
      set (h := CanvasArea.hoverTooltip r pos img r1 (CanvasArea.hoverEdge r img r2 s0)) in *
  end.
  assert (Happ' : app h = app s) by (rewrite Happ; destruct s as [[] []]; reflexivity).
  assert (Hcv : isDragging (canvas h) = true /\ activeVertex (canvas h) = None
                /\ isSpacePressed (canvas h) = false).
  { rewrite H1, H3, H4. destruct s as [[] []]. cbn in *. auto. }
  clearbody h.
  set (MS := moveSelected s (Point.x q - Point.x p) (Point.y q - Point.y p)) in *.
  assert (Hfields :
            annotations (app (setDragStart (Some q) s (setAnnotations (fun _ => MS) s h))) = MS
            /\ selectedIds (app (setDragStart (Some q) s (setAnnotations (fun _ => MS) s h)))
               = selectedIds (app s)
            /\ transform (app (setDragStart (Some q) s (setAnnotations (fun _ => MS) s h)))
               = transform (app s)
            /\ canvasPadding (app (setDragStart (Some q) s (setAnnotations (fun _ => MS) s h)))
               = canvasPadding (app s)
            /\ history (app (setDragStart (Some q) s (setAnnotations (fun _ => MS) s h)))
               = history (app s)
            /\ currentTool (app (setDragStart (Some q) s (setAnnotations (fun _ => MS) s h)))
               = currentTool (app s)
            /\ canvas (setDragStart (Some q) s (setAnnotations (fun _ => MS) s h))
               = mkCanvas (isDragging (canvas h)) (Some q) (currentMouseImagePos (canvas h))
                   (isHoveringStartPoint (canvas h)) (hoveredEdge (canvas h))
                   (hoveredAnnotationId (canvas h)) (tooltipPos (canvas h))
                   (pendingPoly (canvas h)) (pendingRectStart (canvas h))
                   (activeVertex (canvas h)) (isSpacePressed (canvas h))).
  { clearbody MS. destruct h as [[] []]. cbn [app] in Happ'. rewrite <- Happ'.
    repeat split; reflexivity. }
  destruct Hfields as (Fa & Fs & FT & Fp & Fh & Ft & Fc).
  destruct Hcv as (Hc1 & Hc2 & Hc3).
  split; [exact Fa|]. split; [|repeat split; assumption].
  unfold draggingShapes. rewrite Fs, Ft, Fc. cbn [isSpacePressed isDragging dragStart activeVertex].
  repeat split; try assumption.
  rewrite <- Hl.
  apply (hasLocked_map (fun a => if isSelected s a
                                 then moveAnnotation a (Point.x q - Point.x p)
                                                     (Point.y q - Point.y p) else a)).
  - intros a. destruct (isSelected s a); reflexivity.
  - intros a. destruct (isSelected s a); reflexivity.
  - exact Fa.
  - exact Fs.
Qed.

Lemma moveSelected_comp (r s : State) (dx dy dx' dy' : R) :
  annotations (app s) = moveSelected r dx dy ->
  selectedIds (app s) = selectedIds (app r) ->
  moveSelected s dx' dy' = moveSelected r (dx + dx') (dy + dy').
Proof.
  intros Ha Hs. unfold moveSelected at 1. rewrite Ha. unfold moveSelected.
  rewrite map_map. apply map_ext. intros a. unfold isSelected. rewrite Hs.
  destruct (includes (selectedIds (app r)) (id a)) eqn:E.
  - cbn [moveAnnotation withPoints id]. rewrite E. apply moveAnnotation_comp.
  - rewrite E. reflexivity.
Qed.

Lemma moveSelected_zero (r : State) : moveSelected r 0 0 = annotations (app r).
Proof.
  unfold moveSelected. rewrite <- (map_id (annotations (app r))) at 2.
  apply map_ext. intros a. destruct (isSelected r a); [apply moveAnnotation_zero|reflexivity].
Qed.

Lemma getRelativeImagePos_view (r s : State) (env : Env) (e : MouseEvent) :
  transform (app s) = transform (app r) ->
  canvasPadding (app s) = canvasPadding (app r) ->
  CanvasArea.getRelativeImagePos s env e = CanvasArea.getRelativeImagePos r env e.
Proof. unfold CanvasArea.getRelativeImagePos. intros -> ->. reflexivity. Qed.

(** X24: while the selection is dragged (select tool, nothing locked), any
    sequence of pointer-moves moves every selected annotation by the last
    pointer position minus the position the drag started from, in image
    coordinates, whatever the path; the others, the selection and the history
    are unchanged. *)
Theorem drag_follows_the_pointer (env : Env) (es : list MouseEvent) (r : State) (p0 : Point) :
  draggingShapes r p0 ->
  Forall (fun e => MouseEvent.button e <> 1%nat) es ->
  let s := moves env es r in
  let q := last (map (CanvasArea.getRelativeImagePos r env) es) p0 in
  annotations (app s) = moveSelected r (Point.x q - Point.x p0) (Point.y q - Point.y p0)
  /\ selectedIds (app s) = selectedIds (app r)
  /\ history (app s) = history (app r)
  /\ draggingShapes s q.
Proof.
  intros Hd Hes.
  assert (Hgen : forall es s p,
            Forall (fun e => MouseEvent.button e <> 1%nat) es ->
            draggingShapes s p ->
            annotations (app s)
            = moveSelected r (Point.x p - Point.x p0) (Point.y p - Point.y p0) ->
            selectedIds (app s) = selectedIds (app r) ->
            transform (app s) = transform (app r) ->
            canvasPadding (app s) = canvasPadding (app r) ->
            history (app s) = history (app r) ->
            let t := moves env es s in
            let q := last (map (CanvasArea.getRelativeImagePos r env) es) p in
            annotations (app t)
            = moveSelected r (Point.x q - Point.x p0) (Point.y q - Point.y p0)
            /\ selectedIds (app t) = selectedIds (app r)
            /\ history (app t) = history (app r)
            /\ draggingShapes t q).
  { clear. induction es as [|e es IH]; intros s p Hes Hd Ha Hs HT Hp Hh.
    - unfold moves, run. cbn. auto.
    - inversion Hes as [|? ? He Hes']; subst.
      unfold moves in *. cbn [map]. rewrite run_cons, last_cons_default.
      destruct (drag_move env e s p Hd He) as (Ha' & Hd' & Hs' & HT' & Hp' & Hh').
      rewrite (getRelativeImagePos_view r s env e HT Hp) in Ha', Hd'.
      apply IH; try assumption; try congruence.
      rewrite Ha'. rewrite (moveSelected_comp r s _ _ _ _ Ha Hs). f_equal; ring. }
  apply Hgen; try assumption; try reflexivity.
  replace (Point.x p0 - Point.x p0) with 0 by ring.
  replace (Point.y p0 - Point.y p0) with 0 by ring.
  symmetry. apply moveSelected_zero.
Qed.

Lemma drag_follows_the_pointer_witness :
  draggingShapes draggedBoxes (Point.mk 5 5)
  /\ Forall (fun e => MouseEvent.button e <> 1%nat) [leftClickAt 60 60; leftClickAt 70 65]
  /\ selectedIds (app (moves atOrigin [leftClickAt 60 60; leftClickAt 70 65] draggedBoxes))
     = selectedIds (app draggedBoxes).
Proof.
  assert (H1 : draggingShapes draggedBoxes (Point.mk 5 5)).
  { repeat split; try reflexivity. discriminate. }
  assert (H2 : Forall (fun e => MouseEvent.button e <> 1%nat)
                 [leftClickAt 60 60; leftClickAt 70 65]).
  { repeat constructor; discriminate. }
  split; [exact H1|]. split; [exact H2|].
  exact (proj1 (proj2 (drag_follows_the_pointer atOrigin _ draggedBoxes (Point.mk 5 5)
                         H1 H2))).
Defined.

(** ** A pan begun with the middle button *)

(** X25: with the select tool and an unlocked selection, a pointer-down
    of the middle button followed by a pointer-move that reports another
    button (a browser reports button 0 on a move) does not pan: it moves the
    selected annotations by the pointer's image position minus the client
    position of the press, leaves the view where it is and takes no snapshot. *)
Theorem middle_button_pan_drags_selection (env : Env) (e0 e1 : MouseEvent) (r : State) :
  currentTool (app r) = tool_select ->
  isSpacePressed (canvas r) = false ->
  activeVertex (canvas r) = None ->
  selectedIds (app r) <> [] ->
  hasLocked r = false ->
  MouseEvent.button e0 = 1%nat ->
  MouseEvent.button e1 <> 1%nat ->
  let s := run [CanvasArea.handleMouseDown env e0; CanvasArea.handleMouseMove env e1] r in
  let q := CanvasArea.getRelativeImagePos r env e1 in
  annotations (app s)
  = moveSelected r (Point.x q - MouseEvent.clientX e0) (Point.y q - MouseEvent.clientY e0)
  /\ transform (app s) = transform (app r)
  /\ history (app s) = history (app r).
Proof.
  intros Ht Hsp Hav Hsel Hl Hb0 Hb1.
  set (s0 := dispatch (CanvasArea.handleMouseDown env e0) r).
  assert (H0 : draggingShapes s0 (clientPos e0) /\ app s0 = app r).
  { unfold draggingShapes, s0, dispatch, CanvasArea.handleMouseDown, CanvasArea.isPan.
    rewrite Hb0, Ht, Hsp. cbn [orb Nat.eqb].
    unfold hasLocked in *.
    destruct r as [[] []]. cbn in *. subst. repeat split; auto. }
  destruct H0 as [Hd Happ].
  destruct (drag_move env e1 s0 (clientPos e0) Hd Hb1) as (Ha & _ & Hs & HT & Hp & Hh).
  unfold run. cbn [fold_left]. fold s0. cbv zeta.
  rewrite Ha, HT, Hh, Happ.
  rewrite (getRelativeImagePos_view r s0 env e1) by (rewrite Happ; reflexivity).
  split; [|split; reflexivity].
  unfold moveSelected, isSelected. rewrite Happ. reflexivity.
Qed.

Lemma middle_button_pan_drags_selection_witness :
  currentTool (app twoBoxes) = tool_select
  /\ isSpacePressed (canvas twoBoxes) = false
  /\ activeVertex (canvas twoBoxes) = None
  /\ selectedIds (app twoBoxes) <> []
  /\ hasLocked twoBoxes = false
  /\ MouseEvent.button (middleClickAt 55 55) = 1%nat
  /\ MouseEvent.button (leftClickAt 60 60) <> 1%nat
  /\ history (app (run [CanvasArea.handleMouseDown atOrigin (middleClickAt 55 55);
                        CanvasArea.handleMouseMove atOrigin (leftClickAt 60 60)] twoBoxes))
     = history (app twoBoxes).
Proof.
  assert (H4 : selectedIds (app twoBoxes) <> []) by discriminate.
  assert (H7 : MouseEvent.button (leftClickAt 60 60) <> 1%nat) by discriminate.
  repeat (split; [first [reflexivity|assumption]|]).
  exact (proj2 (proj2 (middle_button_pan_drags_selection atOrigin (middleClickAt 55 55)
                         (leftClickAt 60 60) twoBoxes eq_refl eq_refl eq_refl H4 eq_refl
                         eq_refl H7))).
Defined.

(** ** The wheel at the limits of the zoom *)

Lemma Rltb_decide (a b : R) : (Rltb a b = true /\ a < b) \/ (Rltb a b = false /\ ~ a < b).
Proof. unfold Rltb. destruct (Rlt_dec a b); auto. Qed.

(** X26: for a scale in [0.1, 50], a wheel-up never lowers the scale and
    raises it by the factor 1.1 unless the upper limit cuts it, a wheel-down
    never raises it and lowers it by the factor 0.9 unless the lower limit
    cuts it; at the limit the view as a whole stays as it is. *)
Theorem wheel_zoom_is_monotone_and_saturates (env : Env) (e : WheelEvent) (r : State) :
  containerRect env <> None ->
  0.1 <= scaleOf r <= 50 ->
  let s := dispatch (CanvasArea.onWheel env e) r in
  (WheelEvent.deltaY e < 0 ->
     scaleOf r <= scaleOf s <= scaleOf r * 1.1
     /\ (scaleOf r * 1.1 <= 50 -> scaleOf s = scaleOf r * 1.1)
     /\ (scaleOf r = 50 -> transform (app s) = transform (app r)))
  /\ (0 <= WheelEvent.deltaY e ->
        scaleOf r * 0.9 <= scaleOf s <= scaleOf r
        /\ (0.1 <= scaleOf r * 0.9 -> scaleOf s = scaleOf r * 0.9)
        /\ (scaleOf r = 0.1 -> transform (app s) = transform (app r))).
Proof.
  intros Hrect Hsc s.
  destruct (containerRect env) as [rect|] eqn:Erect; [|congruence].
  assert (Hs : s = setTransform (fun _ =>
                 let newScale :=
                   Rmax 0.1 (Rmin (scaleOf r * (1 + (if Rltb (WheelEvent.deltaY e) 0
                                                     then 1 else -1) * 0.1)) 50) in
                 let mouseX := WheelEvent.clientX e - DOMRect.left rect in
                 let mouseY := WheelEvent.clientY e - DOMRect.top rect in
                 ViewTransform.mk newScale
                   (mouseX - (mouseX - ViewTransform.x (transform (app r)))
                             * (newScale / scaleOf r))
                   (mouseY - (mouseY - ViewTransform.y (transform (app r)))
                             * (newScale / scaleOf r))) r r).
  { unfold s, dispatch, CanvasArea.onWheel. rewrite Erect. reflexivity. }
  clearbody s. subst s. unfold scaleOf in *.
  destruct r as [[isz anns sel tool [sc tx ty] pad hist km lp] cv].
  cbn [app transform setTransform updApp ViewTransform.scale ViewTransform.x ViewTransform.y]
    in *.
  split; intros Hd.
  - replace (Rltb (WheelEvent.deltaY e) 0) with true
      by (symmetry; apply Rltb_true; exact Hd).
    replace (sc * (1 + 1 * 0.1)) with (sc * 1.1) by lra.
    unfold Rmax, Rmin.
    destruct (Rle_dec (sc * 1.1) 50); destruct (Rle_dec 0.1 _); try lra;
      (split; [lra|]; split; [intros; lra|]; intros ->; first [lra|f_equal; lra]).
  - replace (Rltb (WheelEvent.deltaY e) 0) with false
      by (symmetry; apply Rltb_false; lra).
    replace (sc * (1 + -1 * 0.1)) with (sc * 0.9) by lra.
    unfold Rmax, Rmin.
    destruct (Rle_dec (sc * 0.9) 50); destruct (Rle_dec 0.1 _); try lra;
      (split; [lra|]; split; [intros; lra|]; intros ->; first [lra|f_equal; lra]).
Qed.

Lemma wheel_zoom_is_monotone_and_saturates_witness :
  containerRect atOrigin <> None
  /\ 0.1 <= scaleOf initial <= 50
  /\ scaleOf initial
     <= scaleOf (dispatch (CanvasArea.onWheel atOrigin wheelUp) initial)
     <= scaleOf initial * 1.1.
Proof.
  assert (H1 : containerRect atOrigin <> None) by discriminate.
  assert (H2 : 0.1 <= scaleOf initial <= 50) by (unfold scaleOf; cbn; lra).
  assert (H3 : WheelEvent.deltaY wheelUp < 0) by (cbn; lra).
  split; [exact H1|]. split; [exact H2|].
  exact (proj1 (proj1 (wheel_zoom_is_monotone_and_saturates atOrigin wheelUp initial H1 H2)
                  H3)).
Defined.

(** ** Keyboard zoom and the reset of the view *)

(** X27: zoom-in followed by zoom-out, in either order, gives the state
    back; a keyboard zoom changes the scale only, so the image origin keeps
    its place on the screen. *)
Theorem keyboard_zoom_round_trip (r : State) (d : App.Direction) :
  run [App.handleZoom App.zoom_in; App.handleZoom App.zoom_out] r = r
  /\ run [App.handleZoom App.zoom_out; App.handleZoom App.zoom_in] r = r
  /\ imageToScreen 0 0 (transform (app (dispatch (App.handleZoom d) r)))
     = imageToScreen 0 0 (transform (app r))
  /\ app (dispatch (App.handleZoom d) r)
     = mkApp (imageSize (app r)) (annotations (app r)) (selectedIds (app r))
         (currentTool (app r))
         (ViewTransform.mk
            (match d with
             | App.zoom_in => scaleOf r * 1.2
             | App.zoom_out => scaleOf r / 1.2
             end)
            (ViewTransform.x (transform (app r))) (ViewTransform.y (transform (app r))))
         (canvasPadding (app r)) (history (app r)) (keyMap (app r)) (labelPopup (app r)).
Proof.
  destruct r as [[isz anns sel tool [sc tx ty] pad hist km lp] cv].
  cbv beta iota zeta delta
    [run fold_left dispatch App.handleZoom scaleOf imageToScreen
     setTransform updApp app canvas transform ViewTransform.scale
     ViewTransform.x ViewTransform.y imageSize annotations selectedIds currentTool
     canvasPadding history keyMap labelPopup Point.x Point.y].
  split; [|split; [|split]].
  - repeat f_equal; lra.
  - repeat f_equal; lra.
  - destruct d; f_equal; ring.
  - destruct d; reflexivity.
Qed.

(** X28: for an image of positive size in a window wider than the
    sidebars, [handleResetView] sets a positive scale at which the image fills
    at most 90% of the free width and height, and exactly 90% of one of them,
    and puts the centre of the image at the centre of the free area;
    resetting again changes nothing, and the collection is unchanged. *)
Theorem handleResetView_fits_and_centers (env : Env) (r : State) :
  0 < ImageSize.width (imageSize (app r)) ->
  0 < ImageSize.height (imageSize (app r)) ->
  384 < innerWidth env ->
  0 < innerHeight env ->
  let s := dispatch (App.handleResetView env) r in
  let w := ImageSize.width (imageSize (app r)) in
  let h := ImageSize.height (imageSize (app r)) in
  let maxWidth := innerWidth env - 384 in
  let maxHeight := innerHeight env in
  0 < scaleOf s
  /\ w * scaleOf s <= 0.9 * maxWidth
  /\ h * scaleOf s <= 0.9 * maxHeight
  /\ (w * scaleOf s = 0.9 * maxWidth \/ h * scaleOf s = 0.9 * maxHeight)
  /\ imageToScreen (w / 2 + Point.x (canvasPadding (app r)))
                   (h / 2 + Point.y (canvasPadding (app r))) (transform (app s))
     = Point.mk (maxWidth / 2) (maxHeight / 2)
  /\ dispatch (App.handleResetView env) s = s
  /\ annotations (app s) = annotations (app r).
Proof.
  intros Hw Hh HW HH.
  unfold dispatch, App.handleResetView, scaleOf.
  destruct r as [[[w h] anns sel tool T [px py] hist km lp] cv].
  cbn [app imageSize canvasPadding ImageSize.width ImageSize.height Point.x Point.y] in *.
  rewrite Reqb_false by lra.
  cbn [setTransform updApp app transform imageSize canvasPadding ImageSize.width
       ImageSize.height Point.x Point.y ViewTransform.scale ViewTransform.x ViewTransform.y
       annotations].
  rewrite Reqb_false by lra.
  set (mw := innerWidth env - 384) in *.
  set (mh := innerHeight env) in *.
  assert (Hmw : 0 < mw) by (unfold mw; lra).
  assert (Hqw : 0 < mw / w) by (apply Rdiv_lt_0_compat; assumption).
  assert (Hqh : 0 < mh / h) by (apply Rdiv_lt_0_compat; assumption).
  assert (Ew : w * (mw / w) = mw) by (field; lra).
  assert (Eh : h * (mh / h) = mh) by (field; lra).
  set (m := Rmin (mw / w) (mh / h)).
  assert (Hm : 0 < m /\ m <= mw / w /\ m <= mh / h /\ (m = mw / w \/ m = mh / h)).
  { unfold m, Rmin. destruct (Rle_dec (mw / w) (mh / h)); repeat split; auto; lra. }
  destruct Hm as (Hm0 & Hm1 & Hm2 & Hm3).
  split; [lra|].
  split; [apply (Rmult_le_compat_l w) in Hm1; lra|].
  split; [apply (Rmult_le_compat_l h) in Hm2; lra|].
  split; [destruct Hm3 as [E|E]; [left|right]; rewrite E; lra|].
  split; [|split; reflexivity].
  unfold imageToScreen. cbn. f_equal; lra.
Qed.

Lemma handleResetView_fits_and_centers_witness :
  0 < ImageSize.width (imageSize (app twoBoxes))
  /\ 0 < ImageSize.height (imageSize (app twoBoxes))
  /\ 384 < innerWidth atOrigin
  /\ 0 < innerHeight atOrigin
  /\ 0 < scaleOf (dispatch (App.handleResetView atOrigin) twoBoxes).
Proof.
  assert (H1 : 0 < ImageSize.width (imageSize (app twoBoxes))) by (cbn; lra).
  assert (H2 : 0 < ImageSize.height (imageSize (app twoBoxes))) by (cbn; lra).
  assert (H3 : 384 < innerWidth atOrigin) by (cbn; lra).
  assert (H4 : 0 < innerHeight atOrigin) by (cbn; lra).
  split; [exact H1|]. split; [exact H2|]. split; [exact H3|]. split; [exact H4|].
  exact (proj1 (handleResetView_fits_and_centers atOrigin twoBoxes H1 H2 H3 H4)).
Defined.

(** ** Resizing a rectangle by a corner handle *)

Ltac index_cases index :=
  match goal with
  | H : (index < 4)%nat |- _ =>
      let E := fresh "E" in
      assert (E : (index = 0 \/ index = 1 \/ index = 2 \/ index = 3)%nat) by lia;
      destruct E as [E|[E|[E|E]]]; subst index
  end.

Lemma point_eta (p : Point) : Point.mk (Point.x p) (Point.y p) = p.
Proof. destruct p; reflexivity. Qed.

(** The first pointer-move keeps the corner opposite to the handle. *)
Lemma resize_first (ann : Annotation) (index : nat) (p : Point) :
  (index < 4)%nat ->
  CanvasArea.resizeRectangle ann index p
  = resizedTo index p (pointAt (CanvasArea.corners ann) ((index + 2) mod 4)).
Proof.
  intros Hi. index_cases index; unfold CanvasArea.resizeRectangle, CanvasArea.corners;
    cbn [resizedTo pointAt nth Nat.add Nat.modulo Nat.divmod fst snd Nat.sub
         Point.x Point.y];
    rewrite ?point_eta; reflexivity.
Qed.

(** A further pointer-move recomputes the bounds from the rectangle as the
    last move left it. *)
Lemma resize_next (a : Annotation) (index : nat) (p0 o p : Point) :
  (index < 4)%nat ->
  points a = resizedTo index p0 o ->
  CanvasArea.resizeRectangle a index p = resizedTo index p (anchorAfter index o [p0]).
Proof.
  intros Hi Hp. unfold CanvasArea.resizeRectangle. rewrite Hp.
  index_cases index;
    cbn [resizedTo pointAt nth anchorAfter fold_left Point.x Point.y];
    rewrite ?point_eta;
    repeat first [ rewrite (Rmax_comm (Point.x p0) (Point.x o))
                 | rewrite (Rmax_comm (Point.y p0) (Point.y o))
                 | rewrite (Rmin_comm (Point.x p0) (Point.x o))
                 | rewrite (Rmin_comm (Point.y p0) (Point.y o)) ];
    reflexivity.
Qed.

Lemma resizes_snoc (index : nat) (ps : list Point) (p : Point) (ann : Annotation) :
  resizes index (ps ++ [p]) ann
  = withPoints (resizes index ps ann)
      (CanvasArea.resizeRectangle (resizes index ps ann) index p).
Proof. unfold resizes. rewrite fold_left_app. reflexivity. Qed.

Lemma anchorAfter_snoc (index : nat) (o : Point) (ps : list Point) (p : Point) :
  anchorAfter index o (ps ++ [p]) = anchorAfter index (anchorAfter index o ps) [p].
Proof. unfold anchorAfter. rewrite fold_left_app. reflexivity. Qed.

(** The rectangle after any number of pointer-moves. *)
Lemma resizes_points (ann : Annotation) (index : nat) (ps : list Point) (p : Point) :
  (index < 4)%nat ->
  points (resizes index (ps ++ [p]) ann)
  = resizedTo index p
      (anchorAfter index (pointAt (CanvasArea.corners ann) ((index + 2) mod 4)) ps).
Proof.
  intros Hi. revert p. induction ps as [|p0 ps IH] using rev_ind; intros p.
  - cbn [List.app resizes fold_left anchorAfter]. cbn [withPoints points].
    apply resize_first, Hi.
  - rewrite resizes_snoc. cbn [withPoints points].
    rewrite (resize_next _ index p0 _ p Hi (IH p0)), anchorAfter_snoc. reflexivity.
Qed.

Lemma resizes_fields (index : nat) (ps : list Point) (ann : Annotation) :
  id (resizes index ps ann) = id ann
  /\ type (resizes index ps ann) = type ann
  /\ locked (resizes index ps ann) = locked ann.
Proof.
  revert ann. induction ps as [|p ps IH]; intros ann; [repeat split|].
  change (resizes index (p :: ps) ann)
    with (resizes index ps (withPoints ann (CanvasArea.resizeRectangle ann index p))).
  destruct (IH (withPoints ann (CanvasArea.resizeRectangle ann index p))) as (H1 & H2 & H3).
  rewrite H1, H2, H3. repeat split.
Qed.

(** Every position of the drag, and the corner the drag started from, lie on
    the handle's side of the corner that is kept. *)
Lemma anchorAfter_side (index : nat) (o : Point) (ps : list Point) :
  onSideOf index (anchorAfter index o ps) o
  /\ Forall (onSideOf index (anchorAfter index o ps)) ps.
Proof.
  revert o. induction ps as [|p ps IH]; intros o.
  - split; [|constructor]. cbn. destruct index as [|[|[|]]]; cbn; lra.
  - change (anchorAfter index o (p :: ps))
      with (anchorAfter index (anchorAfter index o [p]) ps).
    destruct (IH (anchorAfter index o [p])) as [Ho Hps].
    set (A := anchorAfter index (anchorAfter index o [p]) ps) in *.
    assert (H : onSideOf index A o /\ onSideOf index A p).
    { clearbody A. destruct index as [|[|[|]]];
        cbn [anchorAfter fold_left onSideOf Point.x Point.y] in *;
        pose proof (Rmax_l (Point.x o) (Point.x p));
        pose proof (Rmax_r (Point.x o) (Point.x p));
        pose proof (Rmax_l (Point.y o) (Point.y p));
        pose proof (Rmax_r (Point.y o) (Point.y p));
        pose proof (Rmin_l (Point.x o) (Point.x p));
        pose proof (Rmin_r (Point.x o) (Point.x p));
        pose proof (Rmin_l (Point.y o) (Point.y p));
        pose proof (Rmin_r (Point.y o) (Point.y p)); lra. }
    destruct H as [H1 H2]. split; [exact H1|]. constructor; assumption.
Qed.

(** The corner opposite to the handle is kept exactly as long as the pointer
    has not crossed it. *)
Lemma anchorAfter_kept (index : nat) (o : Point) (ps : list Point) :
  anchorAfter index o ps = o <-> Forall (onSideOf index o) ps.
Proof.
  split.
  - intros E. pose proof (proj2 (anchorAfter_side index o ps)) as H.
    rewrite E in H. exact H.
  - intros H. induction H as [|p ps Hp _ IH]; [reflexivity|].
    change (anchorAfter index o (p :: ps))
      with (anchorAfter index (anchorAfter index o [p]) ps).
    assert (E : anchorAfter index o [p] = o).
    { destruct o as [ox oy].
      destruct index as [|[|[|]]];
        cbn [anchorAfter fold_left onSideOf Point.x Point.y] in *;
        destruct Hp as [Hx Hy]; f_equal;
        first [apply Rmax_left | apply Rmin_left]; assumption. }
    rewrite E. exact IH.
Qed.

(** A point whose coordinates are taken from the two points of a rectangle is
    one of its corners. *)
Lemma corner_in (a : Annotation) (p0 p1 : Point) (u v : R) :
  points a = [p0; p1] ->
  u = Point.x p0 \/ u = Point.x p1 ->
  v = Point.y p0 \/ v = Point.y p1 ->
  In (Point.mk u v) (CanvasArea.corners a).
Proof.
  intros Hp Hu Hv. unfold CanvasArea.corners. rewrite Hp. cbn [pointAt nth].
  unfold Rmin, Rmax.
  destruct (Rle_dec (Point.x p0) (Point.x p1)), (Rle_dec (Point.y p0) (Point.y p1));
    destruct Hu as [-> | ->], Hv as [-> | ->]; cbn [In]; auto 6.
Qed.

Lemma findAnnotation_replace (anns : list Annotation) (sid : string) (ann new : Annotation) :
  findAnnotation anns sid = Some ann ->
  id new = sid ->
  findAnnotation (map (fun a => if id a =? sid then new else a) anns) sid = Some new.
Proof.
  unfold findAnnotation. intros Hf Hid.
  induction anns as [|a l IH]; [discriminate|]. cbn in *.
  destruct (id a =? sid) eqn:E.
  - rewrite Hid, String.eqb_refl. reflexivity.
  - rewrite E. apply IH, Hf.
Qed.

(** One pointer-move while a handle of a rectangle is held. *)
Lemma resize_move (env : Env) (e : MouseEvent) (s : State) (sid : string) (index : nat)
      (ann : Annotation) :
  resizing s sid index ann ->
  let q := CanvasArea.getRelativeImagePos s env e in
  let ann' := withPoints ann (CanvasArea.resizeRectangle ann index q) in
  let t := dispatch (CanvasArea.handleMouseMove env e) s in
  annotations (app t)
  = map (fun a => if id a =? sid then ann' else a) (annotations (app s))
  /\ resizing t sid index ann'
  /\ transform (app t) = transform (app s)
  /\ canvasPadding (app t) = canvasPadding (app s)
  /\ history (app t) = history (app s).
Proof.
  intros (Hav & Hsel & Hd & Hf & Hty & Hl) q ann' t.
  set (new := map (fun a => if id a =? sid then ann' else a) (annotations (app s))).
  assert (Ht : exists s0,
            t = setAnnotations (fun _ => new) s
                  (CanvasArea.hoverTooltip s (CanvasArea.getMousePos env e) q s
                     (CanvasArea.hoverEdge s q s s0))
            /\ app s0 = app s
            /\ isDragging (canvas s0) = isDragging (canvas s)
            /\ activeVertex (canvas s0) = activeVertex (canvas s)).
  { assert (Hdv : CanvasArea.dragVertex s q (mkActiveVertex sid index) sid
                  = setAnnotations (fun _ => new)).
    { unfold CanvasArea.dragVertex. rewrite Hf, Hl, Hty. reflexivity. }
    assert (Htail : match dragStart (canvas s) with
                    | Some ds =>
                        if CanvasArea.isPan s e && isDragging (canvas s)
                        then setTransform (fun _ =>
                               ViewTransform.mk (ViewTransform.scale (transform (app s)))
                                 (ViewTransform.x (transform (app s))
                                  + (MouseEvent.clientX e - Point.x ds))
                                 (ViewTransform.y (transform (app s))
                                  + (MouseEvent.clientY e - Point.y ds))) ;;
                             setDragStart
                               (Some (Point.mk (MouseEvent.clientX e) (MouseEvent.clientY e)))
                        else if isDragging (canvas s)
                                && (0 <? List.length (selectedIds (app s)))%nat
                                && negb (notNull (activeVertex (canvas s)))
                                && match currentTool (app s) with
                                   | tool_select => true | _ => false end
                        then
                          if hasLocked s then skip
                          else
                            setAnnotations (fun _ =>
                              map (fun ann0 =>
                                     if negb (includes (selectedIds (app s)) (id ann0))
                                     then ann0
                                     else withPoints ann0
                                            (map (fun p =>
                                                    Point.mk
                                                      (Point.x p + (Point.x q - Point.x ds))
                                                      (Point.y p + (Point.y q - Point.y ds)))
                                                 (points ann0)))
                                  (annotations (app s))) ;;
                            setDragStart (Some q)
                        else
                          match activeVertex (canvas s), selectedIds (app s) with
                          | Some av, [selectedId] => CanvasArea.dragVertex s q av selectedId
                          | _, _ => skip
                          end
                    | None =>
                        match activeVertex (canvas s), selectedIds (app s) with
                        | Some av, [selectedId] => CanvasArea.dragVertex s q av selectedId
                        | _, _ => skip
                        end
                    end = setAnnotations (fun _ => new)).
    { rewrite Hd, Hav, Hsel, andb_false_r. cbn [andb]. rewrite Hdv.
      destruct (dragStart (canvas s)); reflexivity. }
    unfold t, dispatch, CanvasArea.handleMouseMove. fold q.
    unfold seqH at 1 2 3 4. rewrite Htail.
    eexists. split; [reflexivity|].
    destruct s as [[isz anns sel tool T pad hist km lp]
                   [dragging ds cm hov he ha tp pp prs av sp]].
    cbn [app canvas currentTool pendingPoly].
    destruct tool; try destruct (3 <=? List.length pp)%nat; repeat split; reflexivity. }
  destruct Ht as (s0 & Ht & Happ0 & Hd0 & Hav0).
  destruct (hover_canvas s (CanvasArea.getMousePos env e) q s s s0)
    as (Happ & H1 & _ & H3 & _).
  set (h := CanvasArea.hoverTooltip s (CanvasArea.getMousePos env e) q s
              (CanvasArea.hoverEdge s q s s0)) in *.
  assert (Hfields : annotations (app t) = new
                    /\ selectedIds (app t) = selectedIds (app s)
                    /\ transform (app t) = transform (app s)
                    /\ canvasPadding (app t) = canvasPadding (app s)
                    /\ history (app t) = history (app s)
                    /\ canvas t = canvas h).
  { rewrite Ht. clearbody h new. destruct h as [[] ?]. cbn [app] in Happ.
    rewrite <- Happ0, <- Happ. repeat split; reflexivity. }
  destruct Hfields as (Fa & Fs & FT & Fp & Fh & Fc).
  split; [exact Fa|]. split; [|auto].
  unfold resizing. rewrite Fc, H1, H3, Hd0, Hav0, Fs, Fa.
  repeat split; try assumption.
  apply findAnnotation_replace with (ann := ann); [exact Hf|].
  unfold findAnnotation in Hf. apply find_some in Hf. destruct Hf as [_ E].
  apply String.eqb_eq in E. exact E.
Qed.

(** Any number of pointer-moves while the handle is held. *)
Lemma resize_moves (env : Env) (es : list MouseEvent) (s : State) (sid : string)
      (index : nat) (ann : Annotation) :
  resizing s sid index ann ->
  let t := moves env es s in
  resizing t sid index (resizes index (map (CanvasArea.getRelativeImagePos s env) es) ann)
  /\ transform (app t) = transform (app s)
  /\ canvasPadding (app t) = canvasPadding (app s)
  /\ history (app t) = history (app s).
Proof.
  revert s ann. induction es as [|e es IH]; intros s ann Hr; [cbn; auto|].
  destruct (resize_move env e s sid index ann Hr) as (_ & Hr' & HT & Hp & Hh).
  change (moves env (e :: es) s)
    with (moves env es (dispatch (CanvasArea.handleMouseMove env e) s)).
  set (s1 := dispatch (CanvasArea.handleMouseMove env e) s) in *.
  destruct (IH s1 _ Hr') as (Hr2 & HT2 & Hp2 & Hh2).
  cbv zeta. rewrite HT2, Hp2, Hh2, HT, Hp, Hh.
  split; [|auto].
  rewrite (map_ext (CanvasArea.getRelativeImagePos s1 env)
                   (CanvasArea.getRelativeImagePos s env)) in Hr2
    by (intros e'; apply getRelativeImagePos_eq; assumption).
  exact Hr2.
Qed.

(** X29: while the corner handle [index] of the only selected rectangle
    is held, after any pointer-moves the rectangle has two points, it has the
    last pointer position and the corner [kept] among its corners, its area
    is the product of the distances between the two along x and along y, and
    the moves take no snapshot.  [kept] is recomputed at each move from the
    rectangle as it is: it is the corner opposite to the handle in the
    original rectangle exactly when no earlier position of the pointer has
    crossed that corner; after a crossing it is where the crossing went. *)
Theorem resize_keeps_the_opposite_corner (env : Env) (s : State) (sid : string)
    (index : nat) (ann : Annotation) (es : list MouseEvent) (e : MouseEvent) :
  (index < 4)%nat ->
  resizing s sid index ann ->
  let pos := CanvasArea.getRelativeImagePos s env in
  let opposite := pointAt (CanvasArea.corners ann) ((index + 2) mod 4) in
  let kept := anchorAfter index opposite (map pos es) in
  let ann' := resizes index (map pos (es ++ [e])) ann in
  findAnnotation (annotations (app (moves env (es ++ [e]) s))) sid = Some ann'
  /\ history (app (moves env (es ++ [e]) s)) = history (app s)
  /\ points ann' = resizedTo index (pos e) kept
  /\ List.length (points ann') = 2%nat
  /\ In (pos e) (CanvasArea.corners ann')
  /\ In kept (CanvasArea.corners ann')
  /\ getAnnotationArea ann'
     = Rabs (Point.x (pos e) - Point.x kept) * Rabs (Point.y (pos e) - Point.y kept)
  /\ (kept = opposite <-> Forall (onSideOf index opposite) (map pos es)).
Proof.
  intros Hi Hr pos opposite kept ann'.
  destruct (resize_moves env (es ++ [e]) s sid index ann Hr)
    as ((_ & _ & _ & Hf & _ & _) & _ & _ & Hh).
  fold pos in Hf. fold ann' in Hf.
  assert (Hp : points ann' = resizedTo index (pos e) kept).
  { unfold ann'. rewrite map_app. cbn [map]. apply resizes_points, Hi. }
  assert (Hty : type ann' = shape_rectangle).
  { unfold ann'. rewrite (proj1 (proj2 (resizes_fields index _ ann))). apply Hr. }
  split; [exact Hf|]. split; [exact Hh|]. split; [exact Hp|].
  destruct (pos e) as [px py] eqn:Epos. destruct kept as [kx ky] eqn:Ekept.
  split; [|split; [|split; [|split]]].
  - rewrite Hp. index_cases index; reflexivity.
  - index_cases index; cbn [resizedTo Point.x Point.y] in Hp;
      apply (corner_in ann' _ _ px py Hp); cbn [Point.x Point.y]; auto.
  - index_cases index; cbn [resizedTo Point.x Point.y] in Hp;
      apply (corner_in ann' _ _ kx ky Hp); cbn [Point.x Point.y]; auto.
  - unfold getAnnotationArea. rewrite Hty, Hp.
    index_cases index; cbn [resizedTo pointAt nth Point.x Point.y];
      rewrite ?(Rabs_minus_sym kx px), ?(Rabs_minus_sym ky py); reflexivity.
  - rewrite <- Ekept. apply anchorAfter_kept.
Qed.

Lemma resize_keeps_the_opposite_corner_witness :
  (0 < 4)%nat
  /\ resizing resizingBoxA "1" 0 boxA
  /\ findAnnotation
       (annotations (app (moves atOrigin [leftClickAt 70 70; leftClickAt 80 80]
                            resizingBoxA))) "1"
     = Some (resizes 0 (map (CanvasArea.getRelativeImagePos resizingBoxA atOrigin)
                            [leftClickAt 70 70; leftClickAt 80 80]) boxA).
Proof.
  assert (H : (0 < 4)%nat) by lia.
  assert (Hr : resizing resizingBoxA "1" 0 boxA) by (repeat split; reflexivity).
  split; [exact H|]. split; [exact Hr|].
  exact (proj1 (resize_keeps_the_opposite_corner atOrigin resizingBoxA "1" 0 boxA
                  [leftClickAt 70 70] (leftClickAt 80 80) H Hr)).
Defined.

(** The top-left handle of the box from (0,0) to (10,10) dragged across the
    bottom-right corner, to (20,20) and on to (30,30): the second move keeps
    (20,20), and (10,10) is a corner no more. *)
Example resize_across_the_corner :
  resizes 0 [Point.mk 20 20; Point.mk 30 30] boxA
  = withPoints boxA [Point.mk 30 30; Point.mk 20 20]
  /\ ~ In (Point.mk 10 10)
          (CanvasArea.corners (resizes 0 [Point.mk 20 20; Point.mk 30 30] boxA)).
Proof.
  assert (E : resizes 0 [Point.mk 20 20; Point.mk 30 30] boxA
              = withPoints boxA [Point.mk 30 30; Point.mk 20 20]).
  { unfold resizes, boxA, withPoints, CanvasArea.resizeRectangle.
    cbn [fold_left points pointAt nth Point.x Point.y id label type color visible locked].
    rewrite (Rmax_right 0 10), (Rmax_left 20 10) by lra. reflexivity. }
  split; [exact E|]. rewrite E. unfold CanvasArea.corners, withPoints, boxA.
  cbn [points pointAt nth Point.x Point.y].
  rewrite (Rmin_right 30 20), (Rmax_left 30 20) by lra.
  cbn [In]. intros [H|[H|[H|[H|[]]]]]; injection H; intros; lra.
Qed.

(** ** Shapes stay well formed *)

Section KeepsShape.
Variable r : State.

Lemma ks_skip : keepsShape r skip.
Proof. intros s H. exact H. Qed.

Lemma ks_seq (h1 h2 : Handler) :
  keepsShape r h1 -> keepsShape r h2 -> keepsShape r (h1 ;; h2).
Proof. intros H1 H2 s H. apply H2, H1, H. Qed.

Lemma ks_when (b : bool) (h : Handler) : keepsShape r h -> keepsShape r (when b h).
Proof. destruct b; [exact (fun H => H)|intros _; apply ks_skip]. Qed.

Lemma ks_updCanvas (f : CanvasState -> CanvasState) : keepsShape r (updCanvas f).
Proof. intros s H. exact H. Qed.

Lemma ks_updApp (f : AppState -> AppState) :
  (forall a, annotations (f a) = annotations a /\ history (f a) = history a) ->
  keepsShape r (updApp f).
Proof.
  intros Hf s H. unfold wellShaped, updApp in *. cbn [app].
  destruct (Hf (app s)) as [-> ->]. exact H.
Qed.

Lemma ks_setAnnotations (f : list Annotation -> list Annotation) :
  (forall l, Forall wellFormed l -> Forall wellFormed (f l)) ->
  keepsShape r (setAnnotations f).
Proof.
  intros Hf s [Ha Hh]. destruct s as [[] ?]. split; [apply Hf, Ha|exact Hh].
Qed.

Lemma ks_setHistory (f : History -> History) :
  (forall h, Forall (fun i => Forall wellFormed (HistoryItem.annotations i))
               (past h ++ future h) ->
             Forall (fun i => Forall wellFormed (HistoryItem.annotations i))
               (past (f h) ++ future (f h))) ->
  keepsShape r (setHistory f).
Proof.
  intros Hf s [Ha Hh]. destruct s as [[] ?]. split; [exact Ha|apply Hf, Hh].
Qed.

Lemma ks_snapshotHistory (action : string) :
  wellShaped r -> keepsShape r (App.snapshotHistory action).
Proof.
  intros [Hr _]. unfold App.snapshotHistory. apply ks_setHistory.
  intros h Hh. cbn [past future]. rewrite app_nil_r.
  apply Forall_app in Hh. apply Forall_app. split; [apply Hh|].
  constructor; [exact Hr|constructor].
Qed.

End KeepsShape.

Ltac ks_setter :=
  first [ apply ks_updCanvas | apply ks_updApp; intros []; split; reflexivity ].

Lemma ks_setSelectedIds r f : keepsShape r (setSelectedIds f).
Proof. ks_setter. Qed.
Lemma ks_setCurrentTool r f : keepsShape r (setCurrentTool f).
Proof. ks_setter. Qed.
Lemma ks_setTransform r f : keepsShape r (setTransform f).
Proof. ks_setter. Qed.
Lemma ks_setLabelPopup r f : keepsShape r (setLabelPopup f).
Proof. ks_setter. Qed.
Lemma ks_setIsDragging r v : keepsShape r (setIsDragging v).
Proof. ks_setter. Qed.
Lemma ks_setDragStart r v : keepsShape r (setDragStart v).
Proof. ks_setter. Qed.
Lemma ks_setCurrentMouseImagePos r v : keepsShape r (setCurrentMouseImagePos v).
Proof. ks_setter. Qed.
Lemma ks_setIsHoveringStartPoint r v : keepsShape r (setIsHoveringStartPoint v).
Proof. ks_setter. Qed.
Lemma ks_setHoveredEdge r v : keepsShape r (setHoveredEdge v).
Proof. ks_setter. Qed.
Lemma ks_setHoveredAnnotationId r v : keepsShape r (setHoveredAnnotationId v).
Proof. ks_setter. Qed.
Lemma ks_setTooltipPos r v : keepsShape r (setTooltipPos v).
Proof. ks_setter. Qed.
Lemma ks_setPendingPoly r u : keepsShape r (setPendingPoly u).
Proof. ks_setter. Qed.
Lemma ks_setPendingRectStart r v : keepsShape r (setPendingRectStart v).
Proof. ks_setter. Qed.
Lemma ks_setActiveVertex r v : keepsShape r (setActiveVertex v).
Proof. ks_setter. Qed.
Lemma ks_setIsSpacePressed r v : keepsShape r (setIsSpacePressed v).
Proof. ks_setter. Qed.

Create HintDb shape.
#[export] Hint Resolve
  ks_skip ks_seq ks_when ks_snapshotHistory
  ks_setSelectedIds ks_setCurrentTool ks_setTransform ks_setLabelPopup
  ks_setIsDragging ks_setDragStart ks_setCurrentMouseImagePos
  ks_setIsHoveringStartPoint ks_setHoveredEdge ks_setHoveredAnnotationId
  ks_setTooltipPos ks_setPendingPoly ks_setPendingRectStart ks_setActiveVertex
  ks_setIsSpacePressed : shape.

(** Splits the conditionals of a handler and closes the branches that
    write neither the annotations nor the history. *)
Ltac shape_cases :=
  repeat first
    [ progress auto with shape
    | match goal with
      | |- keepsShape _ (if ?b then _ else _) => destruct b eqn:?
      | |- keepsShape _ (match ?o with _ => _ end) => destruct o eqn:?
      | |- keepsShape _ (let '(_, _) := ?p in _) => destruct p eqn:?
      | |- keepsShape _ (_ ;; _) => apply ks_seq
      | |- keepsShape _ (when _ _) => apply ks_when
      end ].

Lemma wellFormed_withPoints (a : Annotation) (pts : list Point) :
  List.length pts = List.length (points a) -> wellFormed a -> wellFormed (withPoints a pts).
Proof. unfold wellFormed. cbn. intros ->. exact (fun H => H). Qed.

Lemma Forall_map_same {A} (P : A -> Prop) (g : A -> A) (l : list A) :
  (forall a, In a l -> P a -> P (g a)) -> Forall P l -> Forall P (map g l).
Proof.
  intros Hg H. apply Forall_map. rewrite Forall_forall in *. intros a Ha.
  apply Hg; [exact Ha|apply H, Ha].
Qed.

Lemma Forall_filter_same {A} (P : A -> Prop) (p : A -> bool) (l : list A) :
  Forall P l -> Forall P (filter p l).
Proof.
  intros H. apply Forall_forall. intros a Ha. apply filter_In in Ha.
  rewrite Forall_forall in H. apply H, Ha.
Qed.

(** Moving the selected annotations. *)
Lemma moved_shaped (sel : list string) (dx dy : R) (l : list Annotation) :
  Forall wellFormed l ->
  Forall wellFormed
    (map (fun ann => if negb (includes sel (id ann)) then ann
                     else withPoints ann
                            (map (fun p => Point.mk (Point.x p + dx) (Point.y p + dy))
                                 (points ann))) l).
Proof.
  apply Forall_map_same. intros a _ Ha. destruct (negb _); [exact Ha|].
  apply wellFormed_withPoints; [apply length_map|exact Ha].
Qed.

(** Every handler below applies its body to the render. *)
Ltac enter_ks r :=
  match goal with
  | |- forall s, wellShaped s -> wellShaped (?h r s) => change (keepsShape r h)
  end.

Lemma canvas_handleKeyDown_ks (r : State) (e : KeyboardEvent) :
  wellShaped r -> keepsShape r (CanvasArea.handleKeyDown e).
Proof.
  intros Hr s Hs. unfold CanvasArea.handleKeyDown.
  destruct (KeyboardEvent.targetTagName e =? "INPUT")%string; [exact Hs|].
  revert s Hs. enter_ks r.
  unfold CanvasArea.handleCancelDraw, CanvasArea.handleUndoPoint. shape_cases.
  apply ks_setAnnotations. intros _ _. apply moved_shaped, Hr.
Qed.

Lemma resizeRectangle_length (ann : Annotation) (index : nat) (imgPos : Point) :
  List.length (CanvasArea.resizeRectangle ann index imgPos) = 2%nat.
Proof.
  unfold CanvasArea.resizeRectangle.
  destruct index as [|[|[|[|]]]]; reflexivity.
Qed.

Lemma assignAt_length {A} (k : nat) (v : A) (l : list A) :
  (List.length l <= List.length (assignAt k v l))%nat.
Proof.
  unfold assignAt. destruct (k <=? List.length l)%nat eqn:E; [|lia].
  apply Nat.leb_le in E. rewrite length_app, length_firstn. cbn [List.length].
  rewrite length_skipn. lia.
Qed.

Lemma spliceIn_length {A} (k : nat) (v : A) (l : list A) :
  List.length (spliceIn k v l) = S (List.length l).
Proof.
  unfold spliceIn. rewrite length_app. cbn [List.length].
  rewrite <- (firstn_skipn k l) at 3. rewrite length_app. lia.
Qed.

Lemma dropIndex_length_from {A} (k s : nat) (l : list A) :
  (List.length l - 1
   <= List.length (filter (fun ai : A * nat => negb (Nat.eqb (snd ai) k))
                          (combine l (seq s (List.length l)))))%nat
  /\ ((k < s)%nat ->
      List.length (filter (fun ai : A * nat => negb (Nat.eqb (snd ai) k))
                          (combine l (seq s (List.length l))))
      = List.length l).
Proof.
  revert s. induction l as [|a l IH]; intros s; cbn [List.length seq combine filter snd].
  - split; [lia|reflexivity].
  - destruct (IH (S s)) as [IH1 IH2].
    destruct (Nat.eqb s k) eqn:E; cbn [negb List.length].
    + apply Nat.eqb_eq in E. subst s. split; [|lia].
      rewrite IH2 by lia. lia.
    + apply Nat.eqb_neq in E. split; [lia|]. intros Hk. rewrite IH2 by lia. reflexivity.
Qed.

Lemma dropIndex_length {A} (k : nat) (l : list A) :
  (List.length l - 1 <= List.length (dropIndex k l))%nat.
Proof. unfold dropIndex. rewrite length_map. apply dropIndex_length_from. Qed.

Lemma hoverEdge_ks (r : State) (imgPos : Point) : keepsShape r (CanvasArea.hoverEdge r imgPos).
Proof. unfold CanvasArea.hoverEdge. shape_cases. Qed.

Lemma hoverTooltip_ks (r : State) (pos imgPos : Point) :
  keepsShape r (CanvasArea.hoverTooltip r pos imgPos).
Proof. unfold CanvasArea.hoverTooltip. shape_cases. Qed.

Lemma handleShapeComplete_ks (r : State) (i : string) (p : Point) :
  keepsShape r (App.handleShapeComplete i p).
Proof. unfold App.handleShapeComplete. shape_cases. Qed.

Lemma handleZoom_ks (r : State) (d : App.Direction) : keepsShape r (App.handleZoom d).
Proof. unfold App.handleZoom. shape_cases. Qed.

Lemma handleResetView_ks (r : State) (env : Env) : keepsShape r (App.handleResetView env).
Proof.
  intros s H. unfold App.handleResetView.
  destruct (Reqb _ 0); [exact H|]. apply ks_setTransform, H.
Qed.

#[export] Hint Resolve hoverEdge_ks hoverTooltip_ks handleShapeComplete_ks
  handleZoom_ks handleResetView_ks : shape.

Lemma replaced_shaped (anns : list Annotation) (sid : string) (newAnn : Annotation) :
  wellFormed newAnn -> Forall wellFormed anns ->
  Forall wellFormed (map (fun a => if id a =? sid then newAnn else a) anns).
Proof.
  intros Hn. apply Forall_map_same. intros a _ Ha. destruct (id a =? sid); assumption.
Qed.

Lemma found_shaped (anns : list Annotation) (sid : string) (ann : Annotation) :
  Forall wellFormed anns -> findAnnotation anns sid = Some ann -> wellFormed ann.
Proof.
  intros H Hf. apply findAnnotation_id in Hf. rewrite Forall_forall in H. apply H, Hf.
Qed.

Lemma dragVertex_ks (r : State) (imgPos : Point) (av : ActiveVertex) (sid : string) :
  wellShaped r -> keepsShape r (CanvasArea.dragVertex r imgPos av sid).
Proof.
  intros [Hr _]. unfold CanvasArea.dragVertex.
  destruct (findAnnotation _ sid) as [ann|] eqn:Ef; [|apply ks_skip].
  destruct (locked ann); [apply ks_skip|].
  apply ks_setAnnotations. intros _ _. apply replaced_shaped; [|exact Hr].
  pose proof (found_shaped _ _ _ Hr Ef) as Hann. unfold wellFormed in *.
  destruct (type ann) eqn:Et; cbn [withPoints type points]; rewrite Et.
  - apply resizeRectangle_length.
  - pose proof (assignAt_length (vertexIndex av) imgPos (points ann)). lia.
Qed.

Lemma handleMouseMove_ks (r : State) (env : Env) (e : MouseEvent) :
  wellShaped r -> keepsShape r (CanvasArea.handleMouseMove env e).
Proof.
  intros Hr s Hs. unfold CanvasArea.handleMouseMove. revert s Hs. enter_ks r.
  pose proof (fun av sid => dragVertex_ks r (CanvasArea.getRelativeImagePos r env e) av sid Hr)
    as Hdv.
  shape_cases.
  apply ks_setAnnotations. intros _ _. apply moved_shaped, Hr.
Qed.

Lemma handleMouseUp_ks (r : State) (env : Env) :
  wellShaped r -> keepsShape r (CanvasArea.handleMouseUp env).
Proof.
  intros Hr s Hs. unfold CanvasArea.handleMouseUp. revert s Hs. enter_ks r.
  shape_cases.
  apply ks_setAnnotations. intros _ _. apply Forall_app. split; [apply Hr|].
  constructor; [reflexivity|constructor].
Qed.

Lemma vertexClick_ks (r : State) (e : MouseEvent) (imgPos : Point) (h : Handler) :
  uniqueIn (annotations (app r)) -> wellShaped r ->
  CanvasArea.vertexClick r e imgPos = Some h -> keepsShape r h.
Proof.
  intros Hu Hr. pose proof Hr as [Hw _]. unfold CanvasArea.vertexClick.
  destruct (selectedIds (app r)) as [|sid [|]]; try discriminate.
  destruct (findAnnotation _ sid) as [ann|] eqn:Ef; [|discriminate].
  pose proof (found_shaped _ _ _ Hw Ef) as Hann.
  destruct (findAnnotation_id _ _ _ Ef) as [Hid Hin].
  destruct (locked ann); [discriminate|].
  destruct (type ann) eqn:Et.
  - destruct (findIndex _ _); [|discriminate]. intros [= <-]. shape_cases.
  - destruct (findIndex _ (points ann)) as [k|].
    + destruct (MouseEvent.altKey e).
      * destruct (3 <? List.length (points ann))%nat eqn:E3; intros [= <-]; shape_cases.
        apply ks_setAnnotations. intros _ _.
        apply Forall_map_same; [|exact Hw]. intros a Ha Hwa.
        destruct (id a =? sid) eqn:Ea; [|exact Hwa].
        apply String.eqb_eq in Ea.
        assert (a = ann) by (apply (unique_id_eq _ a ann Hu Ha Hin); congruence).
        subst a. unfold wellFormed. cbn [withPoints type points]. rewrite Et.
        apply Nat.ltb_lt in E3.
        pose proof (dropIndex_length k (points ann)). lia.
      * intros [= <-]. shape_cases.
    + destruct (hoveredEdge (canvas r)) as [he|]; [|discriminate].
      destruct (edgeId he =? sid); [|discriminate]. intros [= <-]. shape_cases.
      apply ks_setAnnotations. intros _ _. apply replaced_shaped; [|exact Hw].
      unfold wellFormed in *. cbn [withPoints type points]. rewrite Et in *.
      rewrite spliceIn_length. lia.
Qed.

Lemma bodyClick_ks (r : State) (e : MouseEvent) (imgPos : Point) :
  wellShaped r -> keepsShape r (CanvasArea.bodyClick r e imgPos).
Proof. intros Hr. unfold CanvasArea.bodyClick. shape_cases. Qed.

Lemma handleMouseDown_ks (r : State) (env : Env) (e : MouseEvent) :
  uniqueIn (annotations (app r)) -> wellShaped r ->
  keepsShape r (CanvasArea.handleMouseDown env e).
Proof.
  intros Hu Hr s Hs. unfold CanvasArea.handleMouseDown.
  destruct (CanvasArea.isPan r e).
  { revert s Hs. enter_ks r. shape_cases. }
  destruct (negb _); [exact Hs|].
  destruct (currentTool (app r)).
  - destruct (CanvasArea.vertexClick _ _ _) as [h|] eqn:Ev.
    + apply (vertexClick_ks r e _ h Hu Hr Ev), Hs.
    + apply (bodyClick_ks r e _ Hr), Hs.
  - exact Hs.
  - revert s Hs. enter_ks r. shape_cases.
  - revert s Hs. enter_ks r. shape_cases.
    apply ks_setAnnotations. intros _ _. apply Forall_app. split; [apply Hr|].
    constructor; [|constructor]. unfold wellFormed. cbn [type points].
    match goal with H : _ && _ = true |- _ => apply andb_prop in H; destruct H as [H _] end.
    match goal with H : (3 <=? _)%nat = true |- _ => apply Nat.leb_le in H; exact H end.
Qed.

Lemma Forall_history_undo {A} (P : A -> Prop) (p np f : list A) (x y : A) :
  pop p = (Some x, np) -> P y -> Forall P (p ++ f) ->
  P x /\ Forall P (np ++ y :: f).
Proof. intros Hp. apply Forall_undo, pop_Some, Hp. Qed.

Lemma handleUndo_ks (r : State) : wellShaped r -> keepsShape r App.handleUndo.
Proof.
  intros Hr s Hs. pose proof Hr as [Hw Hh]. unfold App.handleUndo.
  destruct (List.length (past (history (app r))) =? 0)%nat eqn:El; [exact Hs|].
  destruct (pop (past (history (app r)))) as [previous newPast] eqn:Ep.
  destruct previous as [previous|].
  - destruct (Forall_history_undo _ _ _ (future (history (app r))) _
                (HistoryItem.mk (annotations (app r)) (App.actionOr (Some previous)))
                Ep Hw Hh) as [Hprev Hnew].
    revert s Hs. enter_ks r. shape_cases.
    + apply ks_setHistory. intros _ _. exact Hnew.
    + apply ks_setAnnotations. intros _ _. exact Hprev.
  - apply pop_None in Ep. rewrite Ep in El. discriminate.
Qed.

Lemma handleRedo_ks (r : State) : wellShaped r -> keepsShape r App.handleRedo.
Proof.
  intros Hr s Hs. pose proof Hr as [Hw Hh]. unfold App.handleRedo.
  destruct (List.length (future (history (app r))) =? 0)%nat eqn:El; [exact Hs|].
  destruct (shift (future (history (app r)))) as [next newFuture] eqn:Ep.
  destruct next as [next|].
  - destruct (Forall_redo _ (past (history (app r))) _ _ _
                (HistoryItem.mk (annotations (app r)) (App.actionOr (Some next)))
                (shift_Some _ _ _ Ep) Hw Hh) as [Hnext Hnew].
    revert s Hs. enter_ks r. shape_cases.
    + apply ks_setHistory. intros _ _. exact Hnew.
    + apply ks_setAnnotations. intros _ _. exact Hnext.
  - unfold shift in Ep. destruct (future (history (app r))); discriminate.
Qed.

Lemma handleDelete_ks (r : State) (ids : list string) :
  wellShaped r -> keepsShape r (App.handleDelete ids).
Proof.
  intros Hr. unfold App.handleDelete. shape_cases.
  apply ks_setAnnotations. intros l Hl. apply Forall_filter_same, Hl.
Qed.

Lemma app_handleKeyDown_ks (r : State) (env : Env) (e : KeyboardEvent) :
  wellShaped r -> keepsShape r (App.handleKeyDown env e).
Proof.
  intros Hr s Hs. unfold App.handleKeyDown.
  destruct (KeyboardEvent.targetTagName e =? "INPUT")%string; [exact Hs|].
  revert s Hs. enter_ks r.
  pose proof (handleUndo_ks r Hr). pose proof (handleRedo_ks r Hr).
  pose proof (handleDelete_ks r (selectedIds (app r)) Hr).
  shape_cases.
Qed.

Lemma toggles_ks (r : State) (i : string) :
  keepsShape r (App.handleToggleVisible i) /\ keepsShape r (App.handleToggleLock i).
Proof.
  assert (Hv : forall l, Forall wellFormed l ->
            Forall wellFormed
              (map (fun a => if id a =? i
                             then mkAnnotation (id a) (label a) (type a) (points a)
                                               (color a) (negb (visible a)) (locked a)
                             else a) l)).
  { intros l. apply Forall_map_same. intros a _ Ha. destruct (id a =? i); exact Ha. }
  assert (Hl : forall l, Forall wellFormed l ->
            Forall wellFormed
              (map (fun a => if id a =? i
                             then mkAnnotation (id a) (label a) (type a) (points a)
                                               (color a) (visible a) (negb (locked a))
                             else a) l)).
  { intros l. apply Forall_map_same. intros a _ Ha. destruct (id a =? i); exact Ha. }
  split.
  - unfold App.handleToggleVisible. apply ks_setAnnotations, Hv.
  - intros s Hs. unfold App.handleToggleLock. revert s Hs. enter_ks r.
    pose proof (ks_setAnnotations r _ Hl). shape_cases.
Qed.

Lemma handleRowClick_ks (r : State) (ann : Annotation) (e : MouseEvent) :
  keepsShape r (Sidebar.handleRowClick ann e).
Proof.
  intros s Hs. unfold Sidebar.handleRowClick.
  destruct (locked ann); [exact Hs|].
  destruct (_ || _); [destruct (includes _ _)|]; apply ks_setSelectedIds, Hs.
Qed.

Lemma onWheel_ks (r : State) (env : Env) (e : WheelEvent) :
  keepsShape r (CanvasArea.onWheel env e).
Proof.
  intros s Hs. unfold CanvasArea.onWheel.
  destruct (containerRect env); [apply ks_setTransform, Hs|exact Hs].
Qed.

Lemma handleKeyUp_ks (r : State) (e : KeyboardEvent) : keepsShape r (CanvasArea.handleKeyUp e).
Proof. unfold CanvasArea.handleKeyUp. shape_cases. Qed.

Lemma moved_Forall2_shaped (anns anns' : list Annotation) :
  Forall2 (fun a a' => type a' = type a
                       /\ List.length (points a') = List.length (points a)) anns anns' ->
  Forall wellFormed anns -> Forall wellFormed anns'.
Proof.
  intros HF H. induction HF as [|a a' l l' [Et El] _ IH]; [constructor|].
  inversion H; subst. constructor; [|apply IH; assumption].
  unfold wellFormed in *. rewrite Et, El. assumption.
Qed.

Lemma handleAlign_shaped (ty : App.AlignType) (r s : State) :
  App.handleAlign ty r r = Some s -> wellShaped r -> wellShaped s.
Proof.
  unfold App.handleAlign.
  destruct (_ <? 2)%nat; [intros [= <-]; exact (fun H => H)|].
  destruct (mapM getAnnotationBounds _) as [allBounds|]; [|discriminate].
  repeat match goal with
         | |- context [match Math_min ?l with Some _ => _ | None => _ end] =>
             destruct (Math_min l); [|discriminate]
         | |- context [match Math_max ?l with Some _ => _ | None => _ end] =>
             destruct (Math_max l); [|discriminate]
         end.
  destruct (mapM _ (annotations (app r))) as [newAnns|] eqn:Hm; [|discriminate].
  intros [= <-] Hr. apply mapM_Some_Forall2 in Hm.
  assert (HF : Forall2 (fun a a' => type a' = type a
                          /\ List.length (points a') = List.length (points a))
                 (annotations (app r)) newAnns).
  { eapply Forall2_impl; [|exact Hm]. cbn beta. intros a a'.
    destruct (negb _); [intros [= <-]; auto|].
    destruct (getAnnotationBounds a); [|discriminate].
    destruct ty; intros [= <-]; split; try reflexivity; apply length_map. }
  apply (ks_seq r _ _ (ks_snapshotHistory r _ Hr)); [|exact Hr].
  apply ks_setAnnotations. intros _ _. apply (moved_Forall2_shaped _ _ HF), Hr.
Qed.

Lemma placed_shaped ty start step sorted index a :
  wellFormed a -> wellFormed (placed ty start step sorted index a).
Proof.
  revert index. induction sorted as [|[x b] L IH]; intros index Ha; cbn; [exact Ha|].
  destruct (id a =? id x); [|apply IH, Ha].
  destruct ty; apply wellFormed_withPoints; try apply length_map; exact Ha.
Qed.

Lemma handleDistribute_shaped (ty : App.DistributeType) (r s : State) :
  uniqueIn (annotations (app r)) ->
  App.handleDistribute ty r r = Some s -> wellShaped r -> wellShaped s.
Proof.
  intros Hu. unfold App.handleDistribute.
  destruct (_ <? 3)%nat; [intros [= <-]; exact (fun H => H)|].
  destruct (mapM _ _) as [bounded|] eqn:Hm; [|discriminate].
  destruct (hd_error _) as [first|]; [|discriminate].
  destruct (last _ _) as [lst|]; [|discriminate].
  intros [= <-] Hr.
  set (sorted := App.sortBy (fun ab => App.centerAlong ty (snd ab)) bounded).
  assert (Hnd : NoDup (map (fun ab => id (fst ab)) sorted)).
  { rewrite <- (map_map fst id).
    eapply Permutation_NoDup;
      [symmetry; apply Permutation_map, Permutation_map, sortBy_perm|].
    rewrite (mapM_pairs_fst _ _ Hm). apply uniqueIn_filter, Hu. }
  rewrite (forEach_placed ty _ _ sorted 0 _ Hu Hnd).
  apply (ks_seq r _ _ (ks_snapshotHistory r _ Hr)); [|exact Hr].
  apply ks_setAnnotations. intros _ _.
  apply Forall_map_same; [|apply Hr]. intros a _. apply placed_shaped.
Qed.

Lemma handle_shaped (ev : UserEvent) (r s : State) :
  uniqueIn (annotations (app r)) ->
  handle ev r = Some s -> wellShaped r -> wellShaped s.
Proof.
  intros Hu. destruct ev; cbn [handle]; intros Hs H; try (injection Hs as <-).
  - apply canvas_handleKeyDown_ks; exact H.
  - apply app_handleKeyDown_ks; exact H.
  - apply handleKeyUp_ks; exact H.
  - apply handleMouseDown_ks; assumption.
  - apply handleMouseMove_ks; exact H.
  - apply handleMouseUp_ks; exact H.
  - apply onWheel_ks; exact H.
  - apply (proj1 (toggles_ks r i)); exact H.
  - apply (proj2 (toggles_ks r i)); exact H.
  - apply handleRowClick_ks; exact H.
  - unfold Sidebar.deleteButton in Hs.
    destruct (negb (locked ann)); injection Hs as <-; [|exact H].
    apply handleDelete_ks; exact H.
  - eapply handleAlign_shaped; eassumption.
  - eapply handleDistribute_shaped; eassumption.
Qed.

(** X30: a second invariant of every listener and button of the model.
    If every rectangle has exactly two points and every polygon at least
    three, in the collection and in every snapshot of the history, and ids
    are unique with no locked annotation selected, then the same holds after
    any sequence of events: resizing keeps two points, a vertex is deleted
    only from a polygon of more than three, a polygon is closed only with
    three points or more, and undo and redo bring back well-formed snapshots. *)
Theorem shapes_stay_well_formed (r t : State) (evs : list UserEvent) :
  wellKept r -> wellShaped r -> reaches r evs t -> wellShaped t.
Proof.
  intros Hk Hs Hr. revert Hk Hs.
  induction Hr as [r|r s t ev evs Ha Hh _ IH]; intros Hk Hs; [exact Hs|].
  apply IH.
  - eapply handle_kept; eassumption.
  - eapply handle_shaped; [apply Hk|eassumption|exact Hs].
Qed.

Lemma shapes_stay_well_formed_witness :
  wellKept unselectedBoxes
  /\ wellShaped unselectedBoxes
  /\ reaches unselectedBoxes
       [ev_mouse_down atOrigin (leftClickAt 75 60); ev_app_key_down atOrigin deleteKey]
       (dispatch (App.handleKeyDown atOrigin deleteKey)
          (dispatch (CanvasArea.handleMouseDown atOrigin (leftClickAt 75 60))
             unselectedBoxes))
  /\ wellShaped (dispatch (App.handleKeyDown atOrigin deleteKey)
                   (dispatch (CanvasArea.handleMouseDown atOrigin (leftClickAt 75 60))
                      unselectedBoxes)).
Proof.
  assert (Hk : wellKept unselectedBoxes).
  { split; [|split].
    - repeat constructor; cbn; intuition discriminate.
    - constructor.
    - intros a Ha Hl. cbn in Ha. destruct Ha as [<-|[<-|[]]]; reflexivity. }
  assert (Hs : wellShaped unselectedBoxes).
  { split; repeat constructor. }
  assert (H : reaches unselectedBoxes
                [ev_mouse_down atOrigin (leftClickAt 75 60);
                 ev_app_key_down atOrigin deleteKey]
                (dispatch (App.handleKeyDown atOrigin deleteKey)
                   (dispatch (CanvasArea.handleMouseDown atOrigin (leftClickAt 75 60))
                      unselectedBoxes))).
  { eapply reaches_cons; [|reflexivity|].
    - unfold admissible, freshId. cbn. intros [E|[E|[]]]; discriminate E.
    - eapply reaches_cons; [exact I|reflexivity|]. apply reaches_nil. }
  split; [exact Hk|]. split; [exact Hs|]. split; [exact H|].
  exact (shapes_stay_well_formed unselectedBoxes _ _ Hk Hs H).
Defined.

(** ** Locked annotations on the states the application reaches *)











